(* ===== verification/_CoqProject ===== *)
-Q . S2P
Prelude.v
GoText.v
GoEncoding.v
Crypto.v
Wrapping.v
Envelope.v
Aead.v
Static.v
Semaphore.v
P11.v
Modules.v
Pool.v
Sessions.v
Kms.v
GoAsn1.v
KeyBuilder.v
Pkcs11Keys.v
Pkcs11Kms.v
Api.v
TransitKms.v
TransitWrapper.v
Plugin.v
PluginWrapper.v
PluginKms.v
Pkcs11Client.v
Pkcs11Wrapper.v
Kmip.v
Cloud.v
AwsKms.v
GcpCkms.v
AliCloudKms.v
HuaweiCloudKms.v
TencentCloudKms.v
TCloudPublicKms.v
OciKms.v
OvhCloudKms.v
AzureKeyVault.v
Clouds.v
GoJson.v
SecurosysHelpers.v
SecurosysClient.v
SecurosysRequests.v
SecurosysKms.v
SecurosysWrapper.v
SecurosysRoundtrip.v
