(* ===== verification/Prelude.v ===== *)
(** * go-kms-wrapping: a verification development

    The program is a Go library that encrypts and decrypts small secrets with keys
    held elsewhere: in memory, on a PKCS#11 token, behind a KMIP server, in a cloud
    key service, in an OpenBao Transit engine, in a Securosys HSM behind its REST
    service, or in another process reached over a plugin protocol.  It has two families of back ends.  A _wrapper_ implements the
    interface of src/wrapper.go (SetConfig, Type, KeyId, Encrypt, Decrypt) and
    produces BlobInfo messages; a _KMS_ implements the interface of src/kms/kms.go
    (Open, Close, GetKey) and hands out keys that encrypt, decrypt, sign, verify and
    export.  Both families can be served through src/plugin.

    ** How the code is read

    - A Go value is a Rocq value: structs are records, enumerations and tagged unions
      are inductive types, maps are [gmap] ([RangeOrder] gives the order a [range]
      loop takes, which the theorems leave open), a [[]byte] is an optional list so
      that nil and empty differ, integers are [Z] with [s32] and [u64] written where
      they wrap, pointers that are aliased are indices into a store.
    - A call returns an [outcome]: a value, an error or a panic.  A method that
      changes state is a [prog]: a function from the state to an outcome and the new
      state, so a failed call keeps what it changed on the way.  [on_err] is the error
      branch, [attempt] the call whose error is inspected, [zoom] the call on a field.
      [wp] is the weakest precondition over all three outcomes.
    - Concurrent code (Semaphore.v, Pool.v) is a labelled transition system over any
      number of goroutines; a critical section is one step, a blocking operation is a
      state of the thread.  All other files describe one goroutine at a time.
    - Recursion is structural: loops run over lists or over the digits of a number.
      Three loops are not bounded by their data, all in the Securosys files.  The
      recursion of [doRequest] over the API keys takes one round more than there are
      keys left, and [doRequest_terminates] shows that more make no difference;
      [doRequest_exhausted] is what happens when the service refuses them all.  The
      loop that waits for approvals takes a number of rounds and answers [None] when
      they are used up; [client_Decrypt_terminates] gives the number that is enough.
      The loop that polls a request in a cipher or a signer ([poll_request]) has no
      bound in the code, which waits for as long as the service says PENDING; its
      rounds are an argument too, and results are stated for every number of them.

    ** What is a parameter

    Code outside src/ is a class of operations, with its documented behaviour as a
    second class of laws: AES-GCM ([AesGcm]) and random bytes ([Entropy]), the PKCS#11
    library ([Pkcs11]), the KMIP client ([Kmip]), the OpenBao API client ([Api]), gRPC
    ([Grpc]), uuid ([Uuids]), protobuf structs and PKIX ([KmsCodec]), ECDSA and RSA
    ([PublicCrypto], [Hashes]), and one class per cloud SDK ([Aws], [Gcp], [Azure],
    [Ali], [Huawei], [Oci], [Ovh], [Tencent], [TCloud]).  For Securosys they are the
    HTTP transport, the clock and the RSA keys that sign requests ([Tsb]), X.509 and PEM
    ([Pki]), and as arguments the decoders of certificates, the reading of a file and
    the signal that interrupts a wait.  parseutil.ParsePath,
    parseutil.ParseBool, ReadBaoVariable, os.Getenv, HKDF and the mapstructure
    decoders are function arguments.  The SDKs of Google and Azure read the environment
    by themselves: the operations that do take it as an argument.  A law that promises a
    success says where: C_Decrypt in an open session with a key that may decrypt, a KMIP
    key on a connection to its endpoint, a Transit ciphertext while its version is usable;
    and what the documentation allows to fail may fail (C_CloseSession may leave its
    session open, an error of a plugin's method that is a context's error arrives with
    the code gRPC gives it).  What a service promises to a client is a record over the
    requests as they go over the wire ([transit_engine], [transit_mount],
    [rest_service]).  Each property that uses laws has a witness with a concrete
    instance.  Definitions of the Go standard library the code uses
    (strings, strconv, hex, base64, DER, JSON) are executable, in GoText.v,
    GoEncoding.v, GoAsn1.v and GoJson.v.

    ** The files

    Shared ground:
    - Prelude.v: bytes, integers, outcomes, programs and their rules, map iteration,
      counting lemmas; GoText.v, GoEncoding.v, GoAsn1.v: the standard library;
      Crypto.v: AES-GCM around the parameter.
    - Wrapping.v: the root package, src/const.go, errors.go, types.proto, options.go
      and the interface [Wrapper] of wrapper.go with its promise [WrapperSpec]: what
      Encrypt returned, Decrypt opens, now or after the blob was stored, and neither
      call loses the configuration.
    - Envelope.v: src/envelope.go and testing.go.

    Wrappers without a service:
    - Aead.v: src/aead; Static.v: src/wrappers/static.

    PKCS#11, the KMS of src/kms/pkcs11, from the bottom up:
    - P11.v: the library interface; Modules.v: internal/module; Semaphore.v, Pool.v
      and Sessions.v: internal/session (semaphore.go, pool.go, handle.go);
      KeyBuilder.v: internal/keybuilder; Kms.v: src/kms/kms.go; Pkcs11Keys.v: aes.go,
      ec.go, rsa.go and the key resolution of pkcs11.go; Pkcs11Kms.v: Open, Close,
      GetKey and wrapper.go, against the interface [Stack] of the layers below.

    The original PKCS#11 wrapper, src/wrappers/pkcs11, and KMIP:
    - Pkcs11Client.v: pkcs11_client.go; Pkcs11Wrapper.v: options.go and pkcs11.go.
    - Kmip.v: src/wrappers/kmip.

    OpenBao Transit:
    - Api.v: the API client; TransitKms.v: src/kms/transit; TransitWrapper.v:
      src/wrappers/transit.

    Plugins, src/plugin:
    - Plugin.v: plugin.go and the metadata service; PluginWrapper.v:
      wrapper_server.go and wrapper_client.go; PluginKms.v: kms_server.go and
      kms_client.go.  Server and client are composed through [Grpc], so the client is
      again a [Wrapper] or a [KMS] and is compared with the implementation behind it.

    Cloud key services, src/wrappers/<name>:
    - Cloud.v: their common state, settings and envelope; AwsKms.v, GcpCkms.v,
      AzureKeyVault.v, AliCloudKms.v, HuaweiCloudKms.v, OciKms.v, OvhCloudKms.v,
      TencentCloudKms.v, TCloudPublicKms.v: one each; Clouds.v: what holds of all.

    Securosys, src/kms/securosyshsm and src/wrappers/securosyshsm:
    - GoJson.v: encoding/json, a lexer and a parser as state machines, the printer and
      Compact, with the lemmas that relate them.
    - SecurosysHelpers.v: helpers/structs.go and helpers/functions.go;
      SecurosysClient.v: client/*.go, the texts sent, the answers read, [doRequest];
      SecurosysRequests.v: what the texts mean as JSON; SecurosysKms.v: key.go,
      keystore.go, cipher.go, signer.go, verifier.go; SecurosysWrapper.v: the wrapper;
      SecurosysRoundtrip.v: all of it over a service that keeps its promises.

    ** What the theorems show

    - Concurrency (Semaphore.v, Pool.v): tokens are accounted for, Close excludes
      holders, no wake-up is lost, Close gets through its loop; a run in which Close
      and a cancelled waiter deadlock; a reference keeps its pool open and belongs to
      a caller who knew the PIN.
    - Resources: modules are reference counted, with the exact calls of the library from
      C_Initialize to Destroy (Modules.v), Scope, GetSession and the KMIP connections are
      balanced on every way out (Sessions.v, Pkcs11Client.v, Kmip.v), a KMS owns one module and one pool, a wrapper borrows them
      (Pkcs11Kms.v), Transit has one watcher (TransitWrapper.v).
    - Round trips: each wrapper opens its own blobs under the laws of its service
      (Envelope, Static, Kmip, Pkcs11Wrapper, Pkcs11Kms, TransitKms,
      SecurosysRoundtrip), key rotation included; policies are read back as they were
      printed (SecurosysHelpers.v); signing options and messages survive the wire (PluginKms.v); DER
      signatures parse (Pkcs11Keys.v).
    - Refinement: the Transit wrapper, the nine cloud wrappers and any wrapper behind
      a plugin keep [WrapperSpec]; a key behind a plugin is the key (PluginKms.v).
    - Configuration: what a successful SetConfig establishes (Static.v, Kmip.v,
      Pkcs11Client.v, AwsKms.v), independence of map iteration order
      (Pkcs11Wrapper.v), isolation from the environment and where it leaks
      (Clouds.v, GcpCkms.v).
    - Securosys: requests and approvals end (SecurosysClient.v, SecurosysWrapper.v);
      API keys are used in order, each once, until all are refused; a request body is the JSON object it is
      meant to be, and what is sent is what is signed (SecurosysRequests.v); an
      accepted signature is one the HSM accepted, and pieces of data are the whole
      (SecurosysKms.v); every configuration loses its API keys once the connection is
      tested (SecurosysWrapper.v).
    - Errors and bounds: which calls can panic, attribute values of every length
      (Pkcs11Client.v), a migration that loses blobs (Kmip.v), a client kept after a
      failed test (GcpCkms.v), legacy keys (AzureKeyVault.v).

    ** Simplifications

    Logging, HTTP transports, TLS material that is only passed on, and error text
    built by formatting are left out (an error keeps its sentinel and what it wraps).
    Handlers of the plugin run one at a time: each takes the server's mutex for its
    map operations, and the calls of an implementation are its own business.  Pool.v
    treats the calls into the library as steps whose outcome the label gives.  In
    GoJson.v a number keeps its decimal digits where Go rounds to a float64, there is
    no limit on nesting, and the names of members are folded for ASCII letters only.
    The Securosys packages are written against another release of src/kms than the
    one beside them (ciphers, signers and key attributes are not declared there), so
    the types of that release are those the code uses and no more.

    ** Not modelled

    Generated protobuf code (its messages are records here), src/wrappers/aead (type
    aliases of src/aead), the lists of names in helpers/consts.go, which nothing in
    the repository uses, tests, test servers and the command-line examples. *)
From stdpp Require Export base tactics numbers option list gmap strings fin_maps.
From Stdlib Require Export ZArith Lia Ascii.

(** ** Bytes, strings and slices

    A Go [string] is a byte string, here [string]; a [byte] is [ascii].  A Go
    [[]byte] distinguishes the nil slice from an empty one, so it is an
    [option (list byte)] whose [None] is nil. *)

Abbreviation byte := ascii.

Abbreviation bytes := (list ascii).

Abbreviation slice := (option (list ascii)).

Definition content (s : slice) : bytes := default [] s.

Definition slen (s : slice) : nat := length (content s).

(** [append]-style results of length zero on a nil destination stay nil. *)
Definition to_slice (l : bytes) : slice := match l with [] => None | _ => Some l end.

(** [append(a, b...)]. *)
Definition append_slice (a b : slice) : slice :=
  match content b with [] => a | l => Some (content a ++ l) end.

Lemma append_slice_content a b : content (append_slice a b) = content a ++ content b.
Proof. unfold append_slice. destruct (content b) eqn:E; [by rewrite app_nil_r|done]. Qed.

Definition bytes_of_string (s : string) : bytes := String.list_ascii_of_string s.

Definition string_of_bytes (l : bytes) : string := String.string_of_list_ascii l.

Definition byte_to_Z (b : byte) : Z := Z.of_N (N_of_ascii b).

Definition Z_to_byte (z : Z) : byte := ascii_of_N (Z.to_N (z mod 256)).

Lemma content_to_slice l : content (to_slice l) = l.
Proof. by destruct l. Qed.

Lemma slen_Some l : slen (Some l) = length l.
Proof. done. Qed.

Lemma string_of_bytes_of_string s : string_of_bytes (bytes_of_string s) = s.
Proof. apply String.string_of_list_ascii_of_string. Qed.

Lemma bytes_of_string_of_bytes l : bytes_of_string (string_of_bytes l) = l.
Proof. apply String.list_ascii_of_string_of_list_ascii. Qed.

Lemma length_bytes_of_string s : length (bytes_of_string s) = String.length s.
Proof. induction s; simpl; [done | by f_equal]. Qed.

Lemma byte_to_Z_bound b : (0 <= byte_to_Z b < 256)%Z.
Proof.
  unfold byte_to_Z. pose proof (N_ascii_bounded b) as H.
  change 256%Z with (Z.of_N 256). lia.
Qed.

Lemma byte_to_Z_of_Z z : (0 <= z < 256)%Z -> byte_to_Z (Z_to_byte z) = z.
Proof.
  intros H. unfold byte_to_Z, Z_to_byte. rewrite Z.mod_small by done.
  rewrite N_ascii_embedding by lia. lia.
Qed.

Lemma Z_to_byte_to_Z b : Z_to_byte (byte_to_Z b) = b.
Proof.
  unfold Z_to_byte. rewrite Z.mod_small by apply byte_to_Z_bound.
  unfold byte_to_Z. rewrite N2Z.id. apply ascii_N_embedding.
Qed.

(** ** Errors

    A Go error is a message together with the errors it wraps.  A sentinel is a
    package-level error variable, compared by identity through [errors.Is]; a
    status is an error of the gRPC library, with its numeric code. *)

Inductive error : Type :=
| ErrLeaf (msg : string)
| ErrSentinel (msg : string)
| ErrNode (msg : string) (inner : list error)
| ErrStatus (code : Z) (msg : string).

(** The [Error()] method (for a status: its description). *)
Definition err_msg (e : error) : string :=
  match e with
  | ErrLeaf m | ErrSentinel m | ErrNode m _ | ErrStatus _ m => m
  end.

(** [fmt.Errorf("prefix: %w", e)]. *)
Definition wrapf (prefix : string) (e : error) : error :=
  ErrNode (String.append prefix (String.append ": " (err_msg e))) [e].

(** [errors.Is(e, target)] for a sentinel target. *)
Fixpoint errors_Is (target : string) (e : error) : bool :=
  match e with
  | ErrSentinel m => String.eqb m target
  | ErrNode _ es => existsb (errors_Is target) es
  | _ => false
  end.

(** [errors.Join]: nil errors are dropped, and the result is nil without any. *)
Definition errors_Join (es : list (option error)) : option error :=
  match omap id es with
  | [] => None
  | l => Some (ErrNode (String.concat "
" (map err_msg l)) l)
  end.

Lemma errors_Join_None es : errors_Join es = None <-> Forall (fun o => o = None) es.
Proof.
  unfold errors_Join. split.
  - induction es as [|[e|] es IH]; simpl; intros H; [done|done|].
    constructor; [done | by apply IH].
  - induction 1 as [|o es -> _ IH]; simpl; [done | exact IH].
Qed.

(** ** Outcomes and stateful programs

    [Ret] is a normal return with a nil error, [Fail] a return with a non-nil
    error (every function modelled here returns zero values beside it unless
    said otherwise), [Panic] a run-time panic. *)

Inductive outcome (A : Type) : Type :=
| Ret (a : A)
| Fail (e : error)
| Panic.
Arguments Ret {A} a.
Arguments Fail {A} e.
Arguments Panic {A}.

#[export] Instance outcome_ret : MRet outcome := @Ret.

#[export] Instance outcome_bind : MBind outcome := fun A B f m =>
  match m with Ret a => f a | Fail e => Fail e | Panic => Panic end.

(** Rewrite the error of a failed call ([if err != nil { return wrap(err) }]). *)
Definition map_err {A} (f : error -> error) (m : outcome A) : outcome A :=
  match m with Fail e => Fail (f e) | _ => m end.

Definition is_ret {A} (m : outcome A) : bool := match m with Ret _ => true | _ => false end.

Definition of_err (e : option error) : outcome unit :=
  match e with Some e => Fail e | None => Ret tt end.

Definition err_of {A} (m : outcome A) : option error :=
  match m with Fail e => Some e | _ => None end.

(** A program over a state keeps the state on every way out. *)
Definition prog (S A : Type) : Type := S -> outcome A * S.

#[export] Instance prog_ret S : MRet (prog S) := fun A a s => (Ret a, s).

#[export] Instance prog_bind S : MBind (prog S) := fun A B f m s =>
  match m s with
  | (Ret a, s') => f a s'
  | (Fail e, s') => (Fail e, s')
  | (Panic, s') => (Panic, s')
  end.

Definition lift {S A} (m : outcome A) : prog S A := fun s => (m, s).

Definition get {S} : prog S S := fun s => (Ret s, s).

Definition modify {S} (f : S -> S) : prog S unit := fun s => (Ret tt, f s).

(** Run a call and hand its outcome to the continuation ([x, err := f()]
    followed by code that inspects [err]). *)
Definition attempt {S A} (m : prog S A) : prog S (outcome A) := fun s =>
  let (o, s') := m s in (Ret o, s').

(** [if err != nil { return f(err) }] after a call. *)
Definition on_err {S A} (f : error -> error) (m : prog S A) : prog S A := fun s =>
  let (o, s') := m s in (map_err f o, s').

(** Run a program inside a larger state. *)
Definition zoom {S T A} (proj : S -> T) (upd : T -> S -> S) (m : prog T A) : prog S A :=
  fun s => let (o, t) := m (proj s) in (o, upd t s).

Definition no_panic {S A} (m : prog S A) : Prop := forall s, fst (m s) <> Panic.

Lemma obind_Ret {A B} (m : outcome A) (f : A -> outcome B) b :
  m ≫= f = Ret b <-> exists a, m = Ret a /\ f a = Ret b.
Proof. destruct m; simpl; naive_solver. Qed.

Lemma map_err_Ret {A} f (m : outcome A) a : map_err f m = Ret a <-> m = Ret a.
Proof. destruct m; simpl; naive_solver. Qed.

Lemma pbind_Ret {S A B} (m : prog S A) (f : A -> prog S B) s b s' :
  (m ≫= f) s = (Ret b, s') <-> exists a s1, m s = (Ret a, s1) /\ f a s1 = (Ret b, s').
Proof.
  unfold mbind, prog_bind. destruct (m s) as [[a|e|] s1]; naive_solver.
Qed.

Lemma on_err_Ret {S A} f (m : prog S A) s a s' :
  on_err f m s = (Ret a, s') <-> m s = (Ret a, s').
Proof. unfold on_err. destruct (m s) as [[] ?]; simpl; naive_solver. Qed.

Lemma obind_assoc {A B C} (m : outcome A) (f : A -> outcome B) (g : B -> outcome C) :
  (m ≫= f) ≫= g = m ≫= (fun a => f a ≫= g).
Proof. by destruct m. Qed.

Lemma lift_bind {S A B} (m : outcome A) (f : A -> prog S B) s :
  (lift m ≫= f) s = match m with Ret a => f a s | Fail e => (Fail e, s) | Panic => (Panic, s) end.
Proof. by destruct m. Qed.

Lemma modify_bind {S B} g (f : unit -> prog S B) s : (modify g ≫= f) s = f tt (g s).
Proof. done. Qed.

(** Run the first statement of a program whose outcome is known. *)
Lemma pbind_run {S A B} (m : prog S A) (f : A -> prog S B) s a s1 :
  m s = (Ret a, s1) -> (m ≫= f) s = f a s1.
Proof. intros H. unfold mbind, prog_bind. by rewrite H. Qed.

Lemma pbind_run_fail {S A B} (m : prog S A) (f : A -> prog S B) s e s1 :
  m s = (Fail e, s1) -> (m ≫= f) s = (Fail e, s1).
Proof. intros H. unfold mbind, prog_bind. by rewrite H. Qed.

Lemma on_err_run {S A} f (m : prog S A) s o s1 : m s = (o, s1) -> on_err f m s = (map_err f o, s1).
Proof. intros H. unfold on_err. by rewrite H. Qed.

Lemma get_bind {S B} (f : S -> prog S B) s : (get ≫= f) s = f s s.
Proof. done. Qed.

Lemma attempt_bind {S A B} (m : prog S A) (f : outcome A -> prog S B) s :
  (attempt m ≫= f) s = f (fst (m s)) (snd (m s)).
Proof. unfold attempt, mbind, prog_bind. by destruct (m s). Qed.

Lemma zoom_bind {S T A B} (proj : S -> T) upd (m : prog T A) (f : A -> prog S B) s :
  (zoom proj upd m ≫= f) s =
  match m (proj s) with
  | (Ret a, t) => f a (upd t s)
  | (Fail e, t) => (Fail e, upd t s)
  | (Panic, t) => (Panic, upd t s)
  end.
Proof. unfold zoom, mbind, prog_bind. by destruct (m (proj s)) as [[]]. Qed.

Lemma attempt_zoom_bind {S T A B} (proj : S -> T) upd (m : prog T A) (f : outcome A -> prog S B) s :
  (attempt (zoom proj upd m) ≫= f) s = f (fst (m (proj s))) (upd (snd (m (proj s))) s).
Proof. unfold zoom, attempt, mbind, prog_bind. by destruct (m (proj s)). Qed.

(** Execute the next statement of a program in the goal. *)
Ltac run_prog :=
  repeat first [ rewrite lift_bind | rewrite modify_bind | rewrite get_bind
    | rewrite zoom_bind | rewrite attempt_zoom_bind | rewrite attempt_bind ].

(** Break a successful bind in a hypothesis into its steps. *)
Ltac inv_ret :=
  repeat match goal with
  | H : _ ≫= _ = Ret _ |- _ =>
      let a := fresh "a" in let Ha := fresh "Hret" in
      apply obind_Ret in H as (a & Ha & H)
  | H : map_err _ _ = Ret _ |- _ => apply map_err_Ret in H
  | H : Ret _ = Ret _ |- _ => injection H as H
  | H : Fail _ = Ret _ |- _ => discriminate H
  | H : Panic = Ret _ |- _ => discriminate H
  end.

(** Case analysis on the guards of a definition in the goal. *)
Ltac go_cases :=
  repeat (simpl in *; first
    [ progress simplify_eq
    | case_decide
    | case_match ]).

(** ** Weakest preconditions

    [wp m Q s]: the run of [m] from [s] ends in [Q], however it ends. *)

Definition wp {S A} (m : prog S A) (Q : outcome A -> S -> Prop) (s : S) : Prop :=
  let (o, s') := m s in Q o s'.

Lemma wp_run {S A} (m : prog S A) Q s : wp m Q s <-> Q (fst (m s)) (snd (m s)).
Proof. unfold wp. by destruct (m s). Qed.

Lemma wp_mono {S A} (m : prog S A) (Q Q' : outcome A -> S -> Prop) s :
  (forall o s', Q o s' -> Q' o s') -> wp m Q s -> wp m Q' s.
Proof. unfold wp. destruct (m s). auto. Qed.

Lemma wp_bind {S A B} (m : prog S A) (f : A -> prog S B) Q s :
  wp (m ≫= f) Q s <->
  wp m (fun o s' => match o with
    | Ret a => wp (f a) Q s'
    | Fail e => Q (Fail e) s'
    | Panic => Q Panic s'
    end) s.
Proof. unfold wp, mbind, prog_bind. by destruct (m s) as [[]]. Qed.

Lemma wp_lift {S A} (m : outcome A) Q (s : S) : wp (lift m) Q s <-> Q m s.
Proof. done. Qed.

Lemma wp_ret {S A} (a : A) Q (s : S) : wp (mret a) Q s <-> Q (Ret a) s.
Proof. done. Qed.

Lemma wp_get {S} Q (s : S) : wp get Q s <-> Q (Ret s) s.
Proof. done. Qed.

Lemma wp_modify {S} g Q (s : S) : wp (modify g) Q s <-> Q (Ret tt) (g s).
Proof. done. Qed.

Lemma wp_attempt {S A} (m : prog S A) Q (s : S) :
  wp (attempt m) Q s <-> wp m (fun o s' => Q (Ret o) s') s.
Proof. unfold wp, attempt. by destruct (m s). Qed.

Lemma wp_zoom {S T A} (proj : S -> T) upd (m : prog T A) Q s :
  wp (zoom proj upd m) Q s <-> wp m (fun o t => Q o (upd t s)) (proj s).
Proof. unfold wp, zoom. by destruct (m (proj s)). Qed.

Lemma wp_on_err {S A} f (m : prog S A) Q s :
  wp (on_err f m) Q s <-> wp m (fun o s' => Q (map_err f o) s') s.
Proof. unfold wp, on_err. by destruct (m s). Qed.

(** [m] returns or fails, and leaves the observation [f] of the state alone. *)
Definition keeps {S X A} (f : S -> X) (m : prog S A) : Prop :=
  forall s, wp m (fun o s' => o <> Panic /\ f s' = f s) s.

(** Take the next statement of a program apart. *)
Ltac wp_step :=
  repeat first [ rewrite wp_bind | rewrite wp_lift | rewrite wp_get | rewrite wp_modify
    | rewrite wp_attempt ].

(** ** Iteration over a map

    Go iterates over a map in an unspecified order.  A loop is modelled as a
    left fold over the entries in some order; it is well defined when steps for
    distinct keys commute. *)

Section fold_order.
Context {K V A : Type} (step : K * V -> A -> outcome A).

Fixpoint range_loop (l : list (K * V)) (a : A) : outcome A :=
  match l with
  | [] => Ret a
  | kv :: l => step kv a ≫= range_loop l
  end.

(** Steps for keys that are [compat] commute. *)
Definition steps_commute (compat : K -> K -> Prop) : Prop :=
  forall k1 v1 k2 v2 a b, k1 <> k2 -> compat k1 k2 ->
  (step (k1, v1) a ≫= step (k2, v2)) = Ret b ->
  (step (k2, v2) a ≫= step (k1, v1)) = Ret b.

(** No two keys of the list interfere. *)
Definition keys_compat (compat : K -> K -> Prop) (ks : list K) : Prop :=
  forall k1 k2, k1 ∈ ks -> k2 ∈ ks -> k1 <> k2 -> compat k1 k2.

Lemma range_loop_perm_compat compat l1 l2 a b :
  steps_commute compat -> keys_compat compat l1.*1 ->
  Permutation l1 l2 -> NoDup l1.*1 ->
  range_loop l1 a = Ret b -> range_loop l2 a = Ret b.
Proof.
  intros Hcomm Hcp Hp. revert Hcp a b.
  induction Hp as [|[k v] l1 l2 Hp IH|[k1 v1] [k2 v2] l|l1 l2 l3 H1 IH1 H2 IH2];
    intros Hcp a b Hnd; simpl in *.
  - done.
  - apply NoDup_cons in Hnd as [_ Hnd]. intros H. inv_ret.
    apply obind_Ret. eexists. split; [done|]. apply IH; [|done..].
    intros ????. apply Hcp; set_solver.
  - apply NoDup_cons in Hnd as [Hk _].
    rewrite <- !obind_assoc. intros H. apply obind_Ret in H as (c & Hc & H).
    apply obind_Ret. exists c. split; [|done].
    apply Hcomm; [set_solver | apply Hcp; set_solver | done].
  - intros H. apply IH2; [intros k k' ? ?; apply Hcp; by rewrite H1 | by rewrite <- H1 |]. by apply IH1.
Qed.

(** Two runs over the same map agree on success and on the value. *)
Lemma range_loop_order_compat compat l1 l2 a :
  steps_commute compat -> keys_compat compat l1.*1 ->
  Permutation l1 l2 -> NoDup l1.*1 ->
  (forall b, range_loop l1 a = Ret b <-> range_loop l2 a = Ret b).
Proof.
  intros Hcomm Hcp Hp Hnd b. split; apply (range_loop_perm_compat compat); try done.
  - intros k k' ? ?; apply Hcp; by rewrite Hp.
  - by rewrite <- Hp.
Qed.

Context (Hcomm : forall k1 v1 k2 v2 a b, k1 <> k2 ->
  (step (k1, v1) a ≫= step (k2, v2)) = Ret b ->
  (step (k2, v2) a ≫= step (k1, v1)) = Ret b).

Lemma range_loop_order l1 l2 a :
  Permutation l1 l2 -> NoDup l1.*1 ->
  (forall b, range_loop l1 a = Ret b <-> range_loop l2 a = Ret b).
Proof.
  apply (range_loop_order_compat (fun _ _ => True)); [|done].
  intros k1 v1 k2 v2 b c Hk _. by apply Hcomm.
Qed.

Lemma range_loop_perm l1 l2 a b :
  Permutation l1 l2 -> NoDup l1.*1 ->
  range_loop l1 a = Ret b -> range_loop l2 a = Ret b.
Proof. intros Hp Hnd. by apply (range_loop_order l1 l2 a Hp Hnd b). Qed.
End fold_order.

(** The same loop seen field by field: a field written by one key only ends up
    with that key's converted value, or keeps its old one. *)
Section fold_fields.
Context {V A : Type} (step : string * V -> A -> outcome A).

Lemma range_loop_field {F} (proj : A -> F) (key : string) (conv : V -> F) l a b :
  (forall k v a a', step (k, v) a = Ret a' ->
     proj a' = if decide (k = key) then conv v else proj a) ->
  NoDup l.*1 -> range_loop step l a = Ret b ->
  proj b = default (proj a) (conv <$> (list_to_map l : gmap string V) !! key).
Proof.
  intros Hstep. revert a. induction l as [|[k v] l IH]; intros a Hnd H; simpl in *.
  - by injection H as <-.
  - apply NoDup_cons in Hnd as [Hk Hnd]. apply obind_Ret in H as (a1 & H1 & H).
    rewrite (IH _ Hnd H), (Hstep _ _ _ _ H1).
    destruct (decide (k = key)) as [->|Hne].
    + rewrite lookup_insert_eq. by rewrite (not_elem_of_list_to_map_1 l key) by done.
    + by rewrite lookup_insert_ne.
Qed.

(** A field no key writes is kept. *)
Lemma range_loop_frame {F} (proj : A -> F) l a b :
  (forall k v a a', step (k, v) a = Ret a' -> proj a' = proj a) ->
  range_loop step l a = Ret b -> proj b = proj a.
Proof.
  intros Hstep. revert a. induction l as [|[k v] l IH]; intros a H; simpl in *.
  - by injection H as <-.
  - apply obind_Ret in H as (a1 & H1 & H). by rewrite (IH _ H), (Hstep _ _ _ _ H1).
Qed.

(** The loop succeeds when every entry is acceptable by itself. *)
Lemma range_loop_success (ok : string * V -> bool) l a :
  (forall kv a, is_ret (step kv a) = ok kv) ->
  is_ret (range_loop step l a) = forallb ok l.
Proof.
  intros Hok. revert a. induction l as [|kv l IH]; intros a; simpl; [done|].
  rewrite <- (Hok kv a). destruct (step kv a); simpl; [apply IH|done|done].
Qed.
End fold_fields.

Lemma is_ret_Ret {A} (m : outcome A) : is_ret m = true <-> exists a, m = Ret a.
Proof. destruct m; simpl; naive_solver. Qed.

Lemma forallb_perm {A} (f : A -> bool) l1 l2 : l1 ≡ₚ l2 -> forallb f l1 = forallb f l2.
Proof.
  induction 1; simpl; [done | by f_equal | | congruence].
  rewrite !andb_assoc. f_equal. apply andb_comm.
Qed.

(** An iteration order for the entries of a map. *)
Class RangeOrder := {
  range_order : gmap string string -> list (string * string);
  range_order_perm : forall m, range_order m ≡ₚ map_to_list m;
}.

Definition default_order : RangeOrder :=
  {| range_order := map_to_list; range_order_perm m := reflexivity _ |}.

Program Definition reverse_order : RangeOrder :=
  {| range_order m := rev (map_to_list m); range_order_perm m := _ |}.
Next Obligation. intros m. symmetry. apply Permutation_rev. Defined.

Lemma range_order_NoDup (R : RangeOrder) m : NoDup (range_order m).*1.
Proof. rewrite range_order_perm. apply NoDup_fst_map_to_list. Qed.

Lemma range_order_lookup (R : RangeOrder) (m : gmap string string) :
  (list_to_map (range_order m) : gmap string string) = m.
Proof.
  transitivity (list_to_map (map_to_list m) : gmap string string).
  - apply list_to_map_proper; [apply range_order_NoDup | apply range_order_perm].
  - apply list_to_map_to_list.
Qed.

(** ** Counting *)

Definition countP {A} (f : A -> bool) (l : list A) : Z := Z.of_nat (length (List.filter f l)).

Lemma countP_app {A} f (l1 l2 : list A) : (countP f (l1 ++ l2) = countP f l1 + countP f l2)%Z.
Proof. unfold countP. rewrite List.filter_app, length_app. lia. Qed.

Lemma countP_cons {A} f (x : A) l : (countP f (x :: l) = Z.b2z (f x) + countP f l)%Z.
Proof. unfold countP. simpl. destruct (f x); simpl; lia. Qed.

Lemma countP_nonneg {A} f (l : list A) : (0 <= countP f l)%Z.
Proof. unfold countP. lia. Qed.

Lemma countP_le_length {A} f (l : list A) : (countP f l <= Z.of_nat (length l))%Z.
Proof. unfold countP. pose proof (List.filter_length_le f l). lia. Qed.

Lemma countP_insert {A} f (l : list A) i x y :
  l !! i = Some x -> (countP f (<[i := y]> l) = countP f l - Z.b2z (f x) + Z.b2z (f y))%Z.
Proof.
  intros Hi. assert (Hlt : i < length l) by (apply lookup_lt_is_Some; eauto).
  rewrite insert_take_drop by done.
  rewrite <- (take_drop_middle l i _ Hi) at 3.
  rewrite !countP_app, !countP_cons. lia.
Qed.

Lemma countP_pos {A} f (l : list A) i x : l !! i = Some x -> f x = true -> (0 < countP f l)%Z.
Proof.
  intros Hi Hf. pose proof (countP_insert f l i x x Hi).
  rewrite <- (take_drop_middle l i _ Hi), countP_app, countP_cons, Hf. simpl.
  pose proof (countP_nonneg f (take i l)). pose proof (countP_nonneg f (drop (S i) l)). lia.
Qed.

Lemma countP_zero {A} f (l : list A) i x : countP f l = 0%Z -> l !! i = Some x -> f x = false.
Proof. intros H0 Hi. destruct (f x) eqn:E; [|done]. pose proof (countP_pos f l i x Hi E). lia. Qed.

Lemma countP_ext {A} f g (l : list A) :
  (forall i x, l !! i = Some x -> f x = g x) -> countP f l = countP g l.
Proof.
  induction l as [|x l IH]; intros H; [done|]. rewrite !countP_cons, (H 0 x eq_refl).
  f_equal. apply IH. intros i y Hy. by apply (H (S i)).
Qed.

(** ** Machine integers *)

Definition u64 (z : Z) : Z := z mod 2 ^ 64.

Definition u32 (z : Z) : Z := z mod 2 ^ 32.

(** [int32(x)], and the conversion back to a 64-bit [int]. *)
Definition s32 (z : Z) : Z := (z + 2 ^ 31) mod 2 ^ 32 - 2 ^ 31.

Lemma s32_id z : (- 2 ^ 31 <= z < 2 ^ 31)%Z -> s32 z = z.
Proof. intros H. unfold s32. rewrite Z.mod_small; lia. Qed.

Lemma u64_id z : (0 <= z < 2 ^ 64)%Z -> u64 z = z.
Proof. intros H. unfold u64. by rewrite Z.mod_small. Qed.

(** ** Hints shared by the development *)

Create HintDb gokms.
#[export] Hint Resolve range_order_NoDup content_to_slice : gokms.
#[export] Hint Rewrite content_to_slice bytes_of_string_of_bytes string_of_bytes_of_string
  @obind_Ret @map_err_Ret : gokms.
