(* ===== verification/GoText.v ===== *)
(** * The text side of the Go standard library the repository uses

    [strings], [strconv], [encoding/hex] and [encoding/base64]: the functions
    called by the modelled code, as executable definitions, with the round
    trips the components rely on.  [strings.ToLower] and [ToUpper] are modelled on ASCII (its
    Unicode folding of other code points is left out). *)
From S2P Require Import Prelude.

Local Open Scope string_scope.

(** ** Package strings *)

Fixpoint HasPrefix (s p : string) : bool :=
  match p, s with
  | EmptyString, _ => true
  | String c p, String d s => if Ascii.eqb c d then HasPrefix s p else false
  | _, EmptyString => false
  end.

Fixpoint sdrop (n : nat) (s : string) : string :=
  match n, s with
  | S n, String _ s => sdrop n s
  | _, _ => s
  end.

Definition TrimPrefix (s p : string) : string :=
  if HasPrefix s p then sdrop (String.length p) s else s.

(** [strings.Contains(s, c)] for a one-character needle. *)
Fixpoint Contains (s : string) (c : ascii) : bool :=
  match s with
  | EmptyString => false
  | String d s => Ascii.eqb d c || Contains s c
  end.

(** Cut at the last occurrence of [c]: [s[:pos]], [s[pos+1:]]; [None] when
    [strings.LastIndex] answers -1. *)
Fixpoint cut_last (s : string) (c : ascii) : option (string * string) :=
  match s with
  | EmptyString => None
  | String d s' =>
      match cut_last s' c with
      | Some (a, b) => Some (String d a, b)
      | None => if Ascii.eqb d c then Some (EmptyString, s') else None
      end
  end.

(** Cut at the first occurrence. *)
Fixpoint cut_first (s : string) (c : ascii) : option (string * string) :=
  match s with
  | EmptyString => None
  | String d s' =>
      if Ascii.eqb d c then Some (EmptyString, s')
      else match cut_first s' c with
           | Some (a, b) => Some (String d a, b)
           | None => None
           end
  end.

(** [strings.SplitN(s, c, n)] for [n > 0]. *)
Fixpoint SplitN (s : string) (c : ascii) (n : nat) : list string :=
  match n with
  | O | 1 => [s]
  | S n => match cut_first s c with
           | Some (a, b) => a :: SplitN b c n
           | None => [s]
           end
  end.

Definition lower_ascii (c : ascii) : ascii :=
  let z := byte_to_Z c in
  if (65 <=? z)%Z && (z <=? 90)%Z then Z_to_byte (z + 32) else c.

Fixpoint smap (f : ascii -> ascii) (s : string) : string :=
  match s with EmptyString => EmptyString | String c s => String (f c) (smap f s) end.

Definition ToLower (s : string) : string := smap lower_ascii s.

Definition upper_ascii (c : ascii) : ascii :=
  let z := byte_to_Z c in
  if (97 <=? z)%Z && (z <=? 122)%Z then Z_to_byte (z - 32) else c.

Definition ToUpper (s : string) : string := smap upper_ascii s.

Definition ReplaceAll (s : string) (old new : ascii) : string :=
  smap (fun c => if Ascii.eqb c old then new else c) s.

(** [%q] on a string without characters that need escaping. *)
Definition dquote : string := String (ascii_of_nat 34) EmptyString.

Definition quoted (s : string) : string := dquote +:+ s +:+ dquote.

(** [strings.Split(s, c)] for a one-character separator. *)
Fixpoint Split (s : string) (c : ascii) : list string :=
  match s with
  | EmptyString => [EmptyString]
  | String d s =>
      if Ascii.eqb d c then EmptyString :: Split s c
      else match Split s c with
           | x :: l => String d x :: l
           | [] => [String d EmptyString]
           end
  end.

(** ** Package path *)

(** The elements a rooted or relative path keeps; [acc] holds them reversed. *)
Fixpoint clean_elems (rooted : bool) (elems acc : list string) : list string :=
  match elems with
  | [] => rev acc
  | e :: elems =>
      if String.eqb e "" || String.eqb e "." then clean_elems rooted elems acc
      else if String.eqb e ".." then
        match acc with
        | top :: acc' =>
            if String.eqb top ".." then clean_elems rooted elems (".." :: acc)
            else clean_elems rooted elems acc'
        | [] => clean_elems rooted elems (if rooted then [] else [".."])
        end
      else clean_elems rooted elems (e :: acc)
  end.

Definition path_Clean (p : string) : string :=
  let rooted := HasPrefix p "/" in
  let body := String.concat "/" (clean_elems rooted (Split p "/") []) in
  if rooted then String "/" body
  else if String.eqb body "" then "." else body.

Definition path_Join (elems : list string) : string :=
  match List.filter (fun e => negb (String.eqb e "")) elems with
  | [] => ""
  | l => path_Clean (String.concat "/" l)
  end.

Example path_join : path_Join ["transit/"; "encrypt"; "key"] = "transit/encrypt/key".
Proof. reflexivity. Qed.

Lemma sapp_nil s : "" +:+ s = s.
Proof. done. Qed.

Lemma sapp_cons x a b : String x a +:+ b = String x (a +:+ b).
Proof. done. Qed.

Lemma sapp_assoc a b c : (a +:+ b) +:+ c = a +:+ (b +:+ c).
Proof. induction a as [|x a IH]; [done|]. by rewrite !sapp_cons, IH. Qed.

Lemma slength_app a b : String.length (a +:+ b) = (String.length a + String.length b)%nat.
Proof. induction a as [|c a IH]; [done|]. rewrite sapp_cons. simpl. by rewrite IH. Qed.

Lemma sapp_inj_length a a' b b' : a +:+ b = a' +:+ b' -> String.length a = String.length a' -> a = a' /\ b = b'.
Proof.
  revert a'. induction a as [|c a IH]; intros [|c' a']; [done..|]. rewrite !sapp_cons. intros [= -> H] [= Hl].
  by destruct (IH a' H Hl) as [-> ->].
Qed.

Lemma cut_last_app a b c :
  Contains b c = false -> cut_last (a +:+ String c b) c = Some (a, b).
Proof.
  intros Hb.
  assert (Hnone : forall s, Contains s c = false -> cut_last s c = None).
  { induction s as [|d s IH]; simpl; [done|].
    intros [-> H]%orb_false_iff. by rewrite IH. }
  induction a as [|d a IH]; rewrite ?sapp_nil, ?sapp_cons; simpl.
  - by rewrite Hnone, Ascii.eqb_refl.
  - by rewrite IH.
Qed.

Lemma cut_last_spec s c a b :
  cut_last s c = Some (a, b) -> s = a +:+ String c b /\ Contains b c = false.
Proof.
  assert (Hc : forall s, cut_last s c = None -> Contains s c = false).
  { clear. induction s as [|d s IH]; simpl; [done|].
    destruct (cut_last s c) as [[]|]; [done|].
    destruct (Ascii.eqb d c); [done|]. auto. }
  revert a b. induction s as [|d s IH]; simpl; intros a b H; [done|].
  destruct (cut_last s c) as [[a' b']|] eqn:E.
  - injection H as <- <-. destruct (IH _ _ eq_refl) as [-> ?]. done.
  - destruct (Ascii.eqb_spec d c) as [->|]; [|done].
    injection H as <- <-. auto.
Qed.

Lemma cut_first_app a b c :
  Contains a c = false -> cut_first (a +:+ String c b) c = Some (a, b).
Proof.
  induction a as [|d a IH]; rewrite ?sapp_nil, ?sapp_cons; simpl.
  - by rewrite Ascii.eqb_refl.
  - intros [-> H]%orb_false_iff. by rewrite IH.
Qed.

(** Three fields joined with a separator split back, whatever the last holds. *)
Lemma SplitN_3 a b d c :
  Contains a c = false -> Contains b c = false ->
  SplitN (a +:+ String c (b +:+ String c d)) c 3 = [a; b; d].
Proof.
  intros Ha Hb. change (SplitN ?s c 3) with
    (match cut_first s c with Some (x, y) => x :: SplitN y c 2 | None => [s] end).
  rewrite cut_first_app by done.
  change (SplitN ?s c 2) with
    (match cut_first s c with Some (x, y) => x :: SplitN y c 1 | None => [s] end).
  by rewrite cut_first_app.
Qed.

(** ** Package strconv *)

Definition ErrSyntax : error := ErrSentinel "invalid syntax".

Definition ErrRange : error := ErrSentinel "value out of range".

Definition digit_char (d : Z) : ascii := Z_to_byte (48 + d).

(** Least significant digits first are pushed on the accumulator. *)
Fixpoint format_digits (fuel : nat) (z : Z) (acc : string) : string :=
  match fuel with
  | O => acc
  | S fuel =>
      let acc := String (digit_char (z mod 10)) acc in
      if (z <? 10)%Z then acc else format_digits fuel (z / 10) acc
  end.

(** [strconv.FormatUint(z, 10)]; 20 digits are enough for 64 bits. *)
Definition FormatUint (z : Z) : string := format_digits 20 z "".

(** [strconv.Itoa(int(x))] for a 64-bit unsigned [x]: the conversion wraps. *)
Definition Itoa (x : Z) : string :=
  if (x <? 2 ^ 63)%Z then FormatUint x else String.append "-" (FormatUint (2 ^ 64 - x)).

Fixpoint format_hex (fuel : nat) (z : Z) (acc : string) : string :=
  match fuel with
  | O => acc
  | S fuel =>
      let d := (z mod 16)%Z in
      let acc := String (if (d <? 10)%Z then digit_char d else Z_to_byte (87 + d)) acc in
      if (z <? 16)%Z then acc else format_hex fuel (z / 16) acc
  end.

(** The verb [%x] on a [uint]; 16 digits are enough for 64 bits. *)
Definition FormatHex (z : Z) : string := format_hex 16 z "".

(** The value of a digit: 0-9, then letters of either case. *)
Definition digit_val (c : ascii) : option Z :=
  let z := byte_to_Z (lower_ascii c) in
  if (48 <=? z)%Z && (z <=? 57)%Z then Some (z - 48)%Z
  else if (97 <=? z)%Z && (z <=? 122)%Z then Some (z - 87)%Z
  else None.

Fixpoint parse_digits (base bound : Z) (s : string) (acc : Z) : outcome Z :=
  match s with
  | EmptyString => Ret acc
  | String c s =>
      match digit_val c with
      | Some d =>
          if (base <=? d)%Z then Fail ErrSyntax
          else let n := (acc * base + d)%Z in
               if (bound <=? n)%Z then Fail ErrRange
               else parse_digits base bound s n
      | None => Fail ErrSyntax
      end
  end.

(** [strconv.ParseUint(s, base, bits)] for an explicit base. *)
Definition ParseUint (s : string) (base bits : Z) : outcome Z :=
  match s with
  | EmptyString => Fail ErrSyntax
  | _ => parse_digits base (2 ^ bits) s 0
  end.

(** [strconv]'s [underscoreOK]: an underscore separates digits, the base
    prefix counting as one. *)
Inductive saw := SawStart | SawDigit | SawUnderscore | SawOther.

Fixpoint underscore_scan (hex : bool) (s : string) (w : saw) : bool :=
  match s with
  | EmptyString => match w with SawUnderscore => false | _ => true end
  | String c s =>
      let z := byte_to_Z c in
      let l := byte_to_Z (lower_ascii c) in
      if ((48 <=? z) && (z <=? 57) || hex && (97 <=? l) && (l <=? 102))%Z
      then underscore_scan hex s SawDigit
      else if Ascii.eqb c "_" then
        match w with SawDigit => underscore_scan hex s SawUnderscore | _ => false end
      else match w with SawUnderscore => false | _ => underscore_scan hex s SawOther end
  end.

Definition base_prefix (s : string) : option (Z * string) :=
  match s with
  | String "0" (String c s') =>
      if Ascii.eqb (lower_ascii c) "b" then Some (2%Z, s')
      else if Ascii.eqb (lower_ascii c) "o" then Some (8%Z, s')
      else if Ascii.eqb (lower_ascii c) "x" then Some (16%Z, s')
      else None
  | _ => None
  end.

Definition underscoreOK (s : string) : bool :=
  match base_prefix s with
  | Some (b, s') => underscore_scan (b =? 16)%Z s' SawDigit
  | None => underscore_scan false s SawStart
  end.

Fixpoint remove_char (c : ascii) (s : string) : string :=
  match s with
  | EmptyString => EmptyString
  | String d s => if Ascii.eqb d c then remove_char c s else String d (remove_char c s)
  end.

(** [strconv.ParseUint(s, 0, bits)]: the base is read off the prefix, and
    underscores are skipped when they are well placed. *)
Definition ParseUint0 (s : string) (bits : Z) : outcome Z :=
  match s with
  | EmptyString => Fail ErrSyntax
  | String "0" t =>
      let (base, body) :=
        match base_prefix s with
        | Some (b, s') => match s' with EmptyString => (8%Z, t) | _ => (b, s') end
        | None => (8%Z, t)
        end in
      v ← parse_digits base (2 ^ bits) (remove_char "_" body) 0;
      if Contains s "_" && negb (underscoreOK s) then Fail ErrSyntax else Ret v
  | _ =>
      v ← parse_digits 10 (2 ^ bits) (remove_char "_" s) 0;
      if Contains s "_" && negb (underscoreOK s) then Fail ErrSyntax else Ret v
  end.

Example parse_uint_hex : ParseUint0 "0x1087" 32 = Ret 4231%Z.
Proof. reflexivity. Qed.

Example parse_uint_range : ParseUint "4294967296" 10 32 = Fail ErrRange.
Proof. reflexivity. Qed.

(** [strings.TrimSpace] on ASCII. *)
Definition is_space (c : ascii) : bool :=
  let z := byte_to_Z c in ((9 <=? z) && (z <=? 13) || (z =? 32))%Z.

Fixpoint trim_left (s : string) : string :=
  match s with
  | String c s' => if is_space c then trim_left s' else s
  | EmptyString => EmptyString
  end.

Fixpoint trim_right (s : string) : string :=
  match s with
  | EmptyString => EmptyString
  | String c s =>
      let r := trim_right s in
      if is_space c && String.eqb r "" then EmptyString else String c r
  end.

Definition TrimSpace (s : string) : string := trim_right (trim_left s).

Example trim_space : TrimSpace " a b  " = "a b".
Proof. reflexivity. Qed.

(** *** Printing and reading back *)

Lemma digit_val_char d : (0 <= d < 10)%Z -> digit_val (digit_char d) = Some d.
Proof.
  intros H.
  assert (Hall : forallb (fun n => bool_decide
    (digit_val (digit_char (Z.of_nat n)) = Some (Z.of_nat n))) (seq 0 10) = true)
    by (vm_compute; reflexivity).
  rewrite forallb_forall in Hall. specialize (Hall (Z.to_nat d)).
  rewrite Z2Nat.id in Hall by lia.
  assert (Hin : In (Z.to_nat d) (seq 0 10)) by (apply in_seq; lia).
  specialize (Hall Hin). by apply bool_decide_eq_true in Hall.
Qed.

(** Reading back the digits of [z] printed in front of [acc]. *)
Lemma parse_format_digits fuel z acc bound :
  (0 <= z < 10 ^ Z.of_nat fuel)%Z -> (z < bound)%Z -> fuel <> O ->
  parse_digits 10 bound (format_digits fuel z acc) 0 = parse_digits 10 bound acc z.
Proof.
  revert z acc. induction fuel as [|fuel IH]; intros z acc Hz Hb Hf; [done|].
  assert (Hstep : forall n, (n * 10 + z mod 10 = z)%Z ->
    parse_digits 10 bound (String (digit_char (z mod 10)) acc) n = parse_digits 10 bound acc z).
  { intros n Hn. simpl. rewrite digit_val_char by (apply Z.mod_pos_bound; lia).
    rewrite (proj2 (Z.leb_gt 10 _)) by (pose proof (Z.mod_pos_bound z 10); lia).
    rewrite Hn. by rewrite (proj2 (Z.leb_gt bound z)) by lia. }
  cbn [format_digits]. destruct (z <? 10)%Z eqn:E.
  - apply Hstep. rewrite Z.mod_small by lia. lia.
  - assert (fuel <> O) as Hf' by (intros ->; simpl in Hz; lia).
    rewrite Nat2Z.inj_succ, Z.pow_succ_r in Hz by lia.
    rewrite IH; [| |pose proof (Z.div_lt z 10); lia|done].
    + apply Hstep. pose proof (Z.div_mod z 10). lia.
    + split; [apply Z.div_pos; lia | apply Z.div_lt_upper_bound; lia].
Qed.

Lemma ParseUint_FormatUint z :
  (0 <= z < 2 ^ 64)%Z -> ParseUint (FormatUint z) 10 64 = Ret z.
Proof.
  intros Hz. unfold ParseUint, FormatUint.
  assert (H : parse_digits 10 (2 ^ 64) (format_digits 20 z "") 0 = Ret z).
  { rewrite parse_format_digits by (simpl; lia). done. }
  destruct (format_digits 20 z "") eqn:E; [|done].
  simpl in H. injection H as <-. discriminate E.
Qed.

(** Decimal digits contain no separator. *)
Lemma format_digits_Contains fuel z acc c :
  (0 <= z)%Z -> (byte_to_Z c < 48 \/ 57 < byte_to_Z c)%Z ->
  Contains acc c = false -> Contains (format_digits fuel z acc) c = false.
Proof.
  revert z acc. induction fuel as [|fuel IH]; intros z acc Hz Hc Ha; [done|].
  assert (Hd : Ascii.eqb (digit_char (z mod 10)) c = false).
  { apply Ascii.eqb_neq. intros <-. pose proof (Z.mod_pos_bound z 10).
    unfold digit_char in Hc. rewrite byte_to_Z_of_Z in Hc; lia. }
  simpl. destruct (z <? 10)%Z.
  - simpl. by rewrite Hd.
  - apply IH; [apply Z.div_pos; lia | done |]. simpl. by rewrite Hd.
Qed.

Lemma FormatUint_Contains z c :
  (0 <= z)%Z -> (byte_to_Z c < 48 \/ 57 < byte_to_Z c)%Z -> Contains (FormatUint z) c = false.
Proof. intros. by apply format_digits_Contains. Qed.

Lemma ToLower_length s : String.length (ToLower s) = String.length s.
Proof. unfold ToLower. induction s; simpl; [done | by f_equal]. Qed.

Lemma parse_digits_no_panic base bound s acc : parse_digits base bound s acc <> Panic.
Proof.
  revert acc. induction s as [|c s IH]; intros acc; simpl; [done|].
  destruct (digit_val c); [|done]. repeat (case_match; [done|]). apply IH.
Qed.

Lemma ParseUint_no_panic s base bits : ParseUint s base bits <> Panic.
Proof. destruct s; [done|]. apply parse_digits_no_panic. Qed.

Lemma digit_val_bound c d : digit_val c = Some d -> (0 <= d < 36)%Z.
Proof. unfold digit_val. cbv zeta. repeat case_match; intros [= <-]; lia. Qed.

Lemma parse_digits_bound base bound s acc n :
  (0 < base)%Z -> (0 <= acc < bound)%Z -> parse_digits base bound s acc = Ret n -> (0 <= n < bound)%Z.
Proof.
  intros Hb. revert acc. induction s as [|c s IH]; intros acc Ha; simpl; [by intros [= <-]|].
  destruct (digit_val c) as [d|] eqn:Ed; [|done]. apply digit_val_bound in Ed.
  destruct (base <=? d)%Z; [done|]. destruct (Z.leb_spec bound (acc * base + d)); [done|].
  apply IH. nia.
Qed.

Lemma ParseUint_bound s base bits n :
  (0 < base)%Z -> (0 <= bits)%Z -> ParseUint s base bits = Ret n -> (0 <= n < 2 ^ bits)%Z.
Proof.
  intros Hb Hbits. unfold ParseUint. destruct s; [done|].
  apply parse_digits_bound; [done|]. pose proof (Z.pow_pos_nonneg 2 bits). lia.
Qed.

(** [strconv.ParseBool]. *)
Definition ParseBool (s : string) : outcome bool :=
  if existsb (String.eqb s) ["1"; "t"; "T"; "TRUE"; "true"; "True"] then Ret true
  else if existsb (String.eqb s) ["0"; "f"; "F"; "FALSE"; "false"; "False"] then Ret false
  else Fail (ErrNode ("strconv.ParseBool: parsing " +:+ quoted s +:+ ": " +:+ err_msg ErrSyntax) [ErrSyntax]).

Lemma HasPrefix_app p s : HasPrefix (p +:+ s) p = true.
Proof.
  induction p as [|c p IH]; rewrite ?sapp_nil, ?sapp_cons; simpl; [by destruct s|].
  by rewrite Ascii.eqb_refl.
Qed.

Lemma TrimPrefix_app p s : TrimPrefix (p +:+ s) p = s.
Proof.
  unfold TrimPrefix. rewrite HasPrefix_app.
  induction p as [|c p IH]; rewrite ?sapp_nil, ?sapp_cons; [by destruct s|]. exact IH.
Qed.

(** ** Clean paths *)

Lemma Split_app a b c : Split (a +:+ String c b) c = (Split a c ++ Split b c)%list.
Proof.
  induction a as [|d a IH]; rewrite ?sapp_nil, ?sapp_cons; cbn [Split]; [by rewrite Ascii.eqb_refl|].
  rewrite IH. destruct (Ascii.eqb d c); [done|]. assert (Hne : Split a c <> []).
  { destruct a as [|x a]; [done|]. cbn [Split]. destruct (Ascii.eqb x c); [done|]. by destruct (Split a c). }
  by destruct (Split a c).
Qed.

Lemma Split_none s c : Contains s c = false -> Split s c = [s].
Proof.
  induction s as [|d s IH]; [done|]. cbn [Contains Split]. intros [Hd Hs]%orb_false_iff. by rewrite Hd, IH.
Qed.

Lemma concat_Split s : String.concat "/" (Split s "/") = s.
Proof.
  induction s as [|d s IH]; [done|]. cbn [Split]. destruct (Ascii.eqb_spec d "/") as [->|Hd].
  - rewrite <- IH at 2. destruct (Split s "/") as [|x l] eqn:E; [|done].
    destruct s as [|y s]; [done|]. cbn [Split] in E. destruct (Ascii.eqb y "/"); [done|]. by destruct (Split s "/").
  - destruct (Split s "/") as [|x l]; simpl in IH |- *; [by rewrite <- IH|]. rewrite <- IH. by destruct l.
Qed.

(** An element [path.Clean] keeps. *)
Definition path_element (e : string) : bool := negb (existsb (String.eqb e) [""; "."; ".."]).

(** A relative path [path.Clean] leaves as it is. *)
Definition clean_path (p : string) : bool := forallb path_element (Split p "/").

Lemma clean_elems_plain l acc : forallb path_element l = true -> clean_elems false l acc = (rev acc ++ l)%list.
Proof.
  revert acc. induction l as [|e l IH]; intros acc; [intros _; by rewrite app_nil_r|].
  cbn [forallb clean_elems]. unfold path_element at 1. cbn [existsb]. intros [He Hl]%andb_true_iff.
  rewrite !negb_true_iff, !orb_false_iff in He. destruct He as (He1 & He2 & He3 & _). rewrite He1, He2, He3. cbn [orb].
  rewrite IH by done. cbn [rev]. by rewrite <- app_assoc.
Qed.

Lemma path_Clean_clean p : clean_path p = true -> path_Clean p = p.
Proof.
  intros Hp. unfold path_Clean. assert (Hr : HasPrefix p "/" = false).
  { destruct p as [|c p]; [done|]. unfold clean_path in Hp. cbn [Split HasPrefix] in *.
    rewrite Ascii.eqb_sym. destruct (Ascii.eqb c "/"); done. }
  rewrite Hr, clean_elems_plain by done. cbn [rev app]. rewrite concat_Split.
  destruct (String.eqb_spec p "") as [->|]; [discriminate Hp|done].
Qed.

(** The paths of the requests to an engine mounted at [mount]. *)
Lemma path_Join_clean mount op name : clean_path mount = true -> clean_path op = true -> clean_path name = true ->
  path_Join [mount; op; name] = mount +:+ "/" +:+ op +:+ "/" +:+ name.
Proof.
  intros Hm Ho Hn. assert (Hne : forall p, clean_path p = true -> negb (String.eqb p "") = true) by (by intros []).
  unfold path_Join. cbn [List.filter]. rewrite !Hne by done. cbn [String.concat]. apply path_Clean_clean.
  change ("/" +:+ op +:+ "/" +:+ name) with (String "/" (op +:+ String "/" name)).
  unfold clean_path in *. by rewrite !Split_app, !forallb_app, Hm, Ho, Hn.
Qed.
