(* ===== verification/GoEncoding.v ===== *)
(** * Byte encodings of the Go standard library

    [encoding/hex] and [encoding/base64] (standard padded and raw URL-safe),
    executable, with the round trips and the length bounds the key loaders and
    the Transit client rely on. *)
From S2P Require Import Prelude GoText.

Local Open Scope Z_scope.

(** ** encoding/hex *)

Definition ErrHex : error := ErrSentinel "encoding/hex: invalid input".

Definition hex_val (c : ascii) : option Z :=
  match digit_val c with
  | Some d => if d <? 16 then Some d else None
  | None => None
  end.

Fixpoint hex_decode (l : bytes) : outcome bytes :=
  match l with
  | [] => Ret []
  | [_] => Fail ErrHex
  | a :: b :: l =>
      match hex_val a, hex_val b with
      | Some x, Some y => r ← hex_decode l; Ret (Z_to_byte (x * 16 + y) :: r)
      | _, _ => Fail ErrHex
      end
  end.

(** [hex.DecodeString]. *)
Definition hex_DecodeString (s : string) : outcome bytes := hex_decode (bytes_of_string s).

Definition hex_char (d : Z) : ascii :=
  if d <? 10 then Z_to_byte (48 + d) else Z_to_byte (87 + d).

(** [hex.EncodeToString]. *)
Definition hex_EncodeToString (l : bytes) : string :=
  string_of_bytes
    (concat (map (fun b => [hex_char (byte_to_Z b / 16); hex_char (byte_to_Z b mod 16)]) l)).

(** Decide a property of the first [n] integers by evaluation. *)
Lemma forall_below (n : nat) (P : Z -> Prop) `{forall z, Decision (P z)} :
  forallb (fun k => bool_decide (P (Z.of_nat k))) (seq 0 n) = true ->
  forall z, 0 <= z < Z.of_nat n -> P z.
Proof.
  intros Hall z Hz. rewrite forallb_forall in Hall.
  rewrite <- (Z2Nat.id z) by lia.
  assert (Hin : In (Z.to_nat z) (seq 0 n)) by (apply in_seq; lia).
  specialize (Hall _ Hin). by apply bool_decide_eq_true in Hall.
Qed.

Lemma hex_val_char d : 0 <= d < 16 -> hex_val (hex_char d) = Some d.
Proof. apply (forall_below 16 (fun d => hex_val (hex_char d) = Some d)). done. Qed.

Lemma hex_decode_encode l : hex_DecodeString (hex_EncodeToString l) = Ret l.
Proof.
  unfold hex_DecodeString, hex_EncodeToString. rewrite bytes_of_string_of_bytes.
  induction l as [|b l IH]; [done|].
  cbn [map concat app hex_decode].
  pose proof (byte_to_Z_bound b). pose proof (Z.mod_pos_bound (byte_to_Z b) 16).
  rewrite !hex_val_char, IH; [|lia|split; [apply Z.div_pos|apply Z.div_lt_upper_bound]; lia].
  simpl. do 2 f_equal. rewrite <- (Z_to_byte_to_Z b) at 3. f_equal.
  pose proof (Z.div_mod (byte_to_Z b) 16). lia.
Qed.

(** A decoded value has half as many bytes as the input has digits. *)
Lemma hex_decode_length l r : hex_decode l = Ret r -> (length l = 2 * length r)%nat.
Proof.
  remember (length l) as n eqn:Hn. revert l r Hn.
  induction n as [n IH] using lt_wf_ind. intros [|a [|b l]] r Hn H; simpl in *.
  - by injection H as <-.
  - done.
  - destruct (hex_val a), (hex_val b); try done. inv_ret. subst r.
    specialize (IH (length l) ltac:(lia) l a0 eq_refl Hret). simpl. lia.
Qed.

(** ** encoding/base64 *)

Definition ErrB64 : error := ErrSentinel "illegal base64 data".

Record b64_encoding := {
  b64_alphabet : string;
  b64_pad : bool;
}.

Definition StdEncoding : b64_encoding := {|
  b64_alphabet := "ABCDEFGHIJKLMNOPQRSTUVWXYZabcdefghijklmnopqrstuvwxyz0123456789+/";
  b64_pad := true |}.

Definition RawURLEncoding : b64_encoding := {|
  b64_alphabet := "ABCDEFGHIJKLMNOPQRSTUVWXYZabcdefghijklmnopqrstuvwxyz0123456789-_";
  b64_pad := false |}.

Fixpoint index_of (c : ascii) (s : string) (i : Z) : option Z :=
  match s with
  | EmptyString => None
  | String d s => if Ascii.eqb d c then Some i else index_of c s (i + 1)
  end.

Definition b64_val (enc : b64_encoding) (c : ascii) : option Z :=
  index_of c (b64_alphabet enc) 0.

Definition b64_char (enc : b64_encoding) (v : Z) : ascii :=
  default "="%char (String.get (Z.to_nat v) (b64_alphabet enc)).

Fixpoint b64_encode (enc : b64_encoding) (l : bytes) : bytes :=
  let pad := if b64_pad enc then ["="%char] else [] in
  match l with
  | [] => []
  | [a] =>
      let v := byte_to_Z a * 65536 in
      [b64_char enc (v / 262144); b64_char enc (v / 4096 mod 64)] ++ pad ++ pad
  | [a; b] =>
      let v := byte_to_Z a * 65536 + byte_to_Z b * 256 in
      [b64_char enc (v / 262144); b64_char enc (v / 4096 mod 64);
       b64_char enc (v / 64 mod 64)] ++ pad
  | a :: b :: c :: l =>
      let v := byte_to_Z a * 65536 + byte_to_Z b * 256 + byte_to_Z c in
      [b64_char enc (v / 262144); b64_char enc (v / 4096 mod 64);
       b64_char enc (v / 64 mod 64); b64_char enc (v mod 64)] ++ b64_encode enc l
  end.

Definition b64_EncodeToString (enc : b64_encoding) (l : bytes) : string :=
  string_of_bytes (b64_encode enc l).

(** One quantum at a time; the last one may be short (raw) or padded.  Unused
    trailing bits are ignored: the encodings used are not strict. *)
Fixpoint b64_quads (enc : b64_encoding) (l : bytes) : outcome bytes :=
  match l with
  | [] => Ret []
  | [a; b] =>
      if b64_pad enc then Fail ErrB64 else
      match b64_val enc a, b64_val enc b with
      | Some x, Some y => Ret [Z_to_byte ((x * 64 + y) / 16)]
      | _, _ => Fail ErrB64
      end
  | [a; b; c] =>
      if b64_pad enc then Fail ErrB64 else
      match b64_val enc a, b64_val enc b, b64_val enc c with
      | Some x, Some y, Some z =>
          let v := (x * 4096 + y * 64 + z) / 4 in
          Ret [Z_to_byte (v / 256); Z_to_byte (v mod 256)]
      | _, _, _ => Fail ErrB64
      end
  | a :: b :: c :: d :: l =>
      match b64_val enc a, b64_val enc b, b64_val enc c, b64_val enc d with
      | Some x, Some y, Some z, Some w =>
          let v := x * 262144 + y * 4096 + z * 64 + w in
          r ← b64_quads enc l;
          Ret (Z_to_byte (v / 65536) :: Z_to_byte (v / 256 mod 256) :: Z_to_byte (v mod 256) :: r)
      | Some x, Some y, Some z, None =>
          if b64_pad enc && Ascii.eqb d "=" && bool_decide (l = []) then
            let v := (x * 4096 + y * 64 + z) / 4 in
            Ret [Z_to_byte (v / 256); Z_to_byte (v mod 256)]
          else Fail ErrB64
      | Some x, Some y, None, _ =>
          if b64_pad enc && Ascii.eqb c "=" && Ascii.eqb d "=" && bool_decide (l = []) then
            Ret [Z_to_byte ((x * 64 + y) / 16)]
          else Fail ErrB64
      | _, _, _, _ => Fail ErrB64
      end
  | _ => Fail ErrB64
  end.

Definition is_newline (c : ascii) : bool :=
  Z.eqb (byte_to_Z c) 10 || Z.eqb (byte_to_Z c) 13.

(** [DecodeString]: line breaks are skipped wherever they are. *)
Definition b64_DecodeString (enc : b64_encoding) (s : string) : outcome bytes :=
  b64_quads enc (List.filter (fun c => negb (is_newline c)) (bytes_of_string s)).

Definition b64_known (enc : b64_encoding) : Prop := enc = StdEncoding \/ enc = RawURLEncoding.

Lemma b64_char_spec enc v :
  b64_known enc -> 0 <= v < 64 ->
  b64_val enc (b64_char enc v) = Some v /\ is_newline (b64_char enc v) = false.
Proof.
  intros Henc Hv.
  revert v Hv.
  apply (forall_below 64 (fun v => b64_val enc (b64_char enc v) = Some v
    /\ is_newline (b64_char enc v) = false)).
  by destruct Henc as [-> | ->].
Qed.

Lemma b64_val_char enc v :
  b64_known enc -> 0 <= v < 64 -> b64_val enc (b64_char enc v) = Some v.
Proof. intros. by apply b64_char_spec. Qed.

Lemma b64_char_newline enc v :
  b64_known enc -> 0 <= v < 64 -> is_newline (b64_char enc v) = false.
Proof. intros. by apply b64_char_spec. Qed.

Lemma b64_pad_none enc : b64_known enc -> b64_val enc "=" = None.
Proof. by intros [-> | ->]. Qed.

(** Split the arithmetic of a quantum. *)
Ltac b64_arith := Z.to_euclidean_division_equations; lia.

Lemma Z_to_byte_eq z b : z = byte_to_Z b -> Z_to_byte z = b.
Proof. intros ->. apply Z_to_byte_to_Z. Qed.

Lemma list_ind3 {A} (P : list A -> Prop) :
  P [] -> (forall a, P [a]) -> (forall a b, P [a; b]) ->
  (forall a b c l, P l -> P (a :: b :: c :: l)) -> forall l, P l.
Proof.
  intros H0 H1 H2 H3. fix IH 1. intros [|a [|b [|c l]]]; [apply H0|apply H1|apply H2|apply H3, IH].
Qed.

Lemma b64_quads_encode enc l : b64_known enc -> b64_quads enc (b64_encode enc l) = Ret l.
Proof.
  intros Henc. induction l as [|a|a b|a b c l IH] using list_ind3; [done|..];
    pose proof (byte_to_Z_bound a);
    try pose proof (byte_to_Z_bound b); try pose proof (byte_to_Z_bound c);
    cbn [b64_encode app].
  - destruct (b64_pad enc) eqn:Hp; cbn [b64_quads app]; rewrite ?Hp;
      rewrite !b64_val_char, ?b64_pad_none by (done || b64_arith);
      simpl; do 2 f_equal; apply Z_to_byte_eq; b64_arith.
  - pose proof (byte_to_Z_bound b).
    destruct (b64_pad enc) eqn:Hp; cbn [b64_quads app]; rewrite ?Hp;
      rewrite !b64_val_char, ?b64_pad_none by (done || b64_arith);
      simpl; repeat f_equal; apply Z_to_byte_eq; b64_arith.
  - pose proof (byte_to_Z_bound b). pose proof (byte_to_Z_bound c).
    cbn [b64_quads]. rewrite !b64_val_char, IH by (done || b64_arith).
    simpl. repeat f_equal; apply Z_to_byte_eq; b64_arith.
Qed.

Lemma b64_encode_no_newline enc l :
  b64_known enc -> List.filter (fun c => negb (is_newline c)) (b64_encode enc l) = b64_encode enc l.
Proof.
  intros Henc. induction l as [|a|a b|a b c l IH] using list_ind3; [done|..];
    pose proof (byte_to_Z_bound a); try pose proof (byte_to_Z_bound b);
    try pose proof (byte_to_Z_bound c);
    cbn [b64_encode]; destruct (b64_pad enc); cbn [List.filter app];
    rewrite !b64_char_newline by (done || b64_arith); simpl; by rewrite ?IH.
Qed.

(** Decoding an encoding gives the bytes back. *)
Lemma b64_decode_encode enc l :
  b64_known enc -> b64_DecodeString enc (b64_EncodeToString enc l) = Ret l.
Proof.
  intros Henc. unfold b64_DecodeString, b64_EncodeToString.
  rewrite bytes_of_string_of_bytes, b64_encode_no_newline, b64_quads_encode; done.
Qed.

(** The standard alphabet contains no colon, so a base64 field is one field. *)
Lemma b64_encode_Contains enc l c :
  b64_known enc -> c <> "="%char -> b64_val enc c = None ->
  Contains (b64_EncodeToString enc l) c = false.
Proof.
  intros Henc Hc Hv.
  assert (Hch : forall v, 0 <= v < 64 -> Ascii.eqb (b64_char enc v) c = false).
  { intros v H. apply Ascii.eqb_neq. intros <-.
    by rewrite b64_val_char in Hv. }
  assert (Heq : Ascii.eqb "="%char c = false) by (by apply Ascii.eqb_neq).
  unfold b64_EncodeToString, string_of_bytes.
  induction l as [|a|a b|a b d l IH] using list_ind3; [done|..];
    pose proof (byte_to_Z_bound a); try pose proof (byte_to_Z_bound b);
    try pose proof (byte_to_Z_bound d);
    cbn [b64_encode]; destruct (b64_pad enc);
    cbn [app String.string_of_list_ascii Contains]; rewrite ?Heq, ?IH, !Hch by b64_arith; done.
Qed.

Lemma b64_no_panic enc s : b64_DecodeString enc s <> Panic.
Proof.
  unfold b64_DecodeString. set (l := List.filter _ _). clearbody l.
  assert (H : forall n l, (length l <= n)%nat -> b64_quads enc l <> Panic).
  { clear. induction n as [|n IH]; intros [|a [|b [|c [|d l]]]] Hl; simpl in *; try done; try lia;
      repeat case_match; try done; try lia.
    all: intros H'; destruct (b64_quads enc l) eqn:E; try done; by apply (IH l ltac:(lia)) in E. }
  by apply (H (length l)).
Qed.
