(* ===== verification/Crypto.v ===== *)
(** * Cryptographic primitives as parameters

    AES-GCM itself is a class of operations with its documented laws; what the Go
    library builds around it (key sizes, the random-nonce AEAD) is defined.
    Randomness is an argument of every operation that draws it.  GCM's limit of
    about 64 GiB on one message is not modelled. *)
From S2P Require Import Prelude.

Class AesGcm := {
  gcm_seal : bytes -> bytes -> bytes -> bytes -> bytes;
  gcm_open : bytes -> bytes -> bytes -> bytes -> option bytes;
}.

(** Arguments in order: key, nonce, text, additional data. *)
Class AesGcmLaws (A : AesGcm) := {
  gcm_open_seal : forall k n p a, length n = 12 -> gcm_open k n (gcm_seal k n p a) a = Some p;
  gcm_open_inv : forall k n c a p, gcm_open k n c a = Some p -> c = gcm_seal k n p a;
  gcm_seal_length : forall k n p a, length (gcm_seal k n p a) = length p + 16;
}.

(** The random bytes drawn by a process, one request after the other:
    [uuid.GenerateRandomBytes] may fail, the nonce of a Seal may not. *)
Class Entropy := {
  rand_bytes : nat -> nat -> outcome bytes;
  rand_nonce : nat -> bytes;
  rand_bytes_length : forall i n b, rand_bytes i n = Ret b -> length b = n;
  rand_nonce_length : forall i, length (rand_nonce i) = 12;
}.

(** [cipher.AEAD], as used here: a nil destination and an empty nonce argument.
    The first argument of Seal is the randomness it draws. *)
Record AEAD := mkAEAD {
  aead_Seal : bytes -> bytes -> bytes -> bytes;
  aead_Open : bytes -> bytes -> outcome slice;
}.

(** A split [s[:n]], [s[n:]], which panics on a short slice. *)
Definition cut_at (n : nat) (l : bytes) : outcome (bytes * bytes) :=
  if length l <? n then Panic else Ret (take n l, drop n l).

Definition aes_key_size (n : nat) : bool := (n =? 16) || (n =? 24) || (n =? 32).

(** [aes.NewCipher]. *)
Definition aes_NewCipher (key : bytes) : outcome bytes :=
  if aes_key_size (length key) then Ret key
  else Fail (ErrLeaf "crypto/aes: invalid key size").

Section gcm.
Context `{AesGcm}.

Definition ErrOpen : error := ErrLeaf "cipher: message authentication failed".

Definition random_nonce_gcm (key : bytes) : AEAD := {|
  aead_Seal nonce plaintext aad := nonce ++ gcm_seal key nonce plaintext aad;
  aead_Open ciphertext aad :=
    if length ciphertext <? 12 + 16 then Fail ErrOpen
    else match gcm_open key (take 12 ciphertext) (drop 12 ciphertext) aad with
         | Some p => Ret (to_slice p)
         | None => Fail ErrOpen
         end;
|}.

(** [cipher.NewGCMWithRandomNonce] on an AES block cipher. *)
Definition NewGCMWithRandomNonce (block : bytes) : outcome AEAD := Ret (random_nonce_gcm block).

Context `{!AesGcmLaws _}.

Lemma gcm_Seal_length key nonce p a :
  length (aead_Seal (random_nonce_gcm key) nonce p a) = length nonce + length p + 16.
Proof. simpl. rewrite length_app, gcm_seal_length. lia. Qed.

Lemma gcm_roundtrip key nonce p a :
  length nonce = 12 ->
  aead_Open (random_nonce_gcm key) (aead_Seal (random_nonce_gcm key) nonce p a) a
  = Ret (to_slice p).
Proof.
  intros Hn. pose proof (gcm_Seal_length key nonce p a) as Hl.
  cbn [aead_Open random_nonce_gcm] in *. rewrite Hl.
  destruct (_ <? _) eqn:E; [apply Nat.ltb_lt in E; lia|].
  simpl. rewrite take_app_length', drop_app_length', gcm_open_seal by done. done.
Qed.

(** Only sealed messages open. *)
Lemma gcm_Open_authentic key c a s :
  aead_Open (random_nonce_gcm key) c a = Ret s ->
  exists nonce, length nonce = 12 /\
    c = aead_Seal (random_nonce_gcm key) nonce (content s) a.
Proof.
  simpl. destruct (_ <? _) eqn:E; [done|]. apply Nat.ltb_ge in E.
  destruct (gcm_open _ _ _ _) as [p|] eqn:Ho; [|done]. intros [= <-].
  apply gcm_open_inv in Ho. exists (take 12 c).
  rewrite content_to_slice, <- Ho, take_drop. split; [|done].
  rewrite length_take. lia.
Qed.

Lemma gcm_Seal_cut key nonce p a :
  length nonce = 12 ->
  cut_at 12 (aead_Seal (random_nonce_gcm key) nonce p a)
  = Ret (nonce, gcm_seal key nonce p a).
Proof.
  intros Hn. unfold cut_at. rewrite gcm_Seal_length.
  destruct (_ <? _) eqn:E; [apply Nat.ltb_lt in E; lia|].
  simpl. by rewrite take_app_length', drop_app_length'.
Qed.
End gcm.

#[global] Opaque random_nonce_gcm.

(** ** A concrete instance, for evaluation

    The text in clear followed by a 16-byte checksum of everything: it satisfies
    the laws, and a wrong key, nonce or additional data is noticed. *)
Definition toy_tag (k n p a : bytes) : bytes :=
  let sum := fold_left (fun s b => (s * 31 + byte_to_Z b) mod 251)%Z (k ++ n ++ p ++ a) 7%Z in
  map (fun i => Z_to_byte (sum + Z.of_nat i)) (seq 0 16).

Definition toy_gcm : AesGcm := {|
  gcm_seal k n p a := p ++ toy_tag k n p a;
  gcm_open k n c a :=
    let p := take (length c - 16) c in
    if decide (c = p ++ toy_tag k n p a) then Some p else None;
|}.

Lemma toy_tag_length k n p a : length (toy_tag k n p a) = 16.
Proof. unfold toy_tag. by rewrite length_map, length_seq. Qed.

Lemma toy_gcm_laws : AesGcmLaws toy_gcm.
Proof.
  split; cbn [gcm_open gcm_seal toy_gcm].
  - intros k n p a _. rewrite length_app, toy_tag_length, Nat.add_sub.
    rewrite take_app_length. by rewrite decide_True.
  - intros k n c a p H. case_decide; [|done]. by injection H as <-.
  - intros k n p a. by rewrite length_app, toy_tag_length.
Qed.

(** Counting bytes as randomness. *)
#[program] Definition toy_entropy : Entropy := {|
  rand_bytes i n := Ret (map (fun j => Z_to_byte (Z.of_nat (i + j))) (seq 0 n));
  rand_nonce i := map (fun j => Z_to_byte (Z.of_nat (i + j))) (seq 0 12);
|}.
Next Obligation. intros i n b [= <-]. by rewrite length_map, length_seq. Qed.
Next Obligation. intros i. done. Qed.
