(* ===== verification/Wrapping.v ===== *)
(** * The root package: constants, data and options

    const.go, errors.go, types.proto, options.go and the Wrapper interface of
    wrapper.go.  An option is a [func() any] whose dynamic type decides who may
    run it; pointers handed to ParsePaths live in an explicit store, so aliased
    fields are aliased in the model. *)
From S2P Require Import Prelude.

(** ** Errors and constants *)

Definition ErrInvalidParameter : error := ErrSentinel "invalid parameter".

Definition ErrFunctionNotImplemented : error :=
  ErrSentinel "the wrapping plugin does not implement this function".

Definition WrapperTypeUnknown : string := "unknown".

Definition WrapperTypeAead : string := "aead".

Definition WrapperTypeTest : string := "test-auto".

(** [AeadType] and [HashType] are [uint32]; the constants are iota. *)
Definition AeadTypeUnknown : Z := 0.

Definition AeadTypeAesGcm : Z := 1.

Definition AeadType_String (t : Z) : string :=
  if Z.eqb t AeadTypeAesGcm then "aes-gcm" else "unknown".

Definition AeadTypeMap (t : string) : Z :=
  if String.eqb t "aes-gcm" then AeadTypeAesGcm else AeadTypeUnknown.

Definition HashTypeUnknown : Z := 0.

Definition HashTypeSha256 : Z := 1.

Definition HashType_String (t : Z) : string :=
  if Z.eqb t HashTypeSha256 then "sha256" else "unknown".

Definition HashTypeMap (t : string) : Z :=
  if String.eqb t "sha256" then HashTypeSha256 else HashTypeUnknown.

(** ** Messages *)

Record KeyInfo := mkKeyInfo {
  ki_Mechanism : Z;
  ki_KeyId : string;
  ki_WrappedKey : slice;
}.

Record BlobInfo := mkBlobInfo {
  bi_Ciphertext : slice;
  bi_Iv : slice;
  bi_KeyInfo : option KeyInfo;
}.

Record EnvelopeInfo := mkEnvelopeInfo {
  ei_Ciphertext : slice;
  ei_Key : slice;
  ei_Iv : slice;
}.

Record WrapperConfig := mkWrapperConfig { wc_Metadata : gmap string string }.

Record RPCOptions := mkRPCOptions {
  WithKeyId_ : string;
  WithAad_ : slice;
  WithConfigMap_ : gmap string string;
  WithDisallowEnvVars_ : bool;
}.

(** ** Options *)

(** A logger is an opaque value, named by a number. *)
Record Options := mkOptions {
  o_RPC : RPCOptions;
  o_Logger : option nat;
}.

(** The dynamic value an [Option] returns when called: nil, an option of this
    package, one of the calling package's own [OptionFunc], or one of another
    package. *)
Inductive Opt (L : Type) : Type :=
| OptNil
| OptGlobal (f : prog Options unit)
| OptLocal (f : L)
| OptOther.
Arguments OptNil {L}.
Arguments OptGlobal {L} f.
Arguments OptLocal {L} f.
Arguments OptOther {L}.

Definition getDefaultOptions : Options :=
  mkOptions (mkRPCOptions "" None ∅ false) None.

Definition set_rpc (f : RPCOptions -> RPCOptions) (o : Options) : Options :=
  mkOptions (f (o_RPC o)) (o_Logger o).

Definition WithAad {L} (with_ : slice) : Opt L := OptGlobal (modify (set_rpc (fun r =>
  mkRPCOptions (WithKeyId_ r) with_ (WithConfigMap_ r) (WithDisallowEnvVars_ r)))).

Definition WithKeyId {L} (with_ : string) : Opt L := OptGlobal (modify (set_rpc (fun r =>
  mkRPCOptions with_ (WithAad_ r) (WithConfigMap_ r) (WithDisallowEnvVars_ r)))).

Definition WithConfigMap {L} (with_ : gmap string string) : Opt L :=
  OptGlobal (modify (set_rpc (fun r =>
    mkRPCOptions (WithKeyId_ r) (WithAad_ r) with_ (WithDisallowEnvVars_ r)))).

Definition WithDisallowEnvVars {L} (disallowEnvVars : bool) : Opt L :=
  OptGlobal (modify (set_rpc (fun r =>
    mkRPCOptions (WithKeyId_ r) (WithAad_ r) (WithConfigMap_ r) disallowEnvVars))).

Definition WithLogger {L} (logger : option nat) : Opt L :=
  OptGlobal (modify (fun o => mkOptions (o_RPC o) logger)).

Definition ErrForeignOption : error := ErrLeaf (
  "option passed into top-level wrapping options handler" +:+
  " that is not from this package; this is likely due to the wrapper being" +:+
  " invoked as a plugin but options being sent from a specific wrapper package;" +:+
  " use WithConfigMap to send options via the plugin interface").

Fixpoint apply_options {L} (opt : list (Opt L)) (opts : Options) : outcome Options :=
  match opt with
  | [] => Ret opts
  | OptNil :: opt => apply_options opt opts
  | OptGlobal to :: opt =>
      match to opts with
      | (Ret _, opts) => apply_options opt opts
      | (Fail err, _) => Fail err
      | (Panic, _) => Panic
      end
  | _ :: _ => Fail ErrForeignOption
  end.

Definition GetOpts {L} (opt : list (Opt L)) : outcome Options :=
  apply_options opt getDefaultOptions.

(** ** Configured values and the environment

    The switch most wrappers read a setting with: unless environment variables
    are disallowed, the first of [names] that is set wins; then the configured
    value. *)
Definition is_set (s : string) : bool := negb (String.eqb s "").

Definition env_switch (getenv : string -> string) (disallow : bool) (names : list string)
    (configured : string) : string :=
  match find (fun n => negb disallow && negb (String.eqb (getenv n) "")) names with
  | Some n => getenv n
  | None => configured
  end.

Lemma env_switch_disallowed getenv names configured :
  env_switch getenv true names configured = configured.
Proof.
  unfold env_switch. by induction names.
Qed.

(** A variable that is set takes precedence over the configuration. *)
Lemma env_switch_set getenv n names configured :
  getenv n <> "" -> env_switch getenv false (n :: names) configured = getenv n.
Proof.
  intros H. unfold env_switch. simpl. destruct (String.eqb_spec (getenv n) ""); [done|]. done.
Qed.

Lemma is_set_spec s : is_set s = true <-> s <> "".
Proof. unfold is_set. destruct (String.eqb_spec s ""); naive_solver. Qed.

(** ** ParsePaths *)

Section parse_paths.
(** [parseutil.ParsePath] of a third-party module: it returns a value and an
    error, [ErrNotAUrl] marking a value that is not a reference. *)
Context (ParsePath : string -> string * option error).

Definition ErrNotAUrl : string := "not a url".

(** First pass: the new values, [None] for a nil pointer. *)
Fixpoint parse_fields (fields : list (option nat)) (st : gmap nat string)
  : outcome (list (option string)) :=
  match fields with
  | [] => Ret []
  | None :: fields => vs ← parse_fields fields st; Ret (None :: vs)
  | Some p :: fields =>
      match st !! p with
      | None => Panic
      | Some cur =>
          let (newVal, err) := ParsePath cur in
          match err with
          | Some e =>
              if errors_Is ErrNotAUrl e
              then vs ← parse_fields fields st; Ret (Some newVal :: vs)
              else Fail e
          | None => vs ← parse_fields fields st; Ret (Some newVal :: vs)
          end
      end
  end.

(** Second pass: write them back through the pointers. *)
Fixpoint write_fields (fields : list (option nat)) (vals : list (option string))
    (st : gmap nat string) : gmap nat string :=
  match fields, vals with
  | Some p :: fields, Some v :: vals => write_fields fields vals (<[p := v]> st)
  | _ :: fields, _ :: vals => write_fields fields vals st
  | _, _ => st
  end.

Definition ParsePaths (fields : list (option nat)) : prog (gmap nat string) unit := fun st =>
  match parse_fields fields st with
  | Ret newVals => (Ret tt, write_fields fields newVals st)
  | Fail e => (Fail e, st)
  | Panic => (Panic, st)
  end.

(** What a pointer's target becomes. *)
Definition parsed (s : string) : string := (ParsePath s).1.

Lemma parse_fields_values fields st vs :
  parse_fields fields st = Ret vs ->
  vs = map (fun f => p ← f; s ← st !! p; Some (parsed s)) fields.
Proof.
  revert vs. induction fields as [|[p|] fields IH]; simpl; intros vs H.
  - by injection H as <-.
  - destruct (st !! p) as [s|]; [|done]. unfold parsed. simpl.
    destruct (ParsePath s) as [v [e|]]; [destruct (errors_Is ErrNotAUrl e); [|done]|];
      inv_ret; subst vs; simpl; f_equal; by apply IH.
  - inv_ret. subst vs. f_equal. by apply IH.
Qed.

Lemma write_fields_lookup fields (st0 st : gmap nat string) q :
  (forall p, Some p ∈ fields -> is_Some (st0 !! p)) ->
  write_fields fields (map (fun f => p ← f; s ← st0 !! p; Some (parsed s)) fields) st !! q =
  if decide (Some q ∈ fields) then parsed <$> st0 !! q else st !! q.
Proof.
  revert st. induction fields as [|[p|] fields IH]; intros st Hdom; simpl.
  - done.
  - destruct (Hdom p ltac:(set_solver)) as [s Hs]. rewrite Hs. simpl.
    rewrite IH by set_solver.
    destruct (decide (Some q ∈ fields)); [by rewrite decide_True by set_solver|].
    destruct (decide (p = q)) as [->|Hne].
    + rewrite lookup_insert_eq, decide_True, Hs by set_solver. done.
    + rewrite lookup_insert_ne, decide_False by set_solver. done.
  - rewrite IH by set_solver.
    destruct (decide (Some q ∈ fields)); [rewrite decide_True by set_solver|
      rewrite decide_False by set_solver]; done.
Qed.

Lemma parse_fields_dom fields st vs :
  parse_fields fields st = Ret vs -> forall p, Some p ∈ fields -> is_Some (st !! p).
Proof.
  revert vs. induction fields as [|[p|] fields IH]; simpl; intros vs H q Hq; [set_solver| |].
  - destruct (st !! p) as [s|] eqn:Hp; [|done].
    destruct (ParsePath s) as [v [e|]]; [destruct (errors_Is ErrNotAUrl e); [|done]|];
      inv_ret; apply elem_of_cons in Hq as [[= ->]|Hq]; eauto.
  - inv_ret. apply elem_of_cons in Hq as [?|Hq]; [done|eauto].
Qed.
End parse_paths.

(** ** The Wrapper interface

    [W] is the implementing object with everything it owns, [L] its package's
    own option type; a method is a program over [W]. *)
Class Wrapper (L W : Type) := {
  w_Type : prog W string;
  w_SetConfig : list (Opt L) -> prog W (option WrapperConfig);
  w_Encrypt : slice -> list (Opt L) -> prog W (option BlobInfo);
  w_Decrypt : option BlobInfo -> list (Opt L) -> prog W slice;
  w_KeyId : prog W string;
}.

(** [InitFinalizer], implemented by some wrappers only. *)
Record InitFinalizer (L W : Type) := mkInitFinalizer {
  if_Init : list (Opt L) -> prog W unit;
  if_Finalize : list (Opt L) -> prog W unit;
}.
Arguments mkInitFinalizer {L W}.
Arguments if_Init {L W}.
Arguments if_Finalize {L W}.

(** Values that differ only in nil against empty byte slices: what a message
    keeps when it crosses a wire, or is stored and read back. *)
Definition slice_equiv (a b : slice) : Prop := content a = content b.

Definition keyinfo_equiv (a b : KeyInfo) : Prop :=
  ki_Mechanism a = ki_Mechanism b /\ ki_KeyId a = ki_KeyId b /\
  slice_equiv (ki_WrappedKey a) (ki_WrappedKey b).

Definition blob_equiv (a b : BlobInfo) : Prop :=
  slice_equiv (bi_Ciphertext a) (bi_Ciphertext b) /\ slice_equiv (bi_Iv a) (bi_Iv b) /\
  option_Forall2 keyinfo_equiv (bi_KeyInfo a) (bi_KeyInfo b).

#[export] Instance slice_equiv_equivalence : Equivalence slice_equiv.
Proof. unfold slice_equiv. split; congruence. Qed.

#[export] Instance keyinfo_equiv_equivalence : Equivalence keyinfo_equiv.
Proof. unfold keyinfo_equiv, slice_equiv. split; intros ?; naive_solver congruence. Qed.

#[export] Instance blob_equiv_equivalence : Equivalence blob_equiv.
Proof.
  unfold blob_equiv. split.
  - intros x. split_and!; reflexivity.
  - intros x y (? & ? & ?). split_and!; by symmetry.
  - intros x y z (? & ? & ?) (? & ? & ?). split_and!; etrans; eauto.
Qed.

#[export] Instance bi_Ciphertext_proper : Proper (blob_equiv ==> slice_equiv) bi_Ciphertext.
Proof. by intros x y (? & _). Qed.

#[export] Instance bi_Iv_proper : Proper (blob_equiv ==> slice_equiv) bi_Iv.
Proof. by intros x y (_ & ? & _). Qed.

#[export] Instance content_proper : Proper (slice_equiv ==> eq) content.
Proof. by intros x y. Qed.

(** Two option lists that ask for the same: additional data up to nil against
    empty, the same key identifier and configuration map. *)
Definition same_request {L} (l l' : list (Opt L)) : Prop :=
  exists o o', GetOpts l = Ret o /\ GetOpts l' = Ret o' /\
    slice_equiv (WithAad_ (o_RPC o)) (WithAad_ (o_RPC o')) /\
    WithKeyId_ (o_RPC o) = WithKeyId_ (o_RPC o') /\
    WithConfigMap_ (o_RPC o) = WithConfigMap_ (o_RPC o').

(** What a configured wrapper promises to its users: a blob it encrypts is
    decrypted by it, under the same request, to the same plaintext (an empty one
    may come back nil), also when the blob was stored and read back; a call that
    succeeds keeps it configured. *)
Class WrapperSpec {L W} (impl : Wrapper L W) (configured : W -> Prop) := {
  spec_roundtrip : forall (w w' : W) (pt : slice) opts opts' blob blob',
    configured w ->
    w_Encrypt pt opts w = (Ret (Some blob), w') ->
    same_request opts opts' -> blob_equiv blob blob' ->
    exists r, fst (w_Decrypt (Some blob') opts' w') = Ret r /\ slice_equiv r pt;
  spec_keeps_encrypt : forall (w w' : W) (pt : slice) opts blob,
    configured w -> w_Encrypt pt opts w = (Ret blob, w') -> configured w';
  spec_keeps_decrypt : forall (w w' : W) blob opts r,
    configured w -> w_Decrypt blob opts w = (Ret r, w') -> configured w';
}.

(** ** Properties *)

(** An option GetOpts accepts: nil, or one of this package that cannot fail. *)
Definition opt_ok {L} (o : Opt L) : Prop :=
  match o with
  | OptNil => True
  | OptGlobal f => forall opts, exists opts', f opts = (Ret tt, opts')
  | _ => False
  end.

Lemma apply_options_app {L} (l1 l2 : list (Opt L)) o :
  apply_options (l1 ++ l2) o = apply_options l1 o ≫= apply_options l2.
Proof.
  revert o. induction l1 as [|[|f|f|] l1 IH]; intros o; simpl; try done.
  destruct (f o) as [[]]; simpl; auto.
Qed.

Lemma apply_options_ok {L} (l : list (Opt L)) o :
  Forall opt_ok l -> exists o', apply_options l o = Ret o'.
Proof.
  intros Hl. revert o. induction Hl as [|[|f|f|] l Hf _ IH]; intros o; simpl in *; try done.
  - eauto.
  - destruct (Hf o) as [o' ->]. apply IH.
Qed.

(** GetOpts refuses a call with an option of another package (a foreign
    dynamic type or a wrapper package's own OptionFunc) wherever it stands among
    the accepted ones, nil options are skipped, and without a foreign option the
    call succeeds with the options applied left to right. *)
Theorem GetOpts_dispatch {L} (l1 l2 : list (Opt L)) (f : L) :
  Forall opt_ok l1 ->
  GetOpts (l1 ++ OptOther :: l2) = Fail ErrForeignOption /\
  GetOpts (l1 ++ OptLocal f :: l2) = Fail ErrForeignOption /\
  GetOpts (l1 ++ OptNil :: l2) = GetOpts (l1 ++ l2) /\
  exists o, GetOpts l1 = Ret o /\ GetOpts (l1 ++ l2) = apply_options l2 o.
Proof.
  intros Hl. unfold GetOpts.
  destruct (apply_options_ok l1 getDefaultOptions Hl) as [o Ho].
  rewrite !apply_options_app, Ho. simpl.
  split_and!; [done..|]. by exists o.
Qed.

Lemma GetOpts_dispatch_witness :
  GetOpts (L := nat) [WithKeyId "a"; OptNil; WithAad None; OptOther] = Fail ErrForeignOption /\
  (exists o, GetOpts (L := nat) [WithKeyId "a"; OptNil; WithKeyId "b"] = Ret o /\
    WithKeyId_ (o_RPC o) = "b").
Proof.
  split.
  - apply (GetOpts_dispatch (L := nat) [WithKeyId "a"; OptNil; WithAad None] [] 0).
    repeat constructor; simpl; unfold modify; eauto.
  - eexists. split; [reflexivity|]. reflexivity.
Defined.

(** ParsePaths is all or nothing, with the pointers read before any is
    written: when a reference cannot be resolved every field keeps its value;
    otherwise each non-nil pointer's target holds the resolution of its original
    value (once, even if the pointer is passed twice) and nothing else changes. *)
Theorem ParsePaths_atomic (ParsePath : string -> string * option error)
    (fields : list (option nat)) (st : gmap nat string) :
  (forall p, Some p ∈ fields -> is_Some (st !! p)) ->
  (exists e, ParsePaths ParsePath fields st = (Fail e, st)) \/
  (exists st', ParsePaths ParsePath fields st = (Ret tt, st') /\
    forall q, st' !! q =
      if decide (Some q ∈ fields) then parsed ParsePath <$> st !! q else st !! q).
Proof.
  intros Hdom. unfold ParsePaths.
  destruct (parse_fields ParsePath fields st) as [vs|e|] eqn:Hp.
  - right. eexists. split; [done|]. intros q.
    rewrite (parse_fields_values _ _ _ _ Hp). by apply write_fields_lookup.
  - left. by exists e.
  - exfalso. revert Hdom Hp. clear. induction fields as [|[p|] fields IH]; simpl; intros Hdom Hp.
    + done.
    + destruct (Hdom p ltac:(set_solver)) as [s Hs]. rewrite Hs in Hp.
      assert (Hd : forall p, Some p ∈ fields -> is_Some (st !! p)) by set_solver.
      specialize (IH Hd).
      destruct (ParsePath s) as [v [e|]]; [destruct (errors_Is ErrNotAUrl e); [|done]|];
        destruct (parse_fields ParsePath fields st); naive_solver.
    + specialize (IH ltac:(set_solver)). destruct (parse_fields ParsePath fields st); naive_solver.
Qed.

(** A resolver that understands one reference, and fails on another. *)
Definition demo_parse_path (s : string) : string * option error :=
  if String.eqb s "env://PIN" then ("1234", None)
  else if String.eqb s "env://NONE" then ("", Some (ErrLeaf "environment variable not set"))
  else (s, Some (ErrSentinel ErrNotAUrl)).

Lemma ParsePaths_atomic_witness :
  (exists st', ParsePaths demo_parse_path [Some 0; None; Some 1; Some 0] (<[0 := "env://PIN"]> {[ 1 := "x" ]})
    = (Ret tt, st') /\ st' !! 0 = Some "1234" /\ st' !! 1 = Some "x") /\
  fst (ParsePaths demo_parse_path [Some 0; Some 1] (<[0 := "env://PIN"]> {[ 1 := "env://NONE" ]}))
    = Fail (ErrLeaf "environment variable not set").
Proof.
  split.
  - destruct (ParsePaths_atomic demo_parse_path [Some 0; None; Some 1; Some 0]
      (<[0 := "env://PIN"]> {[ 1 := "x" ]})) as [[e He]|(st' & Hst & Hl)].
    + intros p Hp. repeat (apply elem_of_cons in Hp as [Hp|Hp]; [try injection Hp as ->; try done|]);
        try (by eexists); by apply not_elem_of_nil in Hp.
    + discriminate He.
    + exists st'. rewrite !Hl. done.
  - reflexivity.
Defined.
