(* ===== verification/Envelope.v ===== *)
(** * Envelope encryption and the test wrapper

    envelope.go (EnvelopeEncrypt, EnvelopeDecrypt, aeadEncrypter) and testing.go
    (TestWrapper with its two modes). *)
From S2P Require Import Prelude Crypto Wrapping.

(** [a ^ b] on bytes. *)
Definition byte_xor (a b : byte) : byte :=
  match a, b with
  | Ascii a0 a1 a2 a3 a4 a5 a6 a7, Ascii b0 b1 b2 b3 b4 b5 b6 b7 =>
      Ascii (xorb a0 b0) (xorb a1 b1) (xorb a2 b2) (xorb a3 b3)
            (xorb a4 b4) (xorb a5 b5) (xorb a6 b6) (xorb a7 b7)
  end.

Definition byte_zero : byte := Ascii false false false false false false false false.

Lemma byte_xor_involutive a b : byte_xor (byte_xor a b) b = a.
Proof.
  destruct a, b; simpl. rewrite !xorb_assoc, !xorb_nilpotent, !xorb_false_r. done.
Qed.

Section envelope.
Context `{AesGcm}.

Definition aeadEncrypter (key : bytes) : outcome AEAD :=
  aesCipher ← map_err (wrapf "failed to create cipher") (aes_NewCipher key);
  map_err (fun _ => ErrLeaf "failed to initialize GCM mode") (NewGCMWithRandomNonce aesCipher).

(** [dek] is the answer of [uuid.GenerateRandomBytes(32)], [nonce] what Seal
    draws. *)
Definition EnvelopeEncrypt {L} (dek : outcome bytes) (nonce : bytes) (plaintext : slice)
    (opt : list (Opt L)) : outcome EnvelopeInfo :=
  opts ← GetOpts opt;
  key ← dek;
  aead ← aeadEncrypter key;
  let ciphertext := aead_Seal aead nonce (content plaintext) (content (WithAad_ (o_RPC opts))) in
  '(iv, ct) ← cut_at 12 ciphertext;
  Ret {| ei_Iv := Some iv; ei_Ciphertext := Some ct; ei_Key := Some key |}.

Definition EnvelopeDecrypt {L} (data : option EnvelopeInfo) (opt : list (Opt L)) : outcome slice :=
  match data with
  | None => Fail (wrapf "missing envelope info" ErrInvalidParameter)
  | Some data =>
      opts ← GetOpts opt;
      aead ← aeadEncrypter (content (ei_Key data));
      let ciphertext := content (ei_Iv data) ++ content (ei_Ciphertext data) in
      aead_Open aead ciphertext (content (WithAad_ (o_RPC opts)))
  end.

Context `{!AesGcmLaws _}.

Lemma aeadEncrypter_Ret key a : aeadEncrypter key = Ret a ->
  a = random_nonce_gcm key /\ aes_key_size (length key) = true.
Proof.
  unfold aeadEncrypter, aes_NewCipher. destruct (aes_key_size _); [|done].
  by intros [= <-].
Qed.

Lemma aeadEncrypter_ok key :
  aes_key_size (length key) = true -> aeadEncrypter key = Ret (random_nonce_gcm key).
Proof. unfold aeadEncrypter, aes_NewCipher. by intros ->. Qed.

Lemma EnvelopeEncrypt_eq {L} (dek nonce : bytes) (pt : slice) (opt : list (Opt L)) o :
  length dek = 32 -> length nonce = 12 -> GetOpts opt = Ret o ->
  EnvelopeEncrypt (Ret dek) nonce pt opt =
    Ret {| ei_Iv := Some nonce;
           ei_Ciphertext := Some (gcm_seal dek nonce (content pt) (content (WithAad_ (o_RPC o))));
           ei_Key := Some dek |}.
Proof.
  intros Hk Hn Ho. unfold EnvelopeEncrypt. rewrite Ho. simpl.
  rewrite aeadEncrypter_ok by (by rewrite Hk). simpl. by rewrite gcm_Seal_cut.
Qed.

(** Only the concatenation of IV and ciphertext matters. *)
Lemma EnvelopeDecrypt_sealed {L} (dek nonce pt : bytes) (info : EnvelopeInfo)
    (opt : list (Opt L)) o :
  length dek = 32 -> length nonce = 12 -> GetOpts opt = Ret o ->
  content (ei_Key info) = dek ->
  content (ei_Iv info) ++ content (ei_Ciphertext info) =
    nonce ++ gcm_seal dek nonce pt (content (WithAad_ (o_RPC o))) ->
  EnvelopeDecrypt (Some info) opt = Ret (to_slice pt).
Proof.
  intros Hk Hn Ho Hkey Hc. unfold EnvelopeDecrypt. rewrite Ho. simpl.
  rewrite Hkey, Hc, aeadEncrypter_ok by (by rewrite Hk). by apply gcm_roundtrip.
Qed.
End envelope.

#[global] Arguments EnvelopeEncrypt {_ _} _ _ _ _ : simpl never.
#[global] Arguments EnvelopeDecrypt {_ _} _ _ : simpl never.

(** ** The test wrapper *)

Record TestWrapper := mkTestWrapper {
  tw_wrapperType : string;
  tw_secret : slice;
  tw_keyId : string;
  tw_envelope : bool;
  tw_ReturnKeyIdError : option error;
  tw_ReturnDecryptError : option error;
  tw_ReturnEncryptError : option error;
}.

Definition NewTestWrapper (secret : slice) : TestWrapper :=
  mkTestWrapper WrapperTypeTest secret "static-key" false None None None.

(** The wrapper embedded in a [TestInitFinalizer] is built the same way. *)
Definition NewTestInitFinalizer (secret : slice) : TestWrapper :=
  mkTestWrapper WrapperTypeTest secret "static-key" false None None None.

Definition NewTestEnvelopeWrapper (secret : slice) : TestWrapper :=
  mkTestWrapper WrapperTypeTest secret "static-key" true None None None.

Definition set_tw_keyId (k : string) (t : TestWrapper) : TestWrapper :=
  mkTestWrapper (tw_wrapperType t) (tw_secret t) k (tw_envelope t)
    (tw_ReturnKeyIdError t) (tw_ReturnDecryptError t) (tw_ReturnEncryptError t).

Section test_wrapper.
Context `{AesGcm}.

Definition tw_Type (t : TestWrapper) : outcome string := Ret (tw_wrapperType t).

Definition tw_KeyId (t : TestWrapper) : outcome string :=
  match tw_ReturnKeyIdError t with Some e => Fail e | None => Ret (tw_keyId t) end.

Definition tw_SetConfig {L} (opt : list (Opt L)) : prog TestWrapper (option WrapperConfig) :=
  opts ← lift (GetOpts opt);
  _ ← modify (set_tw_keyId (WithKeyId_ (o_RPC opts)));
  mret None.

Definition tw_SetKeyId (k : string) : prog TestWrapper unit := modify (set_tw_keyId k).

Definition tw_KeyBytes (t : TestWrapper) : outcome bytes :=
  match tw_secret t with
  | None => Fail (wrapf "missing bytes" ErrInvalidParameter)
  | Some s => Ret s
  end.

(** [copy(localSecret, secret)] into a zeroed slice of the input's length. *)
Definition local_secret (secret : bytes) (n : nat) : bytes :=
  take n secret ++ repeat byte_zero (n - length secret).

Definition obscureBytes (t : TestWrapper) (in_ : slice) : outcome slice :=
  let input := content in_ in
  match content (tw_secret t) with
  | [] => Ret (Some (rev input))
  | secret => Ret (Some (zip_with byte_xor input (local_secret secret (length input))))
  end.

Definition tw_Encrypt (dek : outcome bytes) (nonce : bytes) (t : TestWrapper)
    (plaintext : slice) : outcome BlobInfo :=
  match tw_ReturnEncryptError t with
  | Some e => Fail e
  | None =>
      if tw_envelope t then
        env ← map_err (wrapf "error wrapping data")
          (EnvelopeEncrypt (L := Empty_set) dek nonce plaintext [OptNil]);
        ct ← obscureBytes t (ei_Key env);
        keyId ← tw_KeyId t;
        Ret {| bi_Ciphertext := ei_Ciphertext env; bi_Iv := ei_Iv env;
               bi_KeyInfo := Some (mkKeyInfo 0 keyId ct) |}
      else
        ct ← obscureBytes t plaintext;
        keyId ← tw_KeyId t;
        Ret {| bi_Ciphertext := ct; bi_Iv := None;
               bi_KeyInfo := Some (mkKeyInfo 0 keyId None) |}
  end.

(** A nil blob, or in envelope mode a blob without key info, is dereferenced. *)
Definition tw_Decrypt (t : TestWrapper) (dwi : option BlobInfo) : outcome slice :=
  match tw_ReturnDecryptError t with
  | Some e => Fail e
  | None =>
      match dwi with
      | None => Panic
      | Some dwi =>
          if tw_envelope t then
            match bi_KeyInfo dwi with
            | None => Panic
            | Some ki =>
                keyPlaintext ← obscureBytes t (ki_WrappedKey ki);
                map_err (wrapf "error decrypting data with envelope")
                  (EnvelopeDecrypt (L := Empty_set)
                     (Some {| ei_Key := keyPlaintext; ei_Iv := bi_Iv dwi;
                              ei_Ciphertext := bi_Ciphertext dwi |}) [OptNil])
            end
          else obscureBytes t (bi_Ciphertext dwi)
      end
  end.

Lemma local_secret_length secret n : length (local_secret secret n) = n.
Proof. unfold local_secret. rewrite length_app, length_take, repeat_length. lia. Qed.

Lemma zip_xor_involutive l k :
  length k = length l -> zip_with byte_xor (zip_with byte_xor l k) k = l.
Proof.
  revert k. induction l as [|b l IH]; intros [|c k]; simpl; try done.
  intros [= Hk]. by rewrite byte_xor_involutive, IH.
Qed.

(** Obscuring twice gives the bytes back, in both modes. *)
Lemma obscureBytes_involutive t s :
  exists s', obscureBytes t s = Ret s' /\ obscureBytes t s' = Ret (Some (content s)).
Proof.
  unfold obscureBytes. destruct (content (tw_secret t)) as [|b k] eqn:Hs.
  - eexists. split; [done|]. simpl. by rewrite rev_involutive.
  - eexists. split; [done|]. set (sec := b :: k).
    unfold content at 1 2. simpl.
    rewrite length_zip_with, local_secret_length, Nat.min_id.
    rewrite zip_xor_involutive by apply local_secret_length. done.
Qed.
End test_wrapper.

(** ** Properties *)

Section properties.
Context `{AesGcm, !AesGcmLaws _}.

(** C36: what EnvelopeEncrypt returns, under a fresh 32-byte key and a 12-byte
    nonce, EnvelopeDecrypt opens to the plaintext under the same additional
    data (an empty plaintext comes back as a nil slice); the IV is the 12-byte
    nonce, the ciphertext is 16 bytes longer than the plaintext, and a combined
    layout with the nonce left in front of the ciphertext opens as well. *)
Theorem envelope_roundtrip {L} (dek nonce : bytes) (pt aad : slice) :
  length dek = 32 -> length nonce = 12 ->
  exists info,
    EnvelopeEncrypt (L := L) (Ret dek) nonce pt [WithAad aad] = Ret info /\
    EnvelopeDecrypt (L := L) (Some info) [WithAad aad] = Ret (to_slice (content pt)) /\
    EnvelopeDecrypt (L := L)
      (Some {| ei_Key := ei_Key info; ei_Iv := None;
               ei_Ciphertext := Some (content (ei_Iv info) ++ content (ei_Ciphertext info)) |})
      [WithAad aad] = Ret (to_slice (content pt)) /\
    ei_Iv info = Some nonce /\ slen (ei_Ciphertext info) = slen pt + 16.
Proof.
  intros Hk Hn. eexists. split; [by apply EnvelopeEncrypt_eq|].
  split_and!; [by eapply EnvelopeDecrypt_sealed..| done |].
  unfold slen. simpl. by rewrite gcm_seal_length.
Qed.

(** EnvelopeDecrypt never answers with bytes it cannot authenticate: a
    success means the key has an AES size and the concatenation of IV and
    ciphertext is a nonce followed by the sealing of exactly the returned bytes
    under the given additional data; nil info is refused with an error that is
    ErrInvalidParameter. *)
Theorem envelope_decrypt_authentic {L} (data : option EnvelopeInfo) (aad : slice) (s : slice) :
  (EnvelopeDecrypt (L := L) data [WithAad aad] = Ret s ->
   exists info nonce, data = Some info /\ length nonce = 12 /\
     aes_key_size (slen (ei_Key info)) = true /\
     content (ei_Iv info) ++ content (ei_Ciphertext info) =
       nonce ++ gcm_seal (content (ei_Key info)) nonce (content s) (content aad)) /\
  (exists e, EnvelopeDecrypt (L := L) None [WithAad aad] = Fail e /\
     errors_Is "invalid parameter" e = true).
Proof.
  split; [|by eexists].
  destruct data as [info|]; [|done]. unfold EnvelopeDecrypt. cbn [GetOpts apply_options WithAad modify].
  intros Hd. inv_ret. subst.
  apply aeadEncrypter_Ret in Hret0 as [-> Hk].
  apply gcm_Open_authentic in Hd as (nonce & Hn & Hc).
  by exists info, nonce.
Qed.

(** the test wrapper gives back what it encrypted, in envelope mode (up to
    nil for an empty plaintext) and in the direct mode, with and without a
    secret, and refuses exactly with the configured errors. *)
Theorem test_wrapper_roundtrip (t : TestWrapper) (dek nonce : bytes) (pt : slice) (blob : BlobInfo) :
  length dek = 32 -> length nonce = 12 -> tw_ReturnDecryptError t = None ->
  tw_Encrypt (Ret dek) nonce t pt = Ret blob ->
  exists s, tw_Decrypt t (Some blob) = Ret s /\ content s = content pt /\
    exists ki, bi_KeyInfo blob = Some ki /\ tw_KeyId t = Ret (ki_KeyId ki).
Proof.
  intros Hk Hn Hd. unfold tw_Encrypt, tw_Decrypt. rewrite Hd.
  destruct (tw_ReturnEncryptError t); [done|].
  destruct (tw_envelope t).
  - erewrite EnvelopeEncrypt_eq by done. simpl.
    destruct (obscureBytes_involutive t (Some dek)) as (w & -> & Hw). simpl.
    intros H0. inv_ret. subst blob. simpl. rewrite Hw. simpl.
    erewrite EnvelopeDecrypt_sealed by done. simpl.
    eexists. split_and!; [done | apply content_to_slice | by eexists].
  - destruct (obscureBytes_involutive t pt) as (w & -> & Hw). simpl.
    intros H0. inv_ret. subst blob. simpl. rewrite Hw.
    eexists. split_and!; [done | done | by eexists].
Qed.
End properties.

(** ** Witnesses, on the toy cipher *)

#[local] Existing Instance toy_gcm.
#[local] Existing Instance toy_gcm_laws.
#[local] Existing Instance toy_entropy.
#[local] Existing Instance default_order.

Definition demo_nonce : bytes := rand_nonce 5.

Definition demo_dek : bytes := repeat "k"%char 32.

Lemma envelope_roundtrip_witness :
  length demo_dek = 32 /\ length demo_nonce = 12 /\
  exists info, EnvelopeEncrypt (L := Empty_set) (Ret demo_dek) demo_nonce
      (Some (bytes_of_string "secret")) [WithAad None] = Ret info /\
    EnvelopeDecrypt (L := Empty_set) (Some info) [WithAad None]
      = Ret (Some (bytes_of_string "secret")).
Proof.
  split; [reflexivity|]. split; [reflexivity|].
  destruct (envelope_roundtrip (L := Empty_set) demo_dek demo_nonce
    (Some (bytes_of_string "secret")) None eq_refl eq_refl) as (info & He & Hd & _).
  by exists info.
Defined.

Lemma test_wrapper_roundtrip_witness :
  exists blob s,
    tw_Encrypt (Ret demo_dek) demo_nonce (NewTestEnvelopeWrapper (Some (bytes_of_string "abc")))
      (Some (bytes_of_string "payload")) = Ret blob /\
    tw_Decrypt (NewTestEnvelopeWrapper (Some (bytes_of_string "abc"))) (Some blob) = Ret s /\
    content s = bytes_of_string "payload".
Proof.
  eexists. destruct (test_wrapper_roundtrip
    (NewTestEnvelopeWrapper (Some (bytes_of_string "abc"))) demo_dek demo_nonce
    (Some (bytes_of_string "payload")) _ eq_refl eq_refl eq_refl eq_refl) as (s & Hd & Hs & _).
  exists s. split; [reflexivity|]. split; [exact Hd|exact Hs].
Defined.
