(* ===== verification/Aead.v ===== *)
(** * The in-memory AEAD wrapper

    aead/options.go and aead/aead.go (re-exported by wrappers/aead/aead.go).
    The Go methods mutate the Wrapper they are called on; here a method is a
    program over it.  HKDF is a parameter. *)
From S2P Require Import Prelude GoText GoEncoding Crypto Wrapping.

(** ** Options *)

Record options := mk_options {
  opts_Options : Options;
  opts_WithAeadType : Z;
  opts_WithHashType : Z;
  opts_WithInfo : slice;
  opts_WithKey : slice;
  opts_WithSalt : slice;
  opts_WithRandomReader : option nat;
}.

(** The dynamic value of a local option; an [OptionFunc] may itself be nil. *)
Abbreviation OptionFunc := (option (prog options unit)).

Definition default_options : options :=
  mk_options getDefaultOptions AeadTypeAesGcm HashTypeSha256 None None None (Some 0).

Definition set_Options (x : Options) (o : options) : options :=
  mk_options x (opts_WithAeadType o) (opts_WithHashType o) (opts_WithInfo o)
    (opts_WithKey o) (opts_WithSalt o) (opts_WithRandomReader o).

Definition set_WithAeadType (x : Z) (o : options) : options :=
  mk_options (opts_Options o) x (opts_WithHashType o) (opts_WithInfo o)
    (opts_WithKey o) (opts_WithSalt o) (opts_WithRandomReader o).

Definition set_WithHashType (x : Z) (o : options) : options :=
  mk_options (opts_Options o) (opts_WithAeadType o) x (opts_WithInfo o)
    (opts_WithKey o) (opts_WithSalt o) (opts_WithRandomReader o).

Definition set_WithInfo (x : slice) (o : options) : options :=
  mk_options (opts_Options o) (opts_WithAeadType o) (opts_WithHashType o) x
    (opts_WithKey o) (opts_WithSalt o) (opts_WithRandomReader o).

Definition set_WithKey (x : slice) (o : options) : options :=
  mk_options (opts_Options o) (opts_WithAeadType o) (opts_WithHashType o) (opts_WithInfo o)
    x (opts_WithSalt o) (opts_WithRandomReader o).

Definition set_WithSalt (x : slice) (o : options) : options :=
  mk_options (opts_Options o) (opts_WithAeadType o) (opts_WithHashType o) (opts_WithInfo o)
    (opts_WithKey o) x (opts_WithRandomReader o).

Definition set_WithRandomReader (x : option nat) (o : options) : options :=
  mk_options (opts_Options o) (opts_WithAeadType o) (opts_WithHashType o) (opts_WithInfo o)
    (opts_WithKey o) (opts_WithSalt o) x.

Definition WithAeadType (aeadType : Z) : Opt OptionFunc :=
  OptLocal (Some (modify (set_WithAeadType aeadType))).

Definition WithHashType (hash : Z) : Opt OptionFunc :=
  OptLocal (Some (modify (set_WithHashType hash))).

Definition WithInfo (info : slice) : Opt OptionFunc :=
  OptLocal (Some (modify (set_WithInfo info))).

Definition WithKey (key : slice) : Opt OptionFunc :=
  OptLocal (Some (modify (set_WithKey key))).

Definition WithSalt (salt : slice) : Opt OptionFunc :=
  OptLocal (Some (modify (set_WithSalt salt))).

Definition WithRandomReader (reader : option nat) : Opt OptionFunc :=
  OptLocal (Some (modify (set_WithRandomReader reader))).

(** The first loop of getOpts: options of this module's root package are kept
    as they are, local ones collected; a nil option or one of another package is
    dropped without an error. *)
Fixpoint split_options (opt : list (Opt OptionFunc))
  : list (Opt OptionFunc) * list OptionFunc :=
  match opt with
  | [] => ([], [])
  | o :: opt =>
      let (w, l) := split_options opt in
      match o with
      | OptGlobal _ => (o :: w, l)
      | OptLocal f => (w, f :: l)
      | _ => (w, l)
      end
  end.

(** One entry of the configuration map. *)
Definition config_step (kv : string * string) (opts : options) : outcome options :=
  let (k, v) := kv in
  if String.eqb k "aead_type" then Ret (set_WithAeadType (AeadTypeMap v) opts)
  else if String.eqb k "hash_type" then Ret (set_WithHashType (HashTypeMap v) opts)
  else if String.eqb k "key" then
    b ← map_err (wrapf "error base64-decoding key value") (b64_DecodeString StdEncoding v);
    Ret (set_WithKey (Some b) opts)
  else if String.eqb k "salt" then
    b ← map_err (wrapf "error base64-decoding salt value") (b64_DecodeString StdEncoding v);
    Ret (set_WithSalt (Some b) opts)
  else if String.eqb k "info" then
    b ← map_err (wrapf "error base64-decoding info value") (b64_DecodeString StdEncoding v);
    Ret (set_WithInfo (Some b) opts)
  else Ret opts.

(** The last loop: local option functions, skipping nil ones. *)
Fixpoint run_local (l : list OptionFunc) (opts : options) : outcome options :=
  match l with
  | [] => Ret opts
  | None :: l => run_local l opts
  | Some o :: l =>
      match o opts with
      | (Ret _, opts) => run_local l opts
      | (Fail e, _) => Fail e
      | (Panic, _) => Panic
      end
  end.

Definition getOpts `{RangeOrder} (opt : list (Opt OptionFunc)) : outcome options :=
  let (wrappingOptions, localOptions) := split_options opt in
  o ← GetOpts wrappingOptions;
  let opts := set_Options o default_options in
  opts ← range_loop config_step (range_order (WithConfigMap_ (o_RPC o))) opts;
  run_local localOptions opts.

(** ** The wrapper *)

Record awrapper := mk_awrapper {
  aw_keyId : string;
  aw_keyBytes : slice;
  aw_aead : option AEAD;
}.

Definition NewWrapper : awrapper := mk_awrapper "" None None.

Definition aw_Type (s : awrapper) : outcome string := Ret WrapperTypeAead.

Definition aw_KeyId (s : awrapper) : outcome string := Ret (aw_keyId s).

Definition aw_KeyBytes (s : awrapper) : outcome bytes :=
  match aw_keyBytes s with
  | None => Fail (wrapf "missing bytes" ErrInvalidParameter)
  | Some b => Ret b
  end.

Definition SetAead (aead : option AEAD) : prog awrapper unit :=
  modify (fun s => mk_awrapper (aw_keyId s) (aw_keyBytes s) aead).

Section wrapper.
Context `{AesGcm, RangeOrder}.

(** [hkdf.Key(sha256.New, secret, salt, info, length)]. *)
Context (hkdf_Key : bytes -> bytes -> bytes -> nat -> outcome bytes).

Definition SetAesGcmKeyBytes (key : slice) : prog awrapper unit :=
  aesCipher ← lift (aes_NewCipher (content key));
  aead ← lift (NewGCMWithRandomNonce aesCipher);
  modify (fun s => mk_awrapper (aw_keyId s) key (Some aead)).

Definition aw_SetConfig (opt : list (Opt OptionFunc)) : prog awrapper (option WrapperConfig) :=
  opts ← lift (getOpts opt);
  _ ← modify (fun s => mk_awrapper (WithKeyId_ (o_RPC (opts_Options opts)))
                         (aw_keyBytes s) (aw_aead s));
  if slen (opts_WithKey opts) =? 0 then mret None
  else if Z.eqb (opts_WithAeadType opts) AeadTypeAesGcm then
    r ← attempt (SetAesGcmKeyBytes (opts_WithKey opts));
    _ ← lift (map_err (wrapf "error setting AES GCM key") r);
    mret (Some (mkWrapperConfig
      {[ "aead_type" := AeadType_String (opts_WithAeadType opts) ]}))
  else lift (Fail (ErrLeaf
    ("unsupported aead_type " +:+ quoted (AeadType_String (opts_WithAeadType opts))))).

Definition NewDerivedWrapper (s : awrapper) (opt : list (Opt OptionFunc)) : outcome awrapper :=
  if slen (aw_keyBytes s) =? 0 then
    Fail (ErrLeaf "cannot create a sub-wrapper when key bytes are not set")
  else
    opts ← getOpts opt;
    if negb (Z.eqb (opts_WithHashType opts) HashTypeSha256) then
      Fail (ErrLeaf ("not a supported hash type: " +:+ FormatUint (opts_WithHashType opts)))
    else
      let ret := mk_awrapper (WithKeyId_ (o_RPC (opts_Options opts))) None None in
      if Z.eqb (opts_WithAeadType opts) AeadTypeAesGcm then
        keyBytes ← map_err (wrapf "error reading bytes from derived reader")
          (hkdf_Key (content (aw_keyBytes s)) (content (opts_WithSalt opts))
             (content (opts_WithInfo opts)) (slen (aw_keyBytes s)));
        let ret := mk_awrapper (aw_keyId ret) (Some keyBytes) None in
        if negb (length keyBytes =? slen (aw_keyBytes s)) then
          Fail (ErrLeaf ("expected to read " +:+ FormatUint (Z.of_nat (slen (aw_keyBytes s))) +:+
            " bytes, but read " +:+ FormatUint (Z.of_nat (length keyBytes)) +:+
            " bytes from derived reader"))
        else
          match SetAesGcmKeyBytes (aw_keyBytes ret) ret with
          | (Ret _, ret) => Ret ret
          | (Fail e, _) => Fail (wrapf "error setting derived AES GCM key" e)
          | (Panic, _) => Panic
          end
      else Fail (ErrLeaf ("not a supported aead type: " +:+ FormatUint (opts_WithAeadType opts))).

(** [nonce] is what Seal draws.  The random reader option is read and given a
    default, but nothing uses it. *)
Definition aw_Encrypt (nonce : bytes) (s : awrapper) (plaintext : slice)
    (opt : list (Opt OptionFunc)) : outcome (option BlobInfo) :=
  match plaintext with
  | None => Fail (ErrLeaf "given plaintext for encryption is nil")
  | Some pt =>
      match aw_aead s with
      | None => Fail (ErrLeaf "aead is not configured in the seal")
      | Some aead =>
          opts ← getOpts opt;
          let opts := match opts_WithRandomReader opts with
                      | None => set_WithRandomReader (Some 0) opts
                      | Some _ => opts
                      end in
          let ciphertext := aead_Seal aead nonce pt
                              (content (WithAad_ (o_RPC (opts_Options opts)))) in
          Ret (Some {| bi_Ciphertext := Some ciphertext; bi_Iv := None;
                       bi_KeyInfo := Some (mkKeyInfo 0 (aw_keyId s) None) |})
      end
  end.

Definition aw_Decrypt (s : awrapper) (in_ : option BlobInfo)
    (opt : list (Opt OptionFunc)) : outcome slice :=
  match in_ with
  | None => Fail (ErrLeaf "given plaintext for encryption is nil")
  | Some blob =>
      match aw_aead s with
      | None => Fail (ErrLeaf "aead is not configured in the seal")
      | Some aead =>
          opts ← getOpts opt;
          aead_Open aead (content (bi_Ciphertext blob))
            (content (WithAad_ (o_RPC (opts_Options opts))))
      end
  end.
End wrapper.

(** ** getOpts, field by field *)

Definition config_ok (kv : string * string) : bool :=
  let (k, v) := kv in
  if String.eqb k "key" || String.eqb k "salt" || String.eqb k "info"
  then is_ret (b64_DecodeString StdEncoding v) else true.

Lemma config_step_ok kv o : is_ret (config_step kv o) = config_ok kv.
Proof.
  destruct kv as [k v]. unfold config_step, config_ok.
  repeat match goal with
  | |- context [String.eqb k ?s] => destruct (String.eqb_spec k s); subst; simpl; try done
  end; by destruct (b64_DecodeString StdEncoding v).
Qed.

(** Prove one of the per-field hypotheses of [range_loop_field]. *)
Ltac config_field :=
  intros k v a a' Hs; unfold config_step in Hs;
  repeat match type of Hs with
  | context [String.eqb k ?s] => destruct (String.eqb_spec k s); simplify_eq
  end; inv_ret; subst; simpl; repeat case_decide; simplify_eq; try done;
  repeat match goal with E : b64_DecodeString _ _ = Ret _ |- _ => rewrite E; clear E end; done.

Definition decoded (v : string) : slice :=
  match b64_DecodeString StdEncoding v with Ret b => Some b | _ => None end.

(** The fields a successful configuration loop leaves. *)
Lemma config_loop_fields `{RangeOrder} (m : gmap string string) o o' :
  range_loop config_step (range_order m) o = Ret o' ->
  o' = mk_options (opts_Options o)
         (default (opts_WithAeadType o) (AeadTypeMap <$> m !! "aead_type"))
         (default (opts_WithHashType o) (HashTypeMap <$> m !! "hash_type"))
         (default (opts_WithInfo o) (decoded <$> m !! "info"))
         (default (opts_WithKey o) (decoded <$> m !! "key"))
         (default (opts_WithSalt o) (decoded <$> m !! "salt"))
         (opts_WithRandomReader o).
Proof.
  intros Hl. pose proof (range_order_NoDup _ m) as Hnd.
  assert (Hf : forall F (proj : options -> F) key conv,
    (forall k v a a', config_step (k, v) a = Ret a' ->
       proj a' = if decide (k = key) then conv v else proj a) ->
    proj o' = default (proj o) (conv <$> m !! key)).
  { intros F proj key conv Hp.
    rewrite (range_loop_field config_step proj key conv _ _ _ Hp Hnd Hl).
    by rewrite range_order_lookup. }
  pose proof (range_loop_frame config_step opts_Options _ _ _ ltac:(config_field) Hl) as H1.
  pose proof (range_loop_frame config_step opts_WithRandomReader _ _ _ ltac:(config_field) Hl) as H2.
  rewrite <- (Hf _ opts_WithAeadType "aead_type" AeadTypeMap),
    <- (Hf _ opts_WithHashType "hash_type" HashTypeMap),
    <- (Hf _ opts_WithInfo "info" decoded), <- (Hf _ opts_WithKey "key" decoded),
    <- (Hf _ opts_WithSalt "salt" decoded), <- H1, <- H2;
    [by destruct o' | unfold decoded; config_field..].
Qed.

Lemma config_loop_order (R1 R2 : RangeOrder) m o o' :
  range_loop config_step (@range_order R1 m) o = Ret o' ->
  range_loop config_step (@range_order R2 m) o = Ret o'.
Proof.
  intros Hl.
  assert (Hr : is_ret (range_loop config_step (@range_order R2 m) o) = true).
  { rewrite (range_loop_success _ config_ok _ _ config_step_ok).
    rewrite (forallb_perm _ _ (@range_order R1 m)) by (by rewrite !range_order_perm).
    rewrite <- (range_loop_success config_step config_ok _ o config_step_ok). by rewrite Hl. }
  apply is_ret_Ret in Hr as [o2 Ho2]. rewrite Ho2. f_equal.
  by rewrite (config_loop_fields m o o2 Ho2), (config_loop_fields m o o' Hl).
Qed.

Lemma getOpts_order (R1 R2 : RangeOrder) opt o :
  @getOpts R1 opt = Ret o -> @getOpts R2 opt = Ret o.
Proof.
  unfold getOpts. destruct (split_options opt) as [w l].
  destruct (GetOpts w) as [g|e|]; [|done..]. cbn [mbind outcome_bind].
  intros Hg. apply obind_Ret in Hg as (o1 & Hl & Hr).
  apply (config_loop_order R1 R2) in Hl. by rewrite Hl.
Qed.

(** A call with generic options only. *)
Lemma getOpts_global `{RangeOrder} g :
  WithConfigMap_ (o_RPC g) = ∅ ->
  forall opt, split_options opt = (opt, []) -> GetOpts opt = Ret g ->
  getOpts opt = Ret (set_Options g default_options).
Proof.
  intros Hm opt Hs Hg. unfold getOpts. rewrite Hs, Hg. cbn [mbind outcome_bind]. rewrite Hm.
  assert (range_order ∅ = []) as ->; [|done].
  apply Permutation_nil. by rewrite range_order_perm, map_to_list_empty.
Qed.

Lemma getOpts_aad `{RangeOrder} aad :
  getOpts [WithAad aad] =
    Ret (set_Options (mkOptions (mkRPCOptions "" aad ∅ false) None) default_options).
Proof. by apply getOpts_global. Qed.

Lemma SetAesGcmKeyBytes_eq `{AesGcm} key s :
  SetAesGcmKeyBytes key s =
    if aes_key_size (slen key)
    then (Ret tt, mk_awrapper (aw_keyId s) key (Some (random_nonce_gcm (content key))))
    else (Fail (ErrLeaf "crypto/aes: invalid key size"), s).
Proof.
  unfold SetAesGcmKeyBytes, aes_NewCipher, slen. run_prog.
  by destruct (aes_key_size _).
Qed.

(** ** Properties *)

(** the configuration map is read the same in every iteration order: if a
    call of getOpts succeeds under one order it succeeds under any other with the
    same options, local option functions included; and for a configuration map
    alone it succeeds exactly when the key, salt and info entries are standard
    base64, each field then holding its own entry or the default (AES-GCM and
    SHA-256). *)
Theorem aead_getOpts_config (R1 R2 : RangeOrder) opt (m : gmap string string) :
  (forall o, @getOpts R1 opt = Ret o <-> @getOpts R2 opt = Ret o) /\
  (is_ret (@getOpts R1 [WithConfigMap m]) = forallb config_ok (map_to_list m)) /\
  (forall o, @getOpts R1 [WithConfigMap m] = Ret o ->
    opts_WithAeadType o = default AeadTypeAesGcm (AeadTypeMap <$> m !! "aead_type") /\
    opts_WithHashType o = default HashTypeSha256 (HashTypeMap <$> m !! "hash_type") /\
    opts_WithKey o = default None (decoded <$> m !! "key") /\
    opts_WithSalt o = default None (decoded <$> m !! "salt") /\
    opts_WithInfo o = default None (decoded <$> m !! "info")).
Proof.
  split; [intros o; split; apply getOpts_order|].
  unfold getOpts. cbn [split_options WithConfigMap mbind outcome_bind GetOpts apply_options modify].
  cbn [set_rpc o_RPC WithConfigMap_].
  set (o0 := set_Options _ _).
  assert (Hsplit : forall l, range_loop config_step l o0 ≫= run_local [] = range_loop config_step l o0)
    by (intros l; by destruct (range_loop config_step l o0)).
  rewrite Hsplit. split.
  - rewrite (range_loop_success _ config_ok _ _ config_step_ok).
    apply forallb_perm, range_order_perm.
  - intros o Ho. apply config_loop_fields in Ho as ->. done.
Qed.

Section properties.
Context `{AesGcm, !AesGcmLaws _, R : RangeOrder}.

(** SetConfig of the AEAD wrapper: options that do not parse leave the
    wrapper as it was; otherwise the key ID is taken over, and without a key
    nothing else changes; a key of an AES size installs that key and its GCM
    cipher and reports the AEAD type; any other key or AEAD type is an error that
    leaves the key material untouched. *)
Theorem aead_SetConfig_spec (opt : list (Opt OptionFunc)) (s : awrapper) :
  match getOpts opt with
  | Ret o =>
      let keyId := WithKeyId_ (o_RPC (opts_Options o)) in
      let key := opts_WithKey o in
      if slen key =? 0 then
        aw_SetConfig opt s = (Ret None, mk_awrapper keyId (aw_keyBytes s) (aw_aead s))
      else if Z.eqb (opts_WithAeadType o) AeadTypeAesGcm && aes_key_size (slen key) then
        aw_SetConfig opt s =
          (Ret (Some (mkWrapperConfig {[ "aead_type" := "aes-gcm" ]})),
           mk_awrapper keyId key (Some (random_nonce_gcm (content key))))
      else exists e,
        aw_SetConfig opt s = (Fail e, mk_awrapper keyId (aw_keyBytes s) (aw_aead s))
  | Fail e => aw_SetConfig opt s = (Fail e, s)
  | Panic => aw_SetConfig opt s = (Panic, s)
  end.
Proof.
  unfold aw_SetConfig. run_prog.
  destruct (getOpts opt) as [o|e|]; [|done..]. cbn zeta. run_prog.
  destruct (slen (opts_WithKey o) =? 0); [done|].
  destruct (Z.eqb_spec (opts_WithAeadType o) AeadTypeAesGcm) as [Ht|]; [|by eexists].
  run_prog. rewrite SetAesGcmKeyBytes_eq. unfold slen.
  destruct (aes_key_size _); simpl; [by rewrite Ht | by eexists].
Qed.

(** a wrapper holding an AES-GCM key decrypts what it encrypted under the
    same additional data, whatever the nonce drawn, and records its key ID in
    the blob; nil plaintext and an unconfigured wrapper are errors. *)
Theorem aead_roundtrip (key : slice) (s s' : awrapper) (nonce : bytes) (pt aad : slice) :
  SetAesGcmKeyBytes key s = (Ret tt, s') -> length nonce = 12 ->
  match aw_Encrypt nonce s' pt [WithAad aad] with
  | Ret blob =>
      aw_Decrypt s' blob [WithAad aad] = Ret (to_slice (content pt)) /\
      exists b, blob = Some b /\ bi_KeyInfo b = Some (mkKeyInfo 0 (aw_keyId s') None)
  | Fail _ => pt = None
  | Panic => False
  end.
Proof.
  intros Hs Hn. rewrite SetAesGcmKeyBytes_eq in Hs.
  destruct (aes_key_size _) eqn:Hk; [|done]. injection Hs as <-.
  destruct pt as [pt|]; [|done]. unfold aw_Encrypt, aw_Decrypt. simpl.
  rewrite !getOpts_aad. simpl. split; [|by eexists].
  by apply gcm_roundtrip.
Qed.

(** NewDerivedWrapper needs a configured parent and succeeds only with a key
    as long as the parent's, of an AES size, computed from the parent's key bytes
    with the salt and info of the options; the derived wrapper holds that key and
    its cipher, so it round-trips, and the same options derive the same wrapper
    whatever the map iteration order. *)
Theorem aead_derived_wrapper (hkdf_Key : bytes -> bytes -> bytes -> nat -> outcome bytes)
    (s d : awrapper) (opt : list (Opt OptionFunc)) :
  NewDerivedWrapper hkdf_Key s opt = Ret d ->
  exists o k, getOpts opt = Ret o /\ slen (aw_keyBytes s) <> 0 /\
    hkdf_Key (content (aw_keyBytes s)) (content (opts_WithSalt o))
      (content (opts_WithInfo o)) (slen (aw_keyBytes s)) = Ret k /\
    length k = slen (aw_keyBytes s) /\ aes_key_size (length k) = true /\
    d = mk_awrapper (WithKeyId_ (o_RPC (opts_Options o))) (Some k) (Some (random_nonce_gcm k)) /\
    (forall R' : RangeOrder, @NewDerivedWrapper _ R' hkdf_Key s opt = Ret d).
Proof.
  intros Hd. assert (Hd0 := Hd). unfold NewDerivedWrapper in Hd.
  destruct (slen (aw_keyBytes s) =? 0) eqn:Hlen; [done|].
  apply obind_Ret in Hd as (o & Ho & Hd).
  destruct (Z.eqb_spec (opts_WithHashType o) HashTypeSha256) as [Hh|]; [|done]. simpl in Hd.
  destruct (Z.eqb_spec (opts_WithAeadType o) AeadTypeAesGcm) as [Ha|]; [|done].
  apply obind_Ret in Hd as (k & Hk & Hd). apply map_err_Ret in Hk.
  destruct (Nat.eqb_spec (length k) (slen (aw_keyBytes s))) as [Hl|]; [|done]. simpl in Hd.
  cbn [aw_keyBytes] in Hd. rewrite SetAesGcmKeyBytes_eq, slen_Some in Hd.
  destruct (aes_key_size (length k)) eqn:Hs; [|done]. simpl in Hd. injection Hd as <-.
  exists o, k. split_and!; try done; [by apply Nat.eqb_neq|].
  intros R'. unfold NewDerivedWrapper. rewrite Hlen, (getOpts_order R R' opt o Ho).
  simpl. rewrite Hh, Ha. simpl. rewrite Hk. simpl. rewrite Hl, Nat.eqb_refl. simpl.
  rewrite SetAesGcmKeyBytes_eq, slen_Some. by rewrite Hs.
Qed.
End properties.

(** ** Witnesses, on the toy cipher *)

#[local] Existing Instance toy_gcm.
#[local] Existing Instance toy_gcm_laws.
#[local] Existing Instance toy_entropy.
#[local] Existing Instance default_order.

(** A parent wrapper and a toy HKDF that repeats the first byte. *)
Definition demo_hkdf (secret salt info : bytes) (n : nat) : outcome bytes :=
  match secret with [] => Fail (ErrLeaf "empty") | b :: _ => Ret (repeat b n) end.

Definition demo_parent : awrapper :=
  snd (SetAesGcmKeyBytes (Some (repeat "k"%char 16)) NewWrapper).

Lemma aead_roundtrip_witness :
  exists b, aw_Encrypt (rand_nonce 3) demo_parent (Some (bytes_of_string "hi")) [WithAad None]
      = Ret (Some b) /\
    aw_Decrypt demo_parent (Some b) [WithAad None] = Ret (Some (bytes_of_string "hi")).
Proof.
  eexists. split; [reflexivity|].
  exact (proj1 (aead_roundtrip (Some (repeat "k"%char 16)) NewWrapper demo_parent
    (rand_nonce 3) (Some (bytes_of_string "hi")) None eq_refl eq_refl)).
Defined.

Lemma aead_derived_wrapper_witness :
  exists d, NewDerivedWrapper demo_hkdf demo_parent [WithKeyId "derived"] = Ret d /\
    exists k, d = mk_awrapper "derived" (Some k) (Some (random_nonce_gcm k)) /\ length k = 16.
Proof.
  assert (exists d, NewDerivedWrapper demo_hkdf demo_parent [WithKeyId "derived"] = Ret d)
    as [d Hd0] by (eexists; reflexivity).
  exists d. split; [exact Hd0|].
  destruct (aead_derived_wrapper demo_hkdf demo_parent d [WithKeyId "derived"] Hd0)
    as (o & k & Ho & Hs & Hk & Hl & Ha & Hd & _).
  vm_compute in Ho. injection Ho as <-. exists k. split; [exact Hd|exact Hl].
Defined.
