(* ===== verification/Static.v ===== *)
(** * The static-key wrapper

    wrappers/static/options.go and wrappers/static/static.go.  The environment
    ([os.Getenv]), parseutil.ParsePath and the bytes a failing decoder returns
    beside its error are parameters. *)
From S2P Require Import Prelude GoText GoEncoding Crypto Wrapping.

Record options := mk_options {
  opts_Options : Options;
  withPreviousKey : string;
  withPreviousKeyId : string;
  withCurrentKey : string;
  withCurrentKeyId : string;
}.

Definition default_options : options := mk_options getDefaultOptions "" "" "" "".

Definition config_step (kv : string * string) (opts : options) : outcome options :=
  let (k, v) := kv in
  let (o, pk, pid, ck, cid) := opts in
  if String.eqb k "previous_key" then Ret (mk_options o v pid ck cid)
  else if String.eqb k "previous_key_id" then Ret (mk_options o pk v ck cid)
  else if String.eqb k "current_key" then Ret (mk_options o pk pid v cid)
  else if String.eqb k "current_key_id" then Ret (mk_options o pk pid ck v)
  else Ret opts.

Ltac config_field :=
  intros k v a a' Hs; destruct a; unfold config_step in Hs;
  repeat match type of Hs with
  | context [String.eqb k ?s] => destruct (String.eqb_spec k s); simplify_eq
  end; simplify_eq; simpl; repeat case_decide; simplify_eq; done.

Lemma static_config_loop_fields `{RangeOrder} (m : gmap string string) o :
  range_loop config_step (range_order m) o =
    Ret (mk_options (opts_Options o)
      (default (withPreviousKey o) (m !! "previous_key"))
      (default (withPreviousKeyId o) (m !! "previous_key_id"))
      (default (withCurrentKey o) (m !! "current_key"))
      (default (withCurrentKeyId o) (m !! "current_key_id"))).
Proof.
  assert (Hr : is_ret (range_loop config_step (range_order m) o) = true).
  { rewrite (range_loop_success _ (fun _ => true)).
    - by induction (range_order m).
    - intros [k v] []. unfold config_step. by repeat case_match. }
  apply is_ret_Ret in Hr as [o' Hl]. rewrite Hl. f_equal.
  pose proof (range_order_NoDup _ m) as Hnd.
  assert (Hf : forall (proj : options -> string) key,
    (forall k v a a', config_step (k, v) a = Ret a' ->
       proj a' = if decide (k = key) then v else proj a) ->
    proj o' = default (proj o) (m !! key)).
  { intros proj key Hp.
    rewrite (range_loop_field config_step proj key id _ _ _ Hp Hnd Hl).
    rewrite range_order_lookup. by destruct (m !! key). }
  pose proof (range_loop_frame config_step opts_Options _ _ _ ltac:(config_field) Hl) as H1.
  rewrite <- (Hf withPreviousKey), <- (Hf withPreviousKeyId), <- (Hf withCurrentKey),
    <- (Hf withCurrentKeyId), <- H1 by config_field. by destruct o'.
Qed.

Record swrapper := mk_swrapper {
  previousKeyId : string;
  previousKey : slice;
  currentKeyId : string;
  currentKey : slice;
}.

Definition NewWrapper : swrapper := mk_swrapper "" None "" None.

Definition set_previousKeyId (x : string) (s : swrapper) : swrapper :=
  mk_swrapper x (previousKey s) (currentKeyId s) (currentKey s).

Definition set_previousKey (x : slice) (s : swrapper) : swrapper :=
  mk_swrapper (previousKeyId s) x (currentKeyId s) (currentKey s).

Definition set_currentKeyId (x : string) (s : swrapper) : swrapper :=
  mk_swrapper (previousKeyId s) (previousKey s) x (currentKey s).

Definition set_currentKey (x : slice) (s : swrapper) : swrapper :=
  mk_swrapper (previousKeyId s) (previousKey s) (currentKeyId s) x.

(** [subtle.ConstantTimeCompare(a, b) == 1]. *)
Definition ConstantTimeCompare (a b : slice) : bool := bool_decide (content a = content b).

Definition EnvBaoCurrentKeyValueName : string := "BAO_STATIC_SEAL_CURRENT_KEY".

Definition EnvBaoCurrentKeyIdentifierName : string := "BAO_STATIC_SEAL_CURRENT_KEY_ID".

Definition EnvBaoPreviousKeyValueName : string := "BAO_STATIC_SEAL_PREVIOUS_KEY".

Definition EnvBaoPreviousKeyIdentifierName : string := "BAO_STATIC_SEAL_PREVIOUS_KEY_ID".

Definition Type_static : string := "static".

Section static.
Context `{AesGcm, RangeOrder}.
Context (ParsePath : string -> string * option error).
Context (getenv : string -> string).
(** What [hex.DecodeString] and [base64]'s DecodeString return with an error. *)
Context (partial : string -> slice).

Definition getOpts {L} (opt : list (Opt L)) : outcome options :=
  o ← GetOpts opt;
  opts ← range_loop config_step (range_order (WithConfigMap_ (o_RPC o)))
           (mk_options o "" "" "" "");
  if negb (WithDisallowEnvVars_ (o_RPC o)) then
    match ParsePaths ParsePath [Some 0; Some 1]
            (<[0 := withPreviousKey opts]> {[ 1 := withCurrentKey opts ]}) with
    | (Ret _, st) =>
        Ret (mk_options o (default "" (st !! 0)) (withPreviousKeyId opts)
               (default "" (st !! 1)) (withCurrentKeyId opts))
    | (Fail e, _) => Fail e
    | (Panic, _) => Panic
    end
  else Ret opts.

(** The switch on the length of a key value: the decoded key, [None] for an
    empty value. *)
Definition decode_key (name : string) (key : string) : outcome (option bytes) :=
  let len := String.length key in
  if len =? 64 then
    b ← map_err (wrapf ("failed to hex decode " +:+ name +:+ " key")) (hex_DecodeString key);
    Ret (Some b)
  else if len =? 44 then
    b ← map_err (wrapf ("failed to base64 decode " +:+ name +:+ " key"))
          (b64_DecodeString StdEncoding key);
    Ret (Some b)
  else if len =? 43 then
    b ← map_err (wrapf ("failed to base64 decode " +:+ name +:+ " key"))
          (b64_DecodeString RawURLEncoding key);
    Ret (Some b)
  else if len =? 32 then Ret (Some (bytes_of_string key))
  else if len =? 0 then Ret None
  else Fail (ErrLeaf
    "unknown encoding for AES-256 key: must be either a raw, hex, or base64-encoded").

(** A decoder that fails has already overwritten the field with what it
    returned; the other failures leave it alone. *)
Definition decoder_runs (key : string) : bool :=
  let len := String.length key in (len =? 64) || (len =? 44) || (len =? 43).

Definition load_key (name : string) (key : string) (set : slice -> swrapper -> swrapper)
  : prog swrapper (option bytes) :=
  match decode_key name key with
  | Ret (Some b) => _ ← modify (set (Some b)); mret (Some b)
  | Ret None => mret None
  | Fail e =>
      _ ← modify (if decoder_runs key then set (partial key) else id);
      lift (Fail e)
  | Panic => lift Panic
  end.

(** An environment variable, when set, replaces a value. *)
Definition env_or (name old : string) : string :=
  if String.eqb (getenv name) "" then old else getenv name.

Definition SetConfig {L} (opt : list (Opt L)) : prog swrapper WrapperConfig :=
  opts ← lift (getOpts opt);
  let allowEnv := negb (WithDisallowEnvVars_ (o_RPC (opts_Options opts))) in
  let env name old := if allowEnv then env_or name old else old in
  let current := env EnvBaoCurrentKeyValueName (withCurrentKey opts) in
  let previous := env EnvBaoPreviousKeyValueName (withPreviousKey opts) in
  _ ← modify (set_currentKeyId (env EnvBaoCurrentKeyIdentifierName (withCurrentKeyId opts)));
  _ ← modify (set_previousKeyId (env EnvBaoPreviousKeyIdentifierName (withPreviousKeyId opts)));
  k ← load_key "current" current set_currentKey;
  match k with
  | None => lift (Fail (ErrLeaf "missing required current key"))
  | Some _ =>
      s ← get;
      if String.eqb (currentKeyId s) "" then
        lift (Fail (ErrLeaf
          "got empty current_key_id; please specify a permanent identifier for this key"))
      else
        _ ← load_key "previous" previous set_previousKey;
        s ← get;
        if String.eqb (previousKeyId s) "" && negb (slen (previousKey s) =? 0) then
          lift (Fail (ErrLeaf
            "got empty previous_key_id with non-empty previous_key; please specify the matching key identifier"))
        else if negb (String.eqb (previousKeyId s) "") && (slen (previousKey s) =? 0) then
          lift (Fail (ErrLeaf
            "got non-empty previous_key_id with empty previous_key; please specify the previous key or remove previous_key_id"))
        else if ConstantTimeCompare (currentKey s) (previousKey s)
             && negb (String.eqb (previousKeyId s) (currentKeyId s)) then
          lift (Fail (ErrLeaf
            "current and previous key material match with different key identifiers"))
        else if negb (ConstantTimeCompare (currentKey s) (previousKey s))
             && String.eqb (previousKeyId s) (currentKeyId s) then
          lift (Fail (ErrLeaf
            "current and previous key material differs with same key identifiers"))
        else
          mret (mkWrapperConfig (<["current_key_id" := currentKeyId s]>
            (if String.eqb (previousKeyId s) "" then ∅
             else {[ "previous_key_id" := previousKeyId s ]})))
  end.

Definition sw_Type (s : swrapper) : outcome string := Ret Type_static.

Definition sw_KeyId (s : swrapper) : outcome string := Ret (currentKeyId s).

Definition sw_Encrypt {L} (nonce : bytes) (s : swrapper) (plaintext : slice)
    (opts : list (Opt L)) : outcome BlobInfo :=
  opt ← map_err (wrapf "failed parsing options") (GetOpts opts);
  block ← map_err (wrapf "failed to create cipher") (aes_NewCipher (content (currentKey s)));
  gcm ← map_err (wrapf "failed to create GCM") (NewGCMWithRandomNonce block);
  let ciphertext := aead_Seal gcm nonce (content plaintext) (content (WithAad_ (o_RPC opt))) in
  '(iv, ct) ← cut_at 12 ciphertext;
  Ret {| bi_Iv := Some iv; bi_Ciphertext := Some ct;
         bi_KeyInfo := Some (mkKeyInfo 0 (currentKeyId s) None) |}.

Definition decryptWithKey {L} (in_ : BlobInfo) (key : slice) (opts : list (Opt L))
  : outcome slice :=
  opt ← map_err (wrapf "failed parsing options") (GetOpts opts);
  block ← map_err (wrapf "failed to create cipher") (aes_NewCipher (content key));
  let ciphertext := content (bi_Iv in_) ++ content (bi_Ciphertext in_) in
  gcm ← map_err (wrapf "failed to create GCM") (NewGCMWithRandomNonce block);
  map_err (wrapf "failed to open ciphertext")
    (aead_Open gcm ciphertext (content (WithAad_ (o_RPC opt)))).

(** A nil blob and a blob without key info are dereferenced. *)
Definition sw_Decrypt {L} (s : swrapper) (in_ : option BlobInfo) (opts : list (Opt L))
  : outcome slice :=
  match in_ with
  | None => Panic
  | Some in_ =>
      match bi_KeyInfo in_ with
      | None => Panic
      | Some ki =>
          let id := ki_KeyId ki in
          if String.eqb id "" then Fail (ErrLeaf "empty key id")
          else if String.eqb id (previousKeyId s) then decryptWithKey in_ (previousKey s) opts
          else if String.eqb id (currentKeyId s) then decryptWithKey in_ (currentKey s) opts
          else Fail (ErrLeaf ("unknown key id for data: `" +:+ id +:+ "`"))
      end
  end.
End static.

(** ** The configured wrapper *)

(** What SetConfig establishes: a current key with an identifier; a previous key
    exactly when a previous identifier is given; the two identifiers agree
    exactly when the two keys do. *)
Record static_inv (s : swrapper) : Prop := {
  inv_current_id : currentKeyId s <> "";
  inv_current_key : is_Some (currentKey s);
  inv_previous : previousKeyId s = "" <-> content (previousKey s) = [];
  inv_ids : content (currentKey s) = content (previousKey s) <-> previousKeyId s = currentKeyId s;
}.

(** The forms a key can be configured in, with the lengths the decoded key can have. *)
Definition key_form (key : string) (b : bytes) : Prop :=
  (String.length key = 64 /\ hex_DecodeString key = Ret b /\ length b = 32) \/
  (String.length key = 32 /\ b = bytes_of_string key /\ length b = 32) \/
  (String.length key = 44 /\ b64_DecodeString StdEncoding key = Ret b /\ length b <= 33) \/
  (String.length key = 43 /\ b64_DecodeString RawURLEncoding key = Ret b /\ length b <= 32).

Lemma b64_quads_length enc l r : b64_quads enc l = Ret r -> 4 * length r <= 3 * length l.
Proof.
  remember (length l) as n eqn:Hn. revert l r Hn.
  induction n as [n IH] using lt_wf_ind. intros l r Hn H.
  destruct l as [|a [|b [|c [|d l]]]]; simpl in Hn.
  - injection H as <-. simpl. lia.
  - done.
  - simpl in H. repeat case_match; simplify_eq; simpl; lia.
  - simpl in H. repeat case_match; simplify_eq; simpl; lia.
  - cbn [b64_quads] in H. repeat case_match; simplify_eq; simpl; try lia.
    apply obind_Ret in H as (r' & Hr & [= <-]).
    specialize (IH (length l) ltac:(lia) l r' eq_refl Hr). simpl. lia.
Qed.

Lemma filter_length_le {A} (f : A -> bool) l : length (List.filter f l) <= length l.
Proof. induction l; simpl; [lia|]. destruct (f a); simpl; lia. Qed.

Lemma b64_DecodeString_length enc s b :
  b64_DecodeString enc s = Ret b -> 4 * length b <= 3 * String.length s.
Proof.
  unfold b64_DecodeString. intros H%b64_quads_length.
  rewrite <- length_bytes_of_string.
  pose proof (filter_length_le (fun c => negb (is_newline c)) (bytes_of_string s)). lia.
Qed.

Lemma decode_key_form name key b : decode_key name key = Ret (Some b) -> key_form key b.
Proof.
  unfold decode_key, key_form.
  repeat match goal with
  | |- context [String.length key =? ?n] => destruct (Nat.eqb_spec (String.length key) n)
  end; try done; intros H; inv_ret; simplify_eq.
  - left. split_and!; [done|done|]. apply hex_decode_length in Hret. rewrite length_bytes_of_string in Hret. lia.
  - right; right; left. split_and!; [done|done|]. apply b64_DecodeString_length in Hret. lia.
  - right; right; right. split_and!; [done|done|]. apply b64_DecodeString_length in Hret. lia.
  - right; left. split_and!; [done|done|]. by rewrite length_bytes_of_string.
Qed.

Lemma decode_key_empty name key : decode_key name key = Ret None -> key = "".
Proof.
  unfold decode_key.
  repeat match goal with
  | |- context [String.length key =? ?n] => destruct (Nat.eqb_spec (String.length key) n)
  end; try done; intros H; inv_ret; try done. by destruct key.
Qed.

Lemma load_key_Ret partial name key set s r s' :
  load_key partial name key set s = (Ret r, s') ->
  decode_key name key = Ret r /\ s' = match r with Some b => set (Some b) s | None => s end.
Proof.
  unfold load_key. destruct (decode_key name key) as [[b|]|e|]; run_prog; intros [= <- <-]; done.
Qed.

Lemma slen_0 s : slen s = 0 <-> content s = [].
Proof. unfold slen. destruct (content s); simpl; split; done. Qed.

(** The four final checks of SetConfig, read together. *)
Lemma checks_inv s b :
  currentKey s = Some b -> currentKeyId s <> "" ->
  String.eqb (previousKeyId s) "" && negb (slen (previousKey s) =? 0) = false ->
  negb (String.eqb (previousKeyId s) "") && (slen (previousKey s) =? 0) = false ->
  ConstantTimeCompare (currentKey s) (previousKey s)
    && negb (String.eqb (previousKeyId s) (currentKeyId s)) = false ->
  negb (ConstantTimeCompare (currentKey s) (previousKey s))
    && String.eqb (previousKeyId s) (currentKeyId s) = false ->
  static_inv s.
Proof.
  intros Hb Hc. unfold ConstantTimeCompare.
  destruct (String.eqb_spec (previousKeyId s) ""), (Nat.eqb_spec (slen (previousKey s)) 0),
    (String.eqb_spec (previousKeyId s) (currentKeyId s)); case_bool_decide; simpl; try done;
    intros _ _ _ _; (split; [done | by eexists | rewrite <- slen_0; tauto | tauto]).
Qed.

Section facts.
Context `{AesGcm, RangeOrder}.
Context (ParsePath : string -> string * option error) (getenv : string -> string)
  (partial : string -> slice).

(** The value in force: an environment variable that is allowed and set replaces the
    configured one. *)
Definition in_force (o : options) (variable configured : string) : string :=
  if WithDisallowEnvVars_ (o_RPC (opts_Options o)) || String.eqb (getenv variable) "" then configured
  else getenv variable.

Lemma in_force_env o variable configured :
  (if negb (WithDisallowEnvVars_ (o_RPC (opts_Options o))) then env_or getenv variable configured else configured) =
  in_force o variable configured.
Proof. unfold in_force, env_or. by destruct (WithDisallowEnvVars_ _), (String.eqb _ _). Qed.

(** The path to a success, step by step. *)
Lemma SetConfig_Ret {L} (opt : list (Opt L)) s c s' :
  SetConfig ParsePath getenv partial opt s = (Ret c, s') ->
  static_inv s' /\ exists o, getOpts ParsePath opt = Ret o /\
  currentKeyId s' = in_force o EnvBaoCurrentKeyIdentifierName (withCurrentKeyId o) /\
  previousKeyId s' = in_force o EnvBaoPreviousKeyIdentifierName (withPreviousKeyId o) /\
  (exists b, key_form (in_force o EnvBaoCurrentKeyValueName (withCurrentKey o)) b /\ currentKey s' = Some b) /\
  ((in_force o EnvBaoPreviousKeyValueName (withPreviousKey o) = "" /\ previousKey s' = previousKey s) \/
   exists b, key_form (in_force o EnvBaoPreviousKeyValueName (withPreviousKey o)) b /\ previousKey s' = Some b) /\
  wc_Metadata c = <["current_key_id" := currentKeyId s']>
      (if String.eqb (previousKeyId s') "" then ∅
       else {[ "previous_key_id" := previousKeyId s' ]}).
Proof.
  unfold SetConfig. run_prog.
  destruct (getOpts ParsePath opt) as [o|e|]; [|done..]. cbn zeta. rewrite !in_force_env. run_prog.
  intros (k & s1 & Hk & H1)%pbind_Ret. apply load_key_Ret in Hk as [Hk ->].
  destruct k as [b|]; [|done]. revert H1. run_prog.
  destruct (String.eqb _ "") eqn:Hid; [done|]. apply String.eqb_neq in Hid.
  intros (k2 & s2 & Hk2 & H2)%pbind_Ret. apply load_key_Ret in Hk2 as [Hk2 ->].
  revert H2. run_prog. set (s2 := match k2 with Some _ => _ | None => _ end).
  assert (Hs2 : currentKey s2 = Some b /\ currentKeyId s2 <> "" /\
    previousKey s2 = match k2 with Some b2 => Some b2 | None => previousKey s end /\
    currentKeyId s2 = in_force o EnvBaoCurrentKeyIdentifierName (withCurrentKeyId o) /\
    previousKeyId s2 = in_force o EnvBaoPreviousKeyIdentifierName (withPreviousKeyId o))
    by (subst s2; by destruct k2).
  clearbody s2. destruct Hs2 as (Hb & Hc & Hp & Hci & Hpi).
  do 4 (match goal with |- (if ?b then _ else _) _ = _ -> _ =>
    let E := fresh "E" in destruct b eqn:E; [done|] end).
  unfold mret, prog_ret. intros Heq. injection Heq as <- <-.
  split; [by eapply checks_inv|]. exists o. split_and!; [done..| | |done].
  - exists b. split; [by eapply decode_key_form|done].
  - destruct k2 as [b2|]; [right; exists b2; split; [by eapply decode_key_form|done]|left].
    split; [by eapply decode_key_empty|done].
Qed.

(** A configuration map alone, with the environment off. *)
Lemma getOpts_config {L} (m : gmap string string) :
  getOpts (L := L) ParsePath [WithDisallowEnvVars true; WithConfigMap m] =
    Ret (mk_options (mkOptions (mkRPCOptions "" None m true) None)
      (default "" (m !! "previous_key")) (default "" (m !! "previous_key_id"))
      (default "" (m !! "current_key")) (default "" (m !! "current_key_id"))).
Proof.
  unfold getOpts. cbn [GetOpts apply_options WithDisallowEnvVars WithConfigMap modify
    set_rpc o_RPC o_Logger WithConfigMap_ WithDisallowEnvVars_ mbind outcome_bind
    getDefaultOptions WithKeyId_ WithAad_].
  by rewrite static_config_loop_fields.
Qed.

Lemma decryptWithKey_sealed {L} (key nonce pt : bytes) blob (k : slice) (opts : list (Opt L)) o :
  AesGcmLaws _ -> aes_key_size (length key) = true -> length nonce = 12 ->
  GetOpts opts = Ret o -> content k = key ->
  content (bi_Iv blob) ++ content (bi_Ciphertext blob) =
    nonce ++ gcm_seal key nonce pt (content (WithAad_ (o_RPC o))) ->
  decryptWithKey blob k opts = Ret (to_slice pt).
Proof.
  intros Hlaws Hk Hn Ho Hkey Hc. unfold decryptWithKey, aes_NewCipher.
  rewrite Ho, Hkey, Hk. simpl. rewrite Hc.
  change (nonce ++ gcm_seal key nonce pt (content (WithAad_ (o_RPC o)))) with
    (aead_Seal (random_nonce_gcm key) nonce pt (content (WithAad_ (o_RPC o)))).
  by rewrite gcm_roundtrip.
Qed.

Lemma sw_Encrypt_Ret {L} nonce s pt (opts : list (Opt L)) blob :
  AesGcmLaws _ -> length nonce = 12 ->
  sw_Encrypt nonce s pt opts = Ret blob ->
  exists o, GetOpts opts = Ret o /\ aes_key_size (slen (currentKey s)) = true /\
    blob = {| bi_Iv := Some nonce;
              bi_Ciphertext := Some (gcm_seal (content (currentKey s)) nonce (content pt)
                                       (content (WithAad_ (o_RPC o))));
              bi_KeyInfo := Some (mkKeyInfo 0 (currentKeyId s) None) |}.
Proof.
  intros Hlaws Hn. unfold sw_Encrypt, aes_NewCipher, slen.
  destruct (GetOpts opts) as [o|e|]; [|done..]. simpl.
  destruct (aes_key_size _) eqn:Hk; [|done]. simpl.
  rewrite gcm_Seal_cut by done. simpl. intros [= <-]. by exists o.
Qed.
End facts.

(** ** The static wrapper behind the Wrapper interface

    The object together with the number of nonces its process has drawn. *)
Section instance.
Context `{AesGcm, RangeOrder, Entropy} {L : Type}.
Context (ParsePath : string -> string * option error) (getenv : string -> string)
  (partial : string -> slice).

Definition on_object {A} (m : prog swrapper A) : prog (swrapper * nat) A :=
  zoom fst (fun s w => (s, snd w)) m.

#[export] Instance static_wrapper : Wrapper L (swrapper * nat) := {|
  w_Type w := (sw_Type (fst w), w);
  w_SetConfig opt := on_object (c ← SetConfig ParsePath getenv partial opt; mret (Some c));
  w_Encrypt pt opt w :=
    match sw_Encrypt (rand_nonce (snd w)) (fst w) pt opt with
    | Ret b => (Ret (Some b), (fst w, S (snd w)))
    | Fail e => (Fail e, w)
    | Panic => (Panic, w)
    end;
  w_Decrypt blob opt w := (sw_Decrypt (fst w) blob opt, w);
  w_KeyId w := (sw_KeyId (fst w), w);
|}.

Lemma sw_Decrypt_sealed (s : swrapper) nonce pt (opts opts' : list (Opt L)) blob blob' :
  AesGcmLaws _ -> static_inv s -> length nonce = 12 ->
  sw_Encrypt nonce s pt opts = Ret blob -> same_request opts opts' -> blob_equiv blob blob' ->
  sw_Decrypt s (Some blob') opts' = Ret (to_slice (content pt)).
Proof.
  intros Hlaws Hinv Hn He (o & o' & Ho & Ho' & Haad & _) (Hct & Hiv & Hki).
  apply sw_Encrypt_Ret in He as (o1 & Ho1 & Hk & ->); [|done..].
  rewrite Ho in Ho1. injection Ho1 as <-.
  simpl in Hki. unfold sw_Decrypt. inversion Hki as [? ki (_ & Hid & _) Heq1 Heq2|]. subst.
  simpl in Hid. rewrite <- Hid.
  destruct (String.eqb_spec (currentKeyId s) "") as [He|_]; [by destruct (inv_current_id _ Hinv)|].
  rewrite String.eqb_refl.
  assert (Hd : forall k, content k = content (currentKey s) ->
    decryptWithKey blob' k opts' = Ret (to_slice (content pt))).
  { intros k Hc. apply (decryptWithKey_sealed (content (currentKey s)) nonce (content pt)
      blob' k opts' o'); try done.
    unfold slice_equiv in *. simpl in Hct, Hiv. by rewrite <- Hct, <- Hiv, <- Haad. }
  destruct (String.eqb_spec (currentKeyId s) (previousKeyId s)) as [Hp|Hp]; apply Hd; [|done].
  symmetry. by apply (inv_ids _ Hinv).
Qed.

(** What SetConfig established is all the interface's promise needs. *)
#[export] Instance static_spec `{!AesGcmLaws _} :
  WrapperSpec static_wrapper (fun w => static_inv (fst w)).
Proof.
  split.
  - intros [s n] w' pt opts opts' blob blob' Hinv He Hr Hb.
    unfold w_Encrypt in He. cbn -[sw_Encrypt] in He.
    destruct (sw_Encrypt _ _ _ _) as [b|e|] eqn:Hs; simplify_eq.
    exists (to_slice (content pt)). unfold slice_equiv. rewrite content_to_slice.
    split; [|done]. unfold w_Decrypt. cbn -[sw_Decrypt].
    eapply sw_Decrypt_sealed; eauto using rand_nonce_length.
  - intros [s n] w' pt opts b Hinv He. unfold w_Encrypt in He. cbn -[sw_Encrypt] in He.
    destruct (sw_Encrypt _ _ _ _); by simplify_eq.
  - intros [s n] w' b opts r Hinv Hd. unfold w_Decrypt in Hd. by injection Hd as _ <-.
Qed.
End instance.

(** ** Properties *)

(** C35: a successful SetConfig of the static wrapper takes its identifiers and keys from
    the options, or from an environment variable (BAO_STATIC_SEAL_CURRENT_KEY and so on)
    that is allowed and set: the current key is the decoded value in force, 64 characters
    of hex, 44 of base64, 43 of base64url without padding or 32 raw bytes, and so is the
    previous key where one is given, the one of an earlier configuration being kept where
    none is. The invariant the decrypt dispatch relies on holds (a current key with an
    identifier, a previous key exactly when a previous identifier is in force, identifiers
    that agree exactly when the keys do), and the metadata name exactly the identifiers in
    force, the previous one only where there is one. *)
Theorem static_SetConfig_inv `{RangeOrder} ParsePath getenv partial {L} (opt : list (Opt L)) s c s' :
  SetConfig ParsePath getenv partial opt s = (Ret c, s') ->
  exists o, getOpts ParsePath opt = Ret o /\
  let value variable configured :=
    if WithDisallowEnvVars_ (o_RPC (opts_Options o)) || String.eqb (getenv variable) "" then configured
    else getenv variable in
  let current_key := value "BAO_STATIC_SEAL_CURRENT_KEY" (withCurrentKey o) in
  let current_key_id := value "BAO_STATIC_SEAL_CURRENT_KEY_ID" (withCurrentKeyId o) in
  let previous_key := value "BAO_STATIC_SEAL_PREVIOUS_KEY" (withPreviousKey o) in
  let previous_key_id := value "BAO_STATIC_SEAL_PREVIOUS_KEY_ID" (withPreviousKeyId o) in
  static_inv s' /\ currentKeyId s' = current_key_id /\ previousKeyId s' = previous_key_id /\
  (exists b, key_form current_key b /\ currentKey s' = Some b) /\
  ((previous_key = "" /\ previousKey s' = previousKey s) \/
   exists b, key_form previous_key b /\ previousKey s' = Some b) /\
  (forall k, wc_Metadata c !! k =
     if decide (k = "current_key_id") then Some current_key_id
     else if decide (k = "previous_key_id" /\ previous_key_id <> "") then Some previous_key_id
     else None).
Proof.
  intros (Hinv & o & Ho & Hci & Hpi & Hck & Hpk & Hm)%SetConfig_Ret. exists o. split; [done|].
  cbv zeta. split_and!; [done..|]. intros k. rewrite Hm, Hci, Hpi. unfold in_force.
  set (cur := if _ || String.eqb (getenv EnvBaoCurrentKeyIdentifierName) "" then _ else _).
  set (prev := if _ || String.eqb (getenv EnvBaoPreviousKeyIdentifierName) "" then _ else _).
  change (if _ || String.eqb (getenv "BAO_STATIC_SEAL_CURRENT_KEY_ID") "" then _ else _) with cur.
  change (if _ || String.eqb (getenv "BAO_STATIC_SEAL_PREVIOUS_KEY_ID") "" then _ else _) with prev.
  destruct (decide (k = "current_key_id")) as [->|Hk]; [apply lookup_insert_eq|].
  rewrite lookup_insert_ne by done.
  destruct (String.eqb_spec prev "") as [He|He].
  - rewrite decide_False by naive_solver. apply lookup_empty.
  - destruct (decide (k = "previous_key_id")) as [->|Hk'].
    + rewrite decide_True by done. apply lookup_singleton_eq.
    + rewrite decide_False by naive_solver. by apply lookup_singleton_ne.
Qed.

(** key rotation. A blob encrypted by one static wrapper is decrypted, under
    the same options, by any wrapper satisfying the configuration invariant whose
    current or previous key and identifier are the first one's current ones; this
    includes the wrapper itself, also when it is configured with the same key and
    identifier twice. *)
Theorem static_rotation `{AesGcm, !AesGcmLaws _} {L} (s1 s2 : swrapper) nonce pt (opts : list (Opt L))
    blob :
  static_inv s2 -> currentKeyId s1 <> "" -> length nonce = 12 ->
  (currentKeyId s2 = currentKeyId s1 /\ content (currentKey s2) = content (currentKey s1)) \/
  (previousKeyId s2 = currentKeyId s1 /\ content (previousKey s2) = content (currentKey s1)) ->
  sw_Encrypt nonce s1 pt opts = Ret blob ->
  sw_Decrypt s2 (Some blob) opts = Ret (to_slice (content pt)).
Proof.
  intros Hinv Hid Hn Hkeys He.
  apply sw_Encrypt_Ret in He as (o & Ho & Hk & ->); [|done..].
  unfold sw_Decrypt. cbn [bi_KeyInfo ki_KeyId].
  destruct (String.eqb_spec (currentKeyId s1) ""); [done|].
  assert (Hd : forall k, content k = content (currentKey s1) ->
    decryptWithKey {| bi_Iv := Some nonce;
      bi_Ciphertext := Some (gcm_seal (content (currentKey s1)) nonce (content pt)
                               (content (WithAad_ (o_RPC o))));
      bi_KeyInfo := Some (mkKeyInfo 0 (currentKeyId s1) None) |} k opts = Ret (to_slice (content pt))).
  { intros k Hc. by eapply decryptWithKey_sealed. }
  pose proof (inv_ids _ Hinv) as Hids.
  destruct (String.eqb_spec (currentKeyId s1) (previousKeyId s2)) as [Hp|Hp].
  - apply Hd. destruct Hkeys as [[Hc1 Hc2]|[_ Hc2]]; [|done].
    rewrite <- Hc2. symmetry. apply Hids. congruence.
  - destruct Hkeys as [[Hc1 Hc2]|[Hc1 _]]; [|congruence].
    rewrite Hc1, String.eqb_refl. by apply Hd.
Qed.

(** Decrypt dispatches on the blob's key identifier alone: an empty identifier
    and one that is neither the current nor the previous are errors and nothing is
    decrypted, a nil blob or one without key info panics, and a success is authentic
    under the previous or the current key. *)
Theorem static_Decrypt_dispatch `{AesGcm, !AesGcmLaws _} {L} (s : swrapper) (in_ : option BlobInfo)
    (opts : list (Opt L)) :
  match in_ ≫= bi_KeyInfo with
  | None => sw_Decrypt s in_ opts = Panic
  | Some ki =>
      let id := ki_KeyId ki in
      (id = "" -> sw_Decrypt s in_ opts = Fail (ErrLeaf "empty key id")) /\
      (id <> "" -> id <> previousKeyId s -> id <> currentKeyId s ->
         exists m, sw_Decrypt s in_ opts = Fail (ErrLeaf m)) /\
      (forall r, sw_Decrypt s in_ opts = Ret r ->
         exists o k nonce blob, in_ = Some blob /\ GetOpts opts = Ret o /\ length nonce = 12 /\
           (id = previousKeyId s /\ k = previousKey s \/ id = currentKeyId s /\ k = currentKey s) /\
           content (bi_Iv blob) ++ content (bi_Ciphertext blob) =
             nonce ++ gcm_seal (content k) nonce (content r) (content (WithAad_ (o_RPC o))))
  end.
Proof.
  destruct in_ as [blob|]; [|done]. simpl. destruct (bi_KeyInfo blob) as [ki|] eqn:Hki; [|done].
  destruct (String.eqb_spec (ki_KeyId ki) "") as [He|He]; [done|].
  assert (Hauth : forall k r, decryptWithKey blob k opts = Ret r ->
    exists o nonce, GetOpts opts = Ret o /\ length nonce = 12 /\
      content (bi_Iv blob) ++ content (bi_Ciphertext blob) =
        nonce ++ gcm_seal (content k) nonce (content r) (content (WithAad_ (o_RPC o)))).
  { intros k r Hd. unfold decryptWithKey, aes_NewCipher in Hd.
    destruct (GetOpts opts) as [o|e|]; [|done..]. simpl in Hd.
    destruct (aes_key_size _); [|done]. simpl in Hd. inv_ret.
    apply gcm_Open_authentic in Hd as (nonce & Hn & Hc). by exists o, nonce. }
  destruct (String.eqb_spec (ki_KeyId ki) (previousKeyId s)) as [Hp|Hp];
    [|destruct (String.eqb_spec (ki_KeyId ki) (currentKeyId s)) as [Hc|Hc]];
    (split; [done|]); (split; [naive_solver|]); intros r Hr; try done;
    apply Hauth in Hr as (o & nonce & Ho & Hn & Heq); eexists o, _, nonce, blob;
    split_and!; eauto.
Qed.

(** SetConfig does not check the size of a decoded key: a standard base64
    value without padding is accepted although it decodes to 33 bytes, and then
    every Encrypt fails to create a cipher (whatever the environment, the map
    order and the options of the call). *)
Theorem static_SetConfig_unusable_key `{AesGcm, R : RangeOrder} ParsePath getenv partial :
  exists c s', SetConfig (L := Empty_set) ParsePath getenv partial
      [WithDisallowEnvVars true;
       WithConfigMap (<["current_key" := String.concat "" (repeat "AAAA" 11)]>
         {[ "current_key_id" := "k1" ]})] NewWrapper = (Ret c, s') /\
    slen (currentKey s') = 33 /\
    forall nonce pt (opts : list (Opt Empty_set)), is_ret (sw_Encrypt nonce s' pt opts) = false.
Proof.
  eexists _, _. split.
  - unfold SetConfig. run_prog. rewrite getOpts_config. vm_compute. reflexivity.
  - split; [reflexivity|]. intros nonce pt opts. unfold sw_Encrypt.
    by destruct (GetOpts opts).
Qed.

(** ** Witnesses, on the toy cipher *)

#[local] Existing Instance toy_gcm.
#[local] Existing Instance toy_gcm_laws.
#[local] Existing Instance toy_entropy.
#[local] Existing Instance default_order.

Definition demo_config (cur curid prev previd : string) : list (Opt Empty_set) :=
  [WithDisallowEnvVars true;
   WithConfigMap (<["current_key" := cur]> (<["current_key_id" := curid]>
     (<["previous_key" := prev]> {[ "previous_key_id" := previd ]})))].

Definition demo_key (c : string) : string := String.concat "" (repeat c 32).

Definition demo_set (opt : list (Opt Empty_set)) : outcome WrapperConfig * swrapper :=
  SetConfig (fun s => (s, None)) (fun _ => "") (fun _ => None) opt NewWrapper.

Definition demo_s1 : swrapper := snd (demo_set (demo_config (demo_key "a") "one" "" "")).

Definition demo_s2 : swrapper :=
  snd (demo_set (demo_config (demo_key "b") "two" (demo_key "a") "one")).

Lemma static_SetConfig_inv_witness : static_inv demo_s2 /\ currentKeyId demo_s2 = "two".
Proof.
  assert (exists c, demo_set (demo_config (demo_key "b") "two" (demo_key "a") "one")
    = (Ret c, demo_s2)) as [c Hc] by (eexists; vm_compute; reflexivity).
  destruct (static_SetConfig_inv _ _ _ _ _ c demo_s2 Hc) as (o & Ho & Hinv & Hid & _).
  split; [exact Hinv|]. reflexivity.
Defined.

Lemma static_rotation_witness :
  exists blob, sw_Encrypt (rand_nonce 0) demo_s1 (Some (bytes_of_string "seal")) [@WithAad Empty_set None]
      = Ret blob /\
    sw_Decrypt demo_s2 (Some blob) [@WithAad Empty_set None] = Ret (Some (bytes_of_string "seal")).
Proof.
  assert (exists c, demo_set (demo_config (demo_key "b") "two" (demo_key "a") "one")
    = (Ret c, demo_s2)) as [c Hc] by (eexists; vm_compute; reflexivity).
  eexists. split; [vm_compute; reflexivity|].
  apply (static_rotation demo_s1 demo_s2 (rand_nonce 0) (Some (bytes_of_string "seal"))).
  - apply (SetConfig_Ret _ _ _ _ _ _ _ Hc).
  - vm_compute. discriminate.
  - vm_compute. reflexivity.
  - right. split; vm_compute; reflexivity.
  - vm_compute. reflexivity.
Defined.

Lemma static_Decrypt_dispatch_witness :
  sw_Decrypt demo_s2 (Some (mkBlobInfo (Some []) None (Some (mkKeyInfo 0 "" None))))
    [@WithAad Empty_set None] = Fail (ErrLeaf "empty key id") /\
  (exists m, sw_Decrypt demo_s2 (Some (mkBlobInfo (Some []) None (Some (mkKeyInfo 0 "three" None))))
    [@WithAad Empty_set None] = Fail (ErrLeaf m)).
Proof.
  split.
  - by apply (static_Decrypt_dispatch demo_s2
      (Some (mkBlobInfo (Some []) None (Some (mkKeyInfo 0 "" None)))) [@WithAad Empty_set None]).
  - by apply (static_Decrypt_dispatch demo_s2
      (Some (mkBlobInfo (Some []) None (Some (mkKeyInfo 0 "three" None)))) [@WithAad Empty_set None]);
      vm_compute.
Defined.
