(* ===== verification/Semaphore.v ===== *)
(** * The closable semaphore of the session pool

    kms/pkcs11/internal/session/semaphore.go.  Goroutines are threads of a
    labelled transition system [exec].  Every field of the semaphore is accessed
    under [s.mu], so a critical section is one step, except Close's loop, which
    blocks on an unbuffered channel while it holds the mutex: that loop is a
    thread state of its own.  A waiter's list element and its [ready] channel are
    named by the waiting thread; a send on [ready] is a rendezvous with a thread
    in the outer select of acquireInternal. *)
From S2P Require Import Prelude.

Local Open Scope Z_scope.

Inductive op := OpAcquire | OpClose.

(** What a call returns: nil, the closed-pool error, or the context's error. *)
Inductive result := RNil | RClosed | RCtx.

Inductive pc :=
| Idle
| AtLock (o : op)                    (* about to lock in Acquire or Close *)
| Sending (rest : list nat)          (* Close, holding the mutex, at [ready <- s.err] *)
| Waiting (o : op)                   (* the outer select of acquireInternal *)
| CancelLock (o : op)                (* took [<-done], about to lock *)
| Received (o : op) (closed : bool)  (* took [<-ready]: nil, or the closed error *)
| RelLock (o : op) (closed : bool)   (* about to lock in the Release of that branch *)
| Returned (o : op) (r : result)
| Panicked.

#[export] Instance op_eq_dec : EqDecision op.
Proof. solve_decision. Defined.

#[export] Instance result_eq_dec : EqDecision result.
Proof. solve_decision. Defined.

#[export] Instance pc_eq_dec : EqDecision pc.
Proof. solve_decision. Defined.

Record state := mkState {
  size : Z;
  cur : Z;
  waiters : list nat;
  closed : bool;
  mu : option nat;
  ready : gset nat;        (* channels closed by notify whose call is not over *)
  ctx_done : gset nat;     (* threads whose context is done *)
  pcs : gmap nat pc;
  held : Z;                (* tokens handed to Acquire callers, not yet released *)
  closer : Z;              (* tokens kept by a Close that returned nil *)
  phantom : nat;           (* releases of a token that was never acquired *)
}.

Definition init (n : Z) : state := mkState n 0 [] false None ∅ ∅ ∅ 0 0 0.

Definition pc_of (s : state) (t : nat) : pc := default Idle (pcs s !! t).

Definition set_pc (t : nat) (p : pc) (s : state) : state :=
  mkState (size s) (cur s) (waiters s) (closed s) (mu s) (ready s) (ctx_done s)
    (<[t := p]> (pcs s)) (held s) (closer s) (phantom s).

Definition set_cur (c : Z) (s : state) : state :=
  mkState (size s) c (waiters s) (closed s) (mu s) (ready s) (ctx_done s) (pcs s)
    (held s) (closer s) (phantom s).

Definition set_waiters (w : list nat) (s : state) : state :=
  mkState (size s) (cur s) w (closed s) (mu s) (ready s) (ctx_done s) (pcs s)
    (held s) (closer s) (phantom s).

Definition set_mu (m : option nat) (s : state) : state :=
  mkState (size s) (cur s) (waiters s) (closed s) m (ready s) (ctx_done s) (pcs s)
    (held s) (closer s) (phantom s).

Definition set_ready (r : gset nat) (s : state) : state :=
  mkState (size s) (cur s) (waiters s) (closed s) (mu s) r (ctx_done s) (pcs s)
    (held s) (closer s) (phantom s).

Definition set_done (d : gset nat) (s : state) : state :=
  mkState (size s) (cur s) (waiters s) (closed s) (mu s) (ready s) d (pcs s)
    (held s) (closer s) (phantom s).

(** [s.closed = true; s.size = 1]. *)
Definition mark_closed (s : state) : state :=
  mkState 1 (cur s) (waiters s) true (mu s) (ready s) (ctx_done s) (pcs s)
    (held s) (closer s) (phantom s).

(** Bookkeeping of who owns tokens; no code corresponds to it. *)
Definition add_held (o : op) (s : state) : state :=
  match o with
  | OpAcquire => mkState (size s) (cur s) (waiters s) (closed s) (mu s) (ready s) (ctx_done s)
                   (pcs s) (held s + 1) (closer s) (phantom s)
  | OpClose => mkState (size s) (cur s) (waiters s) (closed s) (mu s) (ready s) (ctx_done s)
                 (pcs s) (held s) (closer s + 1) (phantom s)
  end.

Definition drop_held (s : state) : state :=
  mkState (size s) (cur s) (waiters s) (closed s) (mu s) (ready s) (ctx_done s)
    (pcs s) (held s - 1) (closer s) (phantom s).

Definition add_phantom (s : state) : state :=
  mkState (size s) (cur s) (waiters s) (closed s) (mu s) (ready s) (ctx_done s)
    (pcs s) (held s) (closer s) (S (phantom s)).

(** ** The methods *)

Definition notify (s : state) : state :=
  match waiters s with
  | [] => s
  | next :: rest =>
      if size s <=? cur s then s
      else set_ready ({[next]} ∪ ready s) (set_waiters rest (set_cur (u64 (cur s + 1)) s))
  end.

(** [s.cur--; s.notify()]. *)
Definition give_back (s : state) : state := notify (set_cur (u64 (cur s - 1)) s).

(** acquireInternal, up to its outer select, run with the mutex held. *)
Definition acquireInternal (t : nat) (o : op) (s : state) : state :=
  if decide (t ∈ ctx_done s) then set_pc t (Returned o RCtx) s
  else if (cur s <? size s) && bool_decide (waiters s = []) then
    add_held o (set_pc t (Returned o RNil) (set_cur (u64 (cur s + 1)) s))
  else set_pc t (Waiting o) (set_waiters (waiters s ++ [t]) s).

Definition Acquire (t : nat) (s : state) : state :=
  if closed s then set_pc t (Returned OpAcquire RClosed) s
  else acquireInternal t OpAcquire s.

(** Close up to its loop over the waiters. *)
Definition Close (t : nat) (s : state) : state :=
  if closed s then set_pc t (Returned OpClose RClosed) s
  else set_mu (Some t) (set_pc t (Sending (waiters s)) s).

(** Close from the end of its loop on. *)
Definition Close_finish (t : nat) (s : state) : state :=
  set_mu None (acquireInternal t OpClose (mark_closed (set_waiters [] s))).

(** Release; [after] is what its caller does on a normal return. *)
Definition Release (t : nat) (after : state -> state) (s : state) : state :=
  if cur s =? 0 then set_pc t Panicked s else after (give_back s).

(** The critical section of the cancellation branch. *)
Definition cancel_section (t : nat) (o : op) (s : state) : state :=
  let s := if decide (t ∈ ready s) then give_back (set_ready (ready s ∖ {[t]}) s)
           else
             let isFront := bool_decide (head (waiters s) = Some t) in
             let s := set_waiters (filter (fun u => u <> t) (waiters s)) s in
             if isFront && (cur s <? size s) then notify s else s in
  set_pc t (Returned o RCtx) s.

(** ** The transition system *)

Inductive label :=
| LCall (t : nat) (o : op) (done : bool)  (* start a call, its context maybe done *)
| LCancel (t : nat)                       (* the context of a call becomes done *)
| LEnter (t : nat)                        (* lock and run the critical section *)
| LSend (t u : nat)                       (* Close hands its error to a waiter *)
| LFinish (t : nat)                       (* Close leaves its loop *)
| LDone (t : nat)                         (* the select takes [<-done] *)
| LRecv (t : nat)                         (* the select takes [<-ready], closed by notify *)
| LCancelSection (t : nat)
| LCheck (t : nat)                        (* the inner select after [<-ready] *)
| LRelease (t : nat)                      (* the Release of that branch *)
| LUserRelease (t : nat)                  (* a token holder releases *)
| LForget (t : nat).                      (* the caller takes the result *)

Definition in_call (p : pc) : bool :=
  match p with Idle | Returned _ _ | Panicked => false | _ => true end.

Definition exec (l : label) (s : state) : option state :=
  match l with
  | LCall t o d =>
      match pc_of s t with
      | Idle => Some (set_pc t (AtLock o) (set_done
                  (if (d : bool) then {[t]} ∪ ctx_done s else ctx_done s ∖ {[t]}) s))
      | _ => None
      end
  | LCancel t =>
      if in_call (pc_of s t) then Some (set_done ({[t]} ∪ ctx_done s) s) else None
  | LEnter t =>
      match mu s, pc_of s t with
      | None, AtLock OpAcquire => Some (Acquire t s)
      | None, AtLock OpClose => Some (Close t s)
      | _, _ => None
      end
  | LSend t u =>
      match pc_of s t, pc_of s u with
      | Sending (v :: rest), Waiting o =>
          if decide (u = v)
          then Some (set_pc u (Received o true) (set_pc t (Sending rest) s)) else None
      | _, _ => None
      end
  | LFinish t =>
      match pc_of s t with Sending [] => Some (Close_finish t s) | _ => None end
  | LDone t =>
      match pc_of s t with
      | Waiting o => if decide (t ∈ ctx_done s) then Some (set_pc t (CancelLock o) s) else None
      | _ => None
      end
  | LRecv t =>
      match pc_of s t with
      | Waiting o => if decide (t ∈ ready s) then Some (set_pc t (Received o false) s) else None
      | _ => None
      end
  | LCancelSection t =>
      match mu s, pc_of s t with
      | None, CancelLock o => Some (cancel_section t o s)
      | _, _ => None
      end
  | LCheck t =>
      match pc_of s t with
      | Received o c =>
          if decide (t ∈ ctx_done s) then Some (set_pc t (RelLock o c) s)
          else if c then Some (set_pc t (Returned o RClosed) s)
          else Some (add_held o (set_pc t (Returned o RNil) (set_ready (ready s ∖ {[t]}) s)))
      | _ => None
      end
  | LRelease t =>
      match mu s, pc_of s t with
      | None, RelLock o c =>
          Some (Release t
            (fun s => set_pc t (Returned o RCtx)
               (if c then add_phantom s else set_ready (ready s ∖ {[t]}) s)) s)
      | _, _ => None
      end
  | LUserRelease t =>
      match mu s, pc_of s t with
      | None, Idle => if 0 <? held s then Some (Release t drop_held s) else None
      | _, _ => None
      end
  | LForget t =>
      match pc_of s t with Returned _ _ => Some (set_pc t Idle s) | _ => None end
  end.

Fixpoint run (ls : list label) (s : state) : option state :=
  match ls with
  | [] => Some s
  | l :: ls => match exec l s with Some s' => run ls s' | None => None end
  end.

Inductive reachable (n : Z) : state -> Prop :=
| reach_init : reachable n (init n)
| reach_step l s s' : reachable n s -> exec l s = Some s' -> reachable n s'.

Lemma run_reachable n ls s s' : reachable n s -> run ls s = Some s' -> reachable n s'.
Proof.
  revert s. induction ls as [|l ls IH]; simpl; intros s Hr H.
  - by injection H as <-.
  - destruct (exec l s) as [s1|] eqn:E; [|done]. eauto using reach_step.
Qed.

(** ** The invariant of runs without a phantom release *)

(** The threads a grant or a close may still reach: the queue, or while a Close
    walks it, the part it has not reached. *)
Definition live (s : state) : list nat :=
  match mu s with
  | None => waiters s
  | Some c => match pc_of s c with Sending rest => rest | _ => [] end
  end.

Definition is_waiting (p : pc) : bool :=
  match p with Waiting _ | CancelLock _ => true | _ => false end.

(** The thread has a grant it has not consumed. *)
Definition has_grant (p : pc) : bool :=
  match p with Received _ false | RelLock _ false => true | _ => false end.

Definition is_sending (p : pc) : bool := match p with Sending _ => true | _ => false end.

Definition is_closer (p : pc) : bool :=
  match p with
  | Waiting OpClose | CancelLock OpClose | Received OpClose _ | RelLock OpClose _ => true
  | _ => false
  end.

(** [k] is the number of tokens in transit inside a step; it is 0 between steps. *)
Record inv (n k : Z) (s : state) : Prop := {
  i_size : size s = if closed s then 1 else n;
  i_cur : cur s = held s + Z.of_nat (base.size (ready s)) + closer s + k;
  i_held : 0 <= held s;
  i_closer : 0 <= closer s;
  i_bound : cur s <= n;
  i_nodup : NoDup (live s);
  i_live : forall t, t ∈ live s -> t ∉ ready s /\ is_waiting (pc_of s t) = true;
  i_wait : forall t, is_waiting (pc_of s t) = true -> t ∈ live s \/ t ∈ ready s;
  i_ready : forall t, t ∈ ready s ->
    is_waiting (pc_of s t) = true \/ has_grant (pc_of s t) = true;
  i_grant : forall t, has_grant (pc_of s t) = true -> t ∈ ready s;
  i_full : live s <> [] -> size s <= cur s;
  i_mu : forall c, mu s = Some c <-> is_sending (pc_of s c) = true;
  i_open : forall c, mu s = Some c -> closed s = false;
  i_queue : closed s = true -> forall t, t ∈ waiters s -> is_closer (pc_of s t) = true;
  i_final : closed s = true -> forall t, t ∈ ready s -> is_closer (pc_of s t) = true ->
    held s = 0 /\ closer s = 0 /\ ready s = {[t]};
  i_closed : closer s <> 0 -> closed s = true /\ held s = 0 /\ closer s = 1 /\ ready s = ∅;
  i_opening : closed s = false -> forall t, is_closer (pc_of s t) = false;
}.

Definition inert (p : pc) : Prop :=
  is_waiting p = false /\ has_grant p = false /\ is_sending p = false /\ is_closer p = false.

Lemma pc_of_set t p s u : pc_of (set_pc t p s) u = if decide (u = t) then p else pc_of s u.
Proof.
  unfold pc_of, set_pc. simpl. case_decide; subst.
  - by rewrite lookup_insert_eq.
  - by rewrite lookup_insert_ne.
Qed.

Lemma pc_of_add_held o s u : pc_of (add_held o s) u = pc_of s u.
Proof. by destruct o. Qed.

Lemma live_set_pc t p s : mu s <> Some t -> live (set_pc t p s) = live s.
Proof.
  intros Hm. unfold live. simpl. destruct (mu s) as [c|]; [|done].
  rewrite pc_of_set, decide_False by congruence. done.
Qed.

Lemma live_unlocked s : mu s = None -> live s = waiters s.
Proof. unfold live. by intros ->. Qed.

(** The thread a question is about: the one that moved, or another. *)
Ltac at_pc t u :=
  rewrite ?pc_of_set; destruct (decide (u = t)) as [->|?].

Section preservation.
Context (n : Z) (Hn : 1 <= n < 2 ^ 64).

Lemma inv_set_done k d s : inv n k s -> inv n k (set_done d s).
Proof. by destruct 1; constructor. Qed.

(** A thread outside every set moves between inert states. *)
Lemma inv_inert k t p s :
  inv n k s -> t ∉ ready s -> t ∉ live s -> mu s <> Some t -> inert p ->
  inv n k (set_pc t p s).
Proof.
  intros I Hr Hl Hm (Hw & Hg & Hs & Hc).
  constructor; rewrite ?live_set_pc by done; try apply I; simpl.
  - intros u Hu. at_pc t u; [done | by apply I].
  - intros u. at_pc t u; [congruence | apply I].
  - intros u Hu. at_pc t u; [done | by apply I].
  - intros u. at_pc t u; [congruence | apply I].
  - intros c. at_pc t c; [split; congruence | apply I].
  - intros Hcl u Hu. at_pc t u; [|by apply I].
    exfalso. destruct (mu s) eqn:Em; [by rewrite (i_open _ _ _ I _ Em) in Hcl|].
    by rewrite live_unlocked in Hl.
  - intros Hcl u Hu. at_pc t u; [done | by apply I].
  - intros Hcl u. at_pc t u; [done | by apply I].
Qed.

(** A thread consumes its grant: the token is in transit. *)
Lemma inv_unready t p s :
  inv n 0 s -> t ∈ ready s -> inert p ->
  inv n 1 (set_pc t p (set_ready (ready s ∖ {[t]}) s)).
Proof.
  intros I Hr (Hw & Hg & Hs & Hc).
  assert (Hm : mu s <> Some t).
  { intros Hm%(i_mu _ _ _ I). destruct (i_ready _ _ _ I t Hr) as [E|E];
      destruct (pc_of s t); discriminate. }
  assert (Hl : t ∉ live s) by (intros Hl; by apply (i_live _ _ _ I) in Hl as []).
  assert (Hlive : live (set_pc t p (set_ready (ready s ∖ {[t]}) s)) = live s)
    by (by rewrite live_set_pc).
  assert (Hpc : forall u, pc_of (set_ready (ready s ∖ {[t]}) s) u = pc_of s u) by done.
  assert (Hsz : base.size (ready s) = S (base.size (ready s ∖ {[t]}))).
  { rewrite (union_difference_singleton_L t (ready s)) at 1 by done.
    rewrite size_union by set_solver. by rewrite size_singleton. }
  constructor; rewrite ?Hlive; try apply I; simpl.
  - rewrite (i_cur _ _ _ I), Hsz. lia.
  - intros u Hu. at_pc t u; rewrite ?Hpc; [done|].
    destruct (i_live _ _ _ I u Hu). set_solver.
  - intros u. at_pc t u; rewrite ?Hpc; [congruence|]. intros Hu%I. set_solver.
  - intros u [Hu Hut]%elem_of_difference. at_pc t u; [set_solver | by apply I].
  - intros u. at_pc t u; [congruence|]. rewrite Hpc. intros Hu%I. set_solver.
  - intros c. at_pc t c; [split; congruence | apply I].
  - intros Hcl u Hu. at_pc t u; [|by apply I].
    exfalso. destruct (mu s) eqn:Em; [by rewrite (i_open _ _ _ I _ Em) in Hcl|].
    by rewrite live_unlocked in Hl.
  - intros Hcl u [Hu Hut]%elem_of_difference. at_pc t u; [set_solver|].
    intros Hclo. exfalso. destruct (i_final _ _ _ I Hcl u Hu Hclo) as (_ & _ & E).
    rewrite E in Hr. apply elem_of_singleton in Hr. congruence.
  - intros Hcl. destruct (i_closed _ _ _ I Hcl) as (_ & _ & _ & E).
    rewrite E in Hr. by apply not_elem_of_empty in Hr.
  - intros Hcl u. at_pc t u; [done | by apply I].
Qed.

(** [s.cur--; s.notify()] pays a token in transit back. *)
Lemma inv_give_back s :
  inv n 1 s -> mu s = None -> inv n 0 (give_back s).
Proof.
  intros I Hm. pose proof (i_cur _ _ _ I) as Hcur. pose proof (i_held _ _ _ I).
  pose proof (i_closer _ _ _ I). pose proof (i_bound _ _ _ I).
  pose proof (live_unlocked _ Hm) as Hlive.
  assert (Hu1 : u64 (cur s - 1) = cur s - 1) by (apply u64_id; lia).
  unfold give_back, notify. simpl. rewrite Hu1.
  destruct (waiters s) as [|v w] eqn:Hw; [|destruct (size s <=? cur s - 1) eqn:Hfull].
  - constructor; try apply I; simpl; try lia.
    + unfold live. simpl. by rewrite Hm, Hw.
  - constructor; try apply I; simpl; lia.
  - assert (Hu2 : u64 (cur s - 1 + 1) = cur s) by (rewrite u64_id; lia). rewrite Hu2.
    pose proof (i_full _ _ _ I ltac:(by rewrite Hlive)) as Hf.
    pose proof (i_nodup _ _ _ I) as Hnd. rewrite Hlive in Hnd.
    apply NoDup_cons in Hnd as [Hv Hnd].
    destruct (i_live _ _ _ I v ltac:(rewrite Hlive; set_solver)) as [Hvr Hvw].
    set (s' := set_ready _ _).
    assert (Hlive' : live s' = w) by (unfold live, s'; simpl; by rewrite Hm).
    constructor; rewrite ?Hlive'; try apply I; simpl; try done.
    + rewrite size_union by set_solver. rewrite size_singleton. lia.
    + intros u Hu. destruct (i_live _ _ _ I u ltac:(rewrite Hlive; set_solver)).
      split; [set_solver|done].
    + intros u Hu. destruct (i_wait _ _ _ I u Hu) as [Hl|Hr]; [|set_solver].
      rewrite Hlive in Hl. set_solver.
    + intros u [->%elem_of_singleton|Hu]%elem_of_union; [by left | by apply I].
    + intros u Hu%I. set_solver.
    + intros Hcl u Hu. apply (i_queue _ _ _ I Hcl). rewrite Hw. set_solver.
    + intros Hcl u Hu Hclo. pose proof (i_size _ _ _ I) as Hs. rewrite Hcl in Hs.
      assert (base.size (ready s) = 0%nat) as Hsz by lia.
      apply size_empty_inv in Hsz. apply leibniz_equiv in Hsz.
      rewrite Hsz in *. split_and!; [lia|lia|set_solver].
    + intros Hcl. destruct (i_closed _ _ _ I Hcl) as (Hc & Hh & Hc1 & He).
      pose proof (i_size _ _ _ I) as Hs. rewrite Hc in Hs. lia.
Qed.

(** A thread in no set: idle, or done with its wait. *)
Definition loose (p : pc) : Prop :=
  is_waiting p = false /\ has_grant p = false /\ is_sending p = false.

Lemma loose_free k t s : inv n k s -> loose (pc_of s t) ->
  t ∉ ready s /\ t ∉ live s /\ mu s <> Some t.
Proof.
  intros I (Hw & Hg & Hs). split_and!.
  - intros Hr. destruct (i_ready _ _ _ I t Hr); congruence.
  - intros Hl. destruct (i_live _ _ _ I t Hl); congruence.
  - intros Hm. apply (i_mu _ _ _ I) in Hm. congruence.
Qed.

Lemma inv_settle k t p s :
  inv n k s -> loose (pc_of s t) -> inert p -> inv n k (set_pc t p s).
Proof. intros I H Hp. destruct (loose_free k t s I H) as (?&?&?). by apply inv_inert. Qed.

(** A thread moves between states of the same class. *)
Lemma inv_same k t p s :
  inv n k s -> is_waiting p = is_waiting (pc_of s t) -> has_grant p = has_grant (pc_of s t) ->
  is_closer p = is_closer (pc_of s t) -> is_sending (pc_of s t) = false -> is_sending p = false ->
  inv n k (set_pc t p s).
Proof.
  intros I Hw Hg Hc Hs Hp.
  assert (Hm : mu s <> Some t) by (intros E; apply (i_mu _ _ _ I) in E; congruence).
  constructor; rewrite ?live_set_pc by done; try apply I; simpl.
  - intros u Hu. at_pc t u; [rewrite Hw|]; by apply I.
  - intros u. at_pc t u; [rewrite Hw|]; apply I.
  - intros u. at_pc t u; [rewrite Hw, Hg|]; apply I.
  - intros u. at_pc t u; [rewrite Hg|]; apply I.
  - intros c. at_pc t c; [|apply I]. split; congruence.
  - intros Hcl u. at_pc t u; [rewrite Hc|]; by apply I.
  - intros Hcl u. at_pc t u; [rewrite Hc|]; by apply I.
  - intros Hcl u. at_pc t u; [rewrite Hc|]; by apply I.
Qed.

(** A waiter picks its grant up. *)
Lemma inv_pick_up t o s :
  inv n 0 s -> t ∈ ready s -> pc_of s t = Waiting o ->
  inv n 0 (set_pc t (Received o false) s).
Proof.
  intros I Hr Hpc.
  assert (Hm : mu s <> Some t).
  { intros E. apply (i_mu _ _ _ I) in E. by rewrite Hpc in E. }
  assert (Hl : t ∉ live s) by (intros Hl; by apply (i_live _ _ _ I) in Hl as []).
  assert (Hc : is_closer (Received o false) = is_closer (pc_of s t)) by (by rewrite Hpc; destruct o).
  constructor; rewrite ?live_set_pc by done; try apply I; simpl.
  - intros u Hu. at_pc t u; [done | by apply I].
  - intros u. at_pc t u; [done | apply I].
  - intros u. at_pc t u; [by right | apply I].
  - intros u. at_pc t u; [done | apply I].
  - intros c. at_pc t c; [|apply I]. split; [congruence|done].
  - intros Hcl u. at_pc t u; [rewrite Hc|]; by apply I.
  - intros Hcl u. at_pc t u; [rewrite Hc|]; by apply I.
  - intros Hcl u. at_pc t u; [rewrite Hc|]; by apply I.
Qed.

(** [s.cur++] puts a token in transit. *)
Lemma inv_incr s :
  inv n 0 s -> mu s = None -> cur s < size s -> inv n 1 (set_cur (u64 (cur s + 1)) s).
Proof.
  intros I Hm Hlt. pose proof (i_size _ _ _ I) as Hs. pose proof (i_cur _ _ _ I).
  pose proof (i_held _ _ _ I). pose proof (i_closer _ _ _ I). pose proof (i_bound _ _ _ I).
  rewrite u64_id by (destruct (closed s); lia).
  constructor; try apply I; simpl; try (destruct (closed s); lia).
  intros Hl. pose proof (i_full _ _ _ I Hl). lia.
Qed.

(** A token in transit reaches its owner. *)
Lemma inv_add_held o s :
  inv n 1 s ->
  match o with
  | OpAcquire => closer s = 0 /\
      (closed s = true -> forall u, u ∈ ready s -> is_closer (pc_of s u) = false)
  | OpClose => closed s = true /\ held s = 0 /\ closer s = 0 /\ ready s = ∅
  end -> inv n 0 (add_held o s).
Proof.
  intros I Ho. pose proof (i_cur _ _ _ I). pose proof (i_held _ _ _ I).
  pose proof (i_closer _ _ _ I).
  destruct o; simpl.
  - destruct Ho as [Hz Hc]. constructor; try apply I; simpl; try lia.
    intros Hcl u Hu Hclo. discriminate (eq_trans (eq_sym Hclo) (Hc Hcl u Hu)).
  - destruct Ho as (Hcl & Hh & Hz & He). constructor; try apply I; simpl; try lia.
    + intros _ u. rewrite He. by intros ?%not_elem_of_empty.
    + intros _. split_and!; [done|done|lia|done].
Qed.

(** A new waiter joins the queue. *)
Lemma inv_push t o s :
  inv n 0 s -> mu s = None -> loose (pc_of s t) ->
  (size s <= cur s \/ waiters s <> []) -> closed s = bool_decide (o = OpClose) ->
  inv n 0 (set_pc t (Waiting o) (set_waiters (waiters s ++ [t]) s)).
Proof.
  intros I Hm Hpc Hf Hcl. destruct (loose_free _ _ _ I Hpc) as (Hr & Hl & _).
  assert (Hl' : live (set_pc t (Waiting o) (set_waiters (waiters s ++ [t]) s)) = live s ++ [t])
    by (unfold live; simpl; by rewrite Hm).
  assert (Hpcs : forall u, pc_of (set_waiters (waiters s ++ [t]) s) u = pc_of s u) by done.
  constructor; rewrite ?Hl'; try apply I; simpl.
  - apply NoDup_app. split_and!; [apply I | set_solver | apply NoDup_singleton].
  - intros u [Hu|Hu%list_elem_of_singleton]%elem_of_app; at_pc t u; try done.
    by apply I.
  - intros u. at_pc t u; [set_solver|]. intros [Hu|Hu]%(i_wait _ _ _ I); set_solver.
  - intros u Hu. at_pc t u; [done | by apply I].
  - intros u. at_pc t u; [done | apply I].
  - intros _. destruct Hf as [Hf|Hf]; [done|]. apply (i_full _ _ _ I). by rewrite live_unlocked.
  - intros c. at_pc t c; [|apply I]. split; [congruence|done].
  - intros Hc u Hu. at_pc t u; [|apply I; [done|set_solver]].
    destruct o; [by rewrite Hcl in Hc | done].
  - intros Hc u Hu. at_pc t u; [done | by apply I].
  - intros Hc u. at_pc t u; [|by apply I]. destruct o; [done | by rewrite Hcl in Hc].
Qed.

Lemma inv_acquireInternal t o s :
  inv n 0 s -> mu s = None -> pc_of s t = AtLock o -> closed s = bool_decide (o = OpClose) ->
  inv n 0 (acquireInternal t o s).
Proof.
  intros I Hm Hpc Hcl.
  assert (Hloose : loose (pc_of s t)) by (by rewrite Hpc).
  unfold acquireInternal. destruct (decide (t ∈ ctx_done s)); [by apply inv_settle|].
  destruct (cur s <? size s) eqn:Hlt; simpl; [|apply inv_push; auto; left; lia].
  destruct (bool_decide (waiters s = [])) eqn:Hw;
    [|apply bool_decide_eq_false in Hw; apply inv_push; auto].
  apply inv_add_held.
  - apply inv_settle; [apply inv_incr; auto; lia | done | done].
  - pose proof (i_cur _ _ _ I). pose proof (i_held _ _ _ I). pose proof (i_closer _ _ _ I).
    pose proof (i_size _ _ _ I) as Hs.
    destruct o; rewrite Hcl in Hs; simpl in *.
    + split; [|by rewrite Hcl]. destruct (decide (closer s = 0)) as [|Hz]; [done|].
      destruct (i_closed _ _ _ I Hz). congruence.
    + split_and!; [done | lia | lia |].
      apply leibniz_equiv, size_empty_inv. lia.
Qed.

(** Close leaves its loop with the queue empty. *)
Lemma inv_closing t s :
  inv n 0 s -> pc_of s t = Sending [] ->
  inv n 0 (set_pc t (AtLock OpClose) (mark_closed (set_waiters [] (set_mu None s)))).
Proof.
  intros I Hpc.
  assert (Hm : mu s = Some t) by (apply (i_mu _ _ _ I); by rewrite Hpc).
  pose proof (i_open _ _ _ I _ Hm) as Hcl.
  assert (Hl : live s = []) by (unfold live; by rewrite Hm, Hpc).
  assert (Hpcs : forall u, pc_of (mark_closed (set_waiters [] (set_mu None s))) u = pc_of s u)
    by done.
  assert (Hz : closer s = 0).
  { destruct (decide (closer s = 0)) as [|Hz]; [done|]. destruct (i_closed _ _ _ I Hz). congruence. }
  set (s' := set_pc _ _ _). assert (Hl' : live s' = []) by done.
  constructor; rewrite ?Hl'; try apply I; simpl; try done.
  - constructor.
  - intros u Hu. by apply not_elem_of_nil in Hu.
  - intros u. unfold s'. at_pc t u; [done|]. intros Hu%(i_wait _ _ _ I). by rewrite Hl in Hu.
  - intros u Hu. unfold s'. at_pc t u; [|by apply I].
    destruct (i_ready _ _ _ I t Hu) as [E|E]; by rewrite Hpc in E.
  - intros u. unfold s'. at_pc t u; [done | apply I].
  - intros c. unfold s'. at_pc t c; [done|]. split; [done|].
    intros Hs%(i_mu _ _ _ I). congruence.
  - intros _ u Hu. by apply not_elem_of_nil in Hu.
  - intros _ u Hu. unfold s'. at_pc t u; [done|].
    pose proof (i_opening _ _ _ I Hcl u) as E. intros E'. exfalso. congruence.
Qed.

Lemma Close_finish_eq t s :
  Close_finish t s =
  acquireInternal t OpClose
    (set_pc t (AtLock OpClose) (mark_closed (set_waiters [] (set_mu None s)))).
Proof.
  unfold Close_finish, acquireInternal. simpl.
  repeat case_match; try done; unfold add_held, set_mu, set_pc; simpl; by rewrite insert_insert_eq.
Qed.

Lemma inv_Close_start t s :
  inv n 0 s -> mu s = None -> pc_of s t = AtLock OpClose -> closed s = false ->
  inv n 0 (set_mu (Some t) (set_pc t (Sending (waiters s)) s)).
Proof.
  intros I Hm Hpc Hcl.
  destruct (loose_free _ t _ I ltac:(by rewrite Hpc)) as (Hr & Hl & _).
  set (s' := set_mu _ _).
  assert (Hp : forall u, pc_of s' u = pc_of (set_pc t (Sending (waiters s)) s) u) by done.
  assert (Hl' : live s' = live s).
  { unfold live, s'; simpl. change (pc_of _ t) with (pc_of (set_pc t (Sending (waiters s)) s) t).
    by rewrite pc_of_set, decide_True, Hm. }
  constructor; rewrite ?Hl'; try apply I; simpl.
  - intros u Hu. rewrite Hp. at_pc t u; [done | by apply I].
  - intros u. rewrite Hp. at_pc t u; [done | apply I].
  - intros u. rewrite Hp. at_pc t u; [done | apply I].
  - intros u. rewrite Hp. at_pc t u; [done | apply I].
  - intros c. rewrite Hp. at_pc t c; [done|]. split; [congruence|].
    intros E%(i_mu _ _ _ I). congruence.
  - by intros c _.
  - intros E. congruence.
  - intros E. congruence.
  - intros _ u. rewrite Hp. at_pc t u; [done | by apply I].
Qed.

Lemma inv_send t u v rest o s :
  inv n 0 s -> pc_of s t = Sending (v :: rest) -> pc_of s u = Waiting o -> u = v ->
  inv n 0 (set_pc u (Received o true) (set_pc t (Sending rest) s)).
Proof.
  intros I Ht Hu <-.
  assert (Hm : mu s = Some t) by (apply (i_mu _ _ _ I); by rewrite Ht).
  assert (Hne : u <> t) by congruence.
  assert (Hl : live s = u :: rest) by (unfold live; by rewrite Hm, Ht).
  pose proof (i_open _ _ _ I _ Hm) as Hcl.
  pose proof (i_nodup _ _ _ I) as Hnd. rewrite Hl in Hnd. apply NoDup_cons in Hnd as [Hn0 Hnd].
  destruct (i_live _ _ _ I u ltac:(rewrite Hl; set_solver)) as [Hur _].
  assert (Ho : o = OpAcquire).
  { pose proof (i_opening _ _ _ I Hcl u) as E. rewrite Hu in E. by destruct o. }
  set (s' := set_pc _ _ _).
  assert (Hp : forall x, pc_of s' x = if decide (x = u) then Received o true
                 else if decide (x = t) then Sending rest else pc_of s x)
    by (intros x; unfold s'; by rewrite !pc_of_set).
  assert (Hl' : live s' = rest).
  { unfold live. change (mu s') with (mu s). rewrite Hm, Hp.
    by rewrite decide_False, decide_True by congruence. }
  constructor; rewrite ?Hl'; try apply I; simpl; try done.
  - intros x Hx. rewrite Hp. rewrite !decide_False by (set_solver || (intros ->;
      destruct (i_live _ _ _ I t ltac:(rewrite Hl; set_solver)) as [_ E]; by rewrite Ht in E)).
    apply (i_live _ _ _ I). rewrite Hl. set_solver.
  - intros x. rewrite Hp. case_decide; [done|]. case_decide; [done|].
    intros [Hx|Hx]%(i_wait _ _ _ I); [|by right]. rewrite Hl in Hx. set_solver.
  - intros x Hx. rewrite Hp. case_decide; [congruence|]. case_decide; [|by apply I].
    destruct (i_ready _ _ _ I x Hx) as [E|E]; replace x with t in E by done; by rewrite Ht in E.
  - intros x. rewrite Hp. case_decide; [done|]. case_decide; [done|apply I].
  - intros _. apply (i_full _ _ _ I). by rewrite Hl.
  - intros c. rewrite Hp. rewrite Hm. case_decide; [split; [congruence|done]|].
    case_decide; [split; [done|congruence]|]. rewrite <- Hm. apply I.
  - intros E. congruence.
  - intros E. congruence.
  - intros _ x. rewrite Hp. case_decide; [by rewrite Ho|]. case_decide; [done|by apply I].
Qed.

(** The not-ready branch of a cancellation: by [i_full] its notify is dead. *)
Lemma inv_leave t o s :
  inv n 0 s -> mu s = None -> pc_of s t = CancelLock o -> t ∉ ready s ->
  inv n 0 (set_pc t (Returned o RCtx) (set_waiters (filter (fun u => u <> t) (waiters s)) s)).
Proof.
  intros I Hm Hpc Hr.
  set (s' := set_pc _ _ _).
  assert (Hp : forall x, pc_of s' x = if decide (x = t) then Returned o RCtx else pc_of s x)
    by (intros x; unfold s'; by rewrite pc_of_set).
  assert (Hl' : live s' = filter (fun u => u <> t) (live s)).
  { rewrite (live_unlocked s) by done. unfold live. change (mu s') with (mu s). by rewrite Hm. }
  constructor; rewrite ?Hl'; try apply I; simpl.
  - apply NoDup_filter, I.
  - intros u [Hu Hul]%list_elem_of_filter. rewrite Hp, decide_False by done. by apply I.
  - intros u. rewrite Hp. case_decide; [done|]. rewrite list_elem_of_filter.
    intros [?|?]%(i_wait _ _ _ I); [left; done | by right].
  - intros u Hu. rewrite Hp. case_decide; [congruence | by apply I].
  - intros u. rewrite Hp. case_decide; [done | apply I].
  - intros Hne. apply (i_full _ _ _ I). intros E. by rewrite E in Hne.
  - intros c. rewrite Hp. case_decide; [|apply I]. split; [congruence|done].
  - intros Hcl u [Hu Hul]%list_elem_of_filter. rewrite Hp, decide_False by done. by apply I.
  - intros Hcl u Hu. rewrite Hp. case_decide; [congruence | by apply I].
  - intros Hcl u. rewrite Hp. case_decide; [done | by apply I].
Qed.

(** A grant that is not wanted any more goes back to the semaphore. *)
Lemma give_back_comm t p s :
  t ∉ waiters s ->
  set_pc t p (set_ready (ready (give_back s) ∖ {[t]}) (give_back s)) =
  give_back (set_pc t p (set_ready (ready s ∖ {[t]}) s)).
Proof.
  intros Hw. unfold give_back, notify. simpl. destruct (waiters s) as [|v w]; [done|].
  case_match; [done|]. unfold set_pc, set_ready, set_waiters, set_cur. simpl. f_equal.
  apply not_elem_of_cons in Hw as [? _]. set_solver.
Qed.

Lemma give_back_set_pc t p s : set_pc t p (give_back s) = give_back (set_pc t p s).
Proof. unfold give_back, notify. simpl. destruct (waiters s); [done|]. by case_match. Qed.

Lemma inv_return_grant t o s :
  inv n 0 s -> mu s = None -> t ∈ ready s ->
  inv n 0 (set_pc t (Returned o RCtx) (set_ready (ready (give_back s) ∖ {[t]}) (give_back s))).
Proof.
  intros I Hm Hr. rewrite give_back_comm.
  - apply inv_give_back; [|done]. by apply inv_unready.
  - rewrite <- live_unlocked by done. intros Hl. by destruct (i_live _ _ _ I t Hl).
Qed.

Lemma inv_cancel_section t o s :
  inv n 0 s -> mu s = None -> pc_of s t = CancelLock o -> inv n 0 (cancel_section t o s).
Proof.
  intros I Hm Hpc. unfold cancel_section. destruct (decide (t ∈ ready s)) as [Hr|Hr].
  - rewrite give_back_set_pc. apply inv_give_back; [|done]. by apply inv_unready.
  - simpl. destruct (_ && _) eqn:E; [|by apply inv_leave].
    apply andb_prop in E as [E1 E2]. apply bool_decide_eq_true in E1.
    pose proof (i_full _ _ _ I) as Hf. rewrite live_unlocked in Hf by done.
    destruct (waiters s); [done|]. specialize (Hf ltac:(done)). lia.
Qed.

(** A waiter takes its token. *)
Lemma inv_take t o s :
  inv n 0 s -> pc_of s t = Received o false ->
  inv n 0 (add_held o (set_pc t (Returned o RNil) (set_ready (ready s ∖ {[t]}) s))).
Proof.
  intros I Hpc. assert (Hr : t ∈ ready s) by (apply I; by rewrite Hpc).
  apply inv_add_held; [by apply inv_unready|]. destruct o; simpl.
  - assert (forall u, u ∈ ready s -> ready s = {[u]} -> is_closer (pc_of s u) = false) as Hu.
    { intros u _ E. rewrite E in Hr. apply elem_of_singleton in Hr. subst. by rewrite Hpc. }
    split.
    + destruct (decide (closer s = 0)) as [|Hz]; [done|].
      destruct (i_closed _ _ _ I Hz) as (_ & _ & _ & E). rewrite E in Hr.
      by apply not_elem_of_empty in Hr.
    + intros Hcl u [Hur Hut]%elem_of_difference. at_pc t u; [done|].
      destruct (is_closer (pc_of s u)) eqn:E; [|done].
      destruct (i_final _ _ _ I Hcl u Hur E) as (_ & _ & E'). change (is_closer (pc_of s u) = false). by apply Hu.
  - assert (Hcl : closed s = true).
    { destruct (closed s) eqn:Hcl; [done|]. pose proof (i_opening _ _ _ I Hcl t) as E.
      by rewrite Hpc in E. }
    destruct (i_final _ _ _ I Hcl t Hr ltac:(by rewrite Hpc)) as (? & ? & E).
    split_and!; try done. rewrite E. set_solver.
Qed.

Lemma inv_user_release s :
  inv n 0 s -> mu s = None -> 0 < held s -> inv n 0 (drop_held (give_back s)).
Proof.
  intros I Hm Hh.
  assert (drop_held (give_back s) = give_back (drop_held s)) as ->.
  { unfold give_back, notify. simpl. destruct (waiters s); [done|]. by case_match. }
  apply inv_give_back; [|done]. pose proof (i_cur _ _ _ I).
  constructor; try apply I; simpl; try lia.
  - intros Hcl u Hu Hc. destruct (i_final _ _ _ I Hcl u Hu Hc). lia.
  - intros Hc. destruct (i_closed _ _ _ I Hc) as (? & ? & ?). lia.
Qed.

(** ** Every step keeps the invariant, unless it is a phantom release *)
Lemma inv_exec l s s' :
  inv n 0 s -> exec l s = Some s' -> phantom s' = phantom s -> inv n 0 s'.
Proof.
  intros I H Hph.
  assert (Hpos : forall t, t ∈ ready s -> cur s <> 0).
  { intros t Ht. pose proof (i_cur _ _ _ I). pose proof (i_held _ _ _ I).
    pose proof (i_closer _ _ _ I).
    assert (base.size (ready s) <> 0%nat); [|lia].
    intros E%size_empty_inv. by apply E in Ht. }
  destruct l as [t o d|t|t|t u|t|t|t|t|t|t|t|t]; cbn [exec] in H.
  - destruct (pc_of s t) eqn:Hpc; try done. injection H as <-.
    apply inv_settle; [by apply inv_set_done | | by destruct o].
    change (loose (pc_of s t)). by rewrite Hpc.
  - destruct (in_call _); [|done]. injection H as <-. by apply inv_set_done.
  - destruct (mu s) eqn:Hm; [done|]. destruct (pc_of s t) as [|o|?|?|?|??|??|??|] eqn:Hpc; try done.
    destruct o; injection H as <-.
    + unfold Acquire. destruct (closed s) eqn:Hcl; [|by apply inv_acquireInternal].
      apply inv_settle; [done | by rewrite Hpc | done].
    + unfold Close. destruct (closed s) eqn:Hcl; [|by apply inv_Close_start].
      apply inv_settle; [done | by rewrite Hpc | done].
  - destruct (pc_of s t) as [|?|[|v rest]|?|?|??|??|??|] eqn:Hpc; try done.
    destruct (pc_of s u) as [|?|?|o|?|??|??|??|] eqn:Hu; try done.
    case_decide; [|done]. injection H as <-. by eapply inv_send.
  - destruct (pc_of s t) as [|?|[|v rest]|?|?|??|??|??|] eqn:Hpc; try done.
    injection H as <-. rewrite Close_finish_eq. apply inv_acquireInternal; try done.
    + by apply inv_closing.
    + by rewrite pc_of_set, decide_True.
  - destruct (pc_of s t) as [|?|?|o|?|??|??|??|] eqn:Hpc; try done.
    case_decide; [|done]. injection H as <-. by apply inv_same; rewrite ?Hpc.
  - destruct (pc_of s t) as [|?|?|o|?|??|??|??|] eqn:Hpc; try done.
    case_decide; [|done]. injection H as <-. by apply inv_pick_up.
  - destruct (mu s) eqn:Hm; [done|]. destruct (pc_of s t) as [|?|?|?|o|??|??|??|] eqn:Hpc; try done.
    injection H as <-. by apply inv_cancel_section.
  - destruct (pc_of s t) as [|?|?|?|?|o c|??|??|] eqn:Hpc; try done.
    case_decide; [|destruct c]; injection H as <-.
    + by apply inv_same; rewrite ?Hpc; destruct c, o.
    + apply inv_settle; [done | by rewrite Hpc | done].
    + by apply inv_take.
  - destruct (mu s) eqn:Hm; [done|]. destruct (pc_of s t) as [|?|?|?|?|??|o c|??|] eqn:Hpc; try done.
    injection H as <-. unfold Release in *. destruct (cur s =? 0) eqn:Hz; [|destruct c].
    + destruct c; [apply inv_settle; [done | by rewrite Hpc | done]|].
      assert (Hr : t ∈ ready s) by (apply (i_grant _ _ _ I); by rewrite Hpc).
      apply Hpos in Hr. lia.
    + exfalso. simpl in Hph. assert (phantom (give_back s) = phantom s); [|lia].
      unfold give_back, notify. simpl. destruct (waiters s); [done|]. by case_match.
    + apply inv_return_grant; [done..|]. apply (i_grant _ _ _ I). by rewrite Hpc.
  - destruct (mu s) eqn:Hm; [done|]. destruct (pc_of s t) eqn:Hpc; try done.
    destruct (0 <? held s) eqn:Hh; [|done]. injection H as <-. unfold Release in *.
    destruct (cur s =? 0) eqn:Hz; [|apply inv_user_release; [done..|lia]].
    pose proof (i_cur _ _ _ I). pose proof (i_closer _ _ _ I). lia.
  - destruct (pc_of s t) eqn:Hpc; try done. injection H as <-.
    apply inv_settle; [done | by rewrite Hpc | done].
Qed.

Lemma phantom_exec l s s' : exec l s = Some s' -> (phantom s <= phantom s')%nat.
Proof.
  assert (Hno : forall s, phantom (notify s) = phantom s).
  { intros s0. unfold notify. destruct (waiters s0); [done|]. by case_match. }
  assert (Hai : forall t o s, phantom (acquireInternal t o s) = phantom s).
  { intros t o s0. unfold acquireInternal. repeat case_match; try done; by destruct o. }
  intros H. destruct l; cbn [exec] in H; repeat case_match; simplify_eq; simpl; try lia.
  all: unfold Acquire, Close, Close_finish, Release, cancel_section, give_back in *; simpl.
  all: repeat case_match; simpl; rewrite ?Hno, ?Hai; simpl; try lia.
  all: match goal with o : op |- _ => destruct o; simpl; lia end.
Qed.

Lemma reachable_inv s : reachable n s -> phantom s = 0%nat -> inv n 0 s.
Proof.
  induction 1 as [|l s s' Hr IH H]; intros Hp.
  - constructor; simpl; try done; try lia; try set_solver.
    constructor.
  - pose proof (phantom_exec _ _ _ H). eapply inv_exec; [apply IH; lia | done | lia].
Qed.
End preservation.

(** A Close that returned nil keeps a token for good. *)
Definition closer_ok (s : state) : Prop :=
  0 <= closer s /\ forall t, pc_of s t = Returned OpClose RNil -> 0 < closer s.

Lemma closer_ok_set_pc t p s : p <> Returned OpClose RNil -> closer_ok s -> closer_ok (set_pc t p s).
Proof. intros Hp [H1 H2]. split; [done|]. intros u. at_pc t u; [done | apply H2]. Qed.

Lemma closer_ok_take t o s :
  closer_ok s -> closer_ok (add_held o (set_pc t (Returned o RNil) s)).
Proof.
  intros [H1 H2]. destruct o.
  - split; [done|]. intros u. change (pc_of (add_held _ ?s') u) with (pc_of s' u).
    at_pc t u; [done | apply H2].
  - split; simpl; [lia|]. intros; lia.
Qed.

Lemma closer_ok_notify s : closer_ok s -> closer_ok (notify s).
Proof. unfold notify. destruct (waiters s); [done|]. by case_match. Qed.

Lemma closer_ok_acquireInternal t o s : closer_ok s -> closer_ok (acquireInternal t o s).
Proof.
  intros H. unfold acquireInternal. repeat case_match;
    [by apply closer_ok_set_pc | by apply closer_ok_take | by apply closer_ok_set_pc].
Qed.

Lemma closer_ok_reachable n s : reachable n s -> closer_ok s.
Proof.
  induction 1 as [|l s s' Hr IH H].
  - split; [done|]. intros t. unfold pc_of. simpl. by rewrite lookup_empty.
  - destruct l; cbn [exec] in H; repeat case_match; simplify_eq;
      unfold Acquire, Close, Close_finish, Release, cancel_section, give_back; repeat case_match;
      repeat first [ apply closer_ok_take | apply closer_ok_set_pc; [done|] ];
      try exact IH; try by apply closer_ok_notify.
    all: try by apply closer_ok_acquireInternal.
Qed.

(** ** What the semaphore promises *)

(** A run without a phantom release: each Release gives a token back that the
    releasing call owns. *)
Definition sound_run (n : Z) (s : state) : Prop := reachable n s /\ phantom s = 0%nat.

(** C1: every acquired token is accounted for, in every interleaving in which no
    token is released that was never acquired: [cur] is the number of tokens
    handed out, granted and not yet picked up, and kept by Close; it never
    exceeds the size n the semaphore was created with, for 1 <= n < 2^64.  The
    condition on the interleaving excludes one thing the code can do: a waiter
    refused by Close whose context becomes done before it looks at the refusal
    calls Release although it holds no token ([phantom] counts these; with
    one of them the accounting is lost, see semaphore_Close_early). *)
Theorem semaphore_accounting n s :
  1 <= n < 2 ^ 64 -> sound_run n s ->
  cur s = held s + Z.of_nat (base.size (ready s)) + closer s /\
  0 <= held s /\ cur s <= n.
Proof.
  intros Hn [Hr Hp]. pose proof (reachable_inv n Hn s Hr Hp) as I.
  pose proof (i_cur _ _ _ I). pose proof (i_held _ _ _ I). pose proof (i_bound _ _ _ I). lia.
Qed.

(** C2: mutual exclusion of Close, for a semaphore of size 1 <= n < 2^64 and in
    every interleaving in which no token is released that was never acquired:
    once a Close has returned nil, no caller holds a token, none is granted, the
    semaphore is closed, and every later Acquire is refused with the closed-pool
    error.  Without the condition on the interleaving this is false of the
    code: semaphore_Close_early runs into a Close that returns nil while a
    token is held, after a waiter refused by Close, its context done, has
    released a token it never acquired. *)
Theorem semaphore_Close_exclusive n s t :
  1 <= n < 2 ^ 64 -> sound_run n s -> pc_of s t = Returned OpClose RNil ->
  held s = 0 /\ ready s = ∅ /\ closed s = true /\
  (forall u, pc_of s u = AtLock OpAcquire -> mu s = None ->
     exec (LEnter u) s = Some (set_pc u (Returned OpAcquire RClosed) s)).
Proof.
  intros Hn [Hr Hp] Ht. pose proof (reachable_inv n Hn s Hr Hp) as I.
  destruct (closer_ok_reachable n s Hr) as [_ Hc]. specialize (Hc t Ht).
  destruct (i_closed _ _ _ I ltac:(lia)) as (Hcl & Hh & _ & He).
  split_and!; try done. intros u Hu Hm. simpl. rewrite Hm, Hu. unfold Acquire. by rewrite Hcl.
Qed.

(** C3: no wake-up is lost, for a semaphore of size 1 <= n < 2^64 and in every
    interleaving in which no token is released that was never acquired (the
    release a refused waiter makes when its context is done is excluded): while
    the mutex is free, a thread blocked in the select of acquireInternal is
    queued or already granted, and the queue is non-empty only if no token is
    free. *)
Theorem semaphore_no_lost_wakeup n s :
  1 <= n < 2 ^ 64 -> sound_run n s -> mu s = None ->
  (forall t o, pc_of s t = Waiting o -> t ∈ waiters s \/ t ∈ ready s) /\
  (waiters s <> [] -> size s <= cur s).
Proof.
  intros Hn [Hr Hp] Hm. pose proof (reachable_inv n Hn s Hr Hp) as I.
  rewrite <- (live_unlocked s Hm). split; [|apply (i_full _ _ _ I)].
  intros t o Ht. apply (i_wait _ _ _ I). by rewrite Ht.
Qed.

Lemma pc_of_acquireInternal t o s u : u <> t -> pc_of (acquireInternal t o s) u = pc_of s u.
Proof.
  intros Hu. unfold acquireInternal.
  repeat case_match; unfold pc_of; destruct o; simpl; by rewrite lookup_insert_ne.
Qed.

Lemma Close_loop c rest :
  NoDup rest -> forall s,
  pc_of s c = Sending rest -> (forall t, t ∈ rest -> pc_of s t = Waiting OpAcquire) ->
  exists s', run (map (LSend c) rest ++ [LFinish c]) s = Some s' /\ mu s' = None /\
    closed s' = true /\
    forall t, t <> c -> pc_of s' t = if decide (t ∈ rest) then Received OpAcquire true else pc_of s t.
Proof.
  induction 1 as [|v rest Hv Hnd IH]; intros s Hc Hw.
  - simpl. rewrite Hc. eexists. split; [done|]. split_and!; [done | |].
    + unfold Close_finish, acquireInternal. by repeat case_match.
    + intros t Ht.
      unfold Close_finish. change (pc_of (set_mu None ?s') t) with (pc_of s' t).
      by rewrite pc_of_acquireInternal.
  - cbn [map app run exec]. rewrite Hc, (Hw v) by set_solver. rewrite decide_True by done.
    set (s1 := set_pc v _ _).
    assert (Hne : forall t, t ∈ v :: rest -> t <> c) by (intros t Ht ->; by rewrite (Hw c Ht) in Hc).
    assert (Hs1 : forall t, t <> c -> pc_of s1 t =
      if decide (t = v) then Received OpAcquire true else pc_of s t).
    { intros t Ht. unfold s1. rewrite !pc_of_set. by rewrite (decide_False (P := t = c)). }
    destruct (IH s1) as (s' & Hrun & Hm & Hcl & Hres).
    + unfold s1. rewrite pc_of_set, decide_False, pc_of_set, decide_True; [done..|].
      intros ->. by apply (Hne v); [set_solver|].
    + intros t Ht. rewrite Hs1 by (apply Hne; set_solver). rewrite decide_False by (by intros ->).
      apply Hw. set_solver.
    + exists s'. split_and!; try done. intros t Ht. rewrite Hres, Hs1 by done.
      repeat case_decide; set_solver.
Qed.

(** C4: in an interleaving without a release of a token never acquired, Close
    gets through its loop when no waiter's context is done in the meantime: each queued waiter receives the closed-pool error in queue order,
    and the mutex is free again with the semaphore closed. *)
Theorem semaphore_Close_progress n s c rest :
  1 <= n < 2 ^ 64 -> sound_run n s -> pc_of s c = Sending rest ->
  (forall t, t ∈ rest -> pc_of s t = Waiting OpAcquire) ->
  exists s', run (map (LSend c) rest ++ [LFinish c]) s = Some s' /\
    mu s' = None /\ closed s' = true /\
    forall t, t ∈ rest -> pc_of s' t = Received OpAcquire true.
Proof.
  intros Hn [Hr Hp] Hc Hw. pose proof (reachable_inv n Hn s Hr Hp) as I.
  assert (Hnd : NoDup rest).
  { pose proof (i_nodup _ _ _ I) as H. unfold live in H.
    rewrite (proj2 (i_mu _ _ _ I c)), Hc in H; [done | by rewrite Hc]. }
  destruct (Close_loop c rest Hnd s Hc Hw) as (s' & ? & ? & ? & Hpcs).
  exists s'. split_and!; try done. intros t Ht. rewrite Hpcs; [by rewrite decide_True|].
  intros ->. by rewrite (Hw c Ht) in Hc.
Qed.

(** ** Where it breaks *)

(** The deadlock: Close, the only thread in its loop, sends to the head waiter,
    which has left its select for the mutex that Close holds. *)
Record stuck (c t : nat) (s : state) : Prop := {
  k_mu : mu s = Some c;
  k_close : exists rest, pc_of s c = Sending (t :: rest);
  k_cancel : exists o, pc_of s t = CancelLock o;
  k_only : forall u, is_sending (pc_of s u) = true -> u = c;
}.

Lemma stuck_set_pc c t u p s :
  stuck c t s -> u <> c -> u <> t -> is_sending p = false -> stuck c t (set_pc u p s).
Proof.
  intros [Hm Hc Ht Ho] Huc Hut Hp. constructor; [done | | |].
  - by rewrite pc_of_set, decide_False.
  - by rewrite pc_of_set, decide_False.
  - intros x. rewrite pc_of_set. case_decide; [by rewrite Hp | apply Ho].
Qed.

Lemma stuck_exec c t l s s' : stuck c t s -> exec l s = Some s' -> stuck c t s'.
Proof.
  intros K E. destruct (k_close _ _ _ K) as [rest Hc]. destruct (k_cancel _ _ _ K) as [o Ht].
  assert (Hne : forall u p, pc_of s u = p -> p <> Sending (t :: rest) -> p <> CancelLock o ->
    u <> c /\ u <> t) by (intros u p <- H1 H2; split; intros ->; congruence).
  destruct l as [u o' d|u|u|u v|u|u|u|u|u|u|u|u]; cbn [exec] in E; rewrite ?(k_mu _ _ _ K) in E;
    try done.
  - destruct (pc_of s u) eqn:Hu; try done. injection E as <-.
    destruct (Hne u _ Hu) as [??]; try done. apply stuck_set_pc; try done. by destruct K.
  - destruct (in_call _); [|done]. injection E as <-. by destruct K.
  - destruct (pc_of s u) as [|?|[|w r]|?|?|??|??|??|] eqn:Hu; try done.
    destruct (pc_of s v) eqn:Hv; try done. case_decide; [|done]. subst w.
    assert (u = c) as -> by (apply (k_only _ _ _ K); by rewrite Hu). congruence.
  - destruct (pc_of s u) as [|?|[|w r]|?|?|??|??|??|] eqn:Hu; try done.
    assert (u = c) as -> by (apply (k_only _ _ _ K); by rewrite Hu). congruence.
  - destruct (pc_of s u) eqn:Hu; try done. case_decide; [|done]. injection E as <-.
    destruct (Hne u _ Hu) as [??]; try done. by apply stuck_set_pc.
  - destruct (pc_of s u) eqn:Hu; try done. case_decide; [|done]. injection E as <-.
    destruct (Hne u _ Hu) as [??]; try done. by apply stuck_set_pc.
  - destruct (pc_of s u) as [|?|?|?|?|o' b|??|??|] eqn:Hu; try done.
    destruct (Hne u _ Hu) as [??]; try done.
    case_decide; [|destruct b]; injection E as <-; [by apply stuck_set_pc..|].
    assert (K' : stuck c t (set_pc u (Returned o' RNil) (set_ready (ready s ∖ {[u]}) s)))
      by (apply stuck_set_pc; try done; by destruct K).
    by destruct K', o'.
  - destruct (pc_of s u) eqn:Hu; try done. injection E as <-.
    destruct (Hne u _ Hu) as [??]; try done. by apply stuck_set_pc.
Qed.

(** the deadlock is permanent: whatever is scheduled afterwards, the mutex
    stays with the blocked Close, so that no Acquire, Close or Release can
    enter its critical section again. *)
Theorem semaphore_deadlock_stays c t ls s s' :
  stuck c t s -> run ls s = Some s' ->
  stuck c t s' /\ forall u, exec (LEnter u) s' = None /\ exec (LUserRelease u) s' = None /\
    exec (LRelease u) s' = None /\ exec (LCancelSection u) s' = None.
Proof.
  revert s. induction ls as [|l ls IH]; simpl; intros s Hs H.
  - injection H as <-. split; [done|]. intros u. by rewrite (k_mu _ _ _ Hs).
  - destruct (exec l s) as [s1|] eqn:E; [|done]. apply (IH s1); [|done]. by eapply stuck_exec.
Qed.

(** Two holders' worth of calls: thread 0 holds the only token, thread 1 waits,
    thread 2 closes. *)
Definition contended : list label :=
  [LCall 0 OpAcquire false; LEnter 0; LForget 0; LCall 1 OpAcquire false; LEnter 1;
   LCall 2 OpClose false; LEnter 2].

(** Thread 1 is cancelled while thread 2 is about to send to it. *)
Definition deadlock_trace : list label := contended ++ [LCancel 1; LDone 1].

(** Thread 1 receives the closed-pool error, then finds its context done and
    releases a token it never had; thread 2 is granted that token. *)
Definition early_close_trace : list label :=
  contended ++ [LSend 2 1; LFinish 2; LCancel 1; LCheck 1; LRelease 1; LRecv 2; LCheck 2].

(** C40: Close and a cancelled waiter deadlock: from a fresh semaphore of one
    token there is a run without any phantom release that reaches the permanent
    deadlock. *)
Theorem semaphore_Close_deadlock :
  exists s, run deadlock_trace (init 1) = Some s /\ phantom s = 0%nat /\ stuck 2 1 s.
Proof.
  destruct (run deadlock_trace (init 1)) as [s|] eqn:E; [|by vm_compute in E].
  assert (Hr : reachable 1 s) by (by eapply run_reachable; [constructor|]).
  assert (H : mu s = Some 2%nat /\ phantom s = 0%nat /\ pc_of s 2 = Sending [1%nat] /\
    pc_of s 1 = CancelLock OpAcquire) by (vm_compute in E; injection E as <-; done).
  destruct H as (Hm & Hp & H2 & H1). exists s. split_and!; [done..|].
  constructor; [done | by eexists | by eexists |].
  intros u Hu. apply (i_mu 1 0 s) in Hu; [congruence|]. by apply reachable_inv.
Qed.

(** Close can return nil, meaning all tokens are back, while a caller still
    holds its session: the cancelled waiter above releases a token it never
    acquired. *)
Theorem semaphore_Close_early :
  exists s, run early_close_trace (init 1) = Some s /\
    pc_of s 2 = Returned OpClose RNil /\ held s = 1 /\ phantom s = 1%nat.
Proof. eexists. split; [vm_compute; reflexivity|]. done. Qed.

(** ** Witnesses *)

(** One token held by thread 0, thread 1 queued. *)
Definition waiting_state : state := default (init 1) (run (take 5 contended) (init 1)).

Definition closing_state : state := default (init 1) (run contended (init 1)).

(** Thread 0 acquires and releases, thread 2 closes. *)
Definition closed_state : state := default (init 1)
  (run [LCall 0 OpAcquire false; LEnter 0; LForget 0; LUserRelease 0; LCall 2 OpClose false;
        LEnter 2; LFinish 2] (init 1)).

Definition deadlock_state : state := default (init 1) (run deadlock_trace (init 1)).

Lemma sound_trace n ls :
  match run ls (init n) with Some s => phantom s =? 0 | None => false end%nat = true ->
  sound_run n (default (init n) (run ls (init n))).
Proof.
  destruct (run ls (init n)) as [s|] eqn:E; simpl; [|done].
  intros H%Nat.eqb_eq. split; [|done]. by eapply run_reachable; [constructor|].
Qed.

Lemma semaphore_accounting_witness : cur waiting_state <= 1.
Proof.
  apply (semaphore_accounting 1 waiting_state); [lia|]. apply sound_trace. by vm_compute.
Defined.

Lemma semaphore_Close_exclusive_witness : held closed_state = 0.
Proof.
  apply (semaphore_Close_exclusive 1 closed_state 2); [lia | | by vm_compute].
  apply sound_trace. by vm_compute.
Defined.

Lemma semaphore_no_lost_wakeup_witness : waiters waiting_state = [1%nat] /\
  size waiting_state <= cur waiting_state.
Proof.
  split; [by vm_compute|].
  apply (semaphore_no_lost_wakeup 1 waiting_state); [lia | | by vm_compute | by vm_compute].
  apply sound_trace. by vm_compute.
Defined.

Lemma semaphore_Close_progress_witness :
  exists s', run (map (LSend 2) [1%nat] ++ [LFinish 2]) closing_state = Some s' /\
    mu s' = None /\ closed s' = true /\
    forall t, t ∈ [1%nat] -> pc_of s' t = Received OpAcquire true.
Proof.
  apply (semaphore_Close_progress 1); [lia | | by vm_compute |].
  - apply sound_trace. by vm_compute.
  - intros t ->%list_elem_of_singleton. by vm_compute.
Defined.

Lemma semaphore_deadlock_stays_witness : exec (LEnter 5) deadlock_state = None.
Proof.
  destruct (semaphore_deadlock_stays 2 1 [] deadlock_state deadlock_state) as [_ H].
  - constructor; [by vm_compute | by exists []; vm_compute | by exists OpAcquire; vm_compute |].
    intros u Hu. apply (i_mu 1 0) in Hu; [by vm_compute in Hu; injection Hu as <-|].
    apply reachable_inv; [lia | |]; by apply (sound_trace 1 deadlock_trace); vm_compute.
  - done.
  - apply H.
Defined.
