(* ===== verification/P11.v ===== *)
(** * The PKCS#11 library

    The interface of github.com/miekg/pkcs11 as the repository uses it.  The
    library and the token behind it are external: their operations are
    parameters over an abstract state.  [Ctx] values are integers; [None] from
    [ctx_New] is the nil [*pkcs11.Ctx]. *)
From S2P Require Import Prelude Crypto.

Local Open Scope Z_scope.

(** Values handed to [pkcs11.NewAttribute]. *)
Inductive any :=
| ABool (b : bool)
| AInt (z : Z)
| AStr (s : string)
| ABytes (b : slice).

(** [pkcs11.Attribute]: [Value] is a byte slice. *)
Record Attribute := mkAttribute { at_Type : Z; at_Value : slice }.

(** The parameter of a mechanism ([nil], or one of the parameter structs). *)
Inductive mech_param :=
| NoParam
| GCMParams (iv aad : slice) (tagBits : Z)
| OAEPParams (hash mgf source : Z) (data : slice)
| PSSParams (hash mgf saltLen : Z).

Record Mechanism := mkMechanism { me_Mechanism : Z; me_param : mech_param }.

Record TokenInfo := mkTokenInfo {
  ti_Label : string;
  ti_SerialNumber : string;
  ti_MaxSessionCount : Z;
  ti_MaxRwSessionCount : Z;
}.

(** PKCS#11 constants. *)
Definition CKA_CLASS : Z := 0x0.
Definition CKA_TOKEN : Z := 0x1.
Definition CKA_LABEL : Z := 0x3.
Definition CKA_KEY_TYPE : Z := 0x100.
Definition CKA_ID : Z := 0x102.
Definition CKA_SENSITIVE : Z := 0x103.
Definition CKA_ENCRYPT : Z := 0x104.
Definition CKA_DECRYPT : Z := 0x105.
Definition CKA_SIGN : Z := 0x108.
Definition CKA_VERIFY : Z := 0x10a.
Definition CKA_MODULUS : Z := 0x120.
Definition CKA_MODULUS_BITS : Z := 0x121.
Definition CKA_PUBLIC_EXPONENT : Z := 0x122.
Definition CKA_VALUE_LEN : Z := 0x161.
Definition CKA_EC_PARAMS : Z := 0x180.
Definition CKA_EC_POINT : Z := 0x181.

Definition CKO_PUBLIC_KEY : Z := 2.
Definition CKO_PRIVATE_KEY : Z := 3.
Definition CKO_SECRET_KEY : Z := 4.

Definition CKK_RSA : Z := 0.
Definition CKK_EC : Z := 3.
Definition CKK_AES : Z := 0x1f.

Definition CKM_RSA_PKCS_KEY_PAIR_GEN : Z := 0x0.
Definition CKM_RSA_PKCS_OAEP : Z := 0x9.
Definition CKM_RSA_PKCS_PSS : Z := 0xd.
Definition CKM_SHA_1 : Z := 0x220.
Definition CKM_SHA256 : Z := 0x250.
Definition CKM_SHA224 : Z := 0x255.
Definition CKM_SHA384 : Z := 0x260.
Definition CKM_SHA512 : Z := 0x270.
Definition CKM_EC_KEY_PAIR_GEN : Z := 0x1040.
Definition CKM_ECDSA : Z := 0x1041.
Definition CKM_AES_KEY_GEN : Z := 0x1080.
Definition CKM_AES_GCM : Z := 0x1087.

Definition CKG_MGF1_SHA1 : Z := 1.
Definition CKG_MGF1_SHA256 : Z := 2.
Definition CKG_MGF1_SHA384 : Z := 3.
Definition CKG_MGF1_SHA512 : Z := 4.
Definition CKG_MGF1_SHA224 : Z := 5.
Definition CKZ_DATA_SPECIFIED : Z := 1.

Definition CKU_USER : Z := 1.
Definition CKF_RW_SESSION : Z := 0x2.
Definition CKF_SERIAL_SESSION : Z := 0x4.
Definition CK_UNAVAILABLE_INFORMATION : Z := 2 ^ 64 - 1.
Definition CK_EFFECTIVELY_INFINITE : Z := 0.

(** The operations of a [*pkcs11.Ctx]; every one may change the library's
    state.  The first argument is the context. *)
Class Pkcs11 := {
  p11 : Type;
  NewAttribute : Z -> any -> Attribute;
  ctx_New : string -> prog p11 (option Z);
  ctx_Destroy : Z -> prog p11 unit;
  C_Initialize : Z -> prog p11 unit;
  C_Finalize : Z -> prog p11 unit;
  C_GetSlotList : Z -> prog p11 (list Z);
  C_GetTokenInfo : Z -> Z -> prog p11 TokenInfo;
  C_OpenSession : Z -> Z -> Z -> prog p11 Z;
  C_CloseSession : Z -> Z -> prog p11 unit;
  C_CloseAllSessions : Z -> Z -> prog p11 unit;
  C_Login : Z -> Z -> Z -> string -> prog p11 unit;
  C_Logout : Z -> Z -> prog p11 unit;
  C_GenerateRandom : Z -> Z -> Z -> prog p11 slice;
  C_GetAttributeValue : Z -> Z -> Z -> list Attribute -> prog p11 (list Attribute);
  C_FindObjectsInit : Z -> Z -> list Attribute -> prog p11 unit;
  C_FindObjects : Z -> Z -> Z -> prog p11 (list Z);
  C_FindObjectsFinal : Z -> Z -> prog p11 unit;
  C_EncryptInit : Z -> Z -> Mechanism -> Z -> prog p11 unit;
  C_Encrypt : Z -> Z -> slice -> prog p11 slice;
  (* GCMParams.IV after the operation: a token may have chosen its own *)
  GCM_IV : Z -> Z -> mech_param -> prog p11 slice;
  C_DecryptInit : Z -> Z -> Mechanism -> Z -> prog p11 unit;
  C_Decrypt : Z -> Z -> slice -> prog p11 slice;
  C_SignInit : Z -> Z -> Mechanism -> Z -> prog p11 unit;
  C_Sign : Z -> Z -> slice -> prog p11 slice;
  C_VerifyInit : Z -> Z -> Mechanism -> Z -> prog p11 unit;
  C_Verify : Z -> Z -> slice -> slice -> prog p11 unit;
  C_GenerateKey : Z -> Z -> Mechanism -> list Attribute -> prog p11 Z;
  C_GenerateKeyPair : Z -> Z -> Mechanism -> list Attribute -> list Attribute ->
    prog p11 (Z * Z);
}.

(** Library calls return: a failed PKCS#11 call is an error value. *)
Class Pkcs11Total (P : Pkcs11) := {
  New_total p : no_panic (ctx_New p);
  Destroy_total c : no_panic (ctx_Destroy c);
  Destroy_void c s : is_ret (fst (ctx_Destroy c s)) = true;
  Initialize_total c : no_panic (C_Initialize c);
  Finalize_total c : no_panic (C_Finalize c);
  CloseSession_total c h : no_panic (C_CloseSession c h);
}.

(** ** A concrete token, for evaluation

    One slot with one AES key (object 7) under the label [aes] and the ID 1;
    operations need an open session; its state is the next session number and the operation started by an Init call. *)
Record toy_state := mkToy { ty_next : Z; ty_open : list Z; ty_op : option Mechanism; ty_found : list Z }.

Definition toy_key : bytes := repeat "k"%char 32.

Definition toy_attr (t : Z) : slice :=
  if t =? CKA_CLASS then Some [Z_to_byte CKO_SECRET_KEY]
  else if t =? CKA_KEY_TYPE then Some [Z_to_byte CKK_AES]
  else if t =? CKA_ID then Some [Z_to_byte 1]
  else if (t =? CKA_ENCRYPT) || (t =? CKA_DECRYPT) then Some [Z_to_byte 1] else None.

Definition toy_crypt (f : bytes -> bytes -> bytes -> outcome slice) (h : Z) (data : slice) :
    prog toy_state slice := fun s =>
  if negb (bool_decide (h ∈ ty_open s)) then (Fail (ErrLeaf "CKR_SESSION_HANDLE_INVALID"), s) else
  match ty_op s with
  | Some (mkMechanism _ (GCMParams iv aad _)) =>
      (f (content iv) (content data) (content aad),
       mkToy (ty_next s) (ty_open s) None (ty_found s))
  | _ => (Fail (ErrLeaf "CKR_OPERATION_NOT_INITIALIZED"), s)
  end.

Definition toy_start (h : Z) (m : Mechanism) (o : Z) : prog toy_state unit := fun s =>
  if negb (bool_decide (h ∈ ty_open s)) then (Fail (ErrLeaf "CKR_SESSION_HANDLE_INVALID"), s) else
  if (o =? 7) && match me_param m with GCMParams iv _ _ => Nat.eqb (slen iv) 12 | _ => true end
  then (Ret tt, mkToy (ty_next s) (ty_open s) (Some m) (ty_found s))
  else (Fail (ErrLeaf "CKR_KEY_HANDLE_INVALID"), s).

Definition toy_unsupported {A} : prog toy_state A :=
  lift (Fail (ErrLeaf "CKR_FUNCTION_NOT_SUPPORTED")).

Definition toy_value (x : any) : slice :=
  match x with
  | ABool b => Some [Z_to_byte (if b then 1 else 0)]
  | AInt z => Some [Z_to_byte z]
  | AStr s => Some (bytes_of_string s)
  | ABytes b => b
  end.

Definition toy_p11 : Pkcs11 := {|
  p11 := toy_state;
  NewAttribute t x := mkAttribute t (toy_value x);
  ctx_New p := lift (Ret (Some 1));
  ctx_Destroy c := lift (Ret tt);
  C_Initialize c := lift (Ret tt);
  C_Finalize c := lift (Ret tt);
  C_GetSlotList c := lift (Ret [4; 5]);
  C_GetTokenInfo c slot := lift (Ret (mkTokenInfo (if slot =? 5 then "hsm" else "") "s" 0 0));
  C_OpenSession c slot fl := fun s =>
    let h := Z.max (ty_next s) (1 + foldr Z.max 0 (ty_open s)) in
    (Ret h, mkToy (h + 1) (h :: ty_open s) (ty_op s) (ty_found s));
  C_CloseSession c h := fun s =>
    (Ret tt, mkToy (ty_next s) (filter (fun x => x <> h) (ty_open s)) None (ty_found s));
  C_CloseAllSessions c slot := fun s => (Ret tt, mkToy (ty_next s) [] None []);
  C_Login c h u pin := lift (Ret tt);
  C_Logout c h := lift (Ret tt);
  C_GenerateRandom c h n := lift (Ret (Some (repeat "r"%char (Z.to_nat n))));
  C_GetAttributeValue c h o l :=
    lift (Ret (map (fun a => mkAttribute (at_Type a) (toy_attr (at_Type a))) l));
  C_FindObjectsInit c h l := fun s =>
    (Ret tt, mkToy (ty_next s) (ty_open s) (ty_op s) [7]);
  C_FindObjects c h n := fun s => (Ret (take (Z.to_nat n) (ty_found s)), s);
  C_FindObjectsFinal c h := fun s => (Ret tt, mkToy (ty_next s) (ty_open s) (ty_op s) []);
  C_EncryptInit c h m o := toy_start h m o;
  C_Encrypt c h := toy_crypt (fun iv p aad => Ret (Some (gcm_seal (AesGcm := toy_gcm) toy_key iv p aad))) h;
  GCM_IV c h m := lift (Ret (match m with GCMParams iv _ _ => iv | _ => None end));
  C_DecryptInit c h m o := toy_start h m o;
  C_Decrypt c h := toy_crypt (fun iv p aad =>
    match gcm_open (AesGcm := toy_gcm) toy_key iv p aad with
    | Some p => Ret (Some p)
    | None => Fail (ErrLeaf "CKR_ENCRYPTED_DATA_INVALID")
    end) h;
  C_SignInit c h m o := toy_start h m o;
  C_Sign c h d := lift (Ret (Some (repeat "s"%char 64)));
  C_VerifyInit c h m o := toy_unsupported;
  C_Verify c h d g := toy_unsupported;
  C_GenerateKey c h m l := toy_unsupported;
  C_GenerateKeyPair c h m l l' := toy_unsupported;
|}.

Definition toy_lib0 : p11 (Pkcs11 := toy_p11) := mkToy 1 [] None [].

Lemma toy_total : Pkcs11Total toy_p11.
Proof. constructor; try done; intros *; intros s; simpl; done. Qed.

(** ** A library with its history

    [logged] turns any library into one that also records the calls that
    create, initialize, finalize and destroy its contexts.  As in Go, where
    [pkcs11.New] returns a new pointer, each context is a new handle. *)
Inductive event :=
| EvNew (c : Z)
| EvInitialize (c : Z)
| EvFinalize (c : Z)
| EvDestroy (c : Z).

Definition ev_ctx (e : event) : Z :=
  match e with EvNew c | EvInitialize c | EvFinalize c | EvDestroy c => c end.

Record logged_lib (X : Type) := mkLogged {
  lg_lib : X;
  (* the library's context of each handle made so far *)
  lg_ctxs : list Z;
  lg_log : list event;
}.
Arguments mkLogged {X}.
Arguments lg_lib {X}.
Arguments lg_ctxs {X}.
Arguments lg_log {X}.

(** The calls made so far on a context. *)
Definition calls_of {X} (c : Z) (l : logged_lib X) : list event :=
  filter (fun e => ev_ctx e = c) (lg_log l).

Section logged.
Context (P : Pkcs11).

Definition on_ctx {A} (c : Z) (f : Z -> prog p11 A) : prog (logged_lib p11) A := fun s =>
  let x := if c <? 0 then c else default c (lg_ctxs s !! Z.to_nat c) in
  let '(o, l) := f x (lg_lib s) in (o, mkLogged l (lg_ctxs s) (lg_log s)).

Definition recorded {A} (e : event) (m : prog (logged_lib p11) A) : prog (logged_lib p11) A :=
  fun s => m (mkLogged (lg_lib s) (lg_ctxs s) (lg_log s ++ [e])).

Definition logged_New (p : string) : prog (logged_lib p11) (option Z) := fun s =>
  let '(o, l) := ctx_New p (lg_lib s) in
  match o with
  | Ret (Some x) =>
      let c := Z.of_nat (length (lg_ctxs s)) in
      (Ret (Some c), mkLogged l (lg_ctxs s ++ [x]) (lg_log s ++ [EvNew c]))
  | o => (o, mkLogged l (lg_ctxs s) (lg_log s))
  end.

Definition logged : Pkcs11 := {|
  p11 := logged_lib p11;
  NewAttribute := NewAttribute;
  ctx_New := logged_New;
  ctx_Destroy c := recorded (EvDestroy c) (on_ctx c ctx_Destroy);
  C_Initialize c := recorded (EvInitialize c) (on_ctx c C_Initialize);
  C_Finalize c := recorded (EvFinalize c) (on_ctx c C_Finalize);
  C_GetSlotList c := on_ctx c C_GetSlotList;
  C_GetTokenInfo c slot := on_ctx c (fun c => C_GetTokenInfo c slot);
  C_OpenSession c slot fl := on_ctx c (fun c => C_OpenSession c slot fl);
  C_CloseSession c h := on_ctx c (fun c => C_CloseSession c h);
  C_CloseAllSessions c slot := on_ctx c (fun c => C_CloseAllSessions c slot);
  C_Login c h u pin := on_ctx c (fun c => C_Login c h u pin);
  C_Logout c h := on_ctx c (fun c => C_Logout c h);
  C_GenerateRandom c h n := on_ctx c (fun c => C_GenerateRandom c h n);
  C_GetAttributeValue c h o l := on_ctx c (fun c => C_GetAttributeValue c h o l);
  C_FindObjectsInit c h l := on_ctx c (fun c => C_FindObjectsInit c h l);
  C_FindObjects c h n := on_ctx c (fun c => C_FindObjects c h n);
  C_FindObjectsFinal c h := on_ctx c (fun c => C_FindObjectsFinal c h);
  C_EncryptInit c h m o := on_ctx c (fun c => C_EncryptInit c h m o);
  C_Encrypt c h d := on_ctx c (fun c => C_Encrypt c h d);
  GCM_IV c h m := on_ctx c (fun c => GCM_IV c h m);
  C_DecryptInit c h m o := on_ctx c (fun c => C_DecryptInit c h m o);
  C_Decrypt c h d := on_ctx c (fun c => C_Decrypt c h d);
  C_SignInit c h m o := on_ctx c (fun c => C_SignInit c h m o);
  C_Sign c h d := on_ctx c (fun c => C_Sign c h d);
  C_VerifyInit c h m o := on_ctx c (fun c => C_VerifyInit c h m o);
  C_Verify c h d g := on_ctx c (fun c => C_Verify c h d g);
  C_GenerateKey c h m l := on_ctx c (fun c => C_GenerateKey c h m l);
  C_GenerateKeyPair c h m l l' := on_ctx c (fun c => C_GenerateKeyPair c h m l l');
|}.

Lemma logged_total : Pkcs11Total P -> Pkcs11Total logged.
Proof.
  intros T. constructor; simpl; unfold recorded, on_ctx, logged_New.
  - intros p s. pose proof (New_total p (lg_lib s)) as H.
    by destruct (ctx_New p (lg_lib s)) as [[[]| |] l].
  - intros c s. simpl. pose proof (Destroy_total (if c <? 0 then c else default c (lg_ctxs s !! Z.to_nat c)) (lg_lib s)) as H.
    by destruct (ctx_Destroy _ _).
  - intros c s. simpl. pose proof (Destroy_void (if c <? 0 then c else default c (lg_ctxs s !! Z.to_nat c)) (lg_lib s)) as H.
    by destruct (ctx_Destroy _ _).
  - intros c s. simpl. pose proof (Initialize_total (if c <? 0 then c else default c (lg_ctxs s !! Z.to_nat c)) (lg_lib s)) as H.
    by destruct (C_Initialize _ _).
  - intros c s. simpl. pose proof (Finalize_total (if c <? 0 then c else default c (lg_ctxs s !! Z.to_nat c)) (lg_lib s)) as H.
    by destruct (C_Finalize _ _).
  - intros c h s. pose proof (CloseSession_total (if c <? 0 then c else default c (lg_ctxs s !! Z.to_nat c)) h (lg_lib s)) as H.
    by destruct (C_CloseSession _ _ _).
Qed.

(** A new context has a handle of its own. *)
Lemma logged_New_Some p s c s' : logged_New p s = (Ret (Some c), s') ->
  c = Z.of_nat (length (lg_ctxs s)) /\ length (lg_ctxs s') = S (length (lg_ctxs s)) /\
  lg_log s' = lg_log s ++ [EvNew c].
Proof.
  unfold logged_New. destruct (ctx_New p (lg_lib s)) as [[[]| |] l]; intros [= <- <-].
  simpl. rewrite length_app. simpl. split_and!; [done|lia|done].
Qed.

Lemma logged_New_other p s o s' : logged_New p s = (o, s') -> (forall c, o <> Ret (Some c)) ->
  lg_ctxs s' = lg_ctxs s /\ lg_log s' = lg_log s.
Proof.
  unfold logged_New. destruct (ctx_New p (lg_lib s)) as [[[]| |] l]; intros [= <- <-] H; try done.
  by destruct (H (Z.of_nat (length (lg_ctxs s)))).
Qed.

Lemma recorded_log {A} e c (f : Z -> prog p11 A) s :
  lg_ctxs (snd (recorded e (on_ctx c f) s)) = lg_ctxs s /\
  lg_log (snd (recorded e (on_ctx c f) s)) = lg_log s ++ [e].
Proof. unfold recorded, on_ctx. simpl. by destruct (f _ _). Qed.
End logged.
