(* ===== verification/Modules.v ===== *)
(** * PKCS#11 library lifecycle

    kms/pkcs11/internal/module/module.go: the global cache of reference-counted
    modules, and token selection.  Modules and references live in stores indexed
    by number; [Open] and [Drop] hold [cacheLock] throughout, so each is one
    step of the state. *)
From S2P Require Import Prelude GoText P11.

Local Open Scope Z_scope.

Record module := mkModule { mr_ctx : Z; mr_path : string; mr_refs : Z }.

Record Ref := mkRef { rf_module : nat; rf_dropped : bool }.

Definition set_refs (z : Z) (m : module) : module := mkModule (mr_ctx m) (mr_path m) z.

Definition TokenSelector : Type := Z -> TokenInfo -> bool.

Record Token := mkToken { tk_ID : Z; tk_Info : TokenInfo }.

Definition SelectID (id : Z) : TokenSelector := fun slot info => slot =? id.

Definition SelectLabel (label : string) : TokenSelector := fun slot info =>
  negb (String.eqb (ti_Label info) "") && String.eqb (ti_Label info) label.

Definition SelectSerial (serial : string) : TokenSelector := fun slot info =>
  negb (String.eqb (ti_SerialNumber info) "") && String.eqb (ti_SerialNumber info) serial.

Section modules.
Context `{P : Pkcs11}.
(** [filepath.Abs] and [filepath.EvalSymlinks] read the file system. *)
Context (filepath_Abs filepath_EvalSymlinks : string -> outcome string).

Record mods := mkMods {
  m_lib : p11;
  m_cache : gmap string nat;
  m_modules : list module;
  m_refs : list Ref;
}.

Definition m_call {A} (m : prog p11 A) : prog mods A :=
  zoom m_lib (fun l s => mkMods l (m_cache s) (m_modules s) (m_refs s)) m.

Definition m_set_cache (c : gmap string nat) (s : mods) : mods :=
  mkMods (m_lib s) c (m_modules s) (m_refs s).

Definition m_set_modules (l : list module) (s : mods) : mods :=
  mkMods (m_lib s) (m_cache s) l (m_refs s).

Definition m_set_refs (l : list Ref) (s : mods) : mods :=
  mkMods (m_lib s) (m_cache s) (m_modules s) l.

(** [&Ref{module: m}]: the new reference's number. *)
Definition new_ref (m : nat) : prog mods nat := fun s =>
  (Ret (length (m_refs s)), m_set_refs (m_refs s ++ [mkRef m false]) s).

Definition Open (path : string) : prog mods nat :=
  if negb (Contains path "/") then
    lift (Fail (ErrLeaf "module loading via search paths is not allowed")) else
  path ← lift (map_err (wrapf "failed to resolve absolute module path") (filepath_Abs path));
  path ← lift (map_err (wrapf "failed to eval symlinks in module path")
                 (filepath_EvalSymlinks path));
  s ← get;
  match m_cache s !! path with
  | Some m =>
      _ ← modify (fun s => m_set_modules
            (alter (fun r => set_refs (mr_refs r + 1) r) m (m_modules s)) s);
      new_ref m
  | None =>
      ctx ← m_call (ctx_New path);
      match ctx with
      | None => lift (Fail (ErrLeaf "failed to load dynamic library"))
      | Some ctx =>
          o ← attempt (m_call (C_Initialize ctx));
          match o with
          | Fail e =>
              _ ← m_call (ctx_Destroy ctx);
              lift (Fail (wrapf "failed to pkcs#11 Initialize" e))
          | Panic => lift Panic
          | Ret _ =>
              s ← get;
              let m := length (m_modules s) in
              _ ← modify (fun s => m_set_cache (<[path := m]> (m_cache s))
                    (m_set_modules (m_modules s ++ [mkModule ctx path 1]) s));
              new_ref m
          end
      end
  end.

Definition Drop (r : nat) : prog mods unit :=
  s ← get;
  match m_refs s !! r with
  | None => lift Panic
  | Some (mkRef m true) => lift (Fail (ErrLeaf "reference was already dropped"))
  | Some (mkRef m false) =>
      _ ← modify (fun s => m_set_refs (<[r := mkRef m true]> (m_refs s)) s);
      match m_modules s !! m with
      | None => lift Panic
      | Some md =>
          let md := set_refs (mr_refs md - 1) md in
          _ ← modify (fun s => m_set_modules (<[m := md]> (m_modules s)) s);
          if negb (mr_refs md =? 0) then lift (Ret tt) else
          o ← attempt (m_call (C_Finalize (mr_ctx md)));
          match o with
          | Panic => lift Panic
          | _ =>
              _ ← m_call (ctx_Destroy (mr_ctx md));
              _ ← modify (fun s => m_set_cache (delete (mr_path md) (m_cache s)) s);
              lift (map_err (wrapf "failed to pkcs#11 Finalize") o)
          end
      end
  end.

(** The loop of GetToken over the slots. *)
Fixpoint scan_slots (ctx : Z) (selectors : list TokenSelector) (slots : list Z) : prog p11 Token :=
  match slots with
  | [] => lift (Fail (ErrLeaf "no matching token"))
  | slot :: slots =>
      info ← on_err (wrapf "failed to pkcs#11 GetTokenInfo") (C_GetTokenInfo ctx slot);
      if forallb (fun selector : TokenSelector => selector slot info) selectors
      then lift (Ret (mkToken slot info))
      else scan_slots ctx selectors slots
  end.

Definition GetToken (ctx : Z) (selectors : list TokenSelector) : prog p11 Token :=
  match selectors with
  | [] => lift (Fail (ErrLeaf "need at least one selector"))
  | _ =>
      list ← on_err (wrapf "failed to pkcs#11 GetSlotList") (C_GetSlotList ctx);
      scan_slots ctx selectors list
  end.

(** ** The invariant *)

(** The undropped references to a module. *)
Definition live_refs (m : nat) (l : list Ref) : Z :=
  Z.of_nat (length (filter (fun r => rf_module r = m /\ rf_dropped r = false) l)).

Record mods_inv (s : mods) : Prop := {
  v_refs : forall r m d, m_refs s !! r = Some (mkRef m d) -> is_Some (m_modules s !! m);
  v_count : forall m md, m_modules s !! m = Some md -> mr_refs md = live_refs m (m_refs s);
  v_cached : forall m md, m_modules s !! m = Some md -> mr_refs md <> 0 ->
    m_cache s !! mr_path md = Some m;
  v_cache : forall path m, m_cache s !! path = Some m ->
    exists md, m_modules s !! m = Some md /\ mr_path md = path /\ 0 < mr_refs md;
}.

Lemma filter_none {A} (Q : A -> Prop) `{forall a, Decision (Q a)} (l : list A) :
  (forall a, a ∈ l -> ~ Q a) -> filter Q l = [].
Proof.
  induction l as [|a l IH]; intros Hn; [done|]. rewrite filter_cons, decide_False.
  - apply IH. intros b Hb. apply Hn. by constructor.
  - apply Hn. constructor.
Qed.

Lemma live_refs_app m l m' :
  live_refs m (l ++ [mkRef m' false]) = live_refs m l + (if decide (m' = m) then 1 else 0).
Proof.
  unfold live_refs. rewrite filter_app, length_app. rewrite filter_cons. simpl.
  case_decide as H1; case_decide as H2; simpl; try lia; exfalso; naive_solver.
Qed.

Lemma live_refs_drop m l r m' :
  l !! r = Some (mkRef m' false) ->
  live_refs m (<[r := mkRef m' true]> l) = live_refs m l - (if decide (m' = m) then 1 else 0).
Proof.
  intros Hr. unfold live_refs.
  assert (Hlt : (r < length l)%nat) by (apply lookup_lt_is_Some; eauto).
  rewrite insert_take_drop by done.
  rewrite <- (take_drop_middle l r _ Hr) at 3.
  rewrite !filter_app, !length_app, !filter_cons. simpl.
  repeat case_decide; simpl; try lia; exfalso; naive_solver.
Qed.

Lemma live_refs_nonneg m l : 0 <= live_refs m l.
Proof. unfold live_refs. lia. Qed.

Lemma mods_inv_lib t s : mods_inv s -> mods_inv (mkMods t (m_cache s) (m_modules s) (m_refs s)).
Proof. by destruct 1; constructor. Qed.

Lemma inv_share path m s :
  mods_inv s -> m_cache s !! path = Some m ->
  mods_inv (m_set_refs (m_refs s ++ [mkRef m false])
    (m_set_modules (alter (fun r => set_refs (mr_refs r + 1) r) m (m_modules s)) s)).
Proof.
  intros I Hc. destruct (v_cache _ I _ _ Hc) as (md & Hmd & Hp & Hpos).
  constructor; simpl.
  - intros r m' d Hr. destruct (decide (m' = m)) as [->|].
    + rewrite list_lookup_alter_eq, Hmd. by eexists.
    + rewrite list_lookup_alter_ne by done.
      apply lookup_app_Some in Hr as [Hr|[_ Hr]]; [by eapply v_refs|].
      apply list_lookup_singleton_Some in Hr as [_ Hr]. congruence.
  - intros m' md' Hm'. rewrite live_refs_app. destruct (decide (m = m')) as [<-|].
    + rewrite list_lookup_alter_eq, Hmd in Hm'. injection Hm' as <-. simpl.
      by rewrite (v_count _ I _ _ Hmd).
    + rewrite list_lookup_alter_ne in Hm' by done. rewrite (v_count _ I _ _ Hm'). lia.
  - intros m' md' Hm' Hne. destruct (decide (m = m')) as [<-|].
    + rewrite list_lookup_alter_eq, Hmd in Hm'. injection Hm' as <-. simpl. by rewrite Hp.
    + rewrite list_lookup_alter_ne in Hm' by done. by apply (v_cached _ I).
  - intros path' m' Hc'. destruct (v_cache _ I _ _ Hc') as (md' & Hmd' & Hp' & Hpos').
    destruct (decide (m = m')) as [<-|].
    + rewrite list_lookup_alter_eq, Hmd'. eexists. split; [done|]. simpl. split; [done|lia].
    + rewrite list_lookup_alter_ne by done. by eexists.
Qed.

Lemma inv_load path ctx s :
  mods_inv s -> m_cache s !! path = None ->
  mods_inv (m_set_refs (m_refs s ++ [mkRef (length (m_modules s)) false])
    (m_set_cache (<[path := length (m_modules s)]> (m_cache s))
      (m_set_modules (m_modules s ++ [mkModule ctx path 1]) s))).
Proof.
  intros I Hc.
  assert (Hold : forall m md, (m_modules s ++ [mkModule ctx path 1]) !! m = Some md ->
    m_modules s !! m = Some md /\ m <> length (m_modules s) \/
    m = length (m_modules s) /\ md = mkModule ctx path 1).
  { intros m md [H|[Hl H]]%lookup_app_Some.
    - left. split; [done|]. apply lookup_lt_Some in H. lia.
    - right. apply list_lookup_singleton_Some in H as [H <-]. split; [lia|done]. }
  assert (Hnone : live_refs (length (m_modules s)) (m_refs s) = 0).
  { unfold live_refs. replace (filter _ _) with (@nil Ref); [done|]. symmetry.
    destruct (filter _ _) as [|[m d] l] eqn:E; [done|]. exfalso.
    assert (mkRef m d ∈ filter (fun r => rf_module r = length (m_modules s) /\ rf_dropped r = false)
      (m_refs s)) as Hin by (rewrite E; set_solver).
    apply list_elem_of_filter in Hin as [[Hm _] Hin]. simpl in Hm. subst m.
    apply list_elem_of_lookup in Hin as [r Hr]. destruct (v_refs _ I _ _ _ Hr) as [md Hmd].
    apply lookup_lt_Some in Hmd. lia. }
  constructor; simpl.
  - intros r m d [Hr|[_ Hr]]%lookup_app_Some.
    + destruct (v_refs _ I _ _ _ Hr) as [md Hmd]. exists md. by apply lookup_app_l_Some.
    + apply list_lookup_singleton_Some in Hr as [_ [= <- <-]]. eexists. by apply list_lookup_middle.
  - intros m md H. rewrite live_refs_app. apply Hold in H as [[H Hne]|[-> ->]].
    + rewrite decide_False by done. rewrite (v_count _ I _ _ H). lia.
    + rewrite decide_True, Hnone by done. done.
  - intros m md H Hz. apply Hold in H as [[H Hne]|[-> ->]].
    + rewrite lookup_insert_ne; [by apply (v_cached _ I)|]. intros E.
      pose proof (v_cached _ I _ _ H Hz) as Hc'. congruence.
    + simpl. by rewrite lookup_insert_eq.
  - intros path' m [[<- <-]|[Hne H]]%lookup_insert_Some.
    + eexists. split; [by apply list_lookup_middle|]. simpl. split; [done|lia].
    + destruct (v_cache _ I _ _ H) as (md & Hmd & ? & ?). exists md.
      split; [by apply lookup_app_l_Some|done].
Qed.

(** The state after a Drop; [s] is the state before it. *)
Definition dropped_state (r m : nat) (md : module) (s : mods) : mods :=
  m_set_modules (<[m := set_refs (mr_refs md - 1) md]> (m_modules s))
    (m_set_refs (<[r := mkRef m true]> (m_refs s)) s).

Lemma inv_drop r m md s :
  mods_inv s -> m_refs s !! r = Some (mkRef m false) -> m_modules s !! m = Some md ->
  mods_inv (if decide (mr_refs md - 1 = 0)
            then m_set_cache (delete (mr_path md) (m_cache s)) (dropped_state r m md s)
            else dropped_state r m md s).
Proof.
  intros I Hr Hmd.
  assert (Hlt : (m < length (m_modules s))%nat) by (apply lookup_lt_is_Some; eauto).
  assert (Hpos : 0 < mr_refs md).
  { rewrite (v_count _ I _ _ Hmd). pose proof (live_refs_drop m _ _ _ Hr) as E.
    rewrite decide_True in E by done. pose proof (live_refs_nonneg m (<[r:=mkRef m true]> (m_refs s))).
    lia. }
  pose proof (v_cached _ I _ _ Hmd ltac:(lia)) as Hcm.
  assert (Hl : forall m' md', <[m := set_refs (mr_refs md - 1) md]> (m_modules s) !! m' = Some md' ->
    m' = m /\ md' = set_refs (mr_refs md - 1) md \/ m' <> m /\ m_modules s !! m' = Some md').
  { intros m' md' H. destruct (decide (m' = m)) as [->|].
    - rewrite list_lookup_insert_eq in H by done. left. split; congruence.
    - rewrite list_lookup_insert_ne in H by done. by right. }
  assert (H1 : forall r' m' d, <[r := mkRef m true]> (m_refs s) !! r' = Some (mkRef m' d) ->
    is_Some (<[m := set_refs (mr_refs md - 1) md]> (m_modules s) !! m')).
  { intros r' m' d H. apply lookup_lt_is_Some. rewrite length_insert. apply lookup_lt_is_Some.
    destruct (decide (r' = r)) as [->|].
    - rewrite list_lookup_insert_eq in H by (apply lookup_lt_is_Some; eauto).
      injection H as <- <-. by exists md.
    - rewrite list_lookup_insert_ne in H by done. by eapply v_refs. }
  assert (H2 : forall m' md', <[m := set_refs (mr_refs md - 1) md]> (m_modules s) !! m' = Some md' ->
    mr_refs md' = live_refs m' (<[r := mkRef m true]> (m_refs s))).
  { intros m' md' H. rewrite live_refs_drop by done. apply Hl in H as [[-> ->]|[Hne H]]; simpl.
    - rewrite decide_True by done. by rewrite (v_count _ I _ _ Hmd).
    - rewrite decide_False by done. rewrite (v_count _ I _ _ H). lia. }
  case_decide as Hz; constructor; simpl; try done.
  - intros m' md' H Hne. apply Hl in H as [[-> ->]|[Hm H]]; [simpl in Hne; lia|].
    rewrite lookup_delete_ne; [by apply (v_cached _ I)|]. intros E.
    pose proof (v_cached _ I _ _ H Hne). congruence.
  - intros path' m' [Hp H]%lookup_delete_Some.
    destruct (v_cache _ I _ _ H) as (md' & Hmd' & E & ?). exists md'.
    rewrite list_lookup_insert_ne; [done|]. intros <-. congruence.
  - intros m' md' H Hne. apply Hl in H as [[-> ->]|[Hm H]]; [done|]. by apply (v_cached _ I).
  - intros path' m' H. destruct (v_cache _ I _ _ H) as (md' & Hmd' & E & ?).
    destruct (decide (m = m')) as [<-|].
    + rewrite list_lookup_insert_eq by done. eexists. split; [done|]. simpl.
      split; [congruence|lia].
    + rewrite list_lookup_insert_ne by done. by exists md'.
Qed.

(** ** What Open and Drop do to the state *)

Definition m_set_lib (l : p11) (s : mods) : mods :=
  mkMods l (m_cache s) (m_modules s) (m_refs s).

(** A module shared by one more reference. *)
Definition shared_state (m : nat) (s : mods) : mods :=
  m_set_refs (m_refs s ++ [mkRef m false])
    (m_set_modules (alter (fun r => set_refs (mr_refs r + 1) r) m (m_modules s)) s).

(** A module loaded with its first reference. *)
Definition loaded_state (path : string) (ctx : Z) (s : mods) : mods :=
  m_set_refs (m_refs s ++ [mkRef (length (m_modules s)) false])
    (m_set_cache (<[path := length (m_modules s)]> (m_cache s))
      (m_set_modules (m_modules s ++ [mkModule ctx path 1]) s)).

Inductive opened (s : mods) : mods -> Prop :=
| op_refused : opened s s
| op_shared path m : m_cache s !! path = Some m -> opened s (shared_state m s)
| op_no_library path o l : ctx_New path (m_lib s) = (o, l) -> (forall c, o <> Ret (Some c)) ->
    opened s (m_set_lib l s)
| op_no_initialize path ctx l o : ctx_New path (m_lib s) = (Ret (Some ctx), l) ->
    fst (C_Initialize ctx l) = o -> (forall x, o <> Ret x) ->
    opened s (m_set_lib (snd (ctx_Destroy ctx (snd (C_Initialize ctx l)))) s)
| op_loaded path ctx l : ctx_New path (m_lib s) = (Ret (Some ctx), l) ->
    m_cache s !! path = None ->
    opened s (loaded_state path ctx (m_set_lib (snd (C_Initialize ctx l)) s)).

Inductive dropped (s : mods) : mods -> Prop :=
| dr_refused : dropped s s
| dr_shared r m md : m_refs s !! r = Some (mkRef m false) -> m_modules s !! m = Some md ->
    mr_refs md - 1 <> 0 -> dropped s (dropped_state r m md s)
| dr_last r m md : m_refs s !! r = Some (mkRef m false) -> m_modules s !! m = Some md ->
    mr_refs md - 1 = 0 ->
    dropped s (m_set_cache (delete (mr_path md) (m_cache s))
      (dropped_state r m md
        (m_set_lib (snd (ctx_Destroy (mr_ctx md) (snd (C_Finalize (mr_ctx md) (m_lib s))))) s))).

Context {T : Pkcs11Total P}.

Lemma Open_opened path s : opened s (snd (Open path s)).
Proof.
  unfold Open. destruct (negb _); [constructor|]. run_prog.
  destruct (map_err _ _) as [p1| |]; [|constructor..]. run_prog.
  destruct (map_err _ _) as [p2| |]; [|constructor..]. run_prog.
  destruct (m_cache s !! p2) as [m|] eqn:Hc.
  - run_prog. by apply (op_shared s p2).
  - unfold m_call. run_prog. destruct (ctx_New p2 (m_lib s)) as [[[ctx|]|e|] t] eqn:En;
      try by eapply op_no_library.
    run_prog. simpl. pose proof (Initialize_total ctx t) as Hp.
    destruct (C_Initialize ctx t) as [o t'] eqn:E. simpl. destruct o; simpl in *; [| |done].
    + run_prog. pose proof (op_loaded s p2 ctx t En Hc) as H. by rewrite E in H.
    + run_prog. pose proof (op_no_initialize s p2 ctx t _ En eq_refl) as H. rewrite E in H.
      specialize (H ltac:(done)). simpl in *. by destruct (ctx_Destroy ctx t') as [[]].
Qed.

Lemma Drop_dropped r s : mods_inv s -> (r < length (m_refs s))%nat -> dropped s (snd (Drop r s)).
Proof.
  intros I Hlt. unfold Drop. run_prog.
  destruct (m_refs s !! r) as [[m [|]]|] eqn:Hr; [constructor| |constructor]. run_prog. simpl.
  destruct (v_refs _ I _ _ _ Hr) as [md Hmd]. rewrite Hmd. run_prog. simpl.
  destruct (mr_refs md - 1 =? 0) eqn:Hz; simpl; [|apply (dr_shared s r m md); [done..|lia]].
  pose proof (dr_last s r m md Hr Hmd ltac:(lia)) as Hd.
  unfold m_call. run_prog. simpl. pose proof (Finalize_total (mr_ctx md) (m_lib s)) as Hp.
  destruct (C_Finalize _ _) as [o t] eqn:Ef. simpl in *.
  pose proof (Destroy_void (mr_ctx md) t) as Hv.
  destruct (ctx_Destroy (mr_ctx md) t) as [[[]| |] t''] eqn:Et; try done.
  destruct o; [| |done]; run_prog; simpl; rewrite Et; run_prog; exact Hd.
Qed.

Lemma mods_inv_opened s s' : mods_inv s -> opened s s' -> mods_inv s'.
Proof.
  intros I Ho. destruct Ho; [done | by eapply inv_share | by apply mods_inv_lib.. |].
  apply inv_load; [by apply mods_inv_lib | done].
Qed.

Lemma mods_inv_dropped s s' : mods_inv s -> dropped s s' -> mods_inv s'.
Proof.
  intros I [|r m md Hr Hmd Hz|r m md Hr Hmd Hz]; [done|..].
  - pose proof (inv_drop r m md s I Hr Hmd) as H. by rewrite decide_False in H.
  - pose proof (inv_drop r m md s I Hr Hmd) as H. rewrite decide_True in H by done.
    by eapply mods_inv_lib in H.
Qed.

(** dropping a reference twice is an error that changes nothing. *)
Theorem module_double_drop r m s :
  m_refs s !! r = Some (mkRef m false) -> is_Some (m_modules s !! m) ->
  let s' := snd (Drop r s) in
  Drop r s' = (Fail (ErrLeaf "reference was already dropped"), s').
Proof.
  intros Hr [md Hmd].
  assert (Hd : m_refs (snd (Drop r s)) !! r = Some (mkRef m true)).
  { assert (Hi : <[r := mkRef m true]> (m_refs s) !! r = Some (mkRef m true))
      by (apply list_lookup_insert_eq, lookup_lt_is_Some; eauto).
    unfold Drop. run_prog. rewrite Hr. run_prog. simpl. rewrite Hmd. run_prog.
    destruct (negb _); [exact Hi|]. unfold m_call. run_prog.
    destruct (C_Finalize _ _) as [[] ?]; simpl; run_prog; try exact Hi;
      destruct (ctx_Destroy _ _) as [[] ?]; exact Hi. }
  simpl. unfold Drop at 1. run_prog. by rewrite Hd.
Qed.
End modules.
Arguments mods_inv {P} s.
Arguments opened {P} s s'.
Arguments dropped {P} s s'.
Arguments mkMods {P} m_lib m_cache m_modules m_refs.

(** ** The life of a module's context *)
Section lifecycle.
Context (P : Pkcs11) {T : Pkcs11Total P}.
Context (filepath_Abs filepath_EvalSymlinks : string -> outcome string).
#[local] Instance lifecycle_lib : Pkcs11 := logged P.
#[local] Instance lifecycle_total : Pkcs11Total lifecycle_lib := logged_total P T.

(** A run of Open and Drop calls from the empty cache and any library, between
    which the users of the modules call the library as they like, as long as
    they leave the modules' contexts to this package. *)
Inductive mods_reach : mods (P := lifecycle_lib) -> Prop :=
| mr_init l : mods_reach (mkMods (mkLogged l [] [] : p11) ∅ [] [])
| mr_Open path s : mods_reach s ->
    mods_reach (snd (Open filepath_Abs filepath_EvalSymlinks path s))
| mr_Drop r s : mods_reach s -> (r < length (m_refs s))%nat -> mods_reach (snd (Drop r s))
| mr_use l s : mods_reach s ->
    mods_reach (m_set_lib (mkLogged l (lg_ctxs (m_lib s)) (lg_log (m_lib s)) : p11) s).

(** What was called on the context of a module that is loaded, and of one that
    has been given up. *)
Definition life (c refs : Z) : list event :=
  [EvNew c; EvInitialize c] ++ if refs =? 0 then [EvFinalize c; EvDestroy c] else [].

(** Contexts made so far, calls so far, modules. *)
Record life_inv (n : nat) (log : list event) (l : list module) : Prop := {
  li_ctx : forall m md, l !! m = Some md -> 0 <= mr_ctx md < Z.of_nat n;
  li_own : forall m m' md md', l !! m = Some md -> l !! m' = Some md' ->
    mr_ctx md = mr_ctx md' -> m = m';
  li_past : forall e, e ∈ log -> ev_ctx e < Z.of_nat n;
  li_calls : forall m md, l !! m = Some md ->
    filter (fun e => ev_ctx e = mr_ctx md) log = life (mr_ctx md) (mr_refs md);
}.

(** Calls on a context that belongs to no module. *)
Lemma life_inv_calls n n' log l evs :
  life_inv n log l -> (n <= n')%nat ->
  (forall e, e ∈ evs -> Z.of_nat n <= ev_ctx e < Z.of_nat n') ->
  life_inv n' (log ++ evs) l.
Proof.
  intros I Hn He. constructor.
  - intros m md H. pose proof (li_ctx _ _ _ I _ _ H). lia.
  - apply (li_own _ _ _ I).
  - intros e [H|H]%elem_of_app; [pose proof (li_past _ _ _ I _ H); lia | apply He in H; lia].
  - intros m md H. rewrite filter_app, (li_calls _ _ _ I _ _ H).
    replace (filter _ evs) with (@nil event); [by rewrite app_nil_r|]. symmetry.
    apply filter_none. intros e Hin E. apply He in Hin.
    pose proof (li_ctx _ _ _ I _ _ H). lia.
Qed.

Lemma life_inv_alter n log l m md z : l !! m = Some md -> (z =? 0) = (mr_refs md =? 0) ->
  life_inv n log l -> life_inv n log (<[m := set_refs z md]> l).
Proof.
  intros Hm Hz I.
  assert (Hl : forall m' md', <[m := set_refs z md]> l !! m' = Some md' -> exists md0,
    l !! m' = Some md0 /\ mr_ctx md0 = mr_ctx md' /\ (mr_refs md' =? 0) = (mr_refs md0 =? 0)).
  { intros m' md' H. apply list_lookup_insert_Some in H as [(-> & <- & _)|[_ H]]; by eexists. }
  constructor.
  - intros m' md' (md0 & H & <- & _)%Hl. by apply (li_ctx _ _ _ I m').
  - intros m1 m2 md1 md2 (md3 & H1 & <- & _)%Hl (md4 & H2 & <- & _)%Hl. by apply (li_own _ _ _ I).
  - apply (li_past _ _ _ I).
  - intros m' md' (md0 & H & <- & Hr)%Hl. rewrite (li_calls _ _ _ I _ _ H). unfold life.
    by rewrite Hr.
Qed.

Lemma life_inv_loaded n log l path : life_inv n log l ->
  let c := Z.of_nat n in
  life_inv (S n) (log ++ [EvNew c; EvInitialize c]) (l ++ [mkModule c path 1]).
Proof.
  intros I c. assert (I' : life_inv (S n) (log ++ [EvNew c; EvInitialize c]) l).
  { apply (life_inv_calls n); [done|lia|]. intros e He.
    repeat apply elem_of_cons in He as [->|He]; simpl; try lia. set_solver. }
  assert (Hold : forall m md, (l ++ [mkModule c path 1]) !! m = Some md ->
    l !! m = Some md /\ mr_ctx md <> c \/ m = length l /\ md = mkModule c path 1).
  { intros m md [H|[Hl H]]%lookup_app_Some.
    - left. split; [done|]. pose proof (li_ctx _ _ _ I _ _ H). lia.
    - right. apply list_lookup_singleton_Some in H as [H <-]. split; [lia|done]. }
  constructor.
  - intros m md [[H _]|[-> ->]]%Hold; [exact (li_ctx _ _ _ I' m md H)|simpl; lia].
  - intros m m' md md' [[H Hc]|[-> ->]]%Hold [[H' Hc']|[-> ->]]%Hold; simpl; try done.
    by apply (li_own _ _ _ I').
  - apply (li_past _ _ _ I').
  - intros m md [[H _]|[-> ->]]%Hold; [exact (li_calls _ _ _ I' m md H)|]. simpl.
    rewrite filter_app. replace (filter _ log) with (@nil event).
    + rewrite !filter_cons. simpl. by rewrite !decide_True.
    + symmetry. apply filter_none. intros e Hin E.
      pose proof (li_past _ _ _ I _ Hin). lia.
Qed.

(** The last reference gone: the context is finalized, then destroyed. *)
Lemma life_inv_given_up n log l m md : l !! m = Some md -> mr_refs md = 1 ->
  life_inv n log l ->
  life_inv n (log ++ [EvFinalize (mr_ctx md); EvDestroy (mr_ctx md)]) (<[m := set_refs 0 md]> l).
Proof.
  intros Hm Hz I. pose proof (li_ctx _ _ _ I _ _ Hm).
  assert (Hl : forall m' md', <[m := set_refs 0 md]> l !! m' = Some md' ->
    m' = m /\ md' = set_refs 0 md \/ m' <> m /\ l !! m' = Some md').
  { intros m' md' Hm'. apply list_lookup_insert_Some in Hm' as [(-> & <- & _)|[? ?]]; eauto. }
  constructor.
  - intros m' md' [[-> ->]|[_ H']]%Hl; [done|by apply (li_ctx _ _ _ I m')].
  - intros m1 m2 md1 md2 [[-> ->]|[N1 H1]]%Hl [[-> ->]|[N2 H2]]%Hl; simpl; try done.
    + by apply (li_own _ _ _ I).
    + by apply (li_own _ _ _ I).
    + by apply (li_own _ _ _ I).
  - intros e [He|He]%elem_of_app; [by apply (li_past _ _ _ I)|].
    repeat apply elem_of_cons in He as [->|He]; simpl; try lia. set_solver.
  - intros m' md' [[-> ->]|[N H']]%Hl; rewrite filter_app; simpl.
    + rewrite (li_calls _ _ _ I _ _ Hm). unfold life. rewrite Hz. simpl.
      rewrite !filter_cons. simpl. by rewrite !decide_True.
    + rewrite (li_calls _ _ _ I _ _ H'). rewrite !filter_cons. simpl.
      rewrite !decide_False; [by rewrite app_nil_r| |]; intros E; apply N;
        symmetry; by apply (li_own _ _ _ I _ _ _ _ Hm H').
Qed.

(** The calls as the run records them. *)
Definition ctxs_of (l : p11) : nat := length (lg_ctxs l).

Definition log_of (l : p11) : list event := lg_log l.

Lemma Initialize_log c l :
  ctxs_of (snd (C_Initialize c l)) = ctxs_of l /\
  log_of (snd (C_Initialize c l)) = log_of l ++ [EvInitialize c].
Proof. destruct (recorded_log P (EvInitialize c) c C_Initialize l). split; [by apply (f_equal length)|done]. Qed.

Lemma Finalize_log c l :
  ctxs_of (snd (C_Finalize c l)) = ctxs_of l /\
  log_of (snd (C_Finalize c l)) = log_of l ++ [EvFinalize c].
Proof. destruct (recorded_log P (EvFinalize c) c C_Finalize l). split; [by apply (f_equal length)|done]. Qed.

Lemma Destroy_log c l :
  ctxs_of (snd (ctx_Destroy c l)) = ctxs_of l /\
  log_of (snd (ctx_Destroy c l)) = log_of l ++ [EvDestroy c].
Proof. destruct (recorded_log P (EvDestroy c) c ctx_Destroy l). split; [by apply (f_equal length)|done]. Qed.

Lemma New_log p c l l' : ctx_New p l = (Ret (Some c), l') ->
  c = Z.of_nat (ctxs_of l) /\ ctxs_of l' = S (ctxs_of l) /\ log_of l' = log_of l ++ [EvNew c].
Proof. apply logged_New_Some. Qed.

Lemma New_other_log p o l l' : ctx_New p l = (o, l') -> (forall c, o <> Ret (Some c)) ->
  ctxs_of l' = ctxs_of l /\ log_of l' = log_of l.
Proof. intros H Hn. destruct (logged_New_other _ _ _ _ _ H Hn). split; [by apply (f_equal length)|done]. Qed.

Definition life_ok (s : mods (P := lifecycle_lib)) : Prop :=
  life_inv (ctxs_of (m_lib s)) (log_of (m_lib s)) (m_modules s).

Lemma life_opened s s' : mods_inv s -> opened s s' -> life_ok s -> life_ok s'.
Proof.
  intros Im Ho I. unfold life_ok in *.
  destruct Ho as [|path m Hc|path o l En Hn|path ctx l o En _ _|path ctx l En _].
  - done.
  - destruct (v_cache _ Im _ _ Hc) as (md & Hmd & _ & Hpos). simpl.
    replace (alter _ _ _) with (<[m := set_refs (mr_refs md + 1) md]> (m_modules s)).
    + apply life_inv_alter; [done|lia|done].
    + rewrite list_insert_alter. apply list_alter_ext; [|done]. intros md' H'. congruence.
  - destruct (New_other_log _ _ _ _ En Hn) as [H1 H2]. simpl. by rewrite H1, H2.
  - destruct (New_log _ _ _ _ En) as (Hctx & H1 & H2).
    cbn [m_set_lib loaded_state dropped_state m_set_refs m_set_cache m_set_modules m_lib m_modules].
    rewrite (proj1 (Destroy_log _ _)), (proj2 (Destroy_log _ _)),
      (proj1 (Initialize_log _ _)), (proj2 (Initialize_log _ _)), H1, H2, <- !(assoc_L (++)).
    apply (life_inv_calls (ctxs_of (m_lib s))); [done|lia|]. intros e He.
    repeat apply elem_of_cons in He as [->|He]; simpl; try lia. set_solver.
  - destruct (New_log _ _ _ _ En) as (-> & H1 & H2).
    cbn [m_set_lib loaded_state dropped_state m_set_refs m_set_cache m_set_modules m_lib m_modules].
    rewrite (proj1 (Initialize_log _ _)), (proj2 (Initialize_log _ _)), H1, H2, <- !(assoc_L (++)).
    by apply life_inv_loaded.
Qed.

Lemma live_refs_pos r m s md : mods_inv s ->
  m_refs s !! r = Some (mkRef m false) -> m_modules s !! m = Some md -> 0 < mr_refs md.
Proof.
  intros I Hr Hmd. rewrite (v_count _ I _ _ Hmd). pose proof (live_refs_drop m _ _ _ Hr) as E.
  rewrite decide_True in E by done. pose proof (live_refs_nonneg m (<[r:=mkRef m true]> (m_refs s))).
  lia.
Qed.

Lemma life_dropped s s' : mods_inv s -> dropped s s' -> life_ok s -> life_ok s'.
Proof.
  intros Im Hd I. unfold life_ok in *. destruct Hd as [|r m md Hr Hmd Hz|r m md Hr Hmd Hz].
  - done.
  - pose proof (live_refs_pos _ _ _ _ Im Hr Hmd). simpl. apply life_inv_alter; [done|lia|done].
  - cbn [m_set_lib loaded_state dropped_state m_set_refs m_set_cache m_set_modules m_lib m_modules].
    rewrite (proj1 (Destroy_log _ _)), (proj2 (Destroy_log _ _)),
      (proj1 (Finalize_log _ _)), (proj2 (Finalize_log _ _)), <- (assoc_L (++)), Hz.
    apply life_inv_given_up; [done|lia|done].
Qed.

Lemma mods_reach_inv s : mods_reach s -> mods_inv s /\ life_ok s.
Proof.
  induction 1 as [l|path s H [I1 I2]|r s H [I1 I2] Hr|l s H [I1 I2]].
  - split; constructor; simpl; intros *; rewrite ?lookup_nil, ?lookup_empty; try done. set_solver.
  - pose proof (Open_opened filepath_Abs filepath_EvalSymlinks path s) as Ho.
    split; [by eapply mods_inv_opened | by eapply life_opened].
  - pose proof (Drop_dropped r s I1 Hr) as Hd.
    split; [by eapply mods_inv_dropped | by eapply life_dropped].
  - split; [by apply (mods_inv_lib _ s) | done].
Qed.

(** C6: no use after destroy: after any sequence of Open and Drop calls on any
    library, with any other use of the library between them, the count of a
    module is the number of its undropped references.  As long as there is
    one, the module is in the cache under its path and its own context has
    been created and initialized, neither finalized nor destroyed; once the
    last is dropped, the module has left the cache and its context has been
    finalized and then destroyed, each once. *)
Theorem module_refcount s m md :
  mods_reach s -> m_modules s !! m = Some md ->
  mr_refs md = live_refs m (m_refs s) /\
  (forall m' md', m_modules s !! m' = Some md' -> mr_ctx md' = mr_ctx md -> m' = m) /\
  ((exists r, m_refs s !! r = Some (mkRef m false)) ->
    m_cache s !! mr_path md = Some m /\
    calls_of (mr_ctx md) (m_lib s) = [EvNew (mr_ctx md); EvInitialize (mr_ctx md)]) /\
  (~ (exists r, m_refs s !! r = Some (mkRef m false)) ->
    m_cache s !! mr_path md <> Some m /\
    calls_of (mr_ctx md) (m_lib s) =
      [EvNew (mr_ctx md); EvInitialize (mr_ctx md); EvFinalize (mr_ctx md); EvDestroy (mr_ctx md)]).
Proof.
  intros Hr Hmd. destruct (mods_reach_inv _ Hr) as [I J].
  pose proof (v_count _ I _ _ Hmd) as Hc. pose proof (li_calls _ _ _ J _ _ Hmd) as Hl.
  split; [done|]. split; [intros m' md' H' E; by apply (li_own _ _ _ J m' m md' md)|].
  unfold calls_of. unfold log_of in Hl. rewrite Hl. unfold life. split.
  - intros [r Hrr]. pose proof (live_refs_pos _ _ _ _ I Hrr Hmd).
    split; [apply (v_cached _ I _ _ Hmd); lia|]. by rewrite (proj2 (Z.eqb_neq _ _)) by lia.
  - intros Hn. assert (E : mr_refs md = 0).
    { rewrite Hc. unfold live_refs. rewrite filter_none; [done|]. intros [m0 d] Hin [? ?].
      simpl in *. subst. apply list_elem_of_lookup in Hin as [r Hrr]. apply Hn. by exists r. }
    rewrite E. split; [|done]. intros H. destruct (v_cache _ I _ _ H) as (md' & H' & _ & Hpos).
    rewrite Hmd in H'. injection H' as <-. lia.
Qed.
End lifecycle.

Section token_selection.
Context `{P : Pkcs11}.

(** GetToken returns the first token, in slot order, that every selector
    accepts; the tokens before it were read and rejected. *)
Theorem GetToken_first ctx selectors s tok s' :
  GetToken ctx selectors s = (Ret tok, s') ->
  selectors <> [] /\
  forallb (fun sel : TokenSelector => sel (tk_ID tok) (tk_Info tok)) selectors = true /\
  exists slots s1 pre post, C_GetSlotList ctx s = (Ret slots, s1) /\ slots = pre ++ tk_ID tok :: post /\
    Forall (fun slot => exists info s2 s3, C_GetTokenInfo ctx slot s2 = (Ret info, s3) /\
      forallb (fun sel : TokenSelector => sel slot info) selectors = false) pre.
Proof.
  unfold GetToken. destruct selectors as [|sel0 sels]; [done|]. set (selectors := sel0 :: sels).
  intros H. apply pbind_Ret in H as (slots & s1 & Hl & H).
  apply on_err_Ret in Hl. split; [done|].
  enough (forallb (fun sel : TokenSelector => sel (tk_ID tok) (tk_Info tok)) selectors = true /\
    exists pre post, slots = pre ++ tk_ID tok :: post /\
    Forall (fun slot => exists info s2 s3, C_GetTokenInfo ctx slot s2 = (Ret info, s3) /\
      forallb (fun sel : TokenSelector => sel slot info) selectors = false) pre) by naive_solver.
  clear Hl. revert s1 H. induction slots as [|slot slots IH]; intros s1 H; [done|].
  cbn [scan_slots] in H. apply pbind_Ret in H as (info & s2 & Hi & H).
  apply on_err_Ret in Hi.
  destruct (forallb (fun sel : TokenSelector => sel slot info) selectors) eqn:E.
  - unfold lift in H. injection H as <- <-. split; [done|]. by exists [], slots.
  - destruct (IH _ H) as (Hall & pre & post & -> & Hpre). split; [done|].
    exists (slot :: pre), post. split; [done|]. constructor; [|done]. naive_solver.
Qed.
End token_selection.

Section witnesses.
#[local] Existing Instance toy_p11.
#[local] Existing Instance toy_total.

Definition demo_open : mods := snd (Open Ret Ret "/lib/hsm.so" (mkMods (P := toy_p11) toy_lib0 ∅ [] [])).

Definition demo_logged : mods (P := logged toy_p11) :=
  snd (Open (P := logged toy_p11) Ret Ret "/lib/hsm.so"
    (mkMods (mkLogged toy_lib0 [] [] : p11 (Pkcs11 := logged toy_p11)) ∅ [] [])).

Lemma module_refcount_witness :
  m_cache demo_logged !! "/lib/hsm.so" = Some 0%nat /\
  calls_of 0 (m_lib demo_logged) = [EvNew 0; EvInitialize 0].
Proof.
  pose proof (module_refcount toy_p11 Ret Ret demo_logged 0 (mkModule 0 "/lib/hsm.so" 1)
    ltac:(apply mr_Open, mr_init) eq_refl) as H.
  apply (proj1 (proj2 (proj2 H))). by exists 0%nat.
Defined.

Lemma module_double_drop_witness :
  Drop 0 (snd (Drop 0 demo_open)) =
  (Fail (ErrLeaf "reference was already dropped"), snd (Drop 0 demo_open)).
Proof. apply (module_double_drop 0 0 demo_open); [reflexivity|]. by eexists. Defined.

Lemma GetToken_first_witness :
  forallb (fun sel : TokenSelector => sel 5 (mkTokenInfo "hsm" "s" 0 0)) [SelectLabel "hsm"] = true.
Proof.
  apply (GetToken_first (P := toy_p11) 1 [SelectLabel "hsm"] toy_lib0 (mkToken 5 (mkTokenInfo "hsm" "s" 0 0)) toy_lib0).
  by vm_compute.
Defined.
End witnesses.
