(* ===== verification/Pool.v ===== *)
(** * The session pool cache

    kms/pkcs11/internal/session/pool.go: Login, Drop, incRefs and decRefs, as a
    labelled transition system.  Sections under [cacheLock] and the
    compare-and-swap loops of incRefs and decRefs are one step each; the calls
    into the PKCS#11 library are steps whose outcome the label gives.  Pools and
    references live in stores indexed by number. *)
From S2P Require Import Prelude P11.

Local Open Scope Z_scope.

Abbreviation cacheKey := (Z * string)%type.

(** Where a pool is in its life; bookkeeping, no code corresponds to it. *)
Inductive phase :=
| POpening | PUndoing | PUndone | PFailed    (* a login that fails *)
| PLive | PClosing | PRemoved | PDead.       (* one that succeeds, until its last Drop *)

#[export] Instance phase_eq_dec : EqDecision phase.
Proof. solve_decision. Defined.

Record pool := mkPool {
  p_key : cacheKey;
  p_pinHash : bytes;
  p_refs : Z;
  p_live : bool;
  p_dead : bool;
  p_size : Z;             (* the size of its semaphore *)
  p_phase : phase;
}.

(** [PoolRef]: [Dropping] is a reference whose Drop has won the swap of
    [dropped] and not yet run decRefs. *)
Inductive ref_state := Alive | Dropping | Dropped.

Record PoolRef := mkPoolRef { r_pool : nat; r_state : ref_state }.

(** The arguments of a Login, its PIN hashed. *)
Record login := mkLogin { lg_key : cacheKey; lg_pinHash : bytes; lg_max : Z }.

Inductive pc :=
| Idle
| Looking (g : login)                   (* the head of Login's loop *)
| WaitingLive (g : login) (p : nat)     (* select on live, dead, ctx.Done *)
| Comparing (g : login) (p : nat)
| Sharing (g : login) (p : nat)         (* at incRefs *)
| WaitingDead (g : login) (p : nat)     (* select on dead, ctx.Done *)
| Opening (g : login) (p : nat)         (* OpenSession and Login of a new pool *)
| Undoing (p : nat)                     (* its deferred rollback *)
| UndoKilling (p : nat)                 (* close(p.dead) after the rollback *)
| Decreasing (r : nat)                  (* Drop at decRefs *)
| Closing (p : nat)                     (* Close, Logout, CloseAllSessions *)
| Removing (p : nat)                    (* Drop's deferred removal *)
| Killing (p : nat)                     (* close(p.dead) after the removal *)
| Returned (r : option nat)             (* Login: a reference, or an error; Drop: None *)
| Panicked.

Record state := mkState {
  cache : gmap (Z * string) nat;
  pools : list pool;
  refs : list PoolRef;
  pcs : gmap nat pc;
}.

Definition init : state := mkState ∅ [] [] ∅.

Definition pc_of (s : state) (t : nat) : pc := default Idle (pcs s !! t).

Definition set_pc (t : nat) (p : pc) (s : state) : state :=
  mkState (cache s) (pools s) (refs s) (<[t := p]> (pcs s)).

Definition set_cache (c : gmap (Z * string) nat) (s : state) : state :=
  mkState c (pools s) (refs s) (pcs s).

Definition set_pools (l : list pool) (s : state) : state := mkState (cache s) l (refs s) (pcs s).

Definition set_refs (l : list PoolRef) (s : state) : state := mkState (cache s) (pools s) l (pcs s).

Definition with_refs (n : Z) (x : pool) : pool :=
  mkPool (p_key x) (p_pinHash x) n (p_live x) (p_dead x) (p_size x) (p_phase x).

Definition with_phase (f : phase) (x : pool) : pool :=
  mkPool (p_key x) (p_pinHash x) (p_refs x) (p_live x) (p_dead x) (p_size x) f.

Definition close_live (x : pool) : pool :=
  mkPool (p_key x) (p_pinHash x) (p_refs x) true (p_dead x) (p_size x) PLive.

Definition close_dead (f : phase) (x : pool) : pool :=
  mkPool (p_key x) (p_pinHash x) (p_refs x) (p_live x) true (p_size x) f.

(** [token.Info.MaxSessionCount] decides; the limit is [MaxRwSessionCount]. *)
Definition maxSessions (info : TokenInfo) : Z :=
  if (ti_MaxSessionCount info =? CK_UNAVAILABLE_INFORMATION) ||
     (ti_MaxSessionCount info =? CK_EFFECTIVELY_INFINITE)
  then 2 ^ 64 - 1 else ti_MaxRwSessionCount info.

Section login.
Context (sha256 : bytes -> bytes).

Definition start_login (slot : Z) (path : string) (info : TokenInfo) (pin : string) : login :=
  mkLogin (slot, path) (sha256 (bytes_of_string pin)) (maxSessions info).
End login.

(** One turn of Login's loop under the lock, up to the unlock. *)
Definition look (t : nat) (g : login) (s : state) : state :=
  match cache s !! lg_key g with
  | Some p => set_pc t (WaitingLive g p) s
  | None =>
      if lg_max g <? 2 then set_pc t (Returned None) s
      else
        let p := length (pools s) in
        let new := mkPool (lg_key g) (lg_pinHash g) 1 false false (u64 (lg_max g - 1)) POpening in
        set_pc t (Opening g p)
          (set_cache (<[lg_key g := p]> (cache s)) (set_pools (pools s ++ [new]) s))
  end.

(** [subtle.ConstantTimeCompare(h.Sum(nil), p.pinHash) == 0]. *)
Definition compare_pin (t : nat) (g : login) (p : nat) (x : pool) (s : state) : state :=
  if decide (lg_pinHash g = p_pinHash x) then set_pc t (Sharing g p) s
  else set_pc t (Returned None) s.

Definition incRefs (x : pool) : option pool :=
  if p_refs x =? 0 then None else Some (with_refs (u32 (p_refs x + 1)) x).

Definition decRefs (x : pool) : option pool :=
  if p_refs x =? 0 then None else Some (with_refs (u32 (p_refs x - 1)) x).

Definition share (t : nat) (g : login) (p : nat) (x : pool) (s : state) : state :=
  match incRefs x with
  | None => set_pc t (WaitingDead g p) s
  | Some x =>
      set_pc t (Returned (Some (length (refs s))))
        (set_refs (refs s ++ [mkPoolRef p Alive]) (set_pools (<[p := x]> (pools s)) s))
  end.

(** After OpenSession and Login of the persistent session. *)
Definition opened (t : nat) (p : nat) (x : pool) (ok : bool) (s : state) : state :=
  if ok
  then set_pc t (Returned (Some (length (refs s))))
         (set_refs (refs s ++ [mkPoolRef p Alive]) (set_pools (<[p := close_live x]> (pools s)) s))
  else set_pc t (Undoing p) (set_pools (<[p := with_phase PUndoing x]> (pools s)) s).

(** [delete(cache, k)]; [f] is the phase the pool enters. *)
Definition uncache (p : nat) (x : pool) (f : phase) (s : state) : state :=
  set_cache (delete (p_key x) (cache s)) (set_pools (<[p := with_phase f x]> (pools s)) s).

(** [close(p.dead)] panics on a closed channel. *)
Definition kill (t p : nat) (x : pool) (f : phase) (s : state) : state :=
  if p_dead x then set_pc t Panicked s
  else set_pc t (Returned None) (set_pools (<[p := close_dead f x]> (pools s)) s).

(** Drop's [dropped.CompareAndSwap(false, true)]. *)
Definition drop_swap (t r : nat) (x : PoolRef) (s : state) : state :=
  match r_state x with
  | Alive => set_pc t (Decreasing r) (set_refs (<[r := mkPoolRef (r_pool x) Dropping]> (refs s)) s)
  | _ => set_pc t (Returned None) s
  end.

Definition drop_decrease (t r : nat) (p : nat) (x : pool) (s : state) : state :=
  let s := set_refs (<[r := mkPoolRef p Dropped]> (refs s)) s in
  match decRefs x with
  | None => set_pc t (Returned None) s
  | Some x =>
      if p_refs x =? 0
      then set_pc t (Closing p) (set_pools (<[p := with_phase PClosing x]> (pools s)) s)
      else set_pc t (Returned None) (set_pools (<[p := x]> (pools s)) s)
  end.

Inductive label :=
| LLogin (t : nat) (g : login)
| LLook (t : nat)
| LTakeLive (t : nat)             (* case <-p.live *)
| LTakeDead (t : nat)             (* case <-p.dead *)
| LTakeCtx (t : nat)              (* case <-ctx.Done() *)
| LCompare (t : nat)
| LShare (t : nat)
| LOpened (t : nat) (ok : bool)   (* OpenSession and Login succeed, or one fails *)
| LUndo (t : nat)
| LDrop (t r : nat)
| LDecrease (t : nat)
| LClosed (t : nat)               (* Close, Logout, CloseAllSessions are over *)
| LRemove (t : nat)
| LKill (t : nat)
| LForget (t : nat).

Definition exec (l : label) (s : state) : option state :=
  match l with
  | LLogin t g => match pc_of s t with Idle => Some (set_pc t (Looking g) s) | _ => None end
  | LLook t => match pc_of s t with Looking g => Some (look t g s) | _ => None end
  | LTakeLive t =>
      match pc_of s t with
      | WaitingLive g p => x ← pools s !! p; if p_live x then Some (set_pc t (Comparing g p) s) else None
      | _ => None
      end
  | LTakeDead t =>
      match pc_of s t with
      | WaitingLive g p | WaitingDead g p =>
          x ← pools s !! p; if p_dead x then Some (set_pc t (Looking g) s) else None
      | _ => None
      end
  | LTakeCtx t =>
      match pc_of s t with
      | WaitingLive g p | WaitingDead g p => Some (set_pc t (Returned None) s)
      | _ => None
      end
  | LCompare t =>
      match pc_of s t with Comparing g p => x ← pools s !! p; Some (compare_pin t g p x s) | _ => None end
  | LShare t =>
      match pc_of s t with Sharing g p => x ← pools s !! p; Some (share t g p x s) | _ => None end
  | LOpened t ok =>
      match pc_of s t with Opening g p => x ← pools s !! p; Some (opened t p x ok s) | _ => None end
  | LUndo t =>
      match pc_of s t with
      | Undoing p => x ← pools s !! p; Some (set_pc t (UndoKilling p) (uncache p x PUndone s))
      | _ => None
      end
  | LDrop t r =>
      match pc_of s t with Idle => x ← refs s !! r; Some (drop_swap t r x s) | _ => None end
  | LDecrease t =>
      match pc_of s t with
      | Decreasing r =>
          q ← refs s !! r; x ← pools s !! r_pool q; Some (drop_decrease t r (r_pool q) x s)
      | _ => None
      end
  | LClosed t => match pc_of s t with Closing p => Some (set_pc t (Removing p) s) | _ => None end
  | LRemove t =>
      match pc_of s t with
      | Removing p => x ← pools s !! p; Some (set_pc t (Killing p) (uncache p x PRemoved s))
      | _ => None
      end
  | LKill t =>
      match pc_of s t with
      | UndoKilling p => x ← pools s !! p; Some (kill t p x PFailed s)
      | Killing p => x ← pools s !! p; Some (kill t p x PDead s)
      | _ => None
      end
  | LForget t => match pc_of s t with Returned _ => Some (set_pc t Idle s) | _ => None end
  end.

Fixpoint run (ls : list label) (s : state) : option state :=
  match ls with
  | [] => Some s
  | l :: ls => match exec l s with Some s' => run ls s' | None => None end
  end.

Inductive reachable : state -> Prop :=
| reach_init : reachable init
| reach_step l s s' : reachable s -> exec l s = Some s' -> reachable s'.

(** ** The invariant *)

(** The pool a thread is opening or tearing down, and the phase that implies. *)
Definition owner (p : pc) : option (nat * phase) :=
  match p with
  | Opening _ p => Some (p, POpening)
  | Undoing p => Some (p, PUndoing)
  | UndoKilling p => Some (p, PUndone)
  | Closing p | Removing p => Some (p, PClosing)
  | Killing p => Some (p, PRemoved)
  | _ => None
  end.

(** The pool a Login has found or made for its arguments. *)
Definition target (p : pc) : option (login * nat) :=
  match p with
  | WaitingLive g p | Comparing g p | Sharing g p | WaitingDead g p | Opening g p => Some (g, p)
  | _ => None
  end.

(** A Login past its wait for [p.live]. *)
Definition past_live (p : pc) : bool :=
  match p with Comparing _ _ | Sharing _ _ => true | _ => false end.

Definition decreasing (p : pc) : option nat := match p with Decreasing r => Some r | _ => None end.

Definition ph_live (f : phase) : bool :=
  match f with PLive | PClosing | PRemoved | PDead => true | _ => false end.

Definition ph_dead (f : phase) : bool := match f with PFailed | PDead => true | _ => false end.

Definition ph_cached (f : phase) : bool :=
  match f with POpening | PUndoing | PLive | PClosing => true | _ => false end.

Definition counts (p : nat) (q : PoolRef) : bool :=
  Nat.eqb (r_pool q) p && match r_state q with Dropped => false | _ => true end.

Record consistent (l : list PoolRef) (p : nat) (x : pool) : Prop := {
  c_live : p_live x = ph_live (p_phase x);
  c_dead : p_dead x = ph_dead (p_phase x);
  c_refs : p_refs x = if ph_live (p_phase x) then countP (counts p) l else 1;
  c_open : p_phase x = PLive -> 0 < countP (counts p) l;
  c_shut : p_phase x <> PLive -> countP (counts p) l = 0;
}.

Record inv (s : state) : Prop := {
  w_pool : forall p x, pools s !! p = Some x -> consistent (refs s) p x;
  w_cache : forall k p, cache s !! k = Some p <->
    exists x, pools s !! p = Some x /\ p_key x = k /\ ph_cached (p_phase x) = true;
  w_own : forall t p f, owner (pc_of s t) = Some (p, f) ->
    exists x, pools s !! p = Some x /\ p_phase x = f;
  w_uniq : forall t t' p f f', owner (pc_of s t) = Some (p, f) ->
    owner (pc_of s t') = Some (p, f') -> t = t';
  w_target : forall t g p, target (pc_of s t) = Some (g, p) ->
    exists x, pools s !! p = Some x /\ p_key x = lg_key g /\
      (past_live (pc_of s t) = true -> p_live x = true) /\
      (pc_of s t = Sharing g p -> p_pinHash x = lg_pinHash g);
  w_ref : forall r q, refs s !! r = Some q -> is_Some (pools s !! r_pool q);
  w_dec : forall t r, decreasing (pc_of s t) = Some r ->
    exists q, refs s !! r = Some q /\ r_state q = Dropping;
  w_dec_uniq : forall t t' r, decreasing (pc_of s t) = Some r ->
    decreasing (pc_of s t') = Some r -> t = t';
  w_fine : forall t, pc_of s t <> Panicked;
}.

Lemma pool_pc_of_set t p s u : pc_of (set_pc t p s) u = if decide (u = t) then p else pc_of s u.
Proof.
  unfold pc_of, set_pc. simpl. case_decide; subst.
  - by rewrite lookup_insert_eq.
  - by rewrite lookup_insert_ne.
Qed.

Ltac at_pc t u := rewrite ?pool_pc_of_set; destruct (decide (u = t)) as [->|?].

Lemma owner_not_live p q f : owner p = Some (q, f) -> f <> PLive.
Proof. destruct p; simpl; naive_solver. Qed.

(** A thread moves without touching anything shared. *)
Lemma inv_set_pc t p s :
  inv s -> (owner p = None \/ owner p = owner (pc_of s t)) ->
  (forall g q, target p = Some (g, q) -> exists x, pools s !! q = Some x /\ p_key x = lg_key g /\
     (past_live p = true -> p_live x = true) /\ (p = Sharing g q -> p_pinHash x = lg_pinHash g)) ->
  decreasing p = None -> p <> Panicked -> inv (set_pc t p s).
Proof.
  intros I Ho Ht Hd Hp.
  assert (Hown : forall u q f, owner (pc_of (set_pc t p s) u) = Some (q, f) ->
    owner (pc_of s u) = Some (q, f)).
  { intros u q f. at_pc t u; [|done]. destruct Ho as [-> | ->]; done. }
  assert (Hdec : forall u r, decreasing (pc_of (set_pc t p s) u) = Some r ->
    decreasing (pc_of s u) = Some r).
  { intros u r. at_pc t u; [congruence|done]. }
  constructor; try apply I.
  - intros u q f H%Hown. by apply (w_own _ I u).
  - intros u u' q f f' H%Hown H'%Hown. by apply (w_uniq _ I u u' q f f').
  - intros u g q. at_pc t u; [apply Ht | apply (w_target _ I u)].
  - intros u r H%Hdec. by apply (w_dec _ I u).
  - intros u u' r H%Hdec H'%Hdec. by apply (w_dec_uniq _ I u u' r).
  - intros u. at_pc t u; [done | apply I].
Qed.

(** A thread changes one pool, the references to it and its cache entry. *)
Lemma inv_move t p' p x x' c l s :
  inv s -> pools s !! p = Some x ->
  p_key x' = p_key x -> p_pinHash x' = p_pinHash x -> (p_live x = true -> p_live x' = true) ->
  (forall u f, u <> t -> owner (pc_of s u) = Some (p, f) -> False) ->
  consistent l p x' ->
  (forall q, q <> p -> countP (counts q) l = countP (counts q) (refs s)) ->
  (forall r q, l !! r = Some q -> is_Some (pools s !! r_pool q)) ->
  (forall u r, u <> t -> decreasing (pc_of s u) = Some r ->
     exists q, l !! r = Some q /\ r_state q = Dropping) ->
  (forall k q, c !! k = Some q <->
     (q <> p /\ cache s !! k = Some q) \/ (q = p /\ k = p_key x /\ ph_cached (p_phase x') = true)) ->
  (owner p' = None \/ owner p' = Some (p, p_phase x')) ->
  target p' = None -> decreasing p' = None -> p' <> Panicked ->
  inv (set_pc t p' (mkState c (<[p := x']> (pools s)) l (pcs s))).
Proof.
  intros I Hx Hk Hpin Hlv Hnone Hcons Hcnt Hl Hdec Hc Hown Htgt Hdp Hpan.
  assert (Hlt : (p < length (pools s))%nat) by (apply lookup_lt_is_Some; eauto).
  set (s' := set_pc _ _ _).
  assert (Hpc : forall u, pc_of s' u = if decide (u = t) then p' else pc_of s u).
  { intros u. unfold s'. by rewrite pool_pc_of_set. }
  assert (Hpool : forall q, pools s' !! q = if decide (q = p) then Some x' else pools s !! q).
  { intros q. simpl. case_decide; subst; [by rewrite list_lookup_insert_eq|].
    by rewrite list_lookup_insert_ne. }
  constructor.
  - intros q y. rewrite Hpool. case_decide; [intros [= <-]; by subst|].
    intros Hy. destruct (w_pool _ I _ _ Hy) as [? ? Hr Ho Hs]. simpl.
    constructor; rewrite ?Hcnt by done; done.
  - intros k q. simpl. rewrite Hc, (w_cache _ I). split.
    + intros [(Hq & y & Hy & ? & ?)|(-> & -> & Hph)].
      * exists y. rewrite list_lookup_insert_ne by done. done.
      * exists x'. by rewrite list_lookup_insert_eq.
    + intros (y & Hy & Hyk & Hph). destruct (decide (q = p)) as [->|].
      * rewrite list_lookup_insert_eq in Hy by done. injection Hy as <-. right. split; [done|].
        split; [congruence|done].
      * rewrite list_lookup_insert_ne in Hy by done. left. split; [done|]. by exists y.
  - intros u q f. rewrite Hpc, Hpool. case_decide.
    + destruct Hown as [-> | ->]; [done|]. intros [= <- <-]. rewrite decide_True by done. by exists x'.
    + intros Ho. destruct (decide (q = p)) as [->|]; [by destruct (Hnone u f)|].
      by apply (w_own _ I u).
  - intros u u' q f f'. rewrite !Hpc. repeat case_decide; subst; try done.
    + destruct Hown as [-> | ->]; [done|]. intros [= <- <-] Ho. by destruct (Hnone u' f').
    + intros Ho H'. destruct Hown as [Hn|Hn]; rewrite Hn in H'; [done|]. injection H' as <- <-.
      by destruct (Hnone u f).
    + apply (w_uniq _ I).
  - intros u g q. rewrite Hpc, Hpool. case_decide; [congruence|]. intros Ht.
    destruct (w_target _ I u g q Ht) as (y & Hy & ? & ? & ?).
    case_decide; [|by exists y]. subst q. rewrite Hx in Hy. injection Hy as <-.
    exists x'. split; [done|]. rewrite Hk, Hpin. split; [done|]. split; [auto|done].
  - intros r q Hq. rewrite Hpool. case_decide; [by eexists|]. by apply (Hl r).
  - intros u r. rewrite Hpc. case_decide; [congruence|]. by apply Hdec.
  - intros u u' r. rewrite !Hpc. repeat case_decide; [congruence..|apply (w_dec_uniq _ I)].
  - intros u. rewrite Hpc. case_decide; [done|apply I].
Qed.

(** The cache of a pool that keeps or gives up its entry. *)
Lemma cache_keep s p x x' : inv s -> pools s !! p = Some x ->
  ph_cached (p_phase x) = true -> ph_cached (p_phase x') = true ->
  forall k q, cache s !! k = Some q <->
    (q <> p /\ cache s !! k = Some q) \/ (q = p /\ k = p_key x /\ ph_cached (p_phase x') = true).
Proof.
  intros I Hx Hc Hc' k q. destruct (decide (q = p)) as [->|]; [|naive_solver].
  rewrite (w_cache _ I). split.
  - intros (y & Hy & <- & _). right. rewrite Hx in Hy. by injection Hy as <-.
  - intros [[? _]|(_ & -> & _)]; [done|]. by exists x.
Qed.

Lemma cache_none s p x x' : inv s -> pools s !! p = Some x ->
  ph_cached (p_phase x) = false -> ph_cached (p_phase x') = false ->
  forall k q, cache s !! k = Some q <->
    (q <> p /\ cache s !! k = Some q) \/ (q = p /\ k = p_key x /\ ph_cached (p_phase x') = true).
Proof.
  intros I Hx Hc Hc' k q. destruct (decide (q = p)) as [->|]; [|naive_solver].
  rewrite (w_cache _ I). split.
  - intros (y & Hy & _ & ?). congruence.
  - intros [[? _]|(_ & _ & ?)]; [done|congruence].
Qed.

Lemma cache_delete s p x x' : inv s -> pools s !! p = Some x ->
  ph_cached (p_phase x) = true -> ph_cached (p_phase x') = false ->
  forall k q, delete (p_key x) (cache s) !! k = Some q <->
    (q <> p /\ cache s !! k = Some q) \/ (q = p /\ k = p_key x /\ ph_cached (p_phase x') = true).
Proof.
  intros I Hx Hc Hc' k q.
  assert (cache s !! p_key x = Some p) as Hp by (apply (w_cache _ I); eauto).
  rewrite lookup_delete_Some. split.
  - intros [Hne H]. left. split; [|done]. intros ->. apply Hne.
    apply (w_cache _ I) in H as (y & Hy & Hyk & _). congruence.
  - intros [[Hq H]|(_ & _ & ?)]; [|congruence]. split; [|done]. intros <-. congruence.
Qed.

Section preservation.
Context (s : state) (I : inv s).

Lemma not_owned t p f : owner (pc_of s t) = Some (p, f) ->
  forall u f', u <> t -> owner (pc_of s u) = Some (p, f') -> False.
Proof. intros H u f' Hne Hu. apply Hne. by apply (w_uniq _ I u t p f' f). Qed.

Lemma live_not_owned p x t : pools s !! p = Some x -> p_phase x = PLive ->
  forall u f, u <> t -> owner (pc_of s u) = Some (p, f) -> False.
Proof.
  intros Hx Hph u f _ Hu. destruct (w_own _ I _ _ _ Hu) as (y & Hy & Hf).
  apply owner_not_live in Hu. congruence.
Qed.

Lemma refs_kept r q : refs s !! r = Some q -> is_Some (pools s !! r_pool q).
Proof. apply (w_ref _ I). Qed.

Lemma dec_kept (t u r : nat) : u <> t -> decreasing (pc_of s u) = Some r ->
  exists q, refs s !! r = Some q /\ r_state q = Dropping.
Proof. intros _. apply (w_dec _ I). Qed.

Lemma refs_app_lookup p r q : is_Some (pools s !! p) ->
  (refs s ++ [mkPoolRef p Alive]) !! r = Some q -> is_Some (pools s !! r_pool q).
Proof.
  intros Hp [H|[_ H]]%lookup_app_Some; [by apply (w_ref _ I r)|].
  by apply list_lookup_singleton_Some in H as [_ <-].
Qed.

Lemma refs_app_dec (t u r : nat) p : u <> t -> decreasing (pc_of s u) = Some r ->
  exists q, (refs s ++ [mkPoolRef p Alive]) !! r = Some q /\ r_state q = Dropping.
Proof.
  intros _ Hu. destruct (w_dec _ I _ _ Hu) as (q & Hq & ?). exists q.
  split; [by apply lookup_app_l_Some | done].
Qed.

Lemma counts_app p q : countP (counts q) (refs s ++ [mkPoolRef p Alive]) =
  countP (counts q) (refs s) + (if decide (q = p) then 1 else 0).
Proof.
  rewrite countP_app, countP_cons. change (countP _ []) with 0. unfold counts at 2. simpl.
  case_decide; [subst; rewrite Nat.eqb_refl; simpl; lia|].
  destruct (Nat.eqb_spec p q); [congruence|]. simpl. lia.
Qed.

Lemma inv_look t g : pc_of s t = Looking g -> inv (look t g s).
Proof.
  intros Ht. unfold look. destruct (cache s !! lg_key g) as [p|] eqn:Hc.
  - apply (w_cache _ I) in Hc as (x & Hx & Hk & _).
    apply inv_set_pc; simpl; try done; [by left|]. intros g' q [= <- <-]. by exists x.
  - destruct (lg_max g <? 2) eqn:Hm; [apply inv_set_pc; simpl; try done; by left|].
    set (new := mkPool _ _ _ _ _ _ _). set (p := length (pools s)). set (s' := set_pc _ _ _).
    assert (Hpc : forall u, pc_of s' u = if decide (u = t) then Opening g p else pc_of s u).
    { intros u. unfold s'. by rewrite pool_pc_of_set. }
    assert (Hnew : pools s' !! p = Some new) by (simpl; by apply list_lookup_middle).
    assert (Hold : forall q x, pools s !! q = Some x -> pools s' !! q = Some x /\ q <> p).
    { intros q x Hq. split; [simpl; by apply lookup_app_l_Some|].
      apply lookup_lt_Some in Hq. unfold p. lia. }
    assert (Hinv : forall q x, pools s' !! q = Some x ->
      q = p /\ x = new \/ q <> p /\ pools s !! q = Some x).
    { intros q x [H|[Hl H]]%lookup_app_Some; [right; destruct (Hold _ _ H) as [_ Hq]; by split|].
      apply list_lookup_singleton_Some in H as [H <-]. left. unfold p. split; [lia|done]. }
    assert (Hown : forall u q f, owner (pc_of s u) = Some (q, f) -> q <> p).
    { intros u q f Ho. destruct (w_own _ I _ _ _ Ho) as (x & Hx & _). by destruct (Hold _ _ Hx). }
    constructor.
    + intros q x H. apply Hinv in H as [[-> ->]|[_ H]]; [|by apply (w_pool _ I)].
      assert (countP (counts p) (refs s) = 0) as H0.
      { rewrite (countP_ext _ (fun _ => false)); [induction (refs s); [done|by rewrite countP_cons]|].
        intros r q Hq. destruct (w_ref _ I _ _ Hq) as [y Hy]. destruct (Hold _ _ Hy) as [_ Hq'].
        unfold counts. by destruct (Nat.eqb_spec (r_pool q) p). }
      by constructor.
    + intros k q. simpl. rewrite lookup_insert_Some. split.
      * intros [[<- <-]|[Hne H]]; [by exists new|].
        apply (w_cache _ I) in H as (x & Hx & ?). exists x. by destruct (Hold _ _ Hx).
      * intros (x & Hx & Hk & Hph). apply Hinv in Hx as [[-> ->]|[Hq Hx]]; [by left|].
        assert (cache s !! k = Some q) as H by (apply (w_cache _ I); eauto).
        right. split; [|done]. intros <-. congruence.
    + intros u q f. rewrite Hpc. case_decide; [intros [= <- <-]; by exists new|].
      intros Ho. destruct (w_own _ I _ _ _ Ho) as (x & Hx & ?). exists x. by destruct (Hold _ _ Hx).
    + intros u u' q f f'. rewrite !Hpc. repeat case_decide; subst; try done.
      * intros [= <- <-] Ho. by apply Hown in Ho.
      * intros Ho [= <- <-]. by apply Hown in Ho.
      * apply (w_uniq _ I).
    + intros u g' q. rewrite Hpc. case_decide.
      * intros [= <- <-]. by exists new.
      * intros H'. destruct (w_target _ I _ _ _ H') as (x & Hx & ?). exists x. by destruct (Hold _ _ Hx).
    + intros r q Hq. destruct (w_ref _ I _ _ Hq) as [x Hx]. exists x. by destruct (Hold _ _ Hx).
    + intros u r. rewrite Hpc. case_decide; [done|]. apply (w_dec _ I).
    + intros u u' r. rewrite !Hpc. repeat case_decide; try done. apply (w_dec_uniq _ I).
    + intros u. rewrite Hpc. case_decide; [done|apply I].
Qed.

Lemma pool_inv_share t g p x : pc_of s t = Sharing g p -> pools s !! p = Some x ->
  Z.of_nat (length (refs (share t g p x s))) < 2 ^ 32 -> inv (share t g p x s).
Proof.
  intros Ht Hx Hlen. destruct (w_pool _ I _ _ Hx) as [Hl Hd Hr Ho Hs].
  destruct (w_target _ I t g p ltac:(by rewrite Ht)) as (x' & Hx' & Hk & Hlv & _).
  rewrite Hx in Hx'. injection Hx' as <-. rewrite Ht in Hlv. specialize (Hlv eq_refl).
  unfold share, incRefs in *. destruct (p_refs x =? 0) eqn:Hz.
  - apply inv_set_pc; simpl; try done; [by left|]. intros g' q [= <- <-]. by exists x.
  - assert (Hph : p_phase x = PLive).
    { rewrite Hl in Hlv. rewrite Hlv in Hr. destruct (decide (p_phase x = PLive)); [done|].
      rewrite (Hs n) in Hr. lia. }
    simpl in Hlen. rewrite length_app in Hlen. simpl in Hlen.
    pose proof (countP_le_length (counts p) (refs s)).
    pose proof (countP_nonneg (counts p) (refs s)).
    apply (inv_move t _ p x (with_refs (u32 (p_refs x + 1)) x)
      (cache s) (refs s ++ [mkPoolRef p Alive]) s); simpl; try done; try (by left).
    + by apply (live_not_owned p x).
    + rewrite Hph in *. simpl in *.
      constructor; simpl; rewrite ?Hph, ?counts_app, ?decide_True by done; try done; try lia.
      cbn [ph_live]. rewrite Hr. unfold u32. rewrite Z.mod_small; lia.
    + intros q Hq. rewrite counts_app, decide_False by done. lia.
    + intros r q. apply refs_app_lookup. eauto.
    + intros u r. apply refs_app_dec.
    + apply cache_keep; simpl; try done; by rewrite Hph.
Qed.

Lemma inv_opened t g p x ok : pc_of s t = Opening g p -> pools s !! p = Some x ->
  inv (opened t p x ok s).
Proof.
  intros Ht Hx. assert (Ho : owner (pc_of s t) = Some (p, POpening)) by (by rewrite Ht).
  destruct (w_own _ I _ _ _ Ho) as (x' & Hx' & Hph). rewrite Hx in Hx'. injection Hx' as <-.
  destruct (w_pool _ I _ _ Hx) as [Hl Hd Hr _ Hs]. rewrite Hph in *. simpl in *.
  specialize (Hs ltac:(done)). unfold opened. destruct ok.
  - apply (inv_move t _ p x (close_live x) (cache s) (refs s ++ [mkPoolRef p Alive]) s); simpl; try done; try (by left).
    + by apply (not_owned t p POpening).
    + constructor; simpl; rewrite ?counts_app, ?decide_True by done; try done; lia.
    + intros q Hq. rewrite counts_app, decide_False by done. lia.
    + intros r q. apply refs_app_lookup. eauto.
    + intros u r. apply refs_app_dec.
    + apply (cache_keep s p x (close_live x)); simpl; try done; by rewrite Hph.
  - apply (inv_move t _ p x (with_phase PUndoing x) (cache s) (refs s) s); simpl; try done; try (by right).
    + by apply (not_owned t p POpening).
    + apply refs_kept.
    + apply dec_kept.
    + apply (cache_keep s p x (with_phase PUndoing x)); simpl; try done; by rewrite Hph.
Qed.

(** The two removals from the cache. *)
Lemma inv_uncache t p' p x f f' : owner (pc_of s t) = Some (p, f) -> pools s !! p = Some x ->
  ph_cached f = true -> ph_cached f' = false -> ph_live f' = ph_live f -> ph_dead f' = ph_dead f ->
  owner p' = Some (p, f') -> target p' = None -> decreasing p' = None -> p' <> Panicked ->
  inv (set_pc t p' (uncache p x f' s)).
Proof.
  intros Ho Hx Hc Hc' Hlv Hdd Ho' Ht' Hd' Hp'.
  destruct (w_own _ I _ _ _ Ho) as (x' & Hx' & Hph). rewrite Hx in Hx'. injection Hx' as <-.
  pose proof (owner_not_live _ _ _ Ho). pose proof (owner_not_live _ _ _ Ho').
  destruct (w_pool _ I _ _ Hx) as [Hl Hd Hr _ Hs]. rewrite Hph in *.
  apply (inv_move t _ p x (with_phase f' x) (delete (p_key x) (cache s)) (refs s) s); simpl; try done; try (by right).
  - by apply (not_owned t p f).
  - constructor; simpl; rewrite ?Hlv, ?Hdd; try done. intros _. by apply Hs.
  - apply refs_kept.
  - apply dec_kept.
  - apply (cache_delete s p x (with_phase f' x)); simpl; try done. by rewrite Hph.
Qed.

Lemma inv_kill t p x f f' : owner (pc_of s t) = Some (p, f) -> pools s !! p = Some x ->
  ph_cached f = false -> ph_cached f' = false -> ph_live f' = ph_live f -> ph_dead f = false ->
  ph_dead f' = true -> inv (kill t p x f' s).
Proof.
  intros Ho Hx Hc Hc' Hlv Hdd Hdd'.
  destruct (w_own _ I _ _ _ Ho) as (x' & Hx' & Hph). rewrite Hx in Hx'. injection Hx' as <-.
  pose proof (owner_not_live _ _ _ Ho).
  destruct (w_pool _ I _ _ Hx) as [Hl Hd Hr _ Hs]. rewrite Hph in *.
  unfold kill. rewrite Hd, Hdd.
  apply (inv_move t _ p x (close_dead f' x) (cache s) (refs s) s); simpl; try done; try (by left).
  - by apply (not_owned t p f).
  - constructor; simpl; rewrite ?Hlv; try done.
    + by destruct f'.
    + intros _. by apply Hs.
  - apply refs_kept.
  - apply dec_kept.
  - apply (cache_none s p x (close_dead f' x)); simpl; try done. by rewrite Hph.
Qed.

Lemma inv_drop_swap t r x : pc_of s t = Idle -> refs s !! r = Some x -> inv (drop_swap t r x s).
Proof.
  intros Ht Hr. unfold drop_swap.
  destruct (r_state x) eqn:Hst; try (apply inv_set_pc; simpl; try done; by left).
  assert (Hc : forall q, countP (counts q) (<[r := mkPoolRef (r_pool x) Dropping]> (refs s)) =
    countP (counts q) (refs s)).
  { intros q. rewrite (countP_insert _ _ _ _ _ Hr). unfold counts. simpl. rewrite Hst. lia. }
  assert (Hlt : (r < length (refs s))%nat) by (apply lookup_lt_is_Some; eauto).
  set (s' := set_pc _ _ _).
  assert (Hpc : forall u, pc_of s' u = if decide (u = t) then Decreasing r else pc_of s u).
  { intros u. unfold s'. by rewrite pool_pc_of_set. }
  assert (Hno : forall u, decreasing (pc_of s u) <> Some r).
  { intros u Hu. destruct (w_dec _ I _ _ Hu) as (q & Hq & Hd). congruence. }
  constructor; try apply I.
  - intros p y Hy. destruct (w_pool _ I _ _ Hy). simpl. by constructor; rewrite ?Hc.
  - intros u p f. rewrite Hpc. case_decide; [done|]. apply (w_own _ I).
  - intros u u' p f f'. rewrite !Hpc. repeat case_decide; try done. apply (w_uniq _ I).
  - intros u g p. rewrite Hpc. case_decide; [done|]. apply (w_target _ I).
  - intros r' q Hq. simpl in Hq. destruct (decide (r' = r)) as [->|].
    + rewrite list_lookup_insert_eq in Hq by done. injection Hq as <-. by apply (w_ref _ I r x).
    + rewrite list_lookup_insert_ne in Hq by done. by apply (w_ref _ I r').
  - intros u r'. rewrite Hpc. simpl. case_decide.
    + intros [= <-]. rewrite list_lookup_insert_eq by done. eauto.
    + intros Hu. assert (r <> r') by (intros E; apply (Hno u); congruence).
      rewrite list_lookup_insert_ne by done. by apply (w_dec _ I u).
  - intros u u' r'. rewrite !Hpc. repeat case_decide; subst; try done.
    + intros [= <-] Hu. by apply Hno in Hu.
    + intros Hu [= <-]. by apply Hno in Hu.
    + apply (w_dec_uniq _ I).
  - intros u. rewrite Hpc. case_decide; [done|]. apply I.
Qed.

Lemma inv_drop_decrease t r q x : pc_of s t = Decreasing r -> refs s !! r = Some q ->
  pools s !! r_pool q = Some x -> Z.of_nat (length (refs s)) < 2 ^ 32 ->
  inv (drop_decrease t r (r_pool q) x s).
Proof.
  intros Ht Hr Hx Hlen.
  destruct (w_dec _ I t r ltac:(by rewrite Ht)) as (q' & Hq' & Hst).
  rewrite Hr in Hq'. injection Hq' as <-.
  destruct (w_pool _ I _ _ Hx) as [Hl Hd Hn Ho Hs].
  assert (Hcq : counts (r_pool q) q = true).
  { unfold counts. by rewrite Nat.eqb_refl, Hst. }
  pose proof (countP_pos _ _ _ _ Hr Hcq) as Hpos.
  assert (Hph : p_phase x = PLive).
  { destruct (decide (p_phase x = PLive)); [done|]. rewrite (Hs n) in Hpos. lia. }
  pose proof (countP_le_length (counts (r_pool q)) (refs s)).
  set (l := <[r := mkPoolRef (r_pool q) Dropped]> (refs s)).
  assert (Hc : forall p, countP (counts p) l =
    countP (counts p) (refs s) - (if decide (p = r_pool q) then 1 else 0)).
  { intros p. unfold l. rewrite (countP_insert _ _ _ _ _ Hr). unfold counts at 2 3. simpl.
    rewrite Hst, andb_false_r, andb_true_r. case_decide; subst; [rewrite Nat.eqb_refl; simpl; lia|].
    destruct (Nat.eqb_spec (r_pool q) p); [congruence|simpl; lia]. }
  assert (Hlt : (r < length (refs s))%nat) by (apply lookup_lt_is_Some; eauto).
  assert (Hlr : forall r' q', l !! r' = Some q' -> is_Some (pools s !! r_pool q')).
  { intros r' q' H'. unfold l in H'. destruct (decide (r' = r)) as [->|].
    - rewrite list_lookup_insert_eq in H' by done. injection H' as <-. simpl. eauto.
    - rewrite list_lookup_insert_ne in H' by done. by apply (w_ref _ I r'). }
  assert (Hld : forall u r', u <> t -> decreasing (pc_of s u) = Some r' ->
    exists q', l !! r' = Some q' /\ r_state q' = Dropping).
  { intros u r' Hu Hdu. unfold l. rewrite list_lookup_insert_ne; [by apply (w_dec _ I u)|].
    intros <-. apply Hu. apply (w_dec_uniq _ I u t r); [done | by rewrite Ht]. }
  rewrite Hph in Hl, Hd, Hn. simpl in Hl, Hd, Hn.
  assert (Hu : u32 (p_refs x - 1) = p_refs x - 1) by (unfold u32; rewrite Z.mod_small; lia).
  unfold drop_decrease, decRefs. destruct (p_refs x =? 0) eqn:Hz; [lia|]. rewrite Hu. simpl.
  destruct (p_refs x - 1 =? 0) eqn:Hz'.
  - set (x' := with_phase PClosing (with_refs (p_refs x - 1) x)).
    apply (inv_move t _ (r_pool q) x x' (cache s) l s); simpl; try done; try (by right).
    + by apply (live_not_owned (r_pool q) x).
    + constructor; simpl; rewrite ?Hc, ?decide_True by done; try done; lia.
    + intros p Hp. rewrite Hc, decide_False by done. lia.
    + apply (cache_keep s (r_pool q) x x'); simpl; try done. by rewrite Hph.
  - set (x' := with_refs (p_refs x - 1) x).
    apply (inv_move t _ (r_pool q) x x' (cache s) l s); simpl; try done; try (by left).
    + by apply (live_not_owned (r_pool q) x).
    + constructor; simpl; rewrite ?Hph, ?Hc, ?decide_True by done; simpl; try done; lia.
    + intros p Hp. rewrite Hc, decide_False by done. lia.
    + apply (cache_keep s (r_pool q) x x'); simpl; try done; by rewrite Hph.
Qed.
End preservation.

Lemma refs_grow l s s' : exec l s = Some s' -> (length (refs s) <= length (refs s'))%nat.
Proof.
  intros H. destruct l; cbn [exec] in H; unfold mbind, option_bind in H;
    repeat case_match; simplify_eq; simpl;
    unfold look, compare_pin, share, opened, uncache, kill, drop_swap, drop_decrease;
    repeat case_match; simpl; rewrite ?length_app, ?length_insert; lia.
Qed.

Lemma pool_inv_exec l s s' :
  inv s -> exec l s = Some s' -> Z.of_nat (length (refs s')) < 2 ^ 32 -> inv s'.
Proof.
  intros I H Hlen. pose proof (refs_grow _ _ _ H) as Hg.
  destruct l as [t g|t|t|t|t|t|t|t ok|t|t r|t|t|t|t|t]; cbn [exec] in H;
    destruct (pc_of s t) as [|g0|g0 p|g0 p|g0 p|g0 p|g0 p|p|p|r0|p|p|p|res|] eqn:Ht; try done;
    try (injection H as <-); unfold mbind, option_bind in *.
  - apply inv_set_pc; simpl; try done; by left.
  - by apply inv_look.
  - destruct (pools s !! p) as [x|] eqn:Hx; [|done]. destruct (p_live x) eqn:Hlv; [|done].
    injection H as <-. destruct (w_target _ I t g0 p ltac:(by rewrite Ht)) as (x' & Hx' & Hk & _).
    rewrite Hx in Hx'. injection Hx' as <-.
    apply inv_set_pc; simpl; try done; [by left|]. intros g q [= <- <-]. by exists x.
  - destruct (pools s !! p) as [x|] eqn:Hx; [|done]. destruct (p_dead x); [|done]. injection H as <-.
    apply inv_set_pc; simpl; try done; by left.
  - destruct (pools s !! p) as [x|] eqn:Hx; [|done]. destruct (p_dead x); [|done]. injection H as <-.
    apply inv_set_pc; simpl; try done; by left.
  - apply inv_set_pc; simpl; try done; by left.
  - apply inv_set_pc; simpl; try done; by left.
  - destruct (pools s !! p) as [x|] eqn:Hx; [|done]. injection H as <-. unfold compare_pin.
    destruct (w_target _ I t g0 p ltac:(by rewrite Ht)) as (x' & Hx' & Hk & Hlv & _).
    rewrite Hx in Hx'. injection Hx' as <-. rewrite Ht in Hlv.
    case_decide; apply inv_set_pc; simpl; try done; try (by left).
    intros g q [= <- <-]. exists x. by split_and!; try apply Hlv.
  - destruct (pools s !! p) as [x|] eqn:Hx; [|done]. injection H as <-. by apply pool_inv_share.
  - destruct (pools s !! p) as [x|] eqn:Hx; [|done]. injection H as <-. by eapply inv_opened.
  - destruct (pools s !! p) as [x|] eqn:Hx; [|done]. injection H as <-.
    eapply (inv_uncache s I t _ p x PUndoing); try done. by rewrite Ht.
  - destruct (refs s !! r) as [x|] eqn:Hr; [|done]. injection H as <-. by apply inv_drop_swap.
  - destruct (refs s !! r0) as [q|] eqn:Hr; [|done].
    destruct (pools s !! r_pool q) as [x|] eqn:Hx; [|done]. injection H as <-.
    apply inv_drop_decrease; try done. lia.
  - apply inv_set_pc; simpl; try done. right. by rewrite Ht.
  - destruct (pools s !! p) as [x|] eqn:Hx; [|done]. injection H as <-.
    eapply (inv_uncache s I t _ p x PClosing); try done. by rewrite Ht.
  - destruct (pools s !! p) as [x|] eqn:Hx; [|done]. injection H as <-.
    eapply (inv_kill s I t p x PUndone); try done. by rewrite Ht.
  - destruct (pools s !! p) as [x|] eqn:Hx; [|done]. injection H as <-.
    eapply (inv_kill s I t p x PRemoved); try done. by rewrite Ht.
  - apply inv_set_pc; simpl; try done; by left.
Qed.

Lemma pool_reachable_inv s : reachable s -> Z.of_nat (length (refs s)) < 2 ^ 32 -> inv s.
Proof.
  induction 1 as [|l s s' Hr IH H]; intros Hlen.
  - constructor; simpl; try done.
    + intros k p. rewrite lookup_empty. split; [done|]. intros (x & Hx & _).
      by rewrite lookup_nil in Hx.
  - pose proof (refs_grow _ _ _ H). eapply pool_inv_exec; [apply IH; lia | done | done].
Qed.

(** ** What the cache promises *)

(** A run in which fewer than 2^32 references were handed out in total: the
    count is a [uint32]. *)
Definition small_run (s : state) : Prop := reachable s /\ Z.of_nat (length (refs s)) < 2 ^ 32.

(** C5: in a run that hands out fewer than 2^32 references (the count is a uint32), a
    reference that has not been dropped keeps its pool open: the pool is logged in, not dead, in the cache under its key with a positive count, and
    two such references for one slot and module share one pool. *)
Theorem pool_ref_open s r p :
  small_run s -> refs s !! r = Some (mkPoolRef p Alive) ->
  exists x, pools s !! p = Some x /\ p_live x = true /\ p_dead x = false /\ 0 < p_refs x /\
    cache s !! p_key x = Some p /\
    forall r' p' x', refs s !! r' = Some (mkPoolRef p' Alive) -> pools s !! p' = Some x' ->
      p_key x' = p_key x -> p' = p.
Proof.
  intros [Hr Hlen] H. pose proof (pool_reachable_inv s Hr Hlen) as I.
  assert (Hopen : forall r p, refs s !! r = Some (mkPoolRef p Alive) ->
    exists x, pools s !! p = Some x /\ p_phase x = PLive /\ cache s !! p_key x = Some p).
  { intros r0 p0 H0. destruct (w_ref _ I _ _ H0) as [x Hx]. simpl in Hx. exists x.
    destruct (w_pool _ I _ _ Hx) as [_ _ _ _ Hs].
    assert (Hph : p_phase x = PLive).
    { destruct (decide (p_phase x = PLive)) as [|n]; [done|]. specialize (Hs n).
      pose proof (countP_zero _ _ _ _ Hs H0) as E. unfold counts in E. simpl in E.
      by rewrite Nat.eqb_refl in E. }
    split_and!; try done. apply (w_cache _ I). exists x. by rewrite Hph. }
  destruct (Hopen r p H) as (x & Hx & Hph & Hc). exists x.
  destruct (w_pool _ I _ _ Hx) as [Hl Hd Hn Ho _]. rewrite Hph in *. simpl in *.
  split_and!; try done; [specialize (Ho eq_refl); lia|].
  intros r' p' x' H' Hx' Hk. destruct (Hopen r' p' H') as (y & Hy & _ & Hc').
  rewrite Hx' in Hy. injection Hy as <-. rewrite Hk in Hc'. congruence.
Qed.

(** a pool is only shared with callers who know its PIN: when a Login
    reuses a cached pool, the pool belongs to the slot and module asked for, was
    logged in, and its PIN hash equals the caller's. *)
Theorem pool_shared_pin s s' t g p r :
  small_run s -> pc_of s t = Sharing g p -> exec (LShare t) s = Some s' ->
  pc_of s' t = Returned (Some r) ->
  exists x, pools s !! p = Some x /\ p_live x = true /\ p_key x = lg_key g /\
    p_pinHash x = lg_pinHash g /\ refs s' !! r = Some (mkPoolRef p Alive).
Proof.
  intros [Hr Hlen] Ht H Ht'. pose proof (pool_reachable_inv s Hr Hlen) as I.
  destruct (w_target _ I t g p ltac:(by rewrite Ht)) as (x & Hx & Hk & Hlv & Hpin).
  rewrite Ht in Hlv, Hpin. exists x. split_and!; auto.
  simpl in H. rewrite Ht, Hx in H. simpl in H. injection H as <-.
  unfold share in *. destruct (incRefs x); rewrite pool_pc_of_set, decide_True in Ht' by done; [|done].
  injection Ht' as <-. simpl. by apply list_lookup_middle.
Qed.

(** the removals are exact: the rollback of a failed Login and the last Drop
    delete the cache entry of their own pool and no other, and [p.dead] is
    closed once, so no thread panics. *)
Theorem pool_removal_exact s t p :
  small_run s ->
  (pc_of s t = Undoing p \/ pc_of s t = Removing p ->
   exists x, pools s !! p = Some x /\ cache s !! p_key x = Some p) /\
  (pc_of s t = UndoKilling p \/ pc_of s t = Killing p ->
   exists x, pools s !! p = Some x /\ p_dead x = false) /\
  pc_of s t <> Panicked.
Proof.
  intros [Hr Hlen]. pose proof (pool_reachable_inv s Hr Hlen) as I.
  assert (Ho : forall f, owner (pc_of s t) = Some (p, f) ->
    exists x, pools s !! p = Some x /\ p_phase x = f /\ p_dead x = ph_dead f).
  { intros f Hf. destruct (w_own _ I _ _ _ Hf) as (x & Hx & <-). exists x.
    by destruct (w_pool _ I _ _ Hx). }
  split_and!; [| |apply I].
  - intros [H|H]; rewrite H in Ho; destruct (Ho _ eq_refl) as (x & Hx & Hph & _); exists x;
      (split; [done|]); apply (w_cache _ I); exists x; by rewrite Hph.
  - intros [H|H]; rewrite H in Ho; destruct (Ho _ eq_refl) as (x & Hx & _ & Hd); by exists x.
Qed.

(** a token that bounds its sessions but reports an effectively infinite
    number of read-write sessions is refused: the limit read for it is 0. *)
Theorem pool_infinite_rw_refused sha256 slot path info pin t s :
  ti_MaxSessionCount info <> CK_UNAVAILABLE_INFORMATION ->
  ti_MaxSessionCount info <> CK_EFFECTIVELY_INFINITE ->
  ti_MaxRwSessionCount info = CK_EFFECTIVELY_INFINITE ->
  cache s !! (slot, path) = None ->
  look t (start_login sha256 slot path info pin) s = set_pc t (Returned None) s.
Proof.
  intros H1 H2 H3 Hc. apply Z.eqb_neq in H1, H2.
  assert (Hm : maxSessions info = 0) by (unfold maxSessions; by rewrite H1, H2, H3).
  unfold look. change (lg_key _) with (slot, path : string). rewrite Hc. simpl. by rewrite Hm.
Qed.

(** ** Witnesses *)

Definition demo_login (pin : bytes) : login := mkLogin (5, "/lib/hsm.so") pin 10.

(** Thread 1 logs in, thread 2 is about to share its pool. *)
Definition sharing_trace : list label :=
  [LLogin 1 (demo_login []); LLook 1; LOpened 1 true; LLogin 2 (demo_login []); LLook 2;
   LTakeLive 2; LCompare 2].

Definition sharing_state : state := default init (run sharing_trace init).

(** The only reference is dropped, its pool still to be removed. *)
Definition removing_state : state := default init
  (run [LLogin 1 (demo_login []); LLook 1; LOpened 1 true; LForget 1; LDrop 1 0; LDecrease 1;
        LClosed 1] init).

Lemma small_trace ls :
  match run ls init with Some s => (length (refs s) <? 10)%nat | None => false end = true ->
  small_run (default init (run ls init)).
Proof.
  destruct (run ls init) as [s|] eqn:E; simpl; [|done]. intros H%Nat.ltb_lt. split; [|lia].
  clear H. assert (Hg : forall s0 s, reachable s0 -> run ls s0 = Some s -> reachable s).
  { clear. induction ls as [|l ls IH]; simpl; intros s0 s Hr H; [by injection H as <-|].
    destruct (exec l s0) eqn:E; [|done]. eauto using reach_step. }
  eapply Hg; [constructor | exact E].
Qed.

Lemma pool_ref_open_witness : exists x, pools sharing_state !! 0%nat = Some x /\ p_live x = true.
Proof.
  destruct (pool_ref_open sharing_state 0 0) as (x & ? & ? & _).
  - apply small_trace. by vm_compute.
  - by vm_compute.
  - by exists x.
Defined.

Lemma pool_shared_pin_witness : exists x, pools sharing_state !! 0%nat = Some x /\ p_pinHash x = [].
Proof.
  destruct (pool_shared_pin sharing_state (default init (exec (LShare 2) sharing_state)) 2
    (demo_login []) 0 1) as (x & ? & _ & _ & ? & _).
  - apply small_trace. by vm_compute.
  - by vm_compute.
  - by vm_compute.
  - by vm_compute.
  - by exists x.
Defined.

Lemma pool_removal_exact_witness : exists x, pools removing_state !! 0%nat = Some x /\
  cache removing_state !! p_key x = Some 0%nat.
Proof.
  apply (pool_removal_exact removing_state 1 0); [|right; by vm_compute].
  apply small_trace. by vm_compute.
Defined.

Lemma pool_infinite_rw_refused_witness :
  look 1 (start_login id 5 "/lib/hsm.so" (mkTokenInfo "hsm" "s" 10 0) "1234") init =
  set_pc 1 (Returned None) init.
Proof. by apply pool_infinite_rw_refused. Defined.
