(* ===== verification/Sessions.v ===== *)
(** * Sessions and scopes

    kms/pkcs11/internal/session: Get, put and Scope of pool.go and the session
    handles of handle.go, run by one goroutine.  The pool's semaphore is used
    through the interface [Sema]; the transition system of Semaphore.v
    implements it below.  Deferred calls run on every way out. *)
From S2P Require Import Prelude P11.
From S2P Require Semaphore.

Local Open Scope Z_scope.

(** What the pool needs from its semaphore: tokens go out one at a time and come
    back, and a refused Acquire takes none. *)
Class Sema (S : Type) := {
  sema_Acquire : prog S unit;
  sema_Release : prog S unit;
  sema_held : S -> Z;
}.

Class SemaLaws (S : Type) (M : Sema S) := {
  sema_wf : S -> Prop;
  sema_held_nonneg s : sema_wf s -> 0 <= sema_held s;
  acquire_spec s : sema_wf s ->
    match sema_Acquire s with
    | (Ret _, s') => sema_wf s' /\ sema_held s' = sema_held s + 1
    | (Fail _, s') => sema_wf s' /\ sema_held s' = sema_held s
    | (Panic, _) => False
    end;
  release_spec s : sema_wf s -> 0 < sema_held s ->
    exists s', sema_Release s = (Ret tt, s') /\ sema_wf s' /\ sema_held s' = sema_held s - 1;
}.

(** [Handle]: its number in the store of handles, and its PKCS#11 session. *)
Record Handle := mkHandle { h_id : nat; h_session : Z }.

Definition mapErr (op : string) (err : error) : error :=
  wrapf (String.append "failed to pkcs#11 " op) err.

Section sessions.
Context `{P : Pkcs11} {SemaState : Type} `{M : Sema SemaState}.
(** The pool's module context and token slot. *)
Context (ctx slot : Z).

(** [se_closed]: the [closed] flag of each handle made so far. *)
Record sess := mkSess { se_lib : p11; se_sema : SemaState; se_closed : list bool }.

Definition in_lib {A} (m : prog p11 A) : prog sess A :=
  zoom se_lib (fun l s => mkSess l (se_sema s) (se_closed s)) m.

Definition in_sema {A} (m : prog SemaState A) : prog sess A :=
  zoom se_sema (fun x s => mkSess (se_lib s) x (se_closed s)) m.

(** A library call whose error is enriched with the operation's name. *)
Definition call {A} (op : string) (m : prog p11 A) : prog sess A := on_err (mapErr op) (in_lib m).

Definition new_handle (session : Z) : prog sess Handle := fun s =>
  (Ret (mkHandle (length (se_closed s)) session),
   mkSess (se_lib s) (se_sema s) (se_closed s ++ [false])).

Definition Get : prog sess Handle :=
  _ ← in_sema sema_Acquire;
  o ← attempt (call "OpenSession" (C_OpenSession ctx slot (Z.lor CKF_SERIAL_SESSION CKF_RW_SESSION)));
  match o with
  | Ret session => new_handle session
  | Fail e => _ ← in_sema sema_Release; lift (Fail e)
  | Panic => _ ← in_sema sema_Release; lift Panic
  end.

Definition put (session : Z) : prog sess unit :=
  o ← attempt (call "CloseSession" (C_CloseSession ctx session));
  _ ← in_sema sema_Release;
  lift o.

Definition Handle_Close (h : Handle) : prog sess unit :=
  s ← get;
  if default true (se_closed s !! h_id h)
  then lift (Fail (ErrLeaf "session is already closed"))
  else
    _ ← modify (fun s => mkSess (se_lib s) (se_sema s) (<[h_id h := true]> (se_closed s)));
    put (h_session h).

(** The deferred [err = errors.Join(err, s.Close())] assigns a variable that is
    not the function's result, so only f's outcome is returned. *)
Definition Scope {A} (f : Handle -> prog sess A) : prog sess A :=
  h ← Get;
  o ← attempt (f h);
  c ← attempt (Handle_Close h);
  match c with
  | Panic => lift Panic
  | _ => lift o
  end.

(** ** The methods of a handle *)

Definition h_GenerateRandom (h : Handle) (length : Z) : prog sess slice :=
  call "GenerateRandom" (C_GenerateRandom ctx (h_session h) length).

Definition h_GetAttributeValue (h : Handle) (o : Z) (a : list Attribute) : prog sess (list Attribute) :=
  call "GetAttributeValue" (C_GetAttributeValue ctx (h_session h) o a).

Definition h_FindObjectsInit (h : Handle) (temp : list Attribute) : prog sess unit :=
  call "FindObjectsInit" (C_FindObjectsInit ctx (h_session h) temp).

Definition h_FindObjects (h : Handle) (max : Z) : prog sess (list Z) :=
  call "FindObjects" (C_FindObjects ctx (h_session h) max).

Definition h_FindObjectsFinal (h : Handle) : prog sess unit :=
  call "FindObjectsFinal" (C_FindObjectsFinal ctx (h_session h)).

Definition h_EncryptInit (h : Handle) (m : Mechanism) (o : Z) : prog sess unit :=
  call "EncryptInit" (C_EncryptInit ctx (h_session h) m o).

Definition h_Encrypt (h : Handle) (data : slice) : prog sess slice :=
  call "Encrypt" (C_Encrypt ctx (h_session h) data).

Definition h_DecryptInit (h : Handle) (m : Mechanism) (o : Z) : prog sess unit :=
  call "DecryptInit" (C_DecryptInit ctx (h_session h) m o).

Definition h_Decrypt (h : Handle) (data : slice) : prog sess slice :=
  call "Decrypt" (C_Decrypt ctx (h_session h) data).

Definition h_SignInit (h : Handle) (m : Mechanism) (o : Z) : prog sess unit :=
  call "SignInit" (C_SignInit ctx (h_session h) m o).

Definition h_Sign (h : Handle) (data : slice) : prog sess slice :=
  call "Sign" (C_Sign ctx (h_session h) data).

Definition h_VerifyInit (h : Handle) (m : Mechanism) (o : Z) : prog sess unit :=
  call "VerifyInit" (C_VerifyInit ctx (h_session h) m o).

Definition h_Verify (h : Handle) (data signature : slice) : prog sess unit :=
  call "Verify" (C_Verify ctx (h_session h) data signature).

Definition h_GenerateKey (h : Handle) (m : Mechanism) (temp : list Attribute) : prog sess Z :=
  call "GenerateKey" (C_GenerateKey ctx (h_session h) m temp).

Definition h_GenerateKeyPair (h : Handle) (m : Mechanism) (public private : list Attribute) :
    prog sess (Z * Z) :=
  call "GenerateKeyPair" (C_GenerateKeyPair ctx (h_session h) m public private).

(** ** Accounting *)

Context {L : SemaLaws SemaState M}.

(** The tokens out are the handles not closed yet. *)
Definition open_handles (s : sess) : Z := countP negb (se_closed s).

Definition sess_inv (s : sess) : Prop :=
  sema_wf (se_sema s) /\ sema_held (se_sema s) = open_handles s.

(** A library call leaves the semaphore and the handles alone. *)
Lemma wp_call {A} op (m : prog p11 A) (Q : outcome A -> sess -> Prop) s :
  (forall o l, Q o (mkSess l (se_sema s) (se_closed s))) -> wp (call op m) Q s.
Proof.
  intros H. unfold call, in_lib. rewrite wp_on_err, wp_zoom. rewrite wp_run. apply H.
Qed.

Lemma wp_Acquire (Q : outcome unit -> sess -> Prop) s :
  sema_wf (se_sema s) ->
  (forall x, sema_wf x -> sema_held x = sema_held (se_sema s) + 1 ->
     Q (Ret tt) (mkSess (se_lib s) x (se_closed s))) ->
  (forall e x, sema_wf x -> sema_held x = sema_held (se_sema s) ->
     Q (Fail e) (mkSess (se_lib s) x (se_closed s))) ->
  wp (in_sema sema_Acquire) Q s.
Proof.
  intros Hw H1 H2. unfold in_sema. rewrite wp_zoom. unfold wp.
  pose proof (acquire_spec _ Hw) as Ha.
  destruct (sema_Acquire (se_sema s)) as [[[]|e|] x]; naive_solver.
Qed.

Lemma wp_Release (Q : outcome unit -> sess -> Prop) s :
  sema_wf (se_sema s) -> 0 < sema_held (se_sema s) ->
  (forall x, sema_wf x -> sema_held x = sema_held (se_sema s) - 1 ->
     Q (Ret tt) (mkSess (se_lib s) x (se_closed s))) ->
  wp (in_sema sema_Release) Q s.
Proof.
  intros Hw Hh HQ. unfold in_sema. rewrite wp_zoom. unfold wp.
  destruct (release_spec _ Hw Hh) as (x & -> & Hx & Hhx). by apply HQ.
Qed.

(** The library call that opens a session. *)
Definition open_call : prog p11 Z :=
  C_OpenSession ctx slot (Z.lor CKF_SERIAL_SESSION CKF_RW_SESSION).

(** Get: a handle is made exactly when it returns one, for the session just
    opened; otherwise no session has been opened. *)
Lemma wp_Get s : sess_inv s ->
  wp Get (fun o s' => sess_inv s' /\
    match o with
    | Ret h => se_closed s' = se_closed s ++ [false] /\ h_id h = length (se_closed s) /\
        open_call (se_lib s) = (Ret (h_session h), se_lib s')
    | _ => se_closed s' = se_closed s /\
        (se_lib s' = se_lib s \/
         se_lib s' = snd (open_call (se_lib s)) /\ forall h, fst (open_call (se_lib s)) <> Ret h)
    end) s.
Proof.
  intros [Hw Hh]. pose proof (sema_held_nonneg _ Hw). unfold Get. rewrite wp_bind.
  apply wp_Acquire; [done| |intros e x Hx Hhx; split;
    [split; unfold open_handles in *; simpl; [done|lia]|split; [done|by left]]].
  intros x Hx Hhx. rewrite wp_bind, wp_attempt. unfold call, in_lib.
  rewrite wp_on_err, wp_zoom, wp_run. simpl. fold open_call.
  destruct (open_call (se_lib s)) as [o l] eqn:E.
  destruct o; simpl; [|rewrite wp_bind; apply wp_Release; simpl; [done|lia|];
    intros y Hy Hhy; split; [split; simpl; unfold open_handles in *; simpl; [done|lia]
    |split; [done|by right]]..].
  unfold wp, new_handle. simpl. split; [|done]. split; simpl; [done|].
  unfold open_handles in *. simpl. rewrite countP_app. simpl. unfold countP at 2. simpl. lia.
Qed.

(** Close of an open handle closes its session and gives one token back, also
    when CloseSession fails. *)
Lemma wp_Handle_Close h s : sess_inv s -> se_closed s !! h_id h = Some false ->
  wp (Handle_Close h) (fun o s' => sess_inv s' /\
    se_closed s' = <[h_id h := true]> (se_closed s) /\
    se_lib s' = snd (C_CloseSession ctx (h_session h) (se_lib s)) /\
    o = map_err (mapErr "CloseSession") (fst (C_CloseSession ctx (h_session h) (se_lib s)))) s.
Proof.
  intros [Hw Hh] Hc. unfold Handle_Close. wp_step. rewrite Hc. simpl. wp_step. simpl.
  unfold put. rewrite wp_bind, wp_attempt. unfold call, in_lib.
  rewrite wp_on_err, wp_zoom, wp_run. simpl. rewrite wp_bind.
  pose proof (countP_pos negb _ _ _ Hc eq_refl) as Hpos.
  apply wp_Release; simpl; [done | unfold open_handles in *; lia |].
  intros x Hx Hhx. wp_step. split; [|done]. split; simpl; [done|]. unfold open_handles in *. simpl.
  rewrite (countP_insert _ _ _ _ _ Hc). simpl. lia.
Qed.

(** Programs that touch the library only. *)
Definition frames {A} (m : prog sess A) : Prop := forall s,
  se_sema (snd (m s)) = se_sema s /\ se_closed (snd (m s)) = se_closed s.

Lemma frames_call {A} op (m : prog p11 A) : frames (call op m).
Proof. intros s. unfold call, on_err, in_lib, zoom. by destruct (m (se_lib s)). Qed.

Lemma frames_in_lib {A} (m : prog p11 A) : frames (in_lib m).
Proof. intros s. unfold in_lib, zoom. by destruct (m (se_lib s)). Qed.

Lemma frames_lift {A} (o : outcome A) : frames (lift o).
Proof. done. Qed.

Lemma frames_on_err {A} f (m : prog sess A) : frames m -> frames (on_err f m).
Proof. intros H s. specialize (H s). unfold on_err. by destruct (m s). Qed.

Lemma frames_bind {A B} (m : prog sess A) (f : A -> prog sess B) :
  frames m -> (forall a, frames (f a)) -> frames (m ≫= f).
Proof.
  intros H Hf s. specialize (H s). unfold mbind, prog_bind.
  destruct (m s) as [[a| |] s1]; simpl in *; [|done..].
  destruct H as [<- <-]. apply Hf.
Qed.

Lemma frames_inv {A} (m : prog sess A) s : frames m -> sess_inv s -> sess_inv (snd (m s)).
Proof. intros H. unfold sess_inv, open_handles. by destruct (H s) as [-> ->]. Qed.

(** What a Scope over such a program returns. *)
Lemma Scope_outcome {T : Pkcs11Total P} {A} (f : Handle -> prog sess A) s h s1 :
  (forall h, frames (f h)) -> sess_inv s -> Get s = (Ret h, s1) ->
  fst (Scope f s) = fst (f h s1).
Proof.
  intros Hf I Hg. pose proof (wp_Get s I) as H. rewrite wp_run, Hg in H. simpl in H.
  destruct H as (I1 & Hc & Hid & _). unfold Scope, mbind, prog_bind. rewrite Hg. unfold attempt.
  pose proof (frames_inv (f h) s1 (Hf h) I1) as I2. destruct (Hf h s1) as [_ Hc2].
  destruct (f h s1) as [o s2]. simpl in *.
  assert (Hop : se_closed s2 !! h_id h = Some false)
    by (rewrite Hc2, Hc, Hid; by apply list_lookup_middle).
  assert (Hp : fst (Handle_Close h s2) <> Panic).
  { rewrite <- (wp_run (Handle_Close h) (fun o _ => o <> Panic)).
    unfold Handle_Close. wp_step. rewrite Hop. simpl. wp_step. unfold put. wp_step.
    unfold call, in_lib. rewrite wp_on_err, wp_zoom, wp_run. wp_step.
    pose proof (countP_pos negb _ _ _ Hop eq_refl). destruct I2 as [Hw Hh].
    apply wp_Release; simpl; [done | unfold open_handles in *; lia |]. intros x _ _. wp_step.
    pose proof (CloseSession_total ctx (h_session h) (se_lib s2)) as Hn.
    by destruct (fst (C_CloseSession ctx (h_session h) (se_lib s2))). }
  destruct (Handle_Close h s2) as [[] s3]; done.
Qed.

(** C7: Scope is balanced, on any library.  When a session could be opened, and
    whatever the callback does with it (return, fail, panic, open and close
    other handles, close this one itself), as long as it keeps the accounting:
    the session is closed afterwards by a call of C_CloseSession on it, made
    after the callback and nothing else, unless the callback has closed the
    handle already, in which case there is no further call; the handle is
    marked closed and the tokens out are the open handles; a callback that
    leaves the other handles alone leaves as many tokens out as before; and
    the caller gets the callback's outcome, an error of closing the session
    being dropped.  When no session could be opened, Scope returns the error
    without running the callback, with no session opened and the tokens as
    before. *)
Theorem Scope_balanced {T : Pkcs11Total P} {A} (f : Handle -> prog sess A) s :
  sess_inv s ->
  (forall h s1, sess_inv s1 -> se_closed s1 !! h_id h = Some false ->
     wp (f h) (fun _ s2 => sess_inv s2 /\ is_Some (se_closed s2 !! h_id h)) s1) ->
  match Get s with
  | (Ret h, s1) =>
      let '(o, s2) := f h s1 in
      let '(r, s3) := Scope f s in
      r = o /\
      C_OpenSession ctx slot (Z.lor CKF_SERIAL_SESSION CKF_RW_SESSION) (se_lib s) =
        (Ret (h_session h), se_lib s1) /\
      se_lib s3 = (if decide (se_closed s2 !! h_id h = Some false)
                   then snd (C_CloseSession ctx (h_session h) (se_lib s2)) else se_lib s2) /\
      se_closed s3 = <[h_id h := true]> (se_closed s2) /\
      sess_inv s3 /\
      (se_closed s2 = se_closed s1 -> open_handles s3 = open_handles s)
  | (o, s1) =>
      Scope f s = (o ≫= (fun _ => Panic), s1) /\ sess_inv s1 /\ se_closed s1 = se_closed s /\
      (se_lib s1 = se_lib s \/
       se_lib s1 = snd (open_call (se_lib s)) /\ forall h, fst (open_call (se_lib s)) <> Ret h)
  end.
Proof.
  intros I Hf. pose proof (wp_Get s I) as Hg. rewrite wp_run in Hg.
  unfold Scope, mbind, prog_bind. destruct (Get s) as [[h|e|] s1]; simpl in Hg; [|by destruct Hg as (? & ? & ?)..].
  destruct Hg as (I1 & Hc & Hid & Ho).
  assert (Hop : se_closed s1 !! h_id h = Some false) by (rewrite Hc, Hid; by apply list_lookup_middle).
  specialize (Hf h s1 I1 Hop). rewrite wp_run in Hf. unfold attempt.
  destruct (f h s1) as [o s2]. simpl in Hf. destruct Hf as [I2 [b Hb]].
  assert (Hcount : forall s3, se_closed s3 = <[h_id h := true]> (se_closed s2) ->
    se_closed s2 = se_closed s1 -> open_handles s3 = open_handles s).
  { intros s3 E3 E2. unfold open_handles. rewrite E3, E2, (countP_insert _ _ _ _ _ Hop), Hc, countP_app.
    unfold countP at 2. simpl. lia. }
  rewrite Hb. destruct b.
  - unfold Handle_Close. run_prog. rewrite Hb. simpl. unfold lift. simpl. try (rewrite decide_False by done).
    rewrite list_insert_id by done. split_and!; try done. apply Hcount. by rewrite list_insert_id.
  - try (rewrite decide_True by done). pose proof (wp_Handle_Close h s2 I2 Hb) as H. rewrite wp_run in H.
    pose proof (CloseSession_total ctx (h_session h) (se_lib s2)) as Hn.
    destruct (Handle_Close h s2) as [c s3]. simpl in H. destruct H as (I3 & Hc3 & Hl3 & ->).
    destruct (fst (C_CloseSession ctx (h_session h) (se_lib s2))); simpl; [| |done];
      (split_and!; [done..|by apply Hcount]).
Qed.

(** closing a handle twice is an error that changes nothing: its token is
    given back once. *)
Theorem Handle_Close_once h s : sess_inv s -> se_closed s !! h_id h = Some false ->
  let s' := snd (Handle_Close h s) in
  open_handles s' = open_handles s - 1 /\
  Handle_Close h s' = (Fail (ErrLeaf "session is already closed"), s').
Proof.
  intros I Hc. pose proof (wp_Handle_Close h s I Hc) as H. rewrite wp_run in H. destruct H as (_ & H & _).
  cbn zeta. split.
  - unfold open_handles. rewrite H, (countP_insert _ _ _ _ _ Hc). simpl. lia.
  - unfold Handle_Close at 1. run_prog. rewrite H.
    rewrite list_lookup_insert_eq by (apply lookup_lt_is_Some; eauto). done.
Qed.
End sessions.
Arguments sess {P} SemaState.

(** ** The semaphore of Semaphore.v implements the interface

    One goroutine, thread 0 of the transition system, whose context expires as
    soon as it would block. *)
Definition do (ls : list Semaphore.label) (s : Semaphore.state) : Semaphore.state :=
  default s (Semaphore.run ls s).

Definition seq_Acquire : prog Semaphore.state unit := fun s =>
  let s1 := do [Semaphore.LCall 0 Semaphore.OpAcquire false; Semaphore.LEnter 0] s in
  match Semaphore.pc_of s1 0 with
  | Semaphore.Returned _ Semaphore.RNil => (Ret tt, do [Semaphore.LForget 0] s1)
  | Semaphore.Waiting _ =>
      (Fail (ErrSentinel "context canceled"),
       do [Semaphore.LCancel 0; Semaphore.LDone 0; Semaphore.LCancelSection 0; Semaphore.LForget 0] s1)
  | _ => (Fail (ErrLeaf "session pool is closed"), do [Semaphore.LForget 0] s1)
  end.

Definition seq_Release : prog Semaphore.state unit := fun s =>
  let s1 := do [Semaphore.LUserRelease 0] s in
  match Semaphore.pc_of s1 0 with
  | Semaphore.Panicked => (Panic, s1)
  | _ => (Ret tt, s1)
  end.

Definition seq_sema : Sema Semaphore.state := {|
  sema_Acquire := seq_Acquire;
  sema_Release := seq_Release;
  sema_held := Semaphore.held;
|}.

(** A sound run in which thread 0 is the only one ever in a call, and idle. *)
Definition seq_wf (n : Z) (s : Semaphore.state) : Prop :=
  Semaphore.sound_run n s /\ Semaphore.mu s = None /\ Semaphore.pc_of s 0 = Semaphore.Idle /\
  Semaphore.waiters s = [] /\ 0%nat ∉ Semaphore.ready s.

Section seq.
Context (n : Z) (Hn : 1 <= n < 2 ^ 64).

Lemma do_sound ls s : Semaphore.sound_run n s ->
  Semaphore.phantom (do ls s) = Semaphore.phantom s -> Semaphore.sound_run n (do ls s).
Proof.
  unfold do. destruct (Semaphore.run ls s) as [s'|] eqn:E; simpl; [|done].
  intros [Hr Hp] Hph. split; [by eapply Semaphore.run_reachable | congruence].
Qed.

(** A step of [do], given the state it reaches. *)
Lemma do_cons l ls s s' : Semaphore.exec l s = Some s' ->
  is_Some (Semaphore.run ls s') -> do (l :: ls) s = do ls s'.
Proof. intros H [s2 H2]. unfold do. simpl. rewrite H, H2. done. Qed.

Definition called (s : Semaphore.state) : Semaphore.state :=
  Semaphore.set_pc 0 (Semaphore.AtLock Semaphore.OpAcquire)
    (Semaphore.set_done (Semaphore.ctx_done s ∖ {[0%nat]}) s).

Lemma do_acquire s : Semaphore.pc_of s 0 = Semaphore.Idle -> Semaphore.mu s = None ->
  do [Semaphore.LCall 0 Semaphore.OpAcquire false; Semaphore.LEnter 0] s =
  Semaphore.Acquire 0 (called s).
Proof.
  intros Hpc Hm. unfold do. cbn [Semaphore.run Semaphore.exec]. rewrite Hpc. fold (called s).
  change (Semaphore.mu (called s)) with (Semaphore.mu s). rewrite Hm.
  unfold called at 1. rewrite Semaphore.pc_of_set, decide_True by done. done.
Qed.

Lemma do_forget o r s : Semaphore.pc_of s 0 = Semaphore.Returned o r ->
  do [Semaphore.LForget 0] s = Semaphore.set_pc 0 Semaphore.Idle s.
Proof. intros H. unfold do. cbn [Semaphore.run Semaphore.exec]. by rewrite H. Qed.

Lemma seq_acquire_spec s : seq_wf n s ->
  match seq_Acquire s with
  | (Ret _, s') => seq_wf n s' /\ Semaphore.held s' = Semaphore.held s + 1
  | (Fail _, s') => seq_wf n s' /\ Semaphore.held s' = Semaphore.held s
  | (Panic, _) => False
  end.
Proof.
  intros (Hs & Hm & Hpc & Hw & Hr). unfold seq_Acquire.
  assert (Hs1 : Semaphore.sound_run n (Semaphore.Acquire 0 (called s))).
  { rewrite <- do_acquire by done. apply do_sound; [done|]. rewrite do_acquire by done.
    unfold Semaphore.Acquire, Semaphore.acquireInternal. by repeat case_match. }
  rewrite do_acquire by done. set (s1 := Semaphore.Acquire 0 (called s)) in *.
  assert (Hcase :
    (s1 = Semaphore.set_pc 0 (Semaphore.Returned Semaphore.OpAcquire Semaphore.RClosed) (called s)) \/
    (s1 = Semaphore.add_held Semaphore.OpAcquire
      (Semaphore.set_pc 0 (Semaphore.Returned Semaphore.OpAcquire Semaphore.RNil)
        (Semaphore.set_cur (u64 (Semaphore.cur s + 1)) (called s)))) \/
    (s1 = Semaphore.set_pc 0 (Semaphore.Waiting Semaphore.OpAcquire)
      (Semaphore.set_waiters [0%nat] (called s)))).
  { unfold s1, Semaphore.Acquire, Semaphore.acquireInternal.
    destruct (Semaphore.closed _); [by left|]. right.
    destruct (decide _) as [Hd|_]; [simpl in Hd; set_solver|].
    destruct (_ && _); [by left|]. right. simpl. by rewrite Hw. }
  assert (Hfin : forall s2, Semaphore.sound_run n s2 -> Semaphore.mu s2 = None ->
    Semaphore.pc_of s2 0 = Semaphore.Idle -> Semaphore.waiters s2 = [] ->
    Semaphore.ready s2 = Semaphore.ready s -> seq_wf n s2).
  { intros s2 ? ? ? ? Hrd. split_and!; try done. by rewrite Hrd. }
  clearbody s1.
  destruct Hcase as [E|[E|E]].
  - assert (Hp1 : Semaphore.pc_of s1 0 = Semaphore.Returned Semaphore.OpAcquire Semaphore.RClosed)
      by (by rewrite E, Semaphore.pc_of_set).
    rewrite Hp1. pose proof (do_sound [Semaphore.LForget 0] s1 Hs1) as Hd.
    rewrite (do_forget _ _ _ Hp1) in *. specialize (Hd ltac:(by rewrite E)).
    split; [|by rewrite E].
    apply Hfin; rewrite ?Semaphore.pc_of_set; try done; by rewrite E.
  - assert (Hp1 : Semaphore.pc_of s1 0 = Semaphore.Returned Semaphore.OpAcquire Semaphore.RNil)
      by (by rewrite E, Semaphore.pc_of_add_held, Semaphore.pc_of_set).
    rewrite Hp1. pose proof (do_sound [Semaphore.LForget 0] s1 Hs1) as Hd.
    rewrite (do_forget _ _ _ Hp1) in *. specialize (Hd ltac:(by rewrite E)).
    split; [|by rewrite E].
    apply Hfin; rewrite ?Semaphore.pc_of_set; try done; by rewrite E.
  - assert (Hp1 : Semaphore.pc_of s1 0 = Semaphore.Waiting Semaphore.OpAcquire)
      by (by rewrite E, Semaphore.pc_of_set).
    rewrite Hp1. set (ls := [_; _; _; _]). pose proof (do_sound ls s1 Hs1) as Hd.
    set (s2 := Semaphore.set_pc 0 (Semaphore.CancelLock Semaphore.OpAcquire)
      (Semaphore.set_done ({[0%nat]} ∪ Semaphore.ctx_done s1) s1)).
    assert (Hdo : do ls s1 = Semaphore.set_pc 0 Semaphore.Idle
      (Semaphore.cancel_section 0 Semaphore.OpAcquire s2)).
    { unfold do, ls. cbn [Semaphore.run Semaphore.exec]. rewrite Hp1. cbn [Semaphore.in_call].
      change (Semaphore.pc_of (Semaphore.set_done ?d s1) 0) with (Semaphore.pc_of s1 0).
      rewrite Hp1, decide_True by (simpl; set_solver). fold s2.
      replace (Semaphore.mu s2) with (@None nat) by (unfold s2; rewrite E; simpl; done).
      unfold s2 at 1. rewrite Semaphore.pc_of_set, decide_True by done.
      unfold Semaphore.cancel_section at 1. by rewrite Semaphore.pc_of_set, decide_True. }
    assert (Hcs : Semaphore.cancel_section 0 Semaphore.OpAcquire s2 =
      Semaphore.set_pc 0 (Semaphore.Returned Semaphore.OpAcquire Semaphore.RCtx)
        (Semaphore.set_waiters [] s2)).
    { unfold Semaphore.cancel_section. rewrite decide_False by (unfold s2; rewrite E; simpl; done).
      replace (Semaphore.waiters s2) with [0%nat] by (unfold s2; by rewrite E).
      cbn [filter list_filter]. rewrite decide_False by (intros H; by apply H).
      by destruct (_ && _). }
    rewrite Hdo, Hcs in *. specialize (Hd ltac:(unfold s2; by rewrite E)).
    split; [|unfold s2; by rewrite E].
    apply Hfin; rewrite ?Semaphore.pc_of_set; try done; unfold s2; by rewrite E.
Qed.

Lemma seq_release_spec s : seq_wf n s -> 0 < Semaphore.held s ->
  exists s', seq_Release s = (Ret tt, s') /\ seq_wf n s' /\
    Semaphore.held s' = Semaphore.held s - 1.
Proof.
  intros (Hs & Hm & Hpc & Hw & Hr) Hh. unfold seq_Release.
  pose proof (do_sound [Semaphore.LUserRelease 0] s Hs) as Hd.
  destruct Hs as [Hrch Hph]. pose proof (Semaphore.reachable_inv n Hn s Hrch Hph) as I.
  pose proof (Semaphore.i_cur _ _ _ I). pose proof (Semaphore.i_closer _ _ _ I).
  assert (Hdo : do [Semaphore.LUserRelease 0] s =
    Semaphore.drop_held (Semaphore.set_cur (u64 (Semaphore.cur s - 1)) s)).
  { unfold do. cbn [Semaphore.run Semaphore.exec]. rewrite Hm, Hpc.
    destruct (Z.ltb_spec 0 (Semaphore.held s)); [|lia]. unfold Semaphore.Release.
    destruct (Z.eqb_spec (Semaphore.cur s) 0); [lia|].
    unfold Semaphore.give_back, Semaphore.notify. simpl. by rewrite Hw. }
  rewrite Hdo in *. specialize (Hd eq_refl).
  change (Semaphore.pc_of (Semaphore.drop_held _) 0) with (Semaphore.pc_of s 0). rewrite Hpc.
  eexists. split; [done|]. split; [|done]. by split_and!.
Qed.

#[local] Existing Instance seq_sema.

Definition seq_laws : SemaLaws Semaphore.state seq_sema.
Proof.
  refine {| sema_wf := seq_wf n |}.
  - intros s (Hs & _). by apply (Semaphore.i_held n 0 s), Semaphore.reachable_inv; destruct Hs.
  - apply seq_acquire_spec.
  - apply seq_release_spec.
Defined.
End seq.

Section witnesses.
#[local] Existing Instance toy_p11.
#[local] Existing Instance seq_sema.

Definition demo_laws : SemaLaws Semaphore.state seq_sema := seq_laws 3 ltac:(lia).

#[local] Existing Instance demo_laws.

Definition demo_sess : sess (P := toy_p11) Semaphore.state :=
  mkSess (P := toy_p11) toy_lib0 (Semaphore.init 3) [].

Lemma demo_sess_inv : sess_inv demo_sess.
Proof.
  split; [|done]. split_and!; try done. split; [constructor|done].
Qed.

(** The callback reads random bytes, then closes its handle itself. *)
Definition demo_scope (h : Handle) : prog (sess (P := toy_p11) Semaphore.state) slice :=
  r ← h_GenerateRandom 1 h 2;
  _ ← Handle_Close 1 h;
  mret r.

Example demo_scope_run :
  fst (Scope 1 5 demo_scope demo_sess) = Ret (Some ["r"%char; "r"%char]) /\
  ty_open (se_lib (snd (Scope 1 5 demo_scope demo_sess))) = [].
Proof. split; by vm_compute. Qed.

Lemma Scope_balanced_witness :
  match Get 1 5 demo_sess with
  | (Ret h, s1) => fst (Scope 1 5 demo_scope demo_sess) = fst (demo_scope h s1)
  | _ => False
  end.
Proof.
  assert (E : is_ret (fst (Get 1 5 demo_sess)) = true) by (by vm_compute).
  assert (Hf : forall h s1, sess_inv s1 -> se_closed s1 !! h_id h = Some false ->
    wp (demo_scope h) (fun _ s2 => sess_inv s2 /\ is_Some (se_closed s2 !! h_id h)) s1).
  { intros h s1 I Hop. unfold demo_scope, h_GenerateRandom. rewrite wp_bind. apply wp_call. intros o l.
    destruct o; [|split; [destruct I; by split|by eexists]..].
    rewrite wp_bind. eapply wp_mono; [|by apply wp_Handle_Close; [destruct I; split|]].
    intros o s' (I' & Hc & _). simpl in Hc.
    assert (sess_inv s' /\ is_Some (se_closed s' !! h_id h)); [|by destruct o; wp_step].
    split; [done|]. rewrite Hc, list_lookup_insert_eq by (apply lookup_lt_is_Some; eauto). by eexists. }
  pose proof (Scope_balanced (T := toy_total) 1 5 demo_scope demo_sess demo_sess_inv Hf) as H.
  destruct (Get 1 5 demo_sess) as [[h| |] s1]; [|done..].
  destruct (demo_scope h s1) as [o s2], (Scope 1 5 demo_scope demo_sess) as [r s3]. apply H.
Defined.

Lemma Handle_Close_once_witness :
  let s := snd (Get 1 5 demo_sess) in
  open_handles (snd (Handle_Close 1 (mkHandle 0 1) s)) = 0.
Proof.
  refine (proj1 (Handle_Close_once 1 (mkHandle 0 1) (snd (Get 1 5 demo_sess)) _ _)).
  - pose proof (wp_Get 1 5 demo_sess demo_sess_inv) as H. rewrite wp_run in H. apply H.
  - by vm_compute.
Defined.
End witnesses.
