(* ===== verification/Kms.v ===== *)
(** * The KMS and Key interfaces

    kms/kms.go.  A KMS and its keys are references into a world [W] that holds
    everything they own (a PKCS#11 library, a remote service, a plugin process);
    a method is a program over [W].  ConfigMap values are JSON values; decoding
    them into a struct is mapstructure's, hence a parameter of each component. *)
From S2P Require Import Prelude GoText.

Local Open Scope Z_scope.

Definition ErrNotImplemented : error := ErrSentinel "not implemented".

Definition ErrInvalidSignature : error := ErrSentinel "invalid signature".

(** A JSON value. *)
Inductive cval :=
| CNull
| CBool (b : bool)
| CNum (z : Z)
| CStr (s : string).

Definition ConfigMap : Type := gmap string cval.

Record OpenOptions := mkOpenOptions {
  oo_Logger : option nat;
  oo_AllowEnvironment : bool;
  oo_ConfigMap : ConfigMap;
}.

Record KeyOptions := mkKeyOptions { ko_ConfigMap : ConfigMap }.

Record CipherOptions := mkCipherOptions { co_Data : slice; co_AAD : slice }.

(** ** Hashes

    [crypto.Hash] is a [uint].  The hash functions are parameters. *)
Definition Hash0 : Z := 0.
Definition SHA1 : Z := 3.
Definition SHA224 : Z := 4.
Definition SHA256 : Z := 5.
Definition SHA384 : Z := 6.
Definition SHA512 : Z := 7.
Definition SHA3_224 : Z := 10.
Definition SHA3_256 : Z := 11.
Definition SHA3_384 : Z := 12.
Definition SHA3_512 : Z := 13.

(** [crypto.Hash.String] and [Size]: the rows the repository can reach. *)
Definition hash_table : list (Z * (string * Z)) :=
  [(1, ("MD4", 16)); (2, ("MD5", 16)); (SHA1, ("SHA-1", 20)); (SHA224, ("SHA-224", 28));
   (SHA256, ("SHA-256", 32)); (SHA384, ("SHA-384", 48)); (SHA512, ("SHA-512", 64));
   (8, ("MD5+SHA1", 36)); (9, ("RIPEMD-160", 20)); (SHA3_224, ("SHA3-224", 28));
   (SHA3_256, ("SHA3-256", 32)); (SHA3_384, ("SHA3-384", 48)); (SHA3_512, ("SHA3-512", 64));
   (14, ("SHA-512/224", 28)); (15, ("SHA-512/256", 32)); (16, ("BLAKE2s-256", 32));
   (17, ("BLAKE2b-256", 32)); (18, ("BLAKE2b-384", 48)); (19, ("BLAKE2b-512", 64))].

Definition hash_lookup (h : Z) : option (string * Z) :=
  snd <$> find (fun r => fst r =? h) hash_table.

Definition hash_String (h : Z) : string :=
  match hash_lookup h with
  | Some (s, _) => s
  | None => String.append "unknown hash value " (FormatUint h)
  end.

Definition hash_Size (h : Z) : outcome Z :=
  match hash_lookup h with Some (_, n) => Ret n | None => Panic end.

Class Hashes := {
  hash_Available : Z -> bool;
  hash_Sum : Z -> bytes -> bytes;
}.

(** [h := hash.New(); h.Write(data); h.Sum(nil)]: New panics on a hash function
    that is not linked into the binary. *)
Definition hash_New_Sum `{Hashes} (h : Z) (data : slice) : outcome slice :=
  if hash_Available h then Ret (Some (hash_Sum h (content data))) else Panic.

(** ** Signing options

    [crypto.SignerOpts]: the dynamic types told apart by the repository. *)
Inductive SignerOpts :=
| SHash (hash : Z)
| SPSS (SaltLength hash : Z)
| SEd25519 (context : string) (hash : Z)
| SOther (type_name : string) (hash : Z).

Definition HashFunc (o : SignerOpts) : Z :=
  match o with SHash h | SPSS _ h | SEd25519 _ h | SOther _ h => h end.

(** [opts.HashFunc()] through the embedded interface: a nil one panics. *)
Definition opts_HashFunc (o : option SignerOpts) : outcome Z :=
  match o with Some o => Ret (HashFunc o) | None => Panic end.

Record SignOptions := mkSignOptions {
  so_Data : slice;
  so_Prehashed : bool;
  so_SignerOpts : option SignerOpts;
}.

Record VerifyOptions := mkVerifyOptions {
  vo_Signature : slice;
  vo_Data : slice;
  vo_Prehashed : bool;
  vo_SignerOpts : option SignerOpts;
}.

Inductive PublicKey :=
| PubRSA (n e : Z)
| PubECDSA (curve : string) (point : bytes)
| PubEd25519 (b : bytes)
| PubOther (tag : nat).

(** ** The interfaces *)

Class KMS (W S K : Type) := {
  kms_Open : S -> OpenOptions -> prog W unit;
  kms_GetKey : S -> KeyOptions -> prog W K;
  kms_Close : S -> prog W unit;
  key_Encrypt : K -> CipherOptions -> prog W slice;
  key_Decrypt : K -> CipherOptions -> prog W slice;
  key_Sign : K -> SignOptions -> prog W slice;
  key_Verify : K -> VerifyOptions -> prog W unit;
  key_ExportPublic : K -> prog W PublicKey;
}.

(** [UnimplementedKMS] and [UnimplementedKey]. *)
Definition Unimplemented (W : Type) : KMS W unit unit := {|
  kms_Open s opts := lift (Fail ErrNotImplemented);
  kms_GetKey s opts := lift (Fail ErrNotImplemented);
  kms_Close s := lift (Ret tt);
  key_Encrypt k opts := lift (Fail ErrNotImplemented);
  key_Decrypt k opts := lift (Fail ErrNotImplemented);
  key_Sign k opts := lift (Fail ErrNotImplemented);
  key_Verify k opts := lift (Fail ErrNotImplemented);
  key_ExportPublic k := lift (Fail ErrNotImplemented);
|}.

(** ** Signers *)

Section signer.
Context {W S K : Type} `{I : KMS W S K}.

Record signer := mkSigner { sg_key : K; sg_pub : PublicKey }.

Definition NewSigner (key : K) : prog W signer :=
  pub ← key_ExportPublic key; lift (Ret (mkSigner key pub)).

Definition NewSignerWithPublicKey (key : K) (pub : PublicKey) : signer := mkSigner key pub.

Definition signer_Public (s : signer) : PublicKey := sg_pub s.

Definition signer_Sign (s : signer) (data : slice) (opts : option SignerOpts) : prog W slice :=
  key_Sign (sg_key s) (mkSignOptions data true opts).

Definition signer_SignMessage (s : signer) (data : slice) (opts : option SignerOpts) :
    prog W slice :=
  key_Sign (sg_key s) (mkSignOptions data false opts).

(** What the [Prehashed] flag means to a key that hashes for its caller:
    signing a message is signing its digest, with no other effect. *)
Definition prehash_law `{Hashes} (key : K) (o : SignerOpts) : Prop :=
  forall data digest w, hash_New_Sum (HashFunc o) data = Ret digest ->
    key_Sign key (mkSignOptions data false (Some o)) w =
    key_Sign key (mkSignOptions digest true (Some o)) w.
End signer.
Arguments signer K : clear implicits.
