(* ===== verification/GoAsn1.v ===== *)
(** * The DER subset of encoding/asn1 the repository uses

    Big-endian integers ([big.Int.SetBytes], [Bytes]), and DER INTEGER,
    SEQUENCE, OCTET STRING and OBJECT IDENTIFIER, as Go encodes and parses them:
    minimal lengths, no indefinite form, lengths below 2^23. *)
From S2P Require Import Prelude.

Local Open Scope Z_scope.

(** ** Big-endian integers *)

(** [new(big.Int).SetBytes(l)]. *)
Definition be_to_Z (l : bytes) : Z := fold_left (fun a b => a * 256 + byte_to_Z b) l 0.

Fixpoint be_digits (fuel : nat) (z : Z) (acc : bytes) : bytes :=
  match fuel with
  | O => acc
  | S fuel => if z =? 0 then acc else be_digits fuel (z / 256) (Z_to_byte z :: acc)
  end.

(** [z.Bytes()]: one byte of fuel per bit is more than enough. *)
Definition Z_to_be (z : Z) : bytes := be_digits (Z.to_nat (Z.log2 z + 1)) z [].

Lemma be_to_Z_acc l a :
  fold_left (fun a b => a * 256 + byte_to_Z b) l a = a * 256 ^ Z.of_nat (length l) + be_to_Z l.
Proof.
  unfold be_to_Z. revert a. induction l as [|b l IH]; intros a; cbn [fold_left length]; [lia|].
  rewrite IH. rewrite (IH (0 * 256 + byte_to_Z b)).
  rewrite Nat2Z.inj_succ, Z.pow_succ_r by lia. ring.
Qed.

Lemma be_to_Z_cons b l : be_to_Z (b :: l) = byte_to_Z b * 256 ^ Z.of_nat (length l) + be_to_Z l.
Proof. unfold be_to_Z at 1. cbn [fold_left]. rewrite be_to_Z_acc. ring. Qed.

Lemma be_to_Z_bound l : 0 <= be_to_Z l < 256 ^ Z.of_nat (length l).
Proof.
  induction l as [|b l IH]; [done|]. rewrite be_to_Z_cons. cbn [length].
  rewrite Nat2Z.inj_succ, Z.pow_succ_r by lia. pose proof (byte_to_Z_bound b). nia.
Qed.

Lemma be_digits_value fuel z acc :
  0 <= z < 256 ^ Z.of_nat fuel ->
  be_to_Z (be_digits fuel z acc) = z * 256 ^ Z.of_nat (length acc) + be_to_Z acc.
Proof.
  revert z acc. induction fuel as [|fuel IH]; intros z acc Hz.
  - simpl in *. assert (z = 0) as -> by lia. lia.
  - cbn [be_digits]. destruct (z =? 0) eqn:E; [apply Z.eqb_eq in E; subst; lia|].
    rewrite Nat2Z.inj_succ, Z.pow_succ_r in Hz by lia.
    rewrite IH by (split; [apply Z.div_pos; lia | apply Z.div_lt_upper_bound; lia]).
    rewrite be_to_Z_cons. cbn [length]. rewrite Nat2Z.inj_succ, Z.pow_succ_r by lia.
    assert (byte_to_Z (Z_to_byte z) = z mod 256) as ->.
    { rewrite <- (byte_to_Z_of_Z (z mod 256)) by (apply Z.mod_pos_bound; lia).
      unfold Z_to_byte. by rewrite Z.mod_mod. }
    pose proof (Z.div_mod z 256 ltac:(lia)) as Hd.
    set (q := z / 256) in *. set (r := z mod 256) in *. rewrite Hd. ring.
Qed.

Lemma be_fuel z : 0 <= z -> z < 256 ^ Z.of_nat (Z.to_nat (Z.log2 z + 1)).
Proof.
  intros H. pose proof (Z.log2_nonneg z). rewrite Z2Nat.id by lia.
  destruct (Z.eq_dec z 0) as [->|]; [done|].
  pose proof (proj2 (Z.log2_spec z ltac:(lia))) as Hl. unfold Z.succ in Hl.
  pose proof (Z.pow_le_mono_l 2 256 (Z.log2 z + 1) ltac:(lia)). lia.
Qed.

Lemma Z_to_be_value z : 0 <= z -> be_to_Z (Z_to_be z) = z.
Proof.
  intros H. unfold Z_to_be. rewrite be_digits_value; [simpl; unfold be_to_Z; simpl; lia|].
  split; [done | by apply be_fuel].
Qed.

Lemma be_digits_length fuel z acc n :
  z < 256 ^ Z.of_nat n -> 0 <= z -> (length (be_digits fuel z acc) <= n + length acc)%nat.
Proof.
  revert z acc n. induction fuel as [|fuel IH]; intros z acc n Hz H0; cbn [be_digits]; [lia|].
  destruct (z =? 0) eqn:E; [lia|]. apply Z.eqb_neq in E.
  destruct n as [|n]; [simpl in Hz; lia|].
  rewrite Nat2Z.inj_succ, Z.pow_succ_r in Hz by lia.
  assert (z / 256 < 256 ^ Z.of_nat n) by (apply Z.div_lt_upper_bound; lia).
  pose proof (IH (z / 256) (Z_to_byte z :: acc) n ltac:(done) ltac:(apply Z.div_pos; lia)) as H1.
  simpl in H1. lia.
Qed.

Lemma Z_to_be_length z n : 0 <= z < 256 ^ Z.of_nat n -> (length (Z_to_be z) <= n)%nat.
Proof.
  intros [H0 Hz]. unfold Z_to_be.
  pose proof (be_digits_length (Z.to_nat (Z.log2 z + 1)) z [] n Hz H0). simpl in *. lia.
Qed.

(** ** Tag, length, value *)

Definition der_len (n : nat) : bytes :=
  if (n <? 128)%nat then [Z_to_byte (Z.of_nat n)]
  else let b := Z_to_be (Z.of_nat n) in Z_to_byte (128 + Z.of_nat (length b)) :: b.

Definition der_tlv (tag : Z) (c : bytes) : bytes := Z_to_byte tag :: der_len (length c) ++ c.

Definition ErrAsn1 : error := ErrLeaf "asn1: structure or syntax error".

(** The length octets: short form, or long form with minimal octets. *)
Definition der_read_len (l : bytes) : outcome (nat * bytes) :=
  match l with
  | [] => Fail ErrAsn1
  | b :: l =>
      let b := byte_to_Z b in
      if b <? 128 then Ret (Z.to_nat b, l)
      else
        let k := Z.to_nat (b - 128) in
        let v := be_to_Z (take k l) in
        if (k =? 0)%nat || (length l <? k)%nat || bool_decide (head l = Some (Z_to_byte 0))
           || (v <? 128) || (2 ^ 23 <=? v)
        then Fail ErrAsn1 else Ret (Z.to_nat v, drop k l)
  end.

(** Read one element of the given tag: its contents and the remaining bytes. *)
Definition der_read (tag : Z) (l : bytes) : outcome (bytes * bytes) :=
  match l with
  | b :: l =>
      if byte_to_Z b =? tag then
        '(n, l) ← der_read_len l;
        if (length l <? n)%nat then Fail ErrAsn1 else Ret (take n l, drop n l)
      else Fail ErrAsn1
  | [] => Fail ErrAsn1
  end.

Lemma be_digits_head fuel z acc :
  0 < z < 256 ^ Z.of_nat fuel -> head (be_digits fuel z acc) <> Some (Z_to_byte 0).
Proof.
  revert z acc. induction fuel as [|fuel IH]; intros z acc Hz; [simpl in Hz; lia|].
  cbn [be_digits]. destruct (z =? 0) eqn:E; [apply Z.eqb_eq in E; lia|].
  rewrite Nat2Z.inj_succ, Z.pow_succ_r in Hz by lia.
  destruct (Z.eq_dec (z / 256) 0) as [H0|H0].
  - assert (be_digits fuel (z / 256) (Z_to_byte z :: acc) = Z_to_byte z :: acc) as ->.
    { rewrite H0. by destruct fuel. }
    intros Hs. assert (Hb : Z_to_byte z = Z_to_byte 0) by (cbn [head] in Hs; congruence).
    assert (z < 256) by (apply Z.div_small_iff in H0; lia).
    apply (f_equal byte_to_Z) in Hb. rewrite !byte_to_Z_of_Z in Hb; lia.
  - apply IH. assert (0 <= z / 256) by (apply Z.div_pos; lia). split; [lia|].
    apply Z.div_lt_upper_bound; lia.
Qed.

Lemma der_read_len_app n rest :
  Z.of_nat n < 2 ^ 23 -> der_read_len (der_len n ++ rest) = Ret (n, rest).
Proof.
  intros Hn. unfold der_len. destruct (Nat.ltb_spec n 128) as [H|H].
  - simpl. rewrite byte_to_Z_of_Z by lia.
    destruct (Z.ltb_spec (Z.of_nat n) 128); [|lia]. by rewrite Nat2Z.id.
  - set (b := Z_to_be (Z.of_nat n)).
    assert (Hl : (length b <= 3)%nat) by (apply Z_to_be_length; simpl; lia).
    assert (Hv : be_to_Z b = Z.of_nat n) by (apply Z_to_be_value; lia).
    assert (Hp : (0 < length b)%nat).
    { destruct b; [|simpl; lia]. unfold be_to_Z in Hv. simpl in Hv. lia. }
    assert (Hhd : head (b ++ rest) <> Some (Z_to_byte 0)).
    { assert (head b <> Some (Z_to_byte 0)).
      { apply be_digits_head. split; [lia|]. apply be_fuel. lia. }
      clearbody b. destruct b; [simpl in Hp; lia | done]. }
    cbn [app der_read_len]. rewrite byte_to_Z_of_Z by lia.
    destruct (Z.ltb_spec (128 + Z.of_nat (length b)) 128); [lia|].
    replace (Z.to_nat (128 + Z.of_nat (length b) - 128)) with (length b) by lia.
    rewrite take_app_length, drop_app_length, Hv, length_app.
    destruct (Nat.eqb_spec (length b) 0); [lia|].
    destruct (Nat.ltb_spec (length b + length rest) (length b)); [lia|].
    rewrite bool_decide_eq_false_2 by done.
    destruct (Z.ltb_spec (Z.of_nat n) 128); [lia|].
    destruct (Z.leb_spec (2 ^ 23) (Z.of_nat n)); [lia|]. simpl. by rewrite Nat2Z.id.
Qed.

Lemma der_read_tlv tag c rest :
  0 <= tag < 256 -> Z.of_nat (length c) < 2 ^ 23 ->
  der_read tag (der_tlv tag c ++ rest) = Ret (c, rest).
Proof.
  intros Ht Hc. unfold der_tlv. cbn [app der_read]. rewrite byte_to_Z_of_Z, Z.eqb_refl by done.
  rewrite <- app_assoc, der_read_len_app by done. cbn [mbind outcome_bind].
  destruct (Nat.ltb_spec (length (c ++ rest)) (length c)) as [H|_]; [rewrite length_app in H; lia|].
  by rewrite take_app_length, drop_app_length.
Qed.

(** ** INTEGER and SEQUENCE *)

(** The contents of a non-negative INTEGER: a zero byte keeps it positive. *)
Definition der_uint (z : Z) : bytes :=
  match Z_to_be z with
  | [] => [Z_to_byte 0]
  | b :: l => if 128 <=? byte_to_Z b then Z_to_byte 0 :: b :: l else b :: l
  end.

(** [asn1.Marshal(struct{ R, S *big.Int }{r, s})]. *)
Definition der_marshal_ints (r s : Z) : bytes :=
  der_tlv 48 (der_tlv 2 (der_uint r) ++ der_tlv 2 (der_uint s)).

(** The reading of such a structure, as a verifier does it. *)
Definition der_parse_ints (l : bytes) : outcome (Z * Z) :=
  '(body, rest) ← der_read 48 l;
  '(r, body) ← der_read 2 body;
  '(s, body) ← der_read 2 body;
  match rest, body with
  | [], [] => Ret (be_to_Z r, be_to_Z s)
  | _, _ => Fail ErrAsn1
  end.

Lemma der_uint_value z : 0 <= z -> be_to_Z (der_uint z) = z.
Proof.
  intros H. pose proof (Z_to_be_value z H) as Hv. unfold der_uint.
  destruct (Z_to_be z) as [|b l]; [done|]. destruct (128 <=? _); [|done].
  rewrite be_to_Z_cons, Hv. change (byte_to_Z (Z_to_byte 0)) with 0. lia.
Qed.

Lemma der_uint_length z n : 0 <= z < 256 ^ Z.of_nat n -> (length (der_uint z) <= n + 1)%nat.
Proof.
  intros H. pose proof (Z_to_be_length z n H) as Hl. unfold der_uint.
  destruct (Z_to_be z); [simpl; lia|]. destruct (128 <=? _); simpl in *; lia.
Qed.

Lemma der_tlv_length tag c : Z.of_nat (length c) < 2 ^ 23 ->
  (length (der_tlv tag c) <= 5 + length c)%nat.
Proof.
  intros H. unfold der_tlv, der_len. destruct (_ <? _)%nat; simpl; [lia|].
  pose proof (Z_to_be_length (Z.of_nat (length c)) 3 ltac:(simpl; lia)). rewrite length_app. lia.
Qed.

Lemma der_ints_roundtrip r s n :
  0 <= r < 256 ^ Z.of_nat n -> 0 <= s < 256 ^ Z.of_nat n -> Z.of_nat n < 2 ^ 20 ->
  der_parse_ints (der_marshal_ints r s) = Ret (r, s).
Proof.
  intros Hr Hs Hn. unfold der_parse_ints, der_marshal_ints.
  pose proof (der_uint_length r n Hr) as Lr. pose proof (der_uint_length s n Hs) as Ls.
  pose proof (der_tlv_length 2 (der_uint r) ltac:(lia)).
  pose proof (der_tlv_length 2 (der_uint s) ltac:(lia)).
  rewrite <- (app_nil_r (der_tlv 48 _)), der_read_tlv by (rewrite ?length_app; lia).
  cbn [mbind outcome_bind]. rewrite der_read_tlv by lia. cbn [mbind outcome_bind].
  rewrite <- (app_nil_r (der_tlv 2 (der_uint s))), der_read_tlv by lia. cbn [mbind outcome_bind].
  by rewrite !der_uint_value by lia.
Qed.

(** ** OCTET STRING and OBJECT IDENTIFIER *)

(** [asn1.Unmarshal(l, &b)] for a byte slice [b]. *)
Definition der_octets (l : bytes) : outcome (bytes * bytes) := der_read 4 l.

(** Base-128 digits, most significant first, all but the last marked. *)
Fixpoint base128_digits (fuel : nat) (z : Z) (acc : bytes) : bytes :=
  match fuel with
  | O => acc
  | S fuel =>
      let acc := Z_to_byte (z mod 128 + match acc with [] => 0 | _ => 128 end) :: acc in
      if z <? 128 then acc else base128_digits fuel (z / 128) acc
  end.

(** [asn1.Marshal] of an ObjectIdentifier; components fit 32 bits. *)
Definition der_marshal_oid (oid : list Z) : outcome bytes :=
  match oid with
  | a :: b :: rest =>
      if (a <? 0) || (2 <? a) || ((a <? 2) && (40 <=? b)) then Fail ErrAsn1
      else Ret (der_tlv 6 (concat (map (fun z => base128_digits 5 z []) (a * 40 + b :: rest))))
  | _ => Fail ErrAsn1
  end.

(** One base-128 number: not padded, at most [math.MaxInt32]. *)
Fixpoint parse_base128 (l : bytes) (acc : Z) (first : bool) (shifted : nat) : outcome (Z * bytes) :=
  match l with
  | [] => Fail ErrAsn1
  | b :: l =>
      let b := byte_to_Z b in
      if ((5 <=? shifted)%nat) || (first && (b =? 128)) then Fail ErrAsn1
      else
        let acc := acc * 128 + Z.land b 127 in
        if b <? 128 then if 2 ^ 31 <=? acc then Fail ErrAsn1 else Ret (acc, l)
        else parse_base128 l acc false (S shifted)
  end.

Fixpoint parse_oid (fuel : nat) (l : bytes) : outcome (list Z) :=
  match fuel, l with
  | _, [] => Ret []
  | O, _ => Fail ErrAsn1
  | S fuel, l => '(z, l) ← parse_base128 l 0 true 0; zs ← parse_oid fuel l; Ret (z :: zs)
  end.

(** [asn1.Unmarshal(l, &oid)]: every component takes at least one byte, so the
    length is enough fuel. *)
Definition der_oid (l : bytes) : outcome (list Z * bytes) :=
  '(c, rest) ← der_read 6 l;
  zs ← parse_oid (length c) c;
  match zs with
  | [] => Fail ErrAsn1
  | z :: zs =>
      Ret ((if z <? 80 then [z / 40; z mod 40] else [2; z - 80]) ++ zs, rest)
  end.
