(* ===== verification/KeyBuilder.v ===== *)
(** * Key templates

    kms/pkcs11/internal/keybuilder/keybuilder.go.  A builder method changes the
    builder it is called on and returns it, so it is a function from builder to
    builder.  Build iterates over Go maps; the orders taken are arguments. *)
From S2P Require Import Prelude P11 GoAsn1.

Local Open Scope Z_scope.

Record SecretBuilder := mkSecretBuilder { sb_mech : Mechanism; sb_temp : gmap Z any }.

Record PairBuilder := mkPairBuilder {
  pb_mech : Mechanism;
  pb_public : gmap Z any;
  pb_private : gmap Z any;
}.

Definition NewMechanism (mech : Z) (x : mech_param) : Mechanism := mkMechanism mech x.

Definition Secret (mech : Z) : SecretBuilder :=
  mkSecretBuilder (NewMechanism mech NoParam)
    (<[CKA_TOKEN := ABool true]> (<[CKA_SENSITIVE := ABool true]> ∅)).

Definition Pair (mech : Z) : PairBuilder :=
  mkPairBuilder (NewMechanism mech NoParam)
    (<[CKA_TOKEN := ABool true]> ∅)
    (<[CKA_TOKEN := ABool true]> (<[CKA_SENSITIVE := ABool true]> ∅)).

Definition Secret_Attribute (typ : Z) (x : any) (b : SecretBuilder) : SecretBuilder :=
  mkSecretBuilder (sb_mech b) (<[typ := x]> (sb_temp b)).

Definition PublicAttribute (typ : Z) (x : any) (b : PairBuilder) : PairBuilder :=
  mkPairBuilder (pb_mech b) (<[typ := x]> (pb_public b)) (pb_private b).

Definition PrivateAttribute (typ : Z) (x : any) (b : PairBuilder) : PairBuilder :=
  mkPairBuilder (pb_mech b) (pb_public b) (<[typ := x]> (pb_private b)).

Definition Secret_ID (id : string) : SecretBuilder -> SecretBuilder :=
  Secret_Attribute CKA_ID (AStr id).

Definition Secret_Label (label : string) : SecretBuilder -> SecretBuilder :=
  Secret_Attribute CKA_LABEL (AStr label).

Definition Pair_ID (id : string) (b : PairBuilder) : PairBuilder :=
  mkPairBuilder (pb_mech b) (<[CKA_ID := AStr id]> (pb_public b)) (<[CKA_ID := AStr id]> (pb_private b)).

Definition Pair_Label (label : string) (b : PairBuilder) : PairBuilder :=
  mkPairBuilder (pb_mech b) (<[CKA_LABEL := AStr label]> (pb_public b))
    (<[CKA_LABEL := AStr label]> (pb_private b)).

Definition AES (bytes : Z) : SecretBuilder :=
  Secret_Attribute CKA_SENSITIVE (ABool true) (Secret_Attribute CKA_DECRYPT (ABool true)
    (Secret_Attribute CKA_ENCRYPT (ABool true)
      (Secret_Attribute CKA_VALUE_LEN (AInt bytes) (Secret CKM_AES_KEY_GEN)))).

Definition RSA (bits : Z) : PairBuilder :=
  PrivateAttribute CKA_SENSITIVE (ABool true) (PrivateAttribute CKA_DECRYPT (ABool true)
    (PrivateAttribute CKA_SIGN (ABool true) (PublicAttribute CKA_ENCRYPT (ABool true)
      (PublicAttribute CKA_VERIFY (ABool true) (PublicAttribute CKA_MODULUS_BITS (AInt bits)
        (Pair CKM_RSA_PKCS_KEY_PAIR_GEN)))))).

Definition CurveP224 : list Z := [1; 3; 132; 0; 33].

Definition CurveP256 : list Z := [1; 2; 840; 10045; 3; 1; 7].

Definition CurveP384 : list Z := [1; 3; 132; 0; 34].

Definition CurveP521 : list Z := [1; 3; 132; 0; 35].

(** A curve that does not marshal panics. *)
Definition EC (curve : list Z) : outcome PairBuilder :=
  match der_marshal_oid curve with
  | Ret b =>
      Ret (PrivateAttribute CKA_SENSITIVE (ABool true) (PrivateAttribute CKA_DECRYPT (ABool true)
        (PrivateAttribute CKA_SIGN (ABool true) (PublicAttribute CKA_ENCRYPT (ABool true)
          (PublicAttribute CKA_VERIFY (ABool true) (PublicAttribute CKA_EC_PARAMS (ABytes (Some b))
            (Pair CKM_EC_KEY_PAIR_GEN)))))))
  | _ => Panic
  end.

Section build.
Context `{P : Pkcs11}.

(** The loop over one template's map. *)
Definition template (entries : list (Z * any)) : list Attribute :=
  (fun kv => NewAttribute kv.1 kv.2) <$> entries.

Definition Secret_Build (order : gmap Z any -> list (Z * any)) (b : SecretBuilder) :
    Mechanism * list Attribute :=
  (sb_mech b, template (order (sb_temp b))).

Definition Pair_Build (order : gmap Z any -> list (Z * any)) (b : PairBuilder) :
    Mechanism * list Attribute * list Attribute :=
  (pb_mech b, template (order (pb_public b)), template (order (pb_private b))).

(** What the library promises of an attribute: it keeps its type. *)
Context (NewAttribute_Type : forall t x, at_Type (NewAttribute t x) = t).
Context (order : gmap Z any -> list (Z * any)) (order_perm : forall m, order m ≡ₚ map_to_list m).

(** a built secret template lists every attribute type once, whatever the
    iteration order, with the value of the last call that set it: setting an
    attribute, an ID or a label on a builder shows in the template and leaves
    the other attributes alone. *)
Theorem template_last_write (b : SecretBuilder) typ x :
  let t := (Secret_Build order (Secret_Attribute typ x b)).2 in
  NoDup (at_Type <$> t) /\ NewAttribute typ x ∈ t /\
  forall a, a ∈ t <-> a = NewAttribute typ x \/
    exists typ' x', typ' <> typ /\ sb_temp b !! typ' = Some x' /\ a = NewAttribute typ' x'.
Proof.
  cbn zeta. unfold Secret_Build, template. cbn [snd Secret_Attribute sb_temp].
  set (m := <[typ := x]> (sb_temp b)).
  assert (Hin : forall a, a ∈ (fun kv => NewAttribute kv.1 kv.2) <$> order m <->
    a = NewAttribute typ x \/
    exists typ' x', typ' <> typ /\ sb_temp b !! typ' = Some x' /\ a = NewAttribute typ' x').
  { intros a. rewrite list_elem_of_fmap. setoid_rewrite order_perm. split.
    - intros ([t' x'] & -> & H). apply elem_of_map_to_list in H. simpl.
      apply lookup_insert_Some in H as [[-> ->]|[Hne H]]; [by left|]. right. by exists t', x'.
    - intros [->|(t' & x' & Hne & H & ->)].
      + exists (typ, x). split; [done|]. apply elem_of_map_to_list. unfold m. by rewrite lookup_insert_eq.
      + exists (t', x'). split; [done|]. apply elem_of_map_to_list. unfold m. by rewrite lookup_insert_ne. }
  split_and!; [|apply Hin; by left|done].
  rewrite <- list_fmap_compose. rewrite (list_fmap_ext _ fst) by (intros ? [] ?; apply NewAttribute_Type).
  rewrite order_perm. apply NoDup_fst_map_to_list.
Qed.
End build.

Section witnesses.
#[local] Existing Instance toy_p11.

Lemma template_last_write_witness :
  NewAttribute CKA_LABEL (AStr "k") ∈ (Secret_Build map_to_list (Secret_Label "k" (AES 32))).2.
Proof.
  refine (proj1 (proj2 (template_last_write (P := toy_p11) _ map_to_list _ (AES 32) CKA_LABEL (AStr "k"))));
    done.
Defined.
End witnesses.
