(* ===== verification/Pkcs11Keys.v ===== *)
(** * Keys on a PKCS#11 token

    kms/pkcs11: pkcs11.go (parsing, key lookup), aes.go, ec.go and rsa.go.  The
    world is the session pool's state together with the cells of the cached
    public keys.  AES-GCM on the token, and the RSA and ECDSA primitives of the
    Go library, are parameters. *)
From S2P Require Import Prelude GoText GoEncoding GoAsn1 Crypto P11 Sessions KeyBuilder Kms.

Local Open Scope Z_scope.

(** ** Parsing and printing *)

Fixpoint le_to_Z (l : bytes) : Z :=
  match l with [] => 0 | b :: l => byte_to_Z b + 256 * le_to_Z l end.

(** [binary.NativeEndian] on a little-endian, 64-bit platform. *)
Definition bytesToUint (value : slice) : outcome Z :=
  let l := content value in
  match length l with
  | 1%nat | 2%nat | 4%nat | 8%nat => Ret (le_to_Z l)
  | n => Fail (ErrLeaf (String.append "cannot convert byte slice of length "
           (String.append (FormatUint (Z.of_nat n)) " to uint")))
  end.

Definition parseMechanism (s : string) : outcome (option Z) :=
  if String.eqb s "" then Ret None else
  let t := TrimPrefix (ReplaceAll (ToLower s) "_" "-") "ckm-" in
  if String.eqb t "aes-gcm" then Ret (Some CKM_AES_GCM)
  else if String.eqb t "ecdsa" then Ret (Some CKM_ECDSA)
  else if String.eqb t "rsa-pkcs-pss" then Ret (Some CKM_RSA_PKCS_PSS)
  else if String.eqb t "rsa-pkcs-oaep" then Ret (Some CKM_RSA_PKCS_OAEP)
  else mech ← ParseUint0 s 32; Ret (Some mech).

Definition mechToString (mech : Z) : string :=
  if mech =? CKM_AES_GCM then "CKM_AES_GCM"
  else if mech =? CKM_ECDSA then "CKM_ECDSA"
  else if mech =? CKM_RSA_PKCS_PSS then "CKM_RSA_PKCS_PSS"
  else if mech =? CKM_RSA_PKCS_OAEP then "CKM_RSA_PKCS_OAEP"
  else String.append "Unknown (" (String.append (FormatHex mech) ")").

Definition parseOAEPHash (s : string) : outcome Z :=
  let t := ToLower s in
  if String.eqb t "" then Ret SHA256
  else if String.eqb t "sha1" then Ret SHA1
  else if String.eqb t "sha224" then Ret SHA224
  else if String.eqb t "sha256" then Ret SHA256
  else if String.eqb t "sha384" then Ret SHA384
  else if String.eqb t "sha512" then Ret SHA512
  else Fail (ErrLeaf (String.append "unsupported mechanism: " (quoted s))).

Definition classToString (class : Z) : string :=
  if class =? CKO_PRIVATE_KEY then "CKO_PRIVATE_KEY"
  else if class =? CKO_PUBLIC_KEY then "CKO_PUBLIC_KEY"
  else if class =? CKO_SECRET_KEY then "CKO_SECRET_KEY"
  else String.append "unknown (" (String.append (FormatHex class) ")").

Definition keyTypeToString (keytype : Z) : string :=
  if keytype =? CKK_RSA then "CKK_RSA"
  else if keytype =? CKK_AES then "CKK_AES"
  else if keytype =? CKK_EC then "CKK_EC"
  else String.append "unknown (" (String.append (FormatHex keytype) ")").

(** [fmt.Errorf("parse %s: %w", what, err)] and the like. *)
Definition Errorf (parts : list string) : error := ErrLeaf (String.concat "" parts).

Definition P224 : string := "P-224".
Definition P256 : string := "P-256".
Definition P384 : string := "P-384".
Definition P521 : string := "P-521".

Definition curveFromOID (v : bytes) : outcome string :=
  '(oid, rest) ← der_oid v;
  match rest with
  | _ :: _ => Fail (ErrLeaf "unexpected data remaining unmarshaling CKA_EC_PARAMS")
  | [] =>
      if decide (oid = CurveP224) then Ret P224
      else if decide (oid = CurveP256) then Ret P256
      else if decide (oid = CurveP384) then Ret P384
      else if decide (oid = CurveP521) then Ret P521
      else Fail (ErrLeaf "unknown elliptic curve")
  end.

Definition curveFromLiteral (v : bytes) : outcome string :=
  if decide (v = bytes_of_string "secp224r1") then Ret P224
  else if decide (v = bytes_of_string "secp256r1") then Ret P256
  else if decide (v = bytes_of_string "secp384r1") then Ret P384
  else if decide (v = bytes_of_string "secp521r1") then Ret P521
  else Fail (ErrLeaf "unknown elliptic curve").

(** ** Public-key primitives of the Go library *)
Class PublicCrypto := {
  ParseUncompressedPublicKey : string -> bytes -> outcome PublicKey;
  ecdsa_VerifyASN1 : PublicKey -> bytes -> bytes -> bool;
  (* hash, randomness, key, message *)
  rsa_EncryptOAEP : Z -> bytes -> PublicKey -> bytes -> outcome slice;
  (* key, hash, digest, signature, salt length, the hash of the options *)
  rsa_VerifyPSS : PublicKey -> Z -> bytes -> bytes -> Z -> Z -> option error;
}.

Definition PSSSaltLengthAuto : Z := 0.

Definition PSSSaltLengthEqualsHash : Z := -1.

Definition rsaLookup : list (Z * (Z * Z)) :=
  [(SHA1, (CKM_SHA_1, CKG_MGF1_SHA1)); (SHA224, (CKM_SHA224, CKG_MGF1_SHA224));
   (SHA256, (CKM_SHA256, CKG_MGF1_SHA256)); (SHA384, (CKM_SHA384, CKG_MGF1_SHA384));
   (SHA512, (CKM_SHA512, CKG_MGF1_SHA512))].

Definition rsa_lookup (h : Z) : option (Z * Z) := snd <$> find (fun r => fst r =? h) rsaLookup.

(** ** Objects and keys *)

Record object := mkObject { ob_handle : Z; ob_class : Z; ob_keytype : Z }.

(** [onceOrCancel]'s cell: whether a result is stored, and the result. *)
Record cell := mkCell { ce_done : bool; ce_ret : outcome PublicKey }.

(** The key types; [public] of an EC or RSA key is a cell of the world. *)
Inductive key :=
| aesKey (handle : Z)
| ecKey (pubHandle prvHandle : Z) (public : nat)
| rsaKey (pubHandle prvHandle : Z) (public : nat) (mech : option Z) (oaepHash : Z)
    (disableSoftwareEncryption : bool).

Definition aesGcmTagSize : Z := 16.

Definition aesGcmNonceSize : nat := 12.

(** [context.Canceled]. *)
Definition Canceled : string := "context canceled".

Section keys.
Context `{P : Pkcs11} {SemaState : Type} `{M : Sema SemaState} `{PC : PublicCrypto} `{HS : Hashes}.
Context (ctx slot : Z).

Record kworld := mkKworld { kw_sess : sess SemaState; kw_cells : list cell }.

Definition in_sess {A} (m : prog (sess SemaState) A) : prog kworld A :=
  zoom kw_sess (fun x w => mkKworld x (kw_cells w)) m.

(** [session.Scope]. *)
Definition scope {A} (f : Handle -> prog (sess SemaState) A) : prog kworld A :=
  in_sess (Scope ctx slot f).

Definition new_cell : prog kworld nat := fun w =>
  (Ret (length (kw_cells w)),
   mkKworld (kw_sess w) (kw_cells w ++ [mkCell false (Fail (ErrLeaf ""))])).

(** The function onceOrCancel returns, for the cell [i]. *)
Definition onceOrCancel (f : prog (sess SemaState) PublicKey) (i : nat) : prog kworld PublicKey :=
  w ← get;
  match kw_cells w !! i with
  | None => lift Panic
  | Some c =>
      if ce_done c then lift (ce_ret c)
      else
        o ← attempt (in_sess f);
        match o with
        | Panic => lift Panic
        | _ =>
            let done := negb (match o with Fail e => errors_Is Canceled e | _ => false end) in
            _ ← modify (fun w => mkKworld (kw_sess w) (<[i := mkCell done o]> (kw_cells w)));
            lift o
        end
  end.

(** ** Key lookup *)

(** Index into a Go slice. *)
Definition index {A} (l : list A) (i : nat) : outcome A :=
  match l !! i with Some x => Ret x | None => Panic end.

Definition err_result {A} (o : outcome A) : option error := err_of o.

Fixpoint read_objects (s : Handle) (handles : list Z) : prog (sess SemaState) (list object) :=
  match handles with
  | [] => lift (Ret [])
  | handle :: handles =>
      attrs ← h_GetAttributeValue ctx s handle
                [NewAttribute CKA_CLASS (AInt 0); NewAttribute CKA_KEY_TYPE (AInt 0)];
      a0 ← lift (index attrs 0);
      class ← lift (map_err (wrapf "parse CKA_CLASS") (bytesToUint (at_Value a0)));
      a1 ← lift (index attrs 1);
      keytype ← lift (map_err (wrapf "parse CKA_KEY_TYPE") (bytesToUint (at_Value a1)));
      objs ← read_objects s handles;
      lift (Ret (mkObject handle class keytype :: objs))
  end.

Definition find_objects (s : Handle) (temp : list Attribute) (limit : Z) :
    prog (sess SemaState) (list object) :=
  init ← attempt (h_FindObjectsInit ctx s temp);
  match init with Panic => lift Panic | _ =>
  found ← attempt (h_FindObjects ctx s limit);
  match found with Panic => lift Panic | _ =>
  final ← attempt (h_FindObjectsFinal ctx s);
  match final with Panic => lift Panic | _ =>
  match errors_Join [err_of init; err_of found; err_of final], found with
  | Some errs, _ => lift (Fail errs)
  | None, Ret (h :: handles) => read_objects s (h :: handles)
  | None, _ => lift (Fail (ErrLeaf "no objects found"))
  end end end end.

Definition newAES (o : object) (mech : option Z) : outcome key :=
  let m := default CKM_AES_GCM mech in
  if m =? CKM_AES_GCM then Ret (aesKey (ob_handle o))
  else Fail (Errorf ["unsupported AES key mechanism: "; FormatHex m]).

Definition newSymmetric (o : object) (mech : option Z) : outcome key :=
  if ob_keytype o =? CKK_AES then newAES o mech
  else Fail (Errorf ["unsupported symmetric key type: "; keyTypeToString (ob_keytype o)]).

(** The cell is made when the key is. *)
Definition newEC (public private : object) (mech : option Z) : prog kworld key :=
  let m := default CKM_ECDSA mech in
  if m =? CKM_ECDSA then i ← new_cell; lift (Ret (ecKey (ob_handle public) (ob_handle private) i))
  else lift (Fail (Errorf ["unsupported EC key mechanism: "; FormatHex m])).

Definition newRSA (public private : object) (mech : option Z) (oaepHash : Z)
    (disableSoftwareEncryption : bool) : prog kworld key :=
  match mech with
  | Some m =>
      if (m =? CKM_RSA_PKCS_PSS) || (m =? CKM_RSA_PKCS_OAEP) then lift (Ret tt)
      else lift (Fail (Errorf ["unsupported RSA key mechanism: "; FormatHex m]))
  | None => lift (Ret tt)
  end ≫= fun _ =>
  i ← new_cell;
  lift (Ret (rsaKey (ob_handle public) (ob_handle private) i mech oaepHash
               disableSoftwareEncryption)).

Definition newAsymmetric (public private : object) (mech : option Z) (oaepHash : Z)
    (disableSoftwareEncryption : bool) : prog kworld key :=
  if ob_keytype public =? CKK_EC then newEC public private mech
  else if ob_keytype public =? CKK_RSA
  then newRSA public private mech oaepHash disableSoftwareEncryption
  else lift (Fail (Errorf ["unsupported asymmetric key type: "; keyTypeToString (ob_keytype public)])).

Definition key_template (id : bytes) (label : string) : list Attribute :=
  (if Nat.eqb (length id) 0 then [] else [NewAttribute CKA_ID (ABytes (Some id))]) ++
  (if String.eqb label "" then [] else [NewAttribute CKA_LABEL (AStr label)]).

(** What resolveKey's callback finds: a secret key, or a pair. *)
Definition lookup_key (s : Handle) (temp : list Attribute) :
    prog (sess SemaState) (object + object * object) :=
  objs ← find_objects s temp 2;
  match objs with
  | [o] =>
      if ob_class o =? CKO_SECRET_KEY then lift (Ret (inl o))
      else if ob_class o =? CKO_PRIVATE_KEY then
        attr ← h_GetAttributeValue ctx s (ob_handle o) [NewAttribute CKA_ID (AInt 0)];
        a0 ← lift (index attr 0);
        if Nat.eqb (slen (at_Value a0)) 0
        then lift (Fail (ErrLeaf "private key has no CKA_ID, cannot find matching public key"))
        else
          pubs ← find_objects s
            [NewAttribute CKA_CLASS (AInt CKO_PUBLIC_KEY); NewAttribute CKA_KEY_TYPE (AInt (ob_keytype o));
             NewAttribute CKA_ID (ABytes (at_Value a0))] 1;
          pub ← lift (index pubs 0);
          lift (Ret (inr (pub, o)))
      else lift (Fail (Errorf ["expected CKO_SECRET_KEY or CKO_PRIVATE_KEY but got ";
                               classToString (ob_class o)]))
  | o0 :: o1 :: _ =>
      pair ← lift
        (if (ob_class o0 =? CKO_PUBLIC_KEY) && (ob_class o1 =? CKO_PRIVATE_KEY) then Ret (o0, o1)
         else if (ob_class o0 =? CKO_PRIVATE_KEY) && (ob_class o1 =? CKO_PUBLIC_KEY) then Ret (o1, o0)
         else Fail (Errorf ["expected CKO_PRIVATE_KEY and CKO_PUBLIC_KEY pair but got ";
                            classToString (ob_class o0); " and "; classToString (ob_class o1)]));
      if negb (ob_keytype pair.1 =? ob_keytype pair.2)
      then lift (Fail (Errorf ["private key of type "; keyTypeToString (ob_keytype pair.2);
                               " does not match public key of type ";
                               keyTypeToString (ob_keytype pair.1)]))
      else lift (Ret (inr pair))
  | [] => lift Panic
  end.

(** The constructors run inside the scope in the code; they touch no session,
    so they run after it here, and their error is the callback's. *)
Definition resolveKey (id : bytes) (label : string) (mech : option Z) (oaepHash : Z)
    (disableSoftwareEncryption : bool) : prog kworld key :=
  r ← scope (fun s => lookup_key s (key_template id label));
  match r with
  | inl o => lift (newSymmetric o mech)
  | inr (public, private) => newAsymmetric public private mech oaepHash disableSoftwareEncryption
  end.

(** ** AES *)

Definition aes_Encrypt (handle : Z) (opts : CipherOptions) : prog kworld slice :=
  scope (fun s =>
    nonce ← on_err (wrapf "generate nonce") (h_GenerateRandom ctx s (Z.of_nat aesGcmNonceSize));
    let params := GCMParams nonce (co_AAD opts) (aesGcmTagSize * 8) in
    _ ← h_EncryptInit ctx s (NewMechanism CKM_AES_GCM params) handle;
    ciphertext ← h_Encrypt ctx s (co_Data opts);
    iv ← in_lib (GCM_IV ctx (h_session s) params);
    lift (Ret (match iv with
               | Some iv => Some (iv ++ content ciphertext)
               | None => to_slice (content ciphertext)
               end))).

(** The slices of [opts.Data] panic on less than a nonce (its capacity taken to
    be its length). *)
Definition aes_Decrypt (handle : Z) (opts : CipherOptions) : prog kworld slice :=
  scope (fun s =>
    if Nat.ltb (slen (co_Data opts)) aesGcmNonceSize then lift Panic else
    let params := GCMParams (Some (take aesGcmNonceSize (content (co_Data opts)))) (co_AAD opts)
                    (aesGcmTagSize * 8) in
    _ ← h_DecryptInit ctx s (NewMechanism CKM_AES_GCM params) handle;
    h_Decrypt ctx s (Some (drop aesGcmNonceSize (content (co_Data opts))))).

(** ** EC *)

(** The two attributes a public key is exported from. *)
Definition export_attributes (pubHandle t0 t1 : Z) (x0 x1 : any) :
    prog (sess SemaState) (bytes * bytes) :=
  attr ← on_err (wrapf "export public key")
    (Scope ctx slot (fun s =>
      h_GetAttributeValue ctx s pubHandle [NewAttribute t0 x0; NewAttribute t1 x1]));
  a0 ← lift (index attr 0);
  a1 ← lift (index attr 1);
  lift (Ret (content (at_Value a0), content (at_Value a1))).

Definition ec_exportPublic (pubHandle : Z) : prog (sess SemaState) PublicKey :=
  '(a0, a1) ← export_attributes pubHandle CKA_EC_PARAMS CKA_EC_POINT (AInt 0) (AInt 0);
  curve ← lift (match curveFromOID a0 with
                | Ret c => Ret c
                | _ => map_err (wrapf "export public key") (curveFromLiteral a0)
                end);
  '(point, rest) ← lift (der_octets a1);
  match rest with
  | _ :: _ => lift (Fail (ErrLeaf
      "export public key: unexpected data remaining unmarshaling CKA_EC_POINT"))
  | [] => lift (ParseUncompressedPublicKey curve point)
  end.

(** The hash a Sign or Verify call asks for, and the digest it works on. *)
Definition message_digest (prehashed : bool) (data : slice) (hash : Z) : outcome slice :=
  if prehashed then Ret data else hash_New_Sum hash data.

Definition ec_digest (opts : option SignerOpts) (prehashed : bool) (data : slice) : outcome slice :=
  hash ← opts_HashFunc opts;
  if hash =? Hash0 then Fail (ErrLeaf "need hash function")
  else message_digest prehashed data hash.

(** A raw PKCS#11 signature is r and s side by side; the result is their DER. *)
Definition ec_encode (raw : slice) : outcome slice :=
  let l := content raw in
  if Nat.eqb (length l) 0 || negb (Nat.eqb (length l mod 2) 0)
  then Fail (Errorf ["invalid ECDSA signature length: "; FormatUint (Z.of_nat (length l))])
  else
    let mid := Nat.div (length l) 2 in
    Ret (Some (der_marshal_ints (be_to_Z (take mid l)) (be_to_Z (drop mid l)))).

Definition sign_raw (mech : Mechanism) (prvHandle : Z) (data : slice) : prog kworld slice :=
  scope (fun s => _ ← h_SignInit ctx s mech prvHandle; h_Sign ctx s data).

Definition ec_Sign (prvHandle : Z) (opts : SignOptions) : prog kworld slice :=
  data ← lift (ec_digest (so_SignerOpts opts) (so_Prehashed opts) (so_Data opts));
  raw ← sign_raw (NewMechanism CKM_ECDSA NoParam) prvHandle data;
  lift (ec_encode raw).

Definition ec_public (pubHandle : Z) (public : nat) : prog kworld PublicKey :=
  onceOrCancel (ec_exportPublic pubHandle) public.

Definition ec_Verify (pubHandle : Z) (public : nat) (opts : VerifyOptions) : prog kworld unit :=
  data ← lift (ec_digest (vo_SignerOpts opts) (vo_Prehashed opts) (vo_Data opts));
  pub ← ec_public pubHandle public;
  if ecdsa_VerifyASN1 pub (content data) (content (vo_Signature opts))
  then lift (Ret tt) else lift (Fail ErrInvalidSignature).

(** ** RSA *)

Definition BitLen (z : Z) : Z := if z =? 0 then 0 else Z.log2 z + 1.

(** The sanity checks on the exported parameters. *)
Definition rsa_check (n e : Z) : outcome PublicKey :=
  if negb (1 <? n) then Fail (ErrLeaf "modulus is less than one")
  else if negb (1 <? e) then Fail (ErrLeaf "exponent is less than one")
  else if negb (e <? n) then Fail (ErrLeaf "modulus is not greater than exponent")
  else if 32 <? BitLen e then Fail (ErrLeaf "exponent is longer than 32 bits")
  else if BitLen n <? 2048 then Fail (ErrLeaf "modulus is shorter than 2048 bits")
  else Ret (PubRSA n e).

Definition rsa_exportPublic (pubHandle : Z) : prog (sess SemaState) PublicKey :=
  '(a0, a1) ← export_attributes pubHandle CKA_MODULUS CKA_PUBLIC_EXPONENT (ABytes None) (ABytes None);
  lift (map_err (wrapf "export public key") (rsa_check (be_to_Z a0) (be_to_Z a1))).

Definition rsa_public (pubHandle : Z) (public : nat) : prog kworld PublicKey :=
  onceOrCancel (rsa_exportPublic pubHandle) public.

(** The check of a pinned mechanism. *)
Definition rsa_pinned (mech : option Z) (want : Z) (what : string) : outcome unit :=
  match mech with
  | Some m => if m =? want then Ret tt else Fail (Errorf [what; FormatHex m])
  | None => Ret tt
  end.

(** A hash outside the table reads the zero row. *)
Definition rsa_oaep (oaepHash : Z) : Mechanism :=
  let '(hash, mgf) := default (0, 0) (rsa_lookup oaepHash) in
  NewMechanism CKM_RSA_PKCS_OAEP (OAEPParams hash mgf CKZ_DATA_SPECIFIED None).

(** [rnd]: the randomness of a software encryption. *)
Definition rsa_Encrypt (rnd : bytes) (pubHandle : Z) (public : nat) (mech : option Z)
    (oaepHash : Z) (disableSoftwareEncryption : bool) (opts : CipherOptions) : prog kworld slice :=
  _ ← lift (rsa_pinned mech CKM_RSA_PKCS_OAEP "unsupported mode: ");
  if negb disableSoftwareEncryption then
    pub ← rsa_public pubHandle public;
    lift (rsa_EncryptOAEP oaepHash rnd pub (content (co_Data opts)))
  else
    scope (fun s =>
      _ ← h_EncryptInit ctx s (rsa_oaep oaepHash) pubHandle;
      h_Encrypt ctx s (co_Data opts)).

Definition rsa_Decrypt (prvHandle : Z) (mech : option Z) (oaepHash : Z) (opts : CipherOptions) :
    prog kworld slice :=
  _ ← lift (rsa_pinned mech CKM_RSA_PKCS_OAEP "unsupported mode: ");
  scope (fun s =>
    _ ← h_DecryptInit ctx s (rsa_oaep oaepHash) prvHandle;
    h_Decrypt ctx s (co_Data opts)).

(** The PSS mechanism for a Sign call, with the refusals before it. *)
Definition rsa_pss (hash : Z) (o : option SignerOpts) : outcome Mechanism :=
  match rsa_lookup hash with
  | None => Fail (Errorf ["unsupported hash function: "; hash_String hash])
  | Some (h, mgf) =>
      if h =? CKM_SHA_1 then Fail (ErrLeaf "SHA-1 PSS signing is unsupported")
      else
        match o with
        | Some (SPSS salt _) =>
            if (salt =? PSSSaltLengthAuto) || (salt =? PSSSaltLengthEqualsHash) then
              size ← hash_Size hash;
              Ret (NewMechanism CKM_RSA_PKCS_PSS (PSSParams h mgf size))
            else Fail (ErrLeaf "custom PSS salt lengths are not supported")
        | _ => Fail (ErrLeaf "PKCS#1 v1.5 signing is not implemented")
        end
  end.

Definition rsa_Sign (prvHandle : Z) (mech : option Z) (opts : SignOptions) : prog kworld slice :=
  _ ← lift (rsa_pinned mech CKM_RSA_PKCS_PSS "unsupported scheme: ");
  hash ← lift (opts_HashFunc (so_SignerOpts opts));
  m ← lift (rsa_pss hash (so_SignerOpts opts));
  data ← lift (message_digest (so_Prehashed opts) (so_Data opts) hash);
  sign_raw m prvHandle data.

Definition rsa_Verify (pubHandle : Z) (public : nat) (mech : option Z) (opts : VerifyOptions) :
    prog kworld unit :=
  _ ← lift (rsa_pinned mech CKM_RSA_PKCS_PSS "unsupported scheme: ");
  hash ← lift (opts_HashFunc (vo_SignerOpts opts));
  if hash =? Hash0 then lift (Fail (ErrLeaf "need hash function")) else
  data ← lift (message_digest (vo_Prehashed opts) (vo_Data opts) hash);
  pub ← rsa_public pubHandle public;
  match vo_SignerOpts opts with
  | Some (SPSS salt h) =>
      match rsa_VerifyPSS pub hash (content data) (content (vo_Signature opts)) salt h with
      | None => lift (Ret tt)
      | Some err => lift (Fail (ErrNode
          (String.append (err_msg ErrInvalidSignature) (String.append ": " (err_msg err)))
          [ErrInvalidSignature; err]))
      end
  | _ => lift (Fail (ErrLeaf "PKCS#1 v1.5 verification is not implemented"))
  end.

(** ** The Key interface of the three types *)

Definition p11_Encrypt (rnd : bytes) (k : key) (opts : CipherOptions) : prog kworld slice :=
  match k with
  | aesKey h => aes_Encrypt h opts
  | ecKey _ _ _ => lift (Fail ErrNotImplemented)
  | rsaKey pub _ c mech oaep soft => rsa_Encrypt rnd pub c mech oaep soft opts
  end.

Definition p11_Decrypt (k : key) (opts : CipherOptions) : prog kworld slice :=
  match k with
  | aesKey h => aes_Decrypt h opts
  | ecKey _ _ _ => lift (Fail ErrNotImplemented)
  | rsaKey _ prv _ mech oaep _ => rsa_Decrypt prv mech oaep opts
  end.

Definition p11_Sign (k : key) (opts : SignOptions) : prog kworld slice :=
  match k with
  | aesKey _ => lift (Fail ErrNotImplemented)
  | ecKey _ prv _ => ec_Sign prv opts
  | rsaKey _ prv _ mech _ _ => rsa_Sign prv mech opts
  end.

Definition p11_Verify (k : key) (opts : VerifyOptions) : prog kworld unit :=
  match k with
  | aesKey _ => lift (Fail ErrNotImplemented)
  | ecKey pub _ c => ec_Verify pub c opts
  | rsaKey pub _ c mech _ _ => rsa_Verify pub c mech opts
  end.

Definition p11_ExportPublic (k : key) : prog kworld PublicKey :=
  match k with
  | aesKey _ => lift (Fail ErrNotImplemented)
  | ecKey pub _ c => ec_public pub c
  | rsaKey pub _ c _ _ _ => rsa_public pub c
  end.

(** ** Properties *)

Context {L : SemaLaws SemaState M} {T : Pkcs11Total P}.

(** AES-GCM on the token: whatever was encrypted under the returned IV is
    decrypted, with the same additional data, in every state and session in which
    the object still holds its key and may be used ([usable]: the session is open
    and logged in, no other operation is under way in it, and the object's
    attributes permit decryption). *)
Definition token_gcm_law (usable : p11 -> Z -> Prop) (o : Z) : Prop :=
  forall h iv aad data l0 l1 l2 l3 c iv',
    C_EncryptInit ctx h (NewMechanism CKM_AES_GCM (GCMParams iv aad 128)) o l0 = (Ret tt, l1) ->
    C_Encrypt ctx h data l1 = (Ret c, l2) ->
    GCM_IV ctx h (GCMParams iv aad 128) l2 = (Ret iv', l3) ->
    length (content iv') = 12%nat /\
    forall l4 h', usable l4 h' -> exists l5 l6 p,
      C_DecryptInit ctx h' (NewMechanism CKM_AES_GCM (GCMParams (Some (content iv')) aad 128)) o l4
        = (Ret tt, l5) /\
      C_Decrypt ctx h' (Some (content c)) l5 = (Ret p, l6) /\ content p = content data.

Lemma call_Ret {A} op (m : prog p11 A) (s s' : sess SemaState) a :
  call op m s = (Ret a, s') -> exists l, m (se_lib s) = (Ret a, l) /\
    s' = mkSess l (se_sema s) (se_closed s).
Proof.
  unfold call. rewrite on_err_Ret. unfold in_lib, zoom.
  destruct (m (se_lib s)) as [o l]. intros [= -> <-]. eauto.
Qed.

Lemma in_lib_Ret {A} (m : prog p11 A) (s s' : sess SemaState) a :
  in_lib m s = (Ret a, s') -> exists l, m (se_lib s) = (Ret a, l) /\
    s' = mkSess l (se_sema s) (se_closed s).
Proof. unfold in_lib, zoom. destruct (m (se_lib s)) as [o l]. intros [= -> <-]. eauto. Qed.

Lemma Scope_Ret {A} (f : Handle -> prog (sess SemaState) A) s a s' :
  Scope ctx slot f s = (Ret a, s') ->
  exists h s1 s2, Get ctx slot s = (Ret h, s1) /\ f h s1 = (Ret a, s2).
Proof.
  unfold Scope. rewrite pbind_Ret. intros (h & s1 & Hg & H). rewrite attempt_bind in H.
  rewrite attempt_bind in H. exists h, s1. destruct (f h s1) as [o s2]. simpl in H. exists s2.
  split; [done|]. destruct (fst (Handle_Close _ _ _)); unfold lift in H; congruence.
Qed.

Lemma scope_run {A} (f : Handle -> prog (sess SemaState) A) w :
  scope f w = (fst (Scope ctx slot f (kw_sess w)),
               mkKworld (snd (Scope ctx slot f (kw_sess w))) (kw_cells w)).
Proof. unfold scope, in_sess, zoom. by destruct (Scope ctx slot f (kw_sess w)). Qed.

Lemma call_run {A} op (m : prog p11 A) (s : sess SemaState) a l :
  m (se_lib s) = (Ret a, l) -> call op m s = (Ret a, mkSess l (se_sema s) (se_closed s)).
Proof. intros H. unfold call, on_err, in_lib, zoom. by rewrite H. Qed.

(** an AES key on the token round-trips: if Encrypt returned a ciphertext,
    Decrypt with the same additional data returns the data, in any later state
    in which a session can be opened that can use the key. *)
Theorem aes_roundtrip usable o data aad c w w' w2 h2 s7 :
  token_gcm_law usable o ->
  aes_Encrypt o (mkCipherOptions data aad) w = (Ret c, w') ->
  sess_inv (kw_sess w2) -> Get ctx slot (kw_sess w2) = (Ret h2, s7) ->
  usable (se_lib s7) (h_session h2) ->
  exists p, fst (aes_Decrypt o (mkCipherOptions c aad) w2) = Ret p /\ content p = content data.
Proof.
  intros Hlaw He I2 Eg Hus. unfold aes_Encrypt in He. rewrite scope_run in He.
  injection He as He _. destruct (Scope ctx slot _ (kw_sess w)) as [o' s'] eqn:Es. simpl in He. subst o'.
  apply Scope_Ret in Es as (h & s1 & s2 & Hg & Hf). simpl in Hf.
  apply pbind_Ret in Hf as (nonce & s3 & _ & Hf).
  apply pbind_Ret in Hf as ([] & s4 & Hi & Hf). apply call_Ret in Hi as (l1 & Hi & ->).
  apply pbind_Ret in Hf as (ct & s5 & Hc & Hf). apply call_Ret in Hc as (l2 & Hc & ->).
  apply pbind_Ret in Hf as (iv & s6 & Hiv & Hf). apply in_lib_Ret in Hiv as (l3 & Hiv & ->).
  unfold lift in Hf. injection Hf as <- _.
  destruct (Hlaw (h_session h) nonce aad data (se_lib s3) l1 l2 l3 ct iv Hi Hc Hiv)
    as [Hlen Hdec].
  set (c := match iv with Some iv => _ | None => _ end).
  assert (Hcc : content c = content iv ++ content ct).
  { unfold c. destruct iv; [done|]. apply content_to_slice. }
  destruct (Hdec (se_lib s7) (h_session h2) Hus) as (l5 & l6 & p & Hd1 & Hd2 & Hp). exists p. split; [|done].
  unfold aes_Decrypt. rewrite scope_run. cbn [fst co_Data co_AAD].
  unfold slen. rewrite Hcc, length_app, Hlen. cbn [Nat.ltb Nat.leb Nat.add aesGcmNonceSize].
  rewrite take_app_length', drop_app_length' by done.
  rewrite (Scope_outcome _ _ _ _ h2 s7); [|intros h0; apply frames_bind; [apply frames_call|
    intros; apply frames_call]|done|done].
  erewrite pbind_run by (apply call_run; exact Hd1). unfold h_Decrypt.
  by erewrite call_run by exact Hd2.
Qed.

(** Decrypt on an AES key panics on data shorter than a nonce, once a
    session is open. *)
Theorem aes_Decrypt_short_panics o opts w :
  (slen (co_Data opts) < 12)%nat -> sess_inv (kw_sess w) ->
  is_ret (fst (Get ctx slot (kw_sess w))) = true ->
  fst (aes_Decrypt o opts w) = Panic.
Proof.
  intros Hl I Hg. destruct (Get ctx slot (kw_sess w)) as [[h| |] s1] eqn:Eg; try done.
  unfold aes_Decrypt. rewrite scope_run. cbn [fst].
  destruct (Nat.ltb_spec (slen (co_Data opts)) aesGcmNonceSize); [|unfold aesGcmNonceSize in *; lia].
  by rewrite (Scope_outcome _ _ _ _ h s1) by done.
Qed.

(** C37: an ECDSA signature is returned in DER. When Sign succeeds, the token
    has signed the digest, its raw signature consists of two halves of the same
    non-zero length, and the result parses back to the two, read as big-endian
    integers (for halves below 2^20 bytes; those of P-521 have 66). And hashing
    in the key is handing over the digest: for an available hash, Sign of data
    that is not yet hashed is Sign of its hash as a digest, on every outcome. *)
Theorem ec_Sign_der prv opts w :
  (forall sig w', ec_Sign prv opts w = (Ret sig, w') ->
   exists digest raw,
    ec_digest (so_SignerOpts opts) (so_Prehashed opts) (so_Data opts) = Ret digest /\
    sign_raw (NewMechanism CKM_ECDSA NoParam) prv digest w = (Ret raw, w') /\
    exists r s, content raw = r ++ s /\ length r = length s /\ length r <> 0%nat /\
      (Z.of_nat (length r) < 2 ^ 20 ->
       der_parse_ints (content sig) = Ret (be_to_Z r, be_to_Z s))) /\
  (forall data so hash, opts_HashFunc so = Ret hash -> hash <> Hash0 -> hash_Available hash = true ->
    ec_Sign prv (mkSignOptions data false so) w =
    ec_Sign prv (mkSignOptions (Some (hash_Sum hash (content data))) true so) w).
Proof.
  split; cycle 1.
  { intros data so hash Hh H0 Ha. unfold ec_Sign, ec_digest, message_digest, hash_New_Sum.
    cbn [so_SignerOpts so_Prehashed so_Data]. rewrite Hh. cbn [mbind outcome_bind].
    by rewrite (proj2 (Z.eqb_neq _ _) H0), Ha. }
  intros sig w'. unfold ec_Sign. intros H. apply pbind_Ret in H as (digest & w1 & Hd & H).
  unfold lift in Hd. injection Hd as Hd <-.
  apply pbind_Ret in H as (raw & w2 & Hr & H). unfold lift in H. injection H as H <-.
  exists digest, raw. split; [done|]. split; [done|].
  unfold ec_encode in H. destruct (_ || _) eqn:E; [done|]. injection H as <-.
  apply orb_false_iff in E as [E0 E1]. apply Nat.eqb_neq in E0.
  apply negb_false_iff, Nat.eqb_eq in E1.
  set (l := content raw) in *. set (mid := Nat.div (length l) 2).
  assert (Hl : length l = (2 * mid)%nat).
  { pose proof (Nat.div_mod_eq (length l) 2). unfold mid. lia. }
  assert (Ht : length (take mid l) = mid) by (rewrite length_take; lia).
  exists (take mid l), (drop mid l). rewrite Ht, length_drop, take_drop.
  split; [done|]. split; [lia|]. split; [lia|]. intros Hlen.
  apply (der_ints_roundtrip _ _ mid); [| |done].
  - pose proof (be_to_Z_bound (take mid l)) as B. by rewrite Ht in B.
  - pose proof (be_to_Z_bound (drop mid l)) as B. rewrite length_drop in B.
    by replace (length l - mid)%nat with mid in B by lia.
Qed.

(** a public key is exported once: after an export that stored its result,
    every later call returns that result without touching the session pool;
    only an error wrapping [context.Canceled] is not stored. *)
Theorem onceOrCancel_stores f i w o w' f' w2 :
  onceOrCancel f i w = (o, w') -> o <> Panic -> kw_cells w2 !! i = kw_cells w' !! i ->
  (match o with Fail e => errors_Is Canceled e | _ => false end) = false ->
  onceOrCancel f' i w2 = (o, w2).
Proof.
  unfold onceOrCancel. rewrite !get_bind. intros H Hp Hc Hcan. rewrite Hc. clear Hc.
  destruct (kw_cells w !! i) as [c|] eqn:Ec; [|unfold lift in H; by simplify_eq].
  destruct (ce_done c) eqn:Ed; [unfold lift in H; injection H as <- <-; by rewrite Ec, Ed|].
  rewrite attempt_bind in H. unfold in_sess, zoom in H.
  destruct (f (kw_sess w)) as [o' s']. simpl in H.
  assert (Hlt : (i < length (kw_cells w))%nat) by (apply lookup_lt_is_Some; eauto).
  destruct o'; rewrite ?modify_bind in H; unfold lift in H; simplify_eq; simpl;
    rewrite list_lookup_insert_eq by done; simpl; [done|by rewrite Hcan].
Qed.
End keys.
Arguments kworld {P} SemaState.
Arguments mkKworld {P SemaState}.

(** ** Witnesses *)

Definition toy_hashes : Hashes := {|
  hash_Available h := Z.leb 3 h && Z.leb h 7;
  hash_Sum h l := take 32 (l ++ repeat "h"%char 32);
|}.

Definition toy_public : PublicCrypto := {|
  ParseUncompressedPublicKey c p := Ret (PubECDSA c p);
  ecdsa_VerifyASN1 k d s := true;
  rsa_EncryptOAEP h r k m := Ret (Some m);
  rsa_VerifyPSS k h d s l h' := None;
|}.

Section witnesses.
#[local] Existing Instance toy_p11.
#[local] Existing Instance toy_total.
#[local] Existing Instance toy_hashes.
#[local] Existing Instance seq_sema.
#[local] Existing Instance demo_laws.

Definition demo_kworld : kworld (P := toy_p11) Semaphore.state :=
  mkKworld (P := toy_p11) demo_sess [mkCell false (Fail (ErrLeaf ""))].

#[local] Opaque toy_gcm.

Definition toy_usable (l : p11) (h : Z) : Prop := h ∈ ty_open l.

Lemma toy_token_gcm : token_gcm_law (P := toy_p11) 1 toy_usable 7.
Proof.
  intros h iv aad data l0 l1 l2 l3 c iv'. cbn.
  unfold toy_start. destruct (bool_decide (h ∈ ty_open l0)) eqn:Eh; [|done]. cbn.
  destruct (Nat.eqb_spec (slen iv) 12) as [Hl|]; [|done].
  intros [= <-]. unfold toy_crypt. cbn. rewrite Eh. cbn. intros [= <- <-]. intros [= <- _].
  split; [exact Hl|]. intros l4 h' Hh'. unfold toy_usable in Hh'.
  apply (bool_decide_eq_true (h' ∈ ty_open l4)) in Hh'.
  eexists _, _, (Some (content data)). split.
  - cbn. rewrite Hh'. cbn. unfold slen in *. rewrite Hl. reflexivity.
  - split; [|reflexivity]. cbn [C_Decrypt toy_p11]. unfold toy_crypt. cbn [ty_op ty_open NewMechanism].
    rewrite Hh'. cbn [negb]. change (content (Some ?x)) with x.
    rewrite (gcm_open_seal (AesGcmLaws := toy_gcm_laws)) by exact Hl. reflexivity.
Qed.

Definition demo_opts : CipherOptions := mkCipherOptions (Some ["a"%char; "b"%char]) None.

Definition demo_encrypted : outcome slice * kworld (P := toy_p11) Semaphore.state :=
  aes_Encrypt 1 5 7 demo_opts demo_kworld.

Lemma aes_roundtrip_witness : exists c p,
  fst demo_encrypted = Ret c /\
  fst (aes_Decrypt 1 5 7 (mkCipherOptions c None) demo_kworld) = Ret p /\
  content p = ["a"%char; "b"%char].
Proof.
  destruct (fst demo_encrypted) as [c| |] eqn:E; [|by vm_compute in E..].
  assert (Eo : match fst (Get 1 5 (kw_sess demo_kworld)) with
    | Ret h => bool_decide (h_session h ∈ ty_open (se_lib (snd (Get 1 5 (kw_sess demo_kworld)))))
    | _ => false
    end = true) by (by vm_compute).
  destruct (Get 1 5 (kw_sess demo_kworld)) as [[h2| |] s7] eqn:Eg; [|done..].
  apply bool_decide_eq_true in Eo. rename Eo into Hus.
  destruct (aes_roundtrip 1 5 toy_usable 7 (Some ["a"%char; "b"%char]) None c demo_kworld (snd demo_encrypted)
    demo_kworld h2 s7) as (p & H1 & H2).
  - apply toy_token_gcm.
  - rewrite <- E. unfold demo_encrypted, demo_opts. apply surjective_pairing.
  - apply demo_sess_inv.
  - exact Eg.
  - exact Hus.
  - by exists c, p.
Defined.

Lemma aes_Decrypt_short_panics_witness :
  fst (aes_Decrypt 1 5 7 (mkCipherOptions (Some ["x"%char]) None) demo_kworld) = Panic.
Proof.
  refine (aes_Decrypt_short_panics 1 5 7 _ demo_kworld _ demo_sess_inv _); [unfold slen; simpl; lia | by vm_compute].
Defined.

Definition demo_sign : outcome slice * kworld (P := toy_p11) Semaphore.state :=
  ec_Sign 1 5 7 (mkSignOptions (Some ["m"%char]) false (Some (SHash SHA256))) demo_kworld.

Lemma ec_Sign_der_witness : exists sig digest raw,
  fst demo_sign = Ret sig /\
  sign_raw 1 5 (NewMechanism CKM_ECDSA NoParam) 7 digest demo_kworld = (Ret raw, snd demo_sign) /\
  demo_sign = ec_Sign 1 5 7
    (mkSignOptions (Some (hash_Sum SHA256 ["m"%char])) true (Some (SHash SHA256))) demo_kworld.
Proof.
  destruct (fst demo_sign) as [sig| |] eqn:E; [|by vm_compute in E..].
  destruct (ec_Sign_der 1 5 7 (mkSignOptions (Some ["m"%char]) false (Some (SHash SHA256)))
    demo_kworld) as (H1 & H2).
  destruct (H1 sig (snd demo_sign)) as (digest & raw & Hd & Hs & _);
    [rewrite <- E; apply surjective_pairing|].
  exists sig, digest, raw. split; [done|]. split; [done|].
  by apply (H2 (Some ["m"%char]) (Some (SHash SHA256)) SHA256).
Defined.

Definition demo_export : prog (sess (P := toy_p11) Semaphore.state) PublicKey :=
  lift (Fail (ErrSentinel "context deadline exceeded")).

Lemma onceOrCancel_stores_witness :
  let w := snd (onceOrCancel demo_export 0 demo_kworld) in
  onceOrCancel (lift (Ret (PubOther 0))) 0 w = (Fail (ErrSentinel "context deadline exceeded"), w).
Proof.
  apply (onceOrCancel_stores demo_export 0 demo_kworld _ (snd (onceOrCancel demo_export 0 demo_kworld))); done.
Defined.
End witnesses.
