(* ===== verification/Pkcs11Kms.v ===== *)
(** * The PKCS#11 KMS and wrapper

    kms/pkcs11: Open, Close and GetKey of pkcs11.go, and wrapper.go.  Both are
    clients of the layers below (modules, session pools, key resolution), which
    they use through the interface [Stack].  Decoding a configuration map into a
    struct is mapstructure's, hence a parameter. *)
From S2P Require Import Prelude GoText GoEncoding Wrapping Kms P11 Modules Pkcs11Keys.

Local Open Scope Z_scope.

(** ** The layers below

    Module references, pool references and keys are numbers or values of a world
    [W]; the laws count the references that are live. *)
Class Stack (W K : Type) := {
  module_Open : string -> prog W nat;
  module_GetToken : nat -> list TokenSelector -> prog W Token;
  module_Drop : nat -> prog W unit;
  session_Login : nat -> Token -> string -> prog W nat;
  session_Drop : nat -> prog W unit;
  (* pool, id, label, mechanism, OAEP hash, software encryption disabled *)
  stack_resolveKey : nat -> bytes -> string -> option Z -> Z -> bool -> prog W K;
  stack_Encrypt : K -> CipherOptions -> prog W slice;
  stack_Decrypt : K -> CipherOptions -> prog W slice;
}.

Record resources := mkResources { rs_modules : gset nat; rs_pools : gset nat }.

Class StackLaws (W K : Type) (T : Stack W K) := {
  live : W -> resources;
  law_Open path w : wp (module_Open path) (fun o w' => match o with
    | Ret r => r ∉ rs_modules (live w) /\
        live w' = mkResources ({[ r ]} ∪ rs_modules (live w)) (rs_pools (live w))
    | _ => live w' = live w
    end) w;
  law_GetToken r sel w : wp (module_GetToken r sel) (fun _ w' => live w' = live w) w;
  (** A live reference is dropped whatever the library answers. *)
  law_Drop r w : r ∈ rs_modules (live w) -> wp (module_Drop r) (fun o w' =>
    live w' = mkResources (rs_modules (live w) ∖ {[ r ]}) (rs_pools (live w))) w;
  law_Login r tok pin w : wp (session_Login r tok pin) (fun o w' => match o with
    | Ret p => p ∉ rs_pools (live w) /\
        live w' = mkResources (rs_modules (live w)) ({[ p ]} ∪ rs_pools (live w))
    | _ => live w' = live w
    end) w;
  law_DropPool p w : p ∈ rs_pools (live w) -> wp (session_Drop p) (fun o w' =>
    live w' = mkResources (rs_modules (live w)) (rs_pools (live w) ∖ {[ p ]})) w;
  law_resolveKey p id label mech h soft w :
    wp (stack_resolveKey p id label mech h soft) (fun _ w' => live w' = live w) w;
  law_Encrypt k o w : wp (stack_Encrypt k o) (fun _ w' => live w' = live w) w;
  law_Decrypt k o w : wp (stack_Decrypt k o) (fun _ w' => live w' = live w) w;
}.

(** ** Configuration *)

Record token_cfg := mkTokenCfg {
  tc_Lib : string;
  tc_Slot : option Z;
  tc_Serial : string;
  tc_TokenLabel : string;
  tc_PIN : string;
  tc_DisableSoftwareEncryption : bool;
}.

Record objkey_cfg := mkObjkeyCfg {
  kc_ID : string;
  kc_Label : string;
  kc_Mechanism : string;
  kc_RSAOAEPHash : string;
}.

(** The wrapper's struct has the fields of both. *)
Record wrapper_cfg := mkWrapperCfg { pc_token : token_cfg; pc_key : objkey_cfg }.

Definition selectors_of (cfg : token_cfg) : list TokenSelector :=
  match tc_Slot cfg with Some slot => [SelectID slot] | None => [] end ++
  (if String.eqb (tc_Serial cfg) "" then [] else [SelectSerial (tc_Serial cfg)]) ++
  (if String.eqb (tc_TokenLabel cfg) "" then [] else [SelectLabel (tc_TokenLabel cfg)]).

(** An alias wins; a plain path is allowed only with the environment. *)
Definition resolve_lib (aliases : gmap string string) (allow : bool) (lib : string) : outcome string :=
  match aliases !! lib with
  | Some path => Ret path
  | None => if allow then Ret lib
            else Fail (ErrLeaf (String.append "unknown library alias: " (quoted lib)))
  end.

(** [errors.Join(err, d)] beside an error [err]. *)
Definition join_errors (err : error) (d : option error) : error :=
  default err (errors_Join [Some err; d]).

Section clients.
Context {W K : Type} `{T : Stack W K}.

(** Run a function that fails with [err] after a deferred or explicit [d]. *)
Definition fail_after {A} (err : error) (d : prog W unit) : prog W A :=
  o ← attempt d;
  match o with Panic => lift Panic | _ => lift (Fail (join_errors err (err_of o))) end.

(** [module.Open], then [GetToken], dropping the module when there is none. *)
Definition open_token (lib : string) (selectors : list TokenSelector) : prog W (nat * Token) :=
  m ← module_Open lib;
  o ← attempt (module_GetToken m selectors);
  match o with
  | Ret token => mret (m, token)
  | Fail err => fail_after err (module_Drop m)
  | Panic => lift Panic
  end.

(** *** The KMS *)
Context (decode_token : ConfigMap -> outcome token_cfg) (decode_objkey : ConfigMap -> outcome objkey_cfg).

Record pkcs11KMS := mkPkcs11KMS {
  pk_mod : option nat;
  pk_token : option Token;
  pk_pool : option nat;
  pk_disableSoftwareEncryption : bool;
  pk_aliases : gmap string string;
}.


Definition NewWithAliases (aliases : gmap string string) : pkcs11KMS :=
  mkPkcs11KMS None None None false aliases.

Definition in_stack {A} (m : prog W A) : prog (pkcs11KMS * W) A :=
  zoom snd (fun w p => (fst p, w)) m.



Definition GetKey (opts : KeyOptions) : prog (pkcs11KMS * W) K :=
  p ← get;
  cfg ← lift (decode_objkey (ko_ConfigMap opts));
  if String.eqb (kc_ID cfg) "" && String.eqb (kc_Label cfg) ""
  then lift (Fail (ErrLeaf "must set one of 'id', 'label'"))
  else
    keyID ← lift (map_err (wrapf "parse 'id'") (hex_DecodeString (TrimPrefix (kc_ID cfg) "0x")));
    mech ← lift (map_err (wrapf "parse 'mechanism'") (parseMechanism (kc_Mechanism cfg)));
    oaepHash ← lift (map_err (wrapf "parse 'rsa_oaep_hash'") (parseOAEPHash (kc_RSAOAEPHash cfg)));
    match pk_pool (fst p) with
    | None => lift Panic
    | Some pool => in_stack (stack_resolveKey pool keyID (kc_Label cfg) mech oaepHash
                               (pk_disableSoftwareEncryption (fst p)))
    end.

(** *** The wrapper *)

(** mapstructure's strict decoding of the map and its weak decoding of one
    string; the variables of the environment; how fmt prints the loop's struct. *)
Context (decode_wrapper : gmap string string -> outcome wrapper_cfg)
  (weak_string : string -> outcome string) (weak_slot : string -> outcome (option Z))
  (weak_bool : string -> outcome bool)
  (ReadBaoVariable : string -> string) (print_env : string -> string)
  (ParsePath : string -> string * option error).

Record pkcs11Wrapper := mkPkcs11Wrapper {
  pw_logger : option nat;
  pw_mod : option nat;
  pw_token : option Token;
  pw_pin : string;
  pw_keyID : string;
  pw_keyLabel : string;
  pw_mechanism : option Z;
  pw_oaepHash : Z;
  pw_disableSoftwareEncryption : bool;
  pw_aliases : gmap string string;
}.

Definition NewWrapperWithAliases (aliases : gmap string string) : pkcs11Wrapper :=
  mkPkcs11Wrapper None None None "" "" "" None 0 false aliases.

Definition NewWrapper : pkcs11Wrapper := NewWrapperWithAliases ∅.

Definition with_token (f : token_cfg -> token_cfg) (c : wrapper_cfg) : wrapper_cfg :=
  mkWrapperCfg (f (pc_token c)) (pc_key c).

Definition with_key (f : objkey_cfg -> objkey_cfg) (c : wrapper_cfg) : wrapper_cfg :=
  mkWrapperCfg (pc_token c) (f (pc_key c)).

(** The table of variables, with the field each replaces. *)
Definition env_table : list (string * (string -> wrapper_cfg -> outcome wrapper_cfg)) :=
  let str (set : string -> wrapper_cfg -> wrapper_cfg) v c := s ← weak_string v; Ret (set s c) in
  [("BAO_HSM_LIB", str (fun s => with_token (fun t => mkTokenCfg s (tc_Slot t) (tc_Serial t)
      (tc_TokenLabel t) (tc_PIN t) (tc_DisableSoftwareEncryption t))));
   ("BAO_HSM_SLOT", fun v c => s ← weak_slot v; Ret (with_token (fun t => mkTokenCfg (tc_Lib t) s
      (tc_Serial t) (tc_TokenLabel t) (tc_PIN t) (tc_DisableSoftwareEncryption t)) c));
   ("BAO_HSM_SERIAL", str (fun s => with_token (fun t => mkTokenCfg (tc_Lib t) (tc_Slot t) s
      (tc_TokenLabel t) (tc_PIN t) (tc_DisableSoftwareEncryption t))));
   ("BAO_HSM_TOKEN_LABEL", str (fun s => with_token (fun t => mkTokenCfg (tc_Lib t) (tc_Slot t)
      (tc_Serial t) s (tc_PIN t) (tc_DisableSoftwareEncryption t))));
   ("BAO_HSM_PIN", str (fun s => with_token (fun t => mkTokenCfg (tc_Lib t) (tc_Slot t)
      (tc_Serial t) (tc_TokenLabel t) s (tc_DisableSoftwareEncryption t))));
   ("BAO_HSM_KEY_ID", str (fun s => with_key (fun k => mkObjkeyCfg s (kc_Label k)
      (kc_Mechanism k) (kc_RSAOAEPHash k))));
   ("BAO_HSM_KEY_LABEL", str (fun s => with_key (fun k => mkObjkeyCfg (kc_ID k) s
      (kc_Mechanism k) (kc_RSAOAEPHash k))));
   ("BAO_HSM_MECHANISM", str (fun s => with_key (fun k => mkObjkeyCfg (kc_ID k) (kc_Label k)
      s (kc_RSAOAEPHash k))));
   ("BAO_HSM_RSA_OAEP_HASH", str (fun s => with_key (fun k => mkObjkeyCfg (kc_ID k) (kc_Label k)
      (kc_Mechanism k) s)));
   ("BAO_HSM_DISABLE_SOFTWARE_ENCRYPTION", fun v c => b ← weak_bool v;
      Ret (with_token (fun t => mkTokenCfg (tc_Lib t) (tc_Slot t) (tc_Serial t) (tc_TokenLabel t)
        (tc_PIN t) b) c))].

Fixpoint merge_env (table : list (string * (string -> wrapper_cfg -> outcome wrapper_cfg)))
    (c : wrapper_cfg) : outcome wrapper_cfg :=
  match table with
  | [] => Ret c
  | (name, decode) :: table =>
      let v := ReadBaoVariable name in
      c ← (if String.eqb v "" then Ret c
           else map_err (wrapf (String.append "decode " (print_env name))) (decode v c));
      merge_env table c
  end.

(** The struct after the environment and the PIN's reference. *)
Definition wrapper_config (disallow : bool) (m : gmap string string) : outcome wrapper_cfg :=
  c ← decode_wrapper m;
  if disallow then Ret c
  else
    c ← merge_env env_table c;
    match ParsePaths ParsePath [Some 0%nat] {[ 0%nat := tc_PIN (pc_token c) ]} with
    | (Ret _, st) => Ret (with_token (fun t => mkTokenCfg (tc_Lib t) (tc_Slot t) (tc_Serial t)
        (tc_TokenLabel t) (default "" (st !! 0%nat)) (tc_DisableSoftwareEncryption t)) c)
    | (Fail e, _) => Fail e
    | (Panic, _) => Panic
    end.

Definition if_set (k v : string) (m : gmap string string) : gmap string string :=
  if String.eqb v "" then m else <[k := v]> m.

Definition metadata (cfg : wrapper_cfg) (mech : option Z) (oaepHash : Z) : gmap string string :=
  let t := pc_token cfg in
  let m : gmap string string := {[ "lib" := tc_Lib t ]} in
  let m := match tc_Slot t with Some slot => <["slot" := Itoa slot]> m | None => m end in
  let m := if_set "token_label" (tc_TokenLabel t) (if_set "serial" (tc_Serial t) m) in
  let m := match mech with Some mech => <["mechanism" := mechToString mech]> m | None => m end in
  if oaepHash =? Hash0 then m else <["rsa_oaep_hash" := hash_String oaepHash]> m.

Definition SetConfig {L} (null_logger : nat) (opt : list (Opt L)) :
    prog (pkcs11Wrapper * W) WrapperConfig :=
  p ← get;
  opts ← lift (GetOpts opt);
  let disallow := WithDisallowEnvVars_ (o_RPC opts) in
  cfg ← lift (wrapper_config disallow (WithConfigMap_ (o_RPC opts)));
  let t := pc_token cfg in let k := pc_key cfg in
  if String.eqb (tc_Lib t) "" then lift (Fail (ErrLeaf "missing required parameter 'lib'"))
  else if String.eqb (kc_ID k) "" && String.eqb (kc_Label k) ""
  then lift (Fail (ErrLeaf "must set one of 'key_id', 'key_label'"))
  else match selectors_of t with
  | [] => lift (Fail (ErrLeaf "at least one of 'slot', 'serial', 'token_label' is required"))
  | selectors =>
      mech ← lift (map_err (wrapf "parse 'mechanism'") (parseMechanism (kc_Mechanism k)));
      oaepHash ← lift (map_err (wrapf "parse 'rsa_oaep_hash'") (parseOAEPHash (kc_RSAOAEPHash k)));
      lib ← lift (resolve_lib (pw_aliases (fst p)) (negb disallow) (tc_Lib t));
      mt ← zoom snd (fun w (p : pkcs11Wrapper * W) => (fst p, w)) (open_token lib selectors);
      _ ← modify (fun p => (mkPkcs11Wrapper
            (match o_Logger opts with None => Some null_logger | l => l end)
            (Some mt.1) (Some mt.2) (tc_PIN t) (TrimPrefix (kc_ID k) "0x") (kc_Label k)
            mech oaepHash (tc_DisableSoftwareEncryption t) (pw_aliases (fst p)), snd p));
      mret (mkWrapperConfig (metadata cfg mech oaepHash))
  end.

Definition Finalize (x : pkcs11Wrapper) : prog W unit :=
  match pw_mod x with None => lift Panic | Some m => module_Drop m end.

Definition Type_ : outcome string := Ret "pkcs11".

Definition KeyId (x : pkcs11Wrapper) : string :=
  String.append (pw_keyLabel x) (String ":" (pw_keyID x)).

(** The identifier and label a call uses: the wrapper's, or those of a blob. *)
Definition select_key (x : pkcs11Wrapper) (info : option KeyInfo) : outcome (string * string) :=
  match info with
  | None => Ret (pw_keyID x, pw_keyLabel x)
  | Some info =>
      match cut_last (ki_KeyId info) ":" with
      | None => Fail (ErrLeaf "blob has invalid key ID format")
      | Some (label, id) => Ret (id, label)
      end
  end.

(** A pool for the time of one call; its Drop is deferred, and its error only
    logged. *)
Definition with_ {A} (x : pkcs11Wrapper) (info : option KeyInfo) (f : K -> prog W A) : prog W A :=
  match pw_mod x, pw_token x with
  | Some m, Some token =>
      pool ← session_Login m token (pw_pin x);
      o ← attempt (
        s ← lift (select_key x info);
        parsedID ← lift (map_err (wrapf "parse 'key_id'") (hex_DecodeString s.1));
        key ← stack_resolveKey pool parsedID s.2 (pw_mechanism x) (pw_oaepHash x)
                (pw_disableSoftwareEncryption x);
        f key);
      d ← attempt (session_Drop pool);
      match d with Panic => lift Panic | _ => lift o end
  | _, _ => lift Panic
  end.

Definition Encrypt (x : pkcs11Wrapper) (plaintext : slice) : prog W BlobInfo :=
  with_ x None (fun key =>
    ciphertext ← stack_Encrypt key (mkCipherOptions plaintext None);
    mret (mkBlobInfo ciphertext None (Some (mkKeyInfo 0 (KeyId x) None)))).

Definition Decrypt (x : pkcs11Wrapper) (in_ : option BlobInfo) : prog W slice :=
  match in_ with
  | None => lift Panic
  | Some in_ =>
      with_ x (bi_KeyInfo in_) (fun key =>
        stack_Decrypt key (mkCipherOptions (append_slice (bi_Iv in_) (bi_Ciphertext in_)) None))
  end.
End clients.

(** ** Facts *)
Section facts.
Context {W K : Type} `{T : Stack W K, !StackLaws W K T}.

Lemma wp_same {A} (m : prog W A) (Q : outcome A -> W -> Prop) w :
  wp m (fun _ w' => live w' = live w) w ->
  (forall o w', live w' = live w -> Q o w') -> wp m Q w.
Proof. intros Hm HQ. eapply wp_mono; [|exact Hm]. intros o w' Hl. by apply HQ. Qed.




Lemma wp_with {A} (x : pkcs11Wrapper) info (f : K -> prog W A) (w : W) :
  (forall k w, wp (f k) (fun _ w' => live w' = live w) w) ->
  wp (with_ x info f) (fun _ w' => live w' = live w) w.
Proof.
  intros Hf. unfold with_. destruct (pw_mod x) as [m|], (pw_token x) as [tok|]; try done.
  rewrite wp_bind. eapply wp_mono; [|apply law_Login].
  intros [p|e|] w1 H1; [|done..]. destruct H1 as [Hp H1].
  rewrite wp_bind, wp_attempt.
  match goal with |- wp ?m _ _ => assert (Hm : forall w, wp m (fun _ w' => live w' = live w) w) end.
  { intros w0. rewrite wp_bind, wp_lift. destruct (select_key x info) as [s|e|]; [|done..].
    rewrite wp_bind, wp_lift. destruct (map_err _ _) as [id|e|]; [|done..].
    rewrite wp_bind. apply (wp_same _ _ _ (law_resolveKey _ _ _ _ _ _ w0)).
    intros [k|e|] w' Hl; [|done..]. rewrite <- Hl. apply Hf. }
  apply (wp_same _ _ _ (Hm w1)). intros o w2 H2. rewrite wp_bind, wp_attempt.
  eapply wp_mono; [|apply (law_DropPool p)].
  - intros d w3 H3. assert (live w3 = live w).
    { rewrite H3, H2, H1. simpl. destruct (live w) as [ms ps]. simpl in *. f_equal. set_solver. }
    by destruct d.
  - rewrite H2, H1. simpl. set_solver.
Qed.
End facts.

(** A call that succeeds has run its function on some key. *)
Lemma with_Ret {W K A} `{T : Stack W K} x info (f : K -> prog W A) w a w' :
  with_ x info f w = (Ret a, w') -> exists k w1 w2, f k w1 = (Ret a, w2).
Proof.
  unfold with_. destruct (pw_mod x) as [m|], (pw_token x) as [tok|]; try done.
  intros (p & w1 & _ & He)%pbind_Ret.
  apply pbind_Ret in He as (o & w2 & Ho & He). apply pbind_Ret in He as (d & w3 & _ & He).
  assert (o = Ret a) as -> by (destruct d; [injection He as He _; exact He..|discriminate He]).
  unfold attempt in Ho.
  match type of Ho with (let (_, _) := ?r in _) = _ => destruct r as [o w4] eqn:Hr end.
  injection Ho as -> ->.
  apply pbind_Ret in Hr as (s & w5 & _ & Hr). apply pbind_Ret in Hr as (i & w6 & _ & Hr).
  apply pbind_Ret in Hr as (k & w7 & _ & Hr). eauto.
Qed.

(** The key identifiers a wrapper hands out are read back: the label may contain
    colons, the identifier (a hexadecimal string) may not. *)
Lemma select_own_key x mech wk :
  Contains (pw_keyID x) ":" = false ->
  select_key x (Some (mkKeyInfo mech (KeyId x) wk)) = select_key x None.
Proof. intros Hc. unfold select_key, KeyId. simpl. by rewrite cut_last_app. Qed.

(** ** Properties *)


(** C13: a call of the PKCS#11 wrapper borrows. Encrypt and Decrypt hold a pool
    reference only while they run: however they end, an error, a panic of the
    library or a blob with a key identifier they cannot read included, the live
    references are the ones from before the call. *)
Theorem pkcs11_wrapper_borrows {W K} `{T : Stack W K, !StackLaws W K T} (x : pkcs11Wrapper)
    pt in_ (w : W) :
  wp (Encrypt x pt) (fun _ w' => live w' = live w) w /\
  wp (Decrypt x in_) (fun _ w' => live w' = live w) w.
Proof.
  split.
  - apply wp_with. intros k w0. rewrite wp_bind.
    apply (wp_same _ _ _ (law_Encrypt k _ w0)). by intros [ct|e|] w1 H1.
  - destruct in_ as [b|]; [|done]. apply wp_with. intros k w0. apply law_Decrypt.
Qed.

(** C14: the blobs of a PKCS#11 wrapper name its key. When the configured identifier
    has no colon (it is hexadecimal), a blob that Encrypt returns carries the
    identifier KeyId reports, and Decrypt takes it back to the wrapper's own
    identifier and label, whatever colons the label has; the ciphertext may have
    been split anywhere into an Iv and a rest, as the blobs of the original
    implementation were. *)
Theorem pkcs11_wrapper_own_blobs {W K} `{T : Stack W K} (x : pkcs11Wrapper) pt blob (w w' : W) :
  Contains (pw_keyID x) ":" = false ->
  Encrypt x pt w = (Ret blob, w') ->
  (exists ki, bi_KeyInfo blob = Some ki /\ ki_KeyId ki = KeyId x) /\
  forall iv ct, content (bi_Ciphertext blob) = iv ++ ct ->
    Decrypt x (Some (mkBlobInfo (Some ct) (Some iv) (bi_KeyInfo blob))) =
    with_ x None (fun key =>
      stack_Decrypt key (mkCipherOptions (Some (content (bi_Ciphertext blob))) None)).
Proof.
  intros Hc He.
  assert (Hb : bi_KeyInfo blob = Some (mkKeyInfo 0 (KeyId x) None)).
  { apply with_Ret in He as (k & w1 & w2 & Hr).
    apply pbind_Ret in Hr as (ct & w3 & _ & Hr). by injection Hr as <- _. }
  split; [by rewrite Hb; eauto|]. intros iv ct Hct. rewrite Hb. unfold Decrypt, with_.
  cbn [bi_KeyInfo bi_Iv bi_Ciphertext]. rewrite select_own_key by done.
  replace (append_slice (Some iv) (Some ct)) with (Some (content (bi_Ciphertext blob))); [done|].
  rewrite Hct. unfold append_slice. simpl. destruct ct; [by rewrite app_nil_r|done].
Qed.

(** ** Witnesses: a stack with one library and one token *)
Definition toy_take (l : gset nat) : nat := fresh l.

Definition toy_stack : Stack resources nat := {|
  module_Open path := fun l =>
    if String.eqb path "/lib/p11.so"
    then let r := toy_take (rs_modules l) in (Ret r, mkResources ({[ r ]} ∪ rs_modules l) (rs_pools l))
    else (Fail (ErrLeaf "failed to load dynamic library"), l);
  module_GetToken r sel := fun l =>
    let info := mkTokenInfo "token" "0001" 0 0 in
    (if forallb (fun f : TokenSelector => f 0 info) sel then Ret (mkToken 0 info)
     else Fail (ErrLeaf "no matching token"), l);
  module_Drop r := fun l => (Ret tt, mkResources (rs_modules l ∖ {[ r ]}) (rs_pools l));
  session_Login r tok pin := fun l =>
    if String.eqb pin "1234"
    then let q := toy_take (rs_pools l) in (Ret q, mkResources (rs_modules l) ({[ q ]} ∪ rs_pools l))
    else (Fail (ErrLeaf "inconsistent pin values"), l);
  session_Drop q := fun l => (Ret tt, mkResources (rs_modules l) (rs_pools l ∖ {[ q ]}));
  stack_resolveKey q id label mech h soft := fun l => (Ret (length id), l);
  stack_Encrypt k o := fun l => (Ret (Some (rev (content (co_Data o)))), l);
  stack_Decrypt k o := fun l => (Ret (Some (rev (content (co_Data o)))), l);
|}.

#[local] Existing Instance toy_stack.

Lemma toy_stack_laws : StackLaws resources nat toy_stack.
Proof.
  refine {| live := fun l => l |}; intros; unfold wp; cbn -[fresh]; try done.
  - destruct (String.eqb path _); [|done]. split; [apply is_fresh|done].
  - by destruct (String.eqb pin _); [split; [apply is_fresh|]|].
Defined.

#[local] Existing Instance toy_stack_laws.


Definition demo_wrapper : pkcs11Wrapper :=
  mkPkcs11Wrapper None (Some 0%nat) (Some (mkToken 0 (mkTokenInfo "token" "0001" 0 0))) "1234"
    "beef" "my:key" None SHA256 false ∅.

Definition demo_res : resources := mkResources {[ 0%nat ]} {[ 5%nat ]}.


Lemma pkcs11_wrapper_own_blobs_witness :
  exists blob w', Encrypt demo_wrapper (Some (bytes_of_string "seal")) demo_res = (Ret blob, w') /\
    fst (Decrypt demo_wrapper (Some (mkBlobInfo (Some (bytes_of_string "aes"))
      (Some (bytes_of_string "l")) (bi_KeyInfo blob))) demo_res) = Ret (Some (bytes_of_string "seal")).
Proof.
  destruct (Encrypt demo_wrapper (Some (bytes_of_string "seal")) demo_res) as [o w'] eqn:He.
  assert (Ho := f_equal fst He). vm_compute in Ho. destruct o as [blob|e|]; [|discriminate Ho..].
  injection Ho as <-. eexists _, w'. split; [reflexivity|].
  destruct (pkcs11_wrapper_own_blobs demo_wrapper _ _ demo_res w' ltac:(vm_compute; reflexivity) He)
    as [_ Hd].
  rewrite (Hd (bytes_of_string "l") (bytes_of_string "aes") ltac:(vm_compute; reflexivity)).
  vm_compute. reflexivity.
Defined.

(** Whatever key the blob names, the references of the world stay the KMS's own. *)
Lemma pkcs11_wrapper_borrows_witness :
  wp (Encrypt demo_wrapper (Some (bytes_of_string "seal"))) (fun _ w => live w = demo_res) demo_res /\
  wp (Decrypt demo_wrapper (Some (mkBlobInfo None None (Some (mkKeyInfo 0 "other:01" None)))))
    (fun _ w => live w = demo_res) demo_res.
Proof.
  exact (pkcs11_wrapper_borrows (T := toy_stack) (StackLaws0 := toy_stack_laws) demo_wrapper
    (Some (bytes_of_string "seal")) (Some (mkBlobInfo None None (Some (mkKeyInfo 0 "other:01" None))))
    demo_res).
Defined.
