(* ===== verification/Api.v ===== *)
(** * The OpenBao API client

    The part of github.com/openbao/openbao/api/v2 the Transit components use, as
    operations over the state of the server, the environment and the token.  A
    secret's [Data] map may be nil. *)
From S2P Require Import Prelude.

Inductive rval :=
| RNull
| RBool (b : bool)
| RNum (z : Z)
| RStr (s : string)
| RObj (l : gmap string (option string)).   (* its values: a string, or something else *)

Record secret := mkSecret { sec_Data : option (gmap string rval) }.

Record TLSConfig := mkTLSConfig {
  tls_CACert : string;
  tls_CAPath : string;
  tls_CACertBytes : string;
  tls_ClientCert : string;
  tls_ClientKey : string;
  tls_ClientCertBytes : string;
  tls_ClientKeyBytes : string;
  tls_ServerName : string;
  tls_Insecure : bool;
}.

Class Api := {
  api_world : Type;
  api_config : Type;
  api_client : Type;
  api_DefaultConfig : prog api_world api_config;   (* reads the environment *)
  api_NewConfig : api_config;
  set_Address : string -> api_config -> api_config;
  ConfigureTLS : TLSConfig -> api_config -> outcome api_config;
  api_NewClient : api_config -> prog api_world api_client;
  SetToken : string -> api_client -> api_client;
  SetNamespace : string -> api_client -> api_client;
  client_Token : api_client -> string;
  client_Address : api_client -> string;
  Logical_Write : api_client -> string -> gmap string rval -> prog api_world (option secret);
  Logical_Read : api_client -> string -> prog api_world (option secret);
  RenewTokenAsSelf : api_client -> prog api_world secret;
  NewLifetimeWatcher : api_client -> secret -> prog api_world nat;
  Watcher_Stop : nat -> prog api_world unit;
}.

(** [resp.Data[k]] on a response that may be nil: the dereference panics. *)
Definition data_field (resp : option secret) (k : string) : outcome rval :=
  match resp with
  | None => Panic
  | Some s => Ret (default RNull (default ∅ (sec_Data s) !! k))
  end.

(** [resp.Data[k].(string)] with its [ok]. *)
Definition as_string (v : rval) : option string := match v with RStr s => Some s | _ => None end.

Definition as_bool (v : rval) : option bool := match v with RBool b => Some b | _ => None end.
