(* ===== verification/TransitKms.v ===== *)
(** * The Transit KMS

    kms/transit/transit.go.  The world is the API client's; a configured KMS and
    its keys are immutable values.  PEM and PKIX decoding are parameters. *)
From S2P Require Import Prelude GoText GoEncoding Kms Api.

Local Open Scope Z_scope.

Definition ErrPrehashingDisabled : error := ErrSentinel "pre-hashing is disabled".

Definition PSSSaltLengthAuto : Z := 0.

Definition PSSSaltLengthEqualsHash : Z := -1.

Definition hash2transit : list (Z * string) :=
  [(SHA224, "sha2-224"); (SHA256, "sha2-256"); (SHA384, "sha2-384"); (SHA512, "sha2-512");
   (SHA3_224, "sha3-224"); (SHA3_256, "sha3-256"); (SHA3_384, "sha3-384"); (SHA3_512, "sha3-512")].

Definition transit_hash (h : Z) : option string := snd <$> find (fun r => fst r =? h) hash2transit.

(** The struct Open decodes its ConfigMap into. *)
Record open_cfg := mkOpenCfg {
  oc_Address : string;
  oc_Token : string;
  oc_Namespace : string;
  oc_MountPath : string;
  oc_TLSServerName : string;
  oc_TLSSkipVerify : bool;
  oc_TLSCACertBytes : string;
  oc_TLSClientCertBytes : string;
  oc_TLSClientKeyBytes : string;
}.

Record key_cfg := mkKeyCfg { kc_Name : string; kc_Version : Z; kc_DisablePrehashing : bool }.

(** [cmp.Or] on strings. *)
Definition cmp_Or (l : list string) : string :=
  default "" (find (fun s => negb (String.eqb s "")) l).

Section transit.
Context `{A : Api} `{HS : Hashes}.
Context (decode_open : ConfigMap -> outcome open_cfg) (decode_key : ConfigMap -> outcome key_cfg).
(** [pem.Decode] and [x509.ParsePKIXPublicKey]. *)
Context (pem_Decode : string -> option bytes) (ParsePKIXPublicKey : bytes -> outcome PublicKey).

Record transitKMS := mkTransitKMS { tk_client : api_client; tk_mount : string }.

Record transitKey := mkTransitKey {
  tr_client : api_client;
  tr_mount : string;
  tr_name : string;
  tr_version : Z;
  tr_disablePrehashing : bool;
}.

(** Open: the configured KMS. *)
Definition Open (opts : OpenOptions) : prog api_world transitKMS :=
  cfg ← lift (decode_open (oo_ConfigMap opts));
  if String.eqb (oc_Token cfg) "" then lift (Fail (ErrLeaf "missing required parameter 'token'"))
  else
    apiConfig ← (if oo_AllowEnvironment opts then api_DefaultConfig else lift (Ret api_NewConfig));
    let apiConfig := set_Address
      (if String.eqb (oc_Address cfg) "" then "https://127.0.0.1:8200" else oc_Address cfg) apiConfig in
    apiConfig ← lift
      (if oc_TLSSkipVerify cfg ||
          negb (String.eqb (cmp_Or [oc_TLSCACertBytes cfg; oc_TLSClientCertBytes cfg;
                                    oc_TLSClientKeyBytes cfg; oc_TLSServerName cfg]) "")
       then ConfigureTLS
         (mkTLSConfig "" "" (oc_TLSCACertBytes cfg) "" "" (oc_TLSClientCertBytes cfg)
            (oc_TLSClientKeyBytes cfg) (oc_TLSServerName cfg) (oc_TLSSkipVerify cfg)) apiConfig
       else Ret apiConfig);
    client ← api_NewClient apiConfig;
    lift (Ret (mkTransitKMS (SetNamespace (oc_Namespace cfg) (SetToken (oc_Token cfg) client))
                 (cmp_Or [oc_MountPath cfg; "transit"]))).

Definition GetKey (k : transitKMS) (opts : KeyOptions) : prog api_world transitKey :=
  cfg ← lift (decode_key (ko_ConfigMap opts));
  if String.eqb (kc_Name cfg) "" then lift (Fail (ErrLeaf "missing required parameter 'name'"))
  else if kc_Version cfg <=? 0 then lift (Fail (ErrLeaf "missing required parameter 'version'"))
  else lift (Ret (mkTransitKey (tk_client k) (tk_mount k) (kc_Name cfg) (kc_Version cfg)
                    (kc_DisablePrehashing cfg))).

Definition std (l : slice) : rval := RStr (b64_EncodeToString StdEncoding (content l)).

Definition with_aad (aad : slice) (data : gmap string rval) : gmap string rval :=
  if Nat.eqb (slen aad) 0 then data else <["associated_data" := std aad]> data.

Definition write (k : transitKey) (op : string) (data : gmap string rval) :
    prog api_world (option secret) :=
  Logical_Write (tr_client k) (path_Join [tr_mount k; op; tr_name k]) data.

(** A [vault:<version>:<base64>] field of a response: its bytes, after the
    version check ([parts[1][1:]] panics on an empty version field). *)
Definition parse_versioned (k : transitKey) (what s : string) : outcome slice :=
  match SplitN s ":" 3 with
  | [_; v; body] =>
      out ← map_err (wrapf (String.append "decode " what)) (b64_DecodeString StdEncoding body);
      match v with
      | EmptyString => Panic
      | String _ v =>
          version ← map_err (wrapf "parse key version") (ParseUint v 10 64);
          if negb (version =? tr_version k)
          then Fail (ErrLeaf (String.concat ""
            ["expected used key version to match configured version "; FormatUint (tr_version k);
             ", got "; FormatUint version]))
          else Ret (Some out)
      end
  | parts => Fail (ErrLeaf (String.concat ""
      ["expected "; what; " to split into 3 parts, got "; FormatUint (Z.of_nat (length parts))]))
  end.

(** [resp.Data[name].(string)]. *)
Definition string_field (resp : option secret) (name : string) : outcome string :=
  v ← data_field resp name;
  match as_string v with
  | Some s => Ret s
  | None => Fail (ErrLeaf (String.concat ""
      ["expected response to include '"; name; "' field of type string"]))
  end.

Definition Encrypt (k : transitKey) (opts : CipherOptions) : prog api_world slice :=
  resp ← write k "encrypt" (with_aad (co_AAD opts)
    (<["plaintext" := std (co_Data opts)]> (<["key_version" := RStr (FormatUint (tr_version k))]> ∅)));
  ciphertext ← lift (string_field resp "ciphertext");
  lift (parse_versioned k "ciphertext" ciphertext).

(** [fmt.Sprintf("vault:v%d:%s", k.version, base64)]. *)
Definition versioned (k : transitKey) (l : slice) : string :=
  String.concat "" ["vault:v"; FormatUint (tr_version k); ":";
                    b64_EncodeToString StdEncoding (content l)].

Definition Decrypt (k : transitKey) (opts : CipherOptions) : prog api_world slice :=
  resp ← write k "decrypt" (with_aad (co_AAD opts)
    (<["ciphertext" := RStr (versioned k (co_Data opts))]> ∅));
  plaintext ← lift (string_field resp "plaintext");
  out ← lift (map_err (wrapf "decode plaintext") (b64_DecodeString StdEncoding plaintext));
  lift (Ret (Some out)).

(** The part Sign and Verify share: the hash name, the input, the scheme. *)
Definition hash_fields (hash : Z) (data : gmap string rval) : outcome (gmap string rval) :=
  match transit_hash hash with
  | Some h => Ret (<["hash_algorithm" := RStr h]> data)
  | None =>
      if negb (hash =? Hash0)
      then Fail (ErrLeaf (String.append "unsupported hash function: " (hash_String hash)))
      else Ret data
  end.

Definition input_fields (k : transitKey) (hash : Z) (prehashed : bool) (msg : slice)
    (data : gmap string rval) : outcome (gmap string rval) :=
  if negb prehashed && negb (hash =? Hash0) && negb (tr_disablePrehashing k) then
    d ← hash_New_Sum hash msg;
    Ret (<["prehashed" := RBool true]> (<["input" := std d]> data))
  else
    Ret (<["prehashed" := RBool (prehashed && negb (hash =? Hash0))]> (<["input" := std msg]> data)).

Definition scheme_fields (hash : Z) (o : option SignerOpts) (data : gmap string rval) :
    outcome (gmap string rval) :=
  match o with
  | Some (SPSS salt _) =>
      Ret (<["salt_length" :=
        if salt =? PSSSaltLengthAuto then RStr "auto"
        else if salt =? PSSSaltLengthEqualsHash then RStr "hash" else RNum salt]> data)
  | Some (SEd25519 _ _) =>
      if negb (hash =? Hash0) then Fail (ErrLeaf "pre-hashed Ed25519 variants are not supported")
      else Ret data
  | _ => Ret (<["signature_algorithm" := RStr "pkcs1v15"]> data)
  end.

(** The request of a Sign or Verify call, from its first fields. *)
Definition signing_request (k : transitKey) (o : option SignerOpts) (prehashed : bool) (msg : slice)
    (data : gmap string rval) : outcome (gmap string rval) :=
  hash ← opts_HashFunc o;
  if prehashed && negb (hash =? Hash0) && tr_disablePrehashing k then Fail ErrPrehashingDisabled
  else
    data ← hash_fields hash data;
    data ← input_fields k hash prehashed msg data;
    scheme_fields hash o data.

Definition Sign (k : transitKey) (opts : SignOptions) : prog api_world slice :=
  data ← lift (signing_request k (so_SignerOpts opts) (so_Prehashed opts) (so_Data opts)
                 (<["key_version" := RStr (FormatUint (tr_version k))]> ∅));
  resp ← write k "sign" data;
  signature ← lift (string_field resp "signature");
  lift (parse_versioned k "signature" signature).

Definition Verify (k : transitKey) (opts : VerifyOptions) : prog api_world unit :=
  data ← lift (signing_request k (vo_SignerOpts opts) (vo_Prehashed opts) (vo_Data opts)
                 (<["signature" := RStr (versioned k (vo_Signature opts))]> ∅));
  resp ← write k "verify" data;
  v ← lift (data_field resp "valid");
  match as_bool v with
  | None => lift (Fail (ErrLeaf "expected response to include 'valid' field of type bool"))
  | Some false => lift (Fail ErrInvalidSignature)
  | Some true => lift (Ret tt)
  end.

Definition parse_public (ty data : string) : outcome PublicKey :=
  if HasPrefix ty "rsa-" || HasPrefix ty "ecdsa-" then
    match pem_Decode data with
    | None => Fail (ErrLeaf "invalid PEM data")
    | Some b => ParsePKIXPublicKey b
    end
  else if String.eqb ty "ed25519" then
    raw ← b64_DecodeString StdEncoding data;
    if negb (Nat.eqb (length raw) 32) then Fail (ErrLeaf "invalid ed25519 public key")
    else Ret (PubEd25519 raw)
  else Fail (ErrLeaf (String.append "unknown key type " (quoted ty))).

Definition ExportPublic (k : transitKey) : prog api_world PublicKey :=
  resp ← Logical_Read (tr_client k)
           (path_Join [tr_mount k; "export/public-key"; tr_name k; "latest"]);
  ty ← lift (string_field resp "type");
  v ← lift (data_field resp "keys");
  match v with
  | RObj keys =>
      if negb (Nat.eqb (base.size keys) 1)
      then lift (Fail (ErrLeaf (String.append "expected exactly one key, got "
                                  (FormatUint (Z.of_nat (base.size keys))))))
      else
        match keys !! "1" with
        | Some (Some data) => lift (parse_public ty data)
        | _ => lift (Fail (ErrLeaf "expected public key data of type string"))
        end
  | _ => lift (Fail (ErrLeaf "expected response to include 'keys' field of type object"))
  end.

(** ** Properties *)

Definition b64 (l : bytes) : string := b64_EncodeToString StdEncoding l.

(** The bodies of the requests to encrypt and to decrypt. *)
Definition encrypt_request (version : Z) (aad pt : bytes) : gmap string rval :=
  let body := <["plaintext" := RStr (b64 pt)]> {["key_version" := RStr (FormatUint version)]} in
  match aad with [] => body | _ => <["associated_data" := RStr (b64 aad)]> body end.

Definition decrypt_request (version : Z) (aad raw : bytes) : gmap string rval :=
  let body := {["ciphertext" := RStr ("vault:v" +:+ FormatUint version +:+ ":" +:+ b64 raw)]} in
  match aad with [] => body | _ => <["associated_data" := RStr (b64 aad)]> body end.

(** What the Transit engine mounted at [mount] promises about the key [name], in terms of
    its requests and answers.  [te_sealed v aad pt raw]: [raw] is a ciphertext of [pt] that
    was made with version [v] and the additional data [aad]; [te_usable v w]: in [w] the
    key still has version [v], which may be used for decryption, and the client may use
    the key. *)
Record transit_engine (c : api_client) (mount name : string) := {
  te_usable : Z -> api_world -> Prop;
  te_sealed : Z -> bytes -> bytes -> bytes -> Prop;
  te_encrypt : forall v aad pt w resp w', 0 <= v < 2 ^ 64 ->
    Logical_Write c (mount +:+ "/encrypt/" +:+ name) (encrypt_request v aad pt) w = (Ret resp, w') ->
    exists data raw, resp = Some (mkSecret (Some data)) /\
      data !! "ciphertext" = Some (RStr ("vault:v" +:+ FormatUint v +:+ ":" +:+ b64 raw)) /\ te_sealed v aad pt raw;
  te_decrypt : forall v aad pt raw w, te_usable v w -> te_sealed v aad pt raw ->
    exists data w',
      Logical_Write c (mount +:+ "/decrypt/" +:+ name) (decrypt_request v aad raw) w =
        (Ret (Some (mkSecret (Some data))), w') /\
      data !! "plaintext" = Some (RStr (b64 pt));
  te_authentic : forall v aad aad' pt raw w, te_sealed v aad pt raw -> aad' <> aad ->
    is_ret (Logical_Write c (mount +:+ "/decrypt/" +:+ name) (decrypt_request v aad' raw) w).1 = false;
}.

Lemma write_clean k op data : clean_path (tr_mount k) = true -> clean_path op = true -> clean_path (tr_name k) = true ->
  write k op data = Logical_Write (tr_client k) (tr_mount k +:+ "/" +:+ op +:+ "/" +:+ tr_name k) data.
Proof. intros. unfold write. by rewrite path_Join_clean. Qed.

Lemma with_aad_cases aad data :
  with_aad aad data = match content aad with [] => data | _ => <["associated_data" := RStr (b64 (content aad))]> data end.
Proof. unfold with_aad, slen. by destruct (content aad) eqn:E; cbn [length Nat.eqb]; unfold std; rewrite ?E. Qed.

Lemma concat4 a b c d : String.concat "" [a; b; c; d] = a +:+ (b +:+ (c +:+ d)).
Proof. done. Qed.

Lemma parse_versioned_print k what raw :
  0 <= tr_version k < 2 ^ 64 -> parse_versioned k what (versioned k (Some raw)) = Ret (Some raw).
Proof.
  intros Hv. unfold parse_versioned, versioned. rewrite concat4.
  set (body := b64_EncodeToString StdEncoding _).
  assert (Hs : SplitN ("vault:v" +:+ FormatUint (tr_version k) +:+ ":" +:+ body) ":" 3 =
    ["vault"; String "v" (FormatUint (tr_version k)); body]).
  { change ("vault:v" +:+ FormatUint (tr_version k) +:+ ":" +:+ body)
      with ("vault" +:+ String ":" (String "v" (FormatUint (tr_version k) +:+ String ":" body))).
    rewrite <- sapp_cons. apply SplitN_3; [done|]. cbn [Contains].
    rewrite FormatUint_Contains; [done | lia | right; done]. }
  rewrite Hs. unfold body. rewrite b64_decode_encode by (by left).
  cbn [mbind outcome_bind map_err]. rewrite ParseUint_FormatUint by done.
  cbn [mbind outcome_bind map_err]. by rewrite Z.eqb_refl.
Qed.

Lemma string_field_some data n s :
  data !! n = Some (RStr s) -> string_field (Some (mkSecret (Some data))) n = Ret s.
Proof. intros H. unfold string_field, data_field. simpl. by rewrite H. Qed.

(** C38: a Transit key round-trips through a server that keeps the promise of the Transit
    engine: a request to mount/encrypt/name with the base64 of the plaintext, the key
    version and, where there are additional data, their base64, is answered with
    vault:v<version>:<base64>, and this text, sent to mount/decrypt/name with the same
    additional data, is answered with the base64 of the plaintext as long as the version
    is usable. Then what Encrypt returns, the bare bytes without the server's prefix, is
    decrypted to the plaintext in every state in which the version is usable, and under
    other additional data Decrypt fails. The conditions: a version of 64 bits, and a mount
    path and a key name that path.Join leaves as they are. *)
Theorem transit_roundtrip k (engine : transit_engine (tr_client k) (tr_mount k) (tr_name k)) pt aad w c w' :
  0 <= tr_version k < 2 ^ 64 -> clean_path (tr_mount k) = true -> clean_path (tr_name k) = true ->
  Encrypt k (mkCipherOptions pt aad) w = (Ret c, w') ->
  (forall w2, te_usable _ _ _ engine (tr_version k) w2 ->
     (Decrypt k (mkCipherOptions c aad) w2).1 = Ret (Some (content pt))) /\
  (forall w2 aad', content aad' <> content aad -> is_ret (Decrypt k (mkCipherOptions c aad') w2).1 = false).
Proof.
  intros Hv Hm Hn H. unfold Encrypt in H. cbn [co_AAD co_Data] in H.
  apply pbind_Ret in H as (resp & w1 & Hw & H). rewrite write_clean, with_aad_cases in Hw by done.
  destruct (te_encrypt _ _ _ engine (tr_version k) (content aad) (content pt) w resp w1 Hv Hw)
    as (data & raw & -> & Hct & Hs).
  rewrite lift_bind, (string_field_some _ _ _ Hct) in H.
  assert (Hp : parse_versioned k "ciphertext" ("vault:v" +:+ FormatUint (tr_version k) +:+ ":" +:+ b64 raw) = Ret (Some raw))
    by (by apply (parse_versioned_print k "ciphertext" raw)).
  rewrite Hp in H. unfold lift in H. injection H as <- <-.
  assert (Hd : forall aad' w2, write k "decrypt" (with_aad aad' (<["ciphertext" := RStr (versioned k (Some raw))]> ∅)) w2 =
    Logical_Write (tr_client k) (tr_mount k +:+ "/decrypt/" +:+ tr_name k)
      (decrypt_request (tr_version k) (content aad') raw) w2).
  { intros aad' w2. rewrite write_clean, with_aad_cases by done. by unfold versioned; rewrite concat4. }
  unfold Decrypt. cbn [co_AAD co_Data]. split.
  - intros w2 Hu. destruct (te_decrypt _ _ _ engine _ _ _ _ w2 Hu Hs) as (data2 & w3 & Hw2 & Hpt).
    unfold mbind at 1, prog_bind at 1. rewrite Hd, Hw2, lift_bind, (string_field_some _ _ _ Hpt).
    rewrite lift_bind. unfold b64. by rewrite b64_decode_encode by (by left).
  - intros w2 aad' Ha. pose proof (te_authentic _ _ _ engine _ _ _ _ _ w2 Hs Ha) as Hf.
    unfold mbind at 1, prog_bind at 1. rewrite Hd. by destruct (Logical_Write _ _ _ w2) as [[] ?].
Qed.

(** a ciphertext or signature is only accepted for the configured key
    version: the field splits in three, its body is the base64 of the result,
    and its version, after one character, is the key's.  On an empty version
    field the code panics instead of failing. *)
Theorem parse_versioned_pinned k what s :
  match parse_versioned k what s with
  | Ret out => exists p x v body l, SplitN s ":" 3 = [p; String x v; body] /\
      ParseUint v 10 64 = Ret (tr_version k) /\
      b64_DecodeString StdEncoding body = Ret l /\ out = Some l
  | Panic => exists p body l, SplitN s ":" 3 = [p; EmptyString; body] /\
      b64_DecodeString StdEncoding body = Ret l
  | Fail _ => True
  end.
Proof.
  unfold parse_versioned.
  destruct (SplitN s ":" 3) as [|p [|v [|body [|]]]] eqn:Es; try done.
  destruct (b64_DecodeString StdEncoding body) as [l| |] eqn:Eb; cbn; try done.
  - destruct v as [|x v]; [by exists p, body, l|].
    destruct (ParseUint v 10 64) as [n| |] eqn:Ev; cbn; try done.
    + destruct (n =? tr_version k) eqn:En; cbn; [|done]. apply Z.eqb_eq in En. subst n.
      by exists p, x, v, body, l.
    + by apply ParseUint_no_panic in Ev.
  - by apply b64_no_panic in Eb.
Qed.

(** pre-hashing: a key that forbids it refuses a digest without sending a
    request; on any other key signing a message and signing its digest are the
    same request, hence the same signature. *)
Theorem transit_prehashing k o data digest w :
  HashFunc o <> Hash0 -> hash_New_Sum (HashFunc o) data = Ret digest ->
  (tr_disablePrehashing k = true ->
   Sign k (mkSignOptions digest true (Some o)) w = (Fail ErrPrehashingDisabled, w)) /\
  (tr_disablePrehashing k = false ->
   Sign k (mkSignOptions data false (Some o)) w = Sign k (mkSignOptions digest true (Some o)) w).
Proof.
  intros Hh Hd. apply Z.eqb_neq in Hh. unfold Sign, signing_request, input_fields.
  cbn [so_SignerOpts so_Prehashed so_Data opts_HashFunc mbind outcome_bind]. rewrite Hh.
  split; intros ->; cbn [negb andb]; [done|]. by rewrite Hd.
Qed.

(** ExportPublic does not export the configured version: it reads the
    latest one, and fails unless that is version 1. *)
Theorem transit_export_not_version_1 k data ty pem w w' :
  Logical_Read (tr_client k) (path_Join [tr_mount k; "export/public-key"; tr_name k; "latest"]) w
    = (Ret (Some (mkSecret (Some data))), w') ->
  data !! "type" = Some (RStr ty) ->
  data !! "keys" = Some (RObj {[FormatUint (tr_version k) := Some pem]}) ->
  FormatUint (tr_version k) <> "1" ->
  ExportPublic k w = (Fail (ErrLeaf "expected public key data of type string"), w').
Proof.
  intros Hr Ht Hk Hne. unfold ExportPublic, mbind at 1, prog_bind at 1. rewrite Hr.
  rewrite lift_bind, (string_field_some _ _ _ Ht), lift_bind.
  unfold data_field. simpl. rewrite Hk. simpl. rewrite map_size_singleton. simpl.
  by rewrite lookup_singleton_ne.
Qed.
End transit.

(** ** Witnesses: a server that binds the additional data

    The reference server answers an encryption with [vault:v<n>:<base64>] of the base64
    texts of the additional data and of the plaintext.  It decrypts with the versions from
    its minimal one on, which is its state. *)
Definition text_field (data : gmap string rval) (name : string) : string :=
  match data !! name with Some (RStr s) => s | _ => "" end.

Definition toy_raw (aad pt : string) : bytes := bytes_of_string ("x" +:+ String ":" (aad +:+ String ":" pt)).

Definition toy_decrypt (min : Z) (aad ct : string) : outcome (option secret) :=
  match SplitN ct ":" 3 with
  | [_; String _ v; body] =>
      n ← ParseUint v 10 64;
      raw ← b64_DecodeString StdEncoding body;
      match SplitN (string_of_bytes raw) ":" 3 with
      | [_; a; pt] =>
          if (min <=? n) && String.eqb a aad then Ret (Some (mkSecret (Some {["plaintext" := RStr pt]})))
          else Fail (ErrLeaf "400")
      | _ => Fail (ErrLeaf "400")
      end
  | _ => Fail (ErrLeaf "400")
  end.

Definition toy_server (min : Z) (path : string) (data : gmap string rval) : outcome (option secret) :=
  if String.eqb path "transit/encrypt/k" then
    Ret (Some (mkSecret (Some {["ciphertext" := RStr (String.concat "" ["vault:v"; text_field data "key_version"; ":";
      b64 (toy_raw (text_field data "associated_data") (text_field data "plaintext"))])]})))
  else if String.eqb path "transit/decrypt/k" then
    toy_decrypt min (text_field data "associated_data") (text_field data "ciphertext")
  else Fail (ErrLeaf "404").

Definition toy_exported (v : string) : gmap string rval :=
  <["type" := RStr "ed25519"]> {["keys" := RObj {[v := Some "AA=="]}]}.

Definition toy_api : Api := {|
  api_world := Z;
  api_config := unit;
  api_client := unit;
  api_DefaultConfig := lift (Ret tt);
  api_NewConfig := tt;
  set_Address a c := c;
  ConfigureTLS t c := Ret c;
  api_NewClient c := lift (Ret tt);
  SetToken t c := c;
  SetNamespace n c := c;
  client_Token c := "t";
  client_Address c := "https://127.0.0.1:8200";
  Logical_Write c p d := fun min => (toy_server min p d, min);
  Logical_Read c p := lift (Ret (Some (mkSecret (Some (toy_exported "2")))));
  RenewTokenAsSelf c := lift (Fail (ErrLeaf "403"));
  NewLifetimeWatcher c s := lift (Ret 0%nat);
  Watcher_Stop n := lift (Ret tt);
|}.

Section witnesses.
#[local] Existing Instance toy_api.

Definition toy_hash : Hashes := {| hash_Available h := true; hash_Sum h l := rev l |}.

#[local] Existing Instance toy_hash.

Definition demo_key (disable : bool) : transitKey (A := toy_api) :=
  mkTransitKey (A := toy_api) tt "transit" "k" 2 disable.

Lemma b64_no_colon l : Contains (b64 l) ":" = false.
Proof. apply b64_encode_Contains; [by left | done | by vm_compute]. Qed.

Lemma b64_inj l l' : b64 l = b64 l' -> l = l'.
Proof.
  intros H. assert (Hr : @Ret bytes l = Ret l'); [|by injection Hr].
  rewrite <- (b64_decode_encode StdEncoding l), <- (b64_decode_encode StdEncoding l') by (by left).
  unfold b64 in H. by rewrite H.
Qed.

Lemma text_aad aad body : body !! "associated_data" = None ->
  text_field (match aad with [] => body | _ => <["associated_data" := RStr (b64 aad)]> body end) "associated_data" = b64 aad.
Proof. intros Hb. unfold text_field. destruct aad; [by rewrite Hb|]. by rewrite lookup_insert_eq. Qed.

Lemma text_other n aad body : n <> "associated_data" ->
  text_field (match aad with [] => body | _ => <["associated_data" := RStr (b64 aad)]> body end) n = text_field body n.
Proof. intros Hn. unfold text_field. destruct aad; [done|]. by rewrite lookup_insert_ne. Qed.

Lemma toy_decrypt_raw min v aad pt aad' : 0 <= v < 2 ^ 64 ->
  toy_decrypt min (b64 aad') ("vault:v" +:+ FormatUint v +:+ ":" +:+ b64 (toy_raw (b64 aad) (b64 pt))) =
  if (min <=? v) && String.eqb (b64 aad) (b64 aad')
  then Ret (Some (mkSecret (Some {["plaintext" := RStr (b64 pt)]}))) else Fail (ErrLeaf "400").
Proof.
  intros Hv. unfold toy_decrypt.
  change ("vault:v" +:+ FormatUint v +:+ ":" +:+ ?body)
    with ("vault" +:+ String ":" (String "v" (FormatUint v) +:+ String ":" body)).
  rewrite SplitN_3; [|done|cbn [Contains]; rewrite FormatUint_Contains; [done | lia | right; done]].
  rewrite ParseUint_FormatUint by done. cbn [mbind outcome_bind]. unfold b64 at 2. rewrite b64_decode_encode by (by left).
  cbn [mbind outcome_bind]. unfold toy_raw. rewrite string_of_bytes_of_string.
  by rewrite SplitN_3 by first [done | apply b64_no_colon].
Qed.

Definition demo_engine : transit_engine (A := toy_api) tt "transit" "k".
Proof.
  refine {| te_usable v w := (w : Z) <= v;
            te_sealed v aad pt raw := 0 <= v < 2 ^ 64 /\ raw = toy_raw (b64 aad) (b64 pt) |}.
  - intros v aad pt w resp w' Hv H. cbn [Logical_Write toy_api] in H.
    change ("transit" +:+ "/encrypt/" +:+ "k") with "transit/encrypt/k" in H. unfold toy_server in H.
    rewrite String.eqb_refl in H. unfold encrypt_request in H.
    rewrite text_aad, !text_other in H by done. injection H as <- <-.
    eexists _, _. split; [done|]. split; [by rewrite lookup_singleton_eq|]. done.
  - intros v aad pt raw w Hw [Hv ->]. eexists _, w. split; [|by rewrite lookup_singleton_eq].
    cbn [Logical_Write toy_api]. change ("transit" +:+ "/decrypt/" +:+ "k") with "transit/decrypt/k". unfold toy_server.
    cbn [String.eqb Ascii.eqb Bool.eqb]. unfold decrypt_request. rewrite text_aad, text_other by done.
    unfold text_field. rewrite lookup_singleton_eq, toy_decrypt_raw by done.
    by rewrite (proj2 (Z.leb_le _ _) Hw), String.eqb_refl.
  - intros v aad aad' pt raw w [Hv ->] Hne. cbn [Logical_Write toy_api].
    change ("transit" +:+ "/decrypt/" +:+ "k") with "transit/decrypt/k". unfold toy_server.
    cbn [String.eqb Ascii.eqb Bool.eqb]. unfold decrypt_request. rewrite text_aad, text_other by done.
    unfold text_field. rewrite lookup_singleton_eq, toy_decrypt_raw by done.
    destruct (String.eqb_spec (b64 aad) (b64 aad')) as [He|_]; [by apply b64_inj in He|]. by rewrite andb_false_r.
Defined.

Lemma transit_roundtrip_witness : exists c,
  (Encrypt (demo_key false) (mkCipherOptions (Some ["a"%char]) (Some ["b"%char])) 0).1 = Ret c /\
  (Decrypt (demo_key false) (mkCipherOptions c (Some ["b"%char])) 1).1 = Ret (Some ["a"%char]) /\
  is_ret (Decrypt (demo_key false) (mkCipherOptions c None) 1).1 = false.
Proof.
  destruct (Encrypt (demo_key false) (mkCipherOptions (Some ["a"%char]) (Some ["b"%char])) 0) as [[c| |] w'] eqn:E;
    [|by vm_compute in E..].
  exists c. split; [done|].
  destruct (transit_roundtrip (demo_key false) demo_engine (Some ["a"%char]) (Some ["b"%char]) 0 c w') as [Hd Hf].
  - split; [discriminate|reflexivity].
  - reflexivity.
  - reflexivity.
  - exact E.
  - split; [apply Hd; discriminate|]. apply Hf. discriminate.
Defined.

Lemma transit_prehashing_witness :
  Sign (demo_key true) (mkSignOptions (Some ["b"%char; "a"%char]) true (Some (SHash SHA256))) 0
    = (Fail ErrPrehashingDisabled, 0).
Proof.
  refine (proj1 (transit_prehashing (demo_key true) (SHash SHA256) (Some ["a"%char; "b"%char])
    (Some ["b"%char; "a"%char]) 0 _ _) _); done.
Defined.

Lemma transit_export_not_version_1_witness :
  ExportPublic (fun s => None) (fun b => Ret (PubOther 0)) (demo_key false) 0
    = (Fail (ErrLeaf "expected public key data of type string"), 0).
Proof.
  by apply (transit_export_not_version_1 _ _ (demo_key false) (toy_exported "2") "ed25519" "AA==" 0 0).
Defined.
End witnesses.
