(* ===== verification/TransitWrapper.v ===== *)
(** * The Transit wrapper

    wrappers/transit: options.go, transit_client.go and transit.go.  The state is
    the wrapper object together with the API client's world; the environment is a
    parameter, and so is the order of iteration over the configuration map.  The
    goroutine that logs what a lifetime watcher reports keeps no state and is not
    modelled; the watcher's life is. *)
From S2P Require Import Prelude GoText GoEncoding Wrapping Api.

(** ** Options *)

Record options := mk_options {
  opts_Options : Options;
  withMountPath : string;
  withKeyName : string;
  withDisableRenewal : string;
  withNamespace : string;
  withAddress : string;
  withTlsCaCert : string;
  withTlsCaCertDir : string;
  withTlsClientCert : string;
  withTlsClientKey : string;
  withTlsCaCertBytes : string;
  withTlsClientCertBytes : string;
  withTlsClientKeyBytes : string;
  withTlsServerName : string;
  withTlsSkipVerify : bool;
  withToken : string;
  withKeyIdPrefix : string;
}.

Definition config_step (kv : string * string) (opts : options) : outcome options :=
  let (k, v) := kv in
  let (o, mp, kn, dr, ns, ad, ca, cd, cc, ck, cab, ccb, ckb, sn, sv, tk, kp) := opts in
  let at_ := String.eqb k in
  if at_ "mount_path" then Ret (mk_options o v kn dr ns ad ca cd cc ck cab ccb ckb sn sv tk kp)
  else if at_ "key_name" then Ret (mk_options o mp v dr ns ad ca cd cc ck cab ccb ckb sn sv tk kp)
  else if at_ "disable_renewal" then Ret (mk_options o mp kn v ns ad ca cd cc ck cab ccb ckb sn sv tk kp)
  else if at_ "namespace" then Ret (mk_options o mp kn dr v ad ca cd cc ck cab ccb ckb sn sv tk kp)
  else if at_ "address" then Ret (mk_options o mp kn dr ns v ca cd cc ck cab ccb ckb sn sv tk kp)
  else if at_ "tls_ca_cert" then Ret (mk_options o mp kn dr ns ad v cd cc ck cab ccb ckb sn sv tk kp)
  else if at_ "tls_ca_path" then Ret (mk_options o mp kn dr ns ad ca v cc ck cab ccb ckb sn sv tk kp)
  else if at_ "tls_client_cert" then Ret (mk_options o mp kn dr ns ad ca cd v ck cab ccb ckb sn sv tk kp)
  else if at_ "tls_client_key" then Ret (mk_options o mp kn dr ns ad ca cd cc v cab ccb ckb sn sv tk kp)
  else if at_ "tls_ca_cert_bytes" then Ret (mk_options o mp kn dr ns ad ca cd cc ck v ccb ckb sn sv tk kp)
  else if at_ "tls_client_cert_bytes" then Ret (mk_options o mp kn dr ns ad ca cd cc ck cab v ckb sn sv tk kp)
  else if at_ "tls_client_key_bytes" then Ret (mk_options o mp kn dr ns ad ca cd cc ck cab ccb v sn sv tk kp)
  else if at_ "tls_server_name" then Ret (mk_options o mp kn dr ns ad ca cd cc ck cab ccb ckb v sv tk kp)
  else if at_ "tls_skip_verify" then
    b ← ParseBool v; Ret (mk_options o mp kn dr ns ad ca cd cc ck cab ccb ckb sn b tk kp)
  else if at_ "key_id_prefix" then Ret (mk_options o mp kn dr ns ad ca cd cc ck cab ccb ckb sn sv tk v)
  else if at_ "token" then Ret (mk_options o mp kn dr ns ad ca cd cc ck cab ccb ckb sn sv v kp)
  else Ret opts.

Definition set_secrets (token key : string) (opts : options) : options :=
  let (o, mp, kn, dr, ns, ad, ca, cd, cc, ck, cab, ccb, ckb, sn, sv, tk, kp) := opts in
  mk_options o mp kn dr ns ad ca cd cc key cab ccb ckb sn sv token kp.

Definition EnvTransitWrapperMountPath : string := "TRANSIT_WRAPPER_MOUNT_PATH".
Definition EnvVaultTransitSealMountPath : string := "VAULT_TRANSIT_SEAL_MOUNT_PATH".
Definition EnvTransitWrapperKeyName : string := "TRANSIT_WRAPPER_KEY_NAME".
Definition EnvVaultTransitSealKeyName : string := "VAULT_TRANSIT_SEAL_KEY_NAME".
Definition EnvTransitWrapperAddr : string := "TRANSIT_WRAPPER_ADDR".
Definition EnvVaultTransitSealAddr : string := "VAULT_TRANSIT_SEAL_ADDR".
Definition EnvTransitWrapperToken : string := "TRANSIT_WRAPPER_TOKEN".
Definition EnvVaultTransitSealToken : string := "VAULT_TRANSIT_SEAL_TOKEN".
Definition EnvTransitWrapperDisableRenewal : string := "TRANSIT_WRAPPER_DISABLE_RENEWAL".
Definition EnvVaultTransitSealDisableRenewal : string := "VAULT_TRANSIT_SEAL_DISABLE_RENEWAL".

Definition Type_transit : string := "transit".

Section transit.
Context `{A : Api} `{RangeOrder}.
Context (ParsePath : string -> string * option error) (getenv : string -> string).

Definition getOpts {L} (opt : list (Opt L)) : outcome options :=
  o ← GetOpts opt;
  opts ← range_loop config_step (range_order (WithConfigMap_ (o_RPC o)))
           (mk_options o "" "" "" "" "" "" "" "" "" "" "" "" "" false "" "");
  if negb (WithDisallowEnvVars_ (o_RPC o)) then
    match ParsePaths ParsePath [Some 0; Some 1]
            (<[0 := withToken opts]> {[ 1 := withTlsClientKey opts ]}) with
    | (Ret _, st) => Ret (set_secrets (default "" (st !! 0)) (default "" (st !! 1)) opts)
    | (Fail e, _) => Fail e
    | (Panic, _) => Panic
    end
  else Ret opts.

(** ** The client *)

Record TransitClient := mkTransitClient {
  tc_client : api_client;
  tc_lifetimeWatcher : option nat;
  tc_mountPath : string;
  tc_keyName : string;
}.

(** One of the switches of newTransitClient. *)
Abbreviation env_switch := (Wrapping.env_switch getenv).

Definition hasTLSCaConfig (opts : options) : bool :=
  is_set (withTlsCaCert opts) || is_set (withTlsCaCertDir opts) || is_set (withTlsCaCertBytes opts).

Definition hasTLSConfig (opts : options) : bool :=
  (is_set (withTlsClientCert opts) && is_set (withTlsClientKey opts)) ||
  (is_set (withTlsClientCertBytes opts) && is_set (withTlsClientKeyBytes opts)).

(** File names are honoured only when the environment is. *)
Definition tls_config (opts : options) (disallow : bool) : TLSConfig :=
  let ca := hasTLSCaConfig opts in
  let cl := hasTLSConfig opts in
  let when (b : bool) (s : string) := if b then s else "" in
  {| tls_CACert := when (ca && negb disallow) (withTlsCaCert opts);
     tls_CAPath := when (ca && negb disallow) (withTlsCaCertDir opts);
     tls_CACertBytes := when ca (withTlsCaCertBytes opts);
     tls_ClientCert := when (cl && negb disallow) (withTlsClientCert opts);
     tls_ClientKey := when (cl && negb disallow) (withTlsClientKey opts);
     tls_ClientCertBytes := when cl (withTlsClientCertBytes opts);
     tls_ClientKeyBytes := when cl (withTlsClientKeyBytes opts);
     tls_ServerName := withTlsServerName opts;
     tls_Insecure := withTlsSkipVerify opts |}.

Definition parse_disable_renewal (raw : string) : outcome bool :=
  if String.eqb raw "" then Ret false else ParseBool raw.

(** The configured API client, with its TLS, token and namespace. *)
Definition api_connect (opts : options) (disallow : bool) (address token namespace : string) :
    prog api_world api_client :=
  apiConfig ← (if negb disallow then api_DefaultConfig
               else mret (set_Address "https://127.0.0.1:8200" api_NewConfig));
  let apiConfig := if is_set address then set_Address address apiConfig else apiConfig in
  apiConfig ← lift
    (if withTlsSkipVerify opts || is_set (withTlsServerName opts) || hasTLSCaConfig opts || hasTLSConfig opts
     then ConfigureTLS (tls_config opts disallow) apiConfig
     else Ret apiConfig);
  apiClient ← api_NewClient apiConfig;
  let apiClient := if is_set token then SetToken token apiClient else apiClient in
  mret (if is_set namespace then SetNamespace namespace apiClient else apiClient).

(** The watcher that renews the token, unless renewal is off, there is no token,
    or a first renewal fails. *)
Definition start_watcher (apiClient : api_client) (disableRenewal : bool) :
    prog api_world (option nat) :=
  if negb disableRenewal && is_set (client_Token apiClient) then
    r ← attempt (RenewTokenAsSelf apiClient);
    match r with
    | Ret secret => n ← NewLifetimeWatcher apiClient secret; mret (Some n)
    | Fail _ => mret None
    | Panic => lift Panic
    end
  else mret None.

Definition newTransitClient (opts : options) : prog api_world (TransitClient * WrapperConfig) :=
  let disallow := WithDisallowEnvVars_ (o_RPC (opts_Options opts)) in
  let mountPath := env_switch disallow [EnvTransitWrapperMountPath; EnvVaultTransitSealMountPath]
                     (withMountPath opts) in
  let keyName := env_switch disallow [EnvTransitWrapperKeyName; EnvVaultTransitSealKeyName]
                   (withKeyName opts) in
  if String.eqb mountPath "" then lift (Fail (ErrLeaf "mount_path is required"))
  else if String.eqb keyName "" then lift (Fail (ErrLeaf "key_name is required"))
  else
    disableRenewal ← lift (parse_disable_renewal
      (env_switch disallow [EnvTransitWrapperDisableRenewal; EnvVaultTransitSealDisableRenewal]
         (withDisableRenewal opts)));
    let namespace := env_switch disallow ["VAULT_NAMESPACE"] (withNamespace opts) in
    let address := env_switch disallow [EnvTransitWrapperAddr; EnvVaultTransitSealAddr] (withAddress opts) in
    let token := env_switch disallow [EnvTransitWrapperToken; EnvVaultTransitSealToken] (withToken opts) in
    apiClient ← api_connect opts disallow address token namespace;
    watcher ← start_watcher apiClient disableRenewal;
    let md : gmap string string :=
      <["address" := client_Address apiClient]> (<["mount_path" := mountPath]> {[ "key_name" := keyName ]}) in
    mret (mkTransitClient apiClient watcher mountPath keyName,
          mkWrapperConfig (if is_set namespace then <["namespace" := namespace]> md else md)).

Definition client_Close (c : TransitClient) : prog api_world unit :=
  match tc_lifetimeWatcher c with Some n => Watcher_Stop n | None => mret tt end.

(** A string field of a response, with the three errors before it. *)
Definition response_field (op name : string) (r : option secret) : outcome string :=
  match r with
  | None => Fail (ErrLeaf ("after " +:+ op +:+ " operation the returned secret from vault is nil"))
  | Some s =>
      match sec_Data s with
      | None => Fail (ErrLeaf ("after " +:+ op +:+
          " operation no data was found in returned secret from vault"))
      | Some data =>
          match default RNull (data !! name) with
          | RNull => Fail (ErrLeaf ("after " +:+ op +:+ " operation " +:+ name +:+
              " was not found in data returned from vault"))
          | RStr v => Ret v
          | _ => Fail (ErrLeaf ("after " +:+ op +:+ " operation " +:+ name +:+
              " in data returned from vault is not a string"))
          end
      end
  end.

Definition client_write (c : TransitClient) (op : string) (data : gmap string rval) :=
  Logical_Write (tc_client c) (path_Join [tc_mountPath c; op; tc_keyName c]) data.

Definition client_Encrypt (c : TransitClient) (plaintext : slice) : prog api_world bytes :=
  secret ← client_write c "encrypt"
    {[ "plaintext" := RStr (b64_EncodeToString StdEncoding (content plaintext)) ]};
  ct ← lift (response_field "encrypt" "ciphertext" secret);
  mret (bytes_of_string ct).

Definition client_Decrypt (c : TransitClient) (ciphertext : bytes) : prog api_world bytes :=
  secret ← client_write c "decrypt" {[ "ciphertext" := RStr (string_of_bytes ciphertext) ]};
  pt ← lift (response_field "decrypt" "plaintext" secret);
  lift (map_err (wrapf "error base64-decoding plaintext") (b64_DecodeString StdEncoding pt)).

(** ** The wrapper *)

Record transitWrapper := mkTransitWrapper {
  tw_logger : option nat;
  tw_client : option TransitClient;
  tw_currentKeyId : string;
  tw_keyIdPrefix : string;
}.

Definition NewWrapper : transitWrapper := mkTransitWrapper None None "" "".

Definition in_api {B} (m : prog api_world B) : prog (transitWrapper * api_world) B :=
  zoom snd (fun w p => (fst p, w)) m.

Definition update (f : transitWrapper -> transitWrapper) : prog (transitWrapper * api_world) unit :=
  modify (fun p => (f (fst p), snd p)).

(** A wrapper without a client calls through a nil interface. *)
Definition the_client : prog (transitWrapper * api_world) TransitClient :=
  p ← get; lift (match tw_client (fst p) with Some c => Ret c | None => Panic end).

Definition Encrypt (plaintext : slice) : prog (transitWrapper * api_world) BlobInfo :=
  c ← the_client;
  ciphertext ← in_api (client_Encrypt c plaintext);
  match Split (string_of_bytes ciphertext) ":" with
  | [_; version; _] =>
      p ← get;
      let keyId := tw_keyIdPrefix (fst p) +:+ version in
      _ ← update (fun s => mkTransitWrapper (tw_logger s) (tw_client s) keyId (tw_keyIdPrefix s));
      mret (mkBlobInfo (Some ciphertext) None (Some (mkKeyInfo 0 keyId None)))
  | _ => lift (Fail (ErrLeaf "invalid ciphertext returned"))
  end.

(** A nil blob is dereferenced. *)
Definition Decrypt (in_ : option BlobInfo) : prog (transitWrapper * api_world) slice :=
  c ← the_client;
  in_ ← lift (match in_ with Some b => Ret b | None => Panic end);
  pt ← in_api (client_Decrypt c (content (bi_Ciphertext in_)));
  mret (Some pt).

(** The new client is installed before it is tried, and stays when the trial
    fails. *)
Definition SetConfig {L} (opt : list (Opt L)) : prog (transitWrapper * api_world) WrapperConfig :=
  opts ← lift (getOpts opt);
  _ ← update (fun s => mkTransitWrapper (o_Logger (opts_Options opts)) (tw_client s)
                         (tw_currentKeyId s) (tw_keyIdPrefix s));
  cw ← in_api (newTransitClient opts);
  _ ← update (fun s => mkTransitWrapper (tw_logger s) (Some cw.1) (tw_currentKeyId s)
                         (withKeyIdPrefix opts));
  o ← attempt (Encrypt (Some ["a"%char]));
  match o with
  | Ret _ => mret cw.2
  | Fail e => _ ← in_api (client_Close cw.1); lift (Fail e)
  | Panic => lift Panic
  end.

Definition Finalize : prog (transitWrapper * api_world) unit :=
  c ← the_client; in_api (client_Close c).

Definition KeyId : prog (transitWrapper * api_world) string :=
  p ← get; mret (tw_currentKeyId (fst p)).

#[export] Instance transit_wrapper {L} : Wrapper L (transitWrapper * api_world) := {|
  w_Type := lift (Ret Type_transit);
  w_SetConfig opt := c ← SetConfig opt; mret (Some c);
  w_Encrypt pt _ := b ← Encrypt pt; mret (Some b);
  w_Decrypt b _ := Decrypt b;
  w_KeyId := KeyId;
|}.
End transit.

(** ** Options do not depend on the order of iteration *)

Lemma config_step_comm k1 v1 k2 v2 a b :
  k1 <> k2 ->
  (config_step (k1, v1) a ≫= config_step (k2, v2)) = Ret b ->
  (config_step (k2, v2) a ≫= config_step (k1, v1)) = Ret b.
Proof.
  intros Hne. destruct a. unfold config_step. cbv zeta.
  repeat match goal with
  | |- context [String.eqb k1 ?s] => destruct (String.eqb_spec k1 s) as [->|?]; [cbn [mbind outcome_bind]|]
  end;
  repeat match goal with
  | |- context [String.eqb k2 ?s] => destruct (String.eqb_spec k2 s) as [->|?]; [try congruence|]
  end.
  all: try congruence; try exact id.
  all: match goal with |- context [ParseBool ?v] => destruct (ParseBool v) end; simpl; (done || exact id).
Qed.

(** ** Watchers *)

(** The lifetime watchers that run: started by NewLifetimeWatcher, ended by Stop,
    untouched by everything else. *)
Class ApiLaws (A : Api) := {
  watching : api_world -> gset nat;
  law_Watcher c s w : wp (NewLifetimeWatcher c s) (fun o w' => match o with
    | Ret n => n ∉ watching w /\ watching w' = {[ n ]} ∪ watching w
    | _ => watching w' = watching w
    end) w;
  law_Stop n w : wp (Watcher_Stop n) (fun o w' => o = Ret tt /\ watching w' = watching w ∖ {[ n ]}) w;
  law_DefaultConfig w : wp api_DefaultConfig (fun _ w' => watching w' = watching w) w;
  law_NewClient c w : wp (api_NewClient c) (fun _ w' => watching w' = watching w) w;
  law_Renew c w : wp (RenewTokenAsSelf c) (fun _ w' => watching w' = watching w) w;
  law_Write c p d w : wp (Logical_Write c p d) (fun _ w' => watching w' = watching w) w;
}.

Section watchers.
Context `{AL : ApiLaws} `{RangeOrder}.
Context (ParsePath : string -> string * option error) (getenv : string -> string).

(** A statement that touches no watcher, then the rest. *)
Lemma wp_quiet {B C} (m : prog api_world B) (f : B -> prog api_world C) Q w :
  wp m (fun _ w' => watching w' = watching w) w ->
  (forall a w', watching w' = watching w -> wp (f a) Q w') ->
  (forall e w', watching w' = watching w -> Q (Fail e) w') ->
  (forall w', watching w' = watching w -> Q Panic w') ->
  wp (m ≫= f) Q w.
Proof.
  intros Hm Hf He Hp. rewrite wp_bind. eapply wp_mono; [|exact Hm].
  intros [a|e|] w' Hw; auto.
Qed.

Lemma wp_quiet_lift {B C} (o : outcome B) (f : B -> prog api_world C) Q w :
  (forall a, wp (f a) Q w) -> (forall e, Q (Fail e) w) -> Q Panic w ->
  wp (lift o ≫= f) Q w.
Proof. intros Hf He Hp. rewrite wp_bind, wp_lift. destruct o; auto. Qed.

(** The watchers after making a client [c]. *)
Definition watched_by (c : TransitClient) (l : gset nat) : gset nat :=
  match tc_lifetimeWatcher c with Some n => {[ n ]} ∪ l | None => l end.

Definition fresh_watcher (c : TransitClient) (l : gset nat) : Prop :=
  match tc_lifetimeWatcher c with Some n => n ∉ l | None => True end.

Lemma wp_api_connect opts disallow a t n w :
  wp (api_connect opts disallow a t n) (fun _ w' => watching w' = watching w) w.
Proof.
  unfold api_connect. apply wp_quiet; try done.
  - destruct disallow; [done|apply law_DefaultConfig].
  - intros c w1 H1. apply wp_quiet_lift; try done. intros c2.
    apply wp_quiet; try (intros; congruence). apply law_NewClient.
Qed.

Lemma wp_newTransitClient opts w :
  wp (newTransitClient getenv opts) (fun o w' => match o with
    | Ret (c, _) => fresh_watcher c (watching w) /\ watching w' = watched_by c (watching w)
    | _ => watching w' = watching w
    end) w.
Proof.
  unfold newTransitClient. destruct (String.eqb _ ""); [done|]. destruct (String.eqb _ ""); [done|].
  apply wp_quiet_lift; try done. intros dr. cbv zeta. apply wp_quiet; try done.
  { apply wp_api_connect. }
  intros c w1 H1. rewrite wp_bind.
  assert (Hs : wp (start_watcher c dr) (fun o w' => match o with
    | Ret (Some n) => n ∉ watching w /\ watching w' = {[ n ]} ∪ watching w
    | _ => watching w' = watching w
    end) w1).
  { unfold start_watcher. destruct (negb dr && _); [|done]. rewrite wp_bind, wp_attempt.
    eapply wp_mono; [|apply law_Renew]. intros [s|e|] w2 H2; [|unfold wp, lift, mret, prog_ret; congruence..].
    rewrite wp_bind. eapply wp_mono; [|apply law_Watcher].
    intros [n|e|] w3 H3; [|congruence..]. unfold wp, mret, prog_ret.
    by rewrite H2, H1 in H3. }
  eapply wp_mono; [|exact Hs]. intros [wt|e|] w2 H2; [|done..].
  unfold wp, mret, prog_ret, fresh_watcher, watched_by. simpl. by destruct wt.
Qed.

Lemma wp_close_fresh c l w :
  fresh_watcher c l -> watching w = watched_by c l ->
  wp (client_Close c) (fun o w' => o = Ret tt /\ watching w' = l) w.
Proof.
  unfold fresh_watcher, watched_by, client_Close. destruct (tc_lifetimeWatcher c) as [n|]; [|done].
  intros Hf Hw. eapply wp_mono; [|apply law_Stop]. intros o w' [-> ->]. split; [done|].
  rewrite Hw. set_solver.
Qed.

Lemma wp_Encrypt_quiet pt s (w : api_world) :
  wp (Encrypt pt) (fun _ p => tw_client (fst p) = tw_client s /\ watching (snd p) = watching w) (s, w).
Proof.
  unfold Encrypt, the_client. rewrite wp_bind, wp_bind, wp_get, wp_lift. cbn [fst].
  destruct (tw_client s) as [c|] eqn:Hc; [|done].
  rewrite wp_bind. unfold in_api. rewrite wp_zoom. cbn [fst snd].
  assert (Hq : wp (client_Encrypt c pt) (fun _ w' => watching w' = watching w) w).
  { unfold client_Encrypt, client_write. apply wp_quiet; try done; [apply law_Write|].
    intros sec w1 H1. apply wp_quiet_lift; try done. }
  eapply wp_mono; [|exact Hq]. intros [ct|e|] w1 H1; [|done..].
  repeat case_match; try done.
Qed.
End watchers.

(** ** The wrapper's promise *)
Section promise.
Context `{A : Api} {L : Type} `{RangeOrder}.
Context (ParsePath : string -> string * option error) (getenv : string -> string).

(** What the Transit engine behind a client promises, in terms of its requests and answers.
    [tm_sealed ct pt]: the engine made the text [ct] of [pt]; [tm_usable ct w]: in [w] the
    engine still decrypts [ct] for the client, its key not deleted and its version not
    below the minimal one; a text it has just made is usable.  The mount path and the key
    name are ones path.Join leaves as they are. *)
Record transit_mount (c : TransitClient) := {
  tm_usable : string -> api_world -> Prop;
  tm_sealed : string -> bytes -> Prop;
  tm_mount : clean_path (tc_mountPath c) = true;
  tm_name : clean_path (tc_keyName c) = true;
  tm_encrypt : forall pt w data ct w',
    Logical_Write (tc_client c) (tc_mountPath c +:+ "/encrypt/" +:+ tc_keyName c)
      {[ "plaintext" := RStr (b64_EncodeToString StdEncoding pt) ]} w = (Ret (Some (mkSecret (Some data))), w') ->
    data !! "ciphertext" = Some (RStr ct) -> tm_sealed ct pt /\ tm_usable ct w';
  tm_decrypt : forall pt ct w, tm_sealed ct pt -> tm_usable ct w ->
    exists data w',
      Logical_Write (tc_client c) (tc_mountPath c +:+ "/decrypt/" +:+ tc_keyName c) {[ "ciphertext" := RStr ct ]} w =
        (Ret (Some (mkSecret (Some data))), w') /\
      data !! "plaintext" = Some (RStr (b64_EncodeToString StdEncoding pt));
}.

Definition transit_configured (p : transitWrapper * api_world) : Prop :=
  exists c (_ : transit_mount c), tw_client (fst p) = Some c.

Lemma client_write_clean c op data (m : transit_mount c) : clean_path op = true ->
  client_write c op data = Logical_Write (tc_client c) (tc_mountPath c +:+ "/" +:+ op +:+ "/" +:+ tc_keyName c) data.
Proof. intros Ho. unfold client_write. by rewrite path_Join_clean by first [done | apply m]. Qed.

Lemma response_field_Ret op name r s : response_field op name r = Ret s ->
  exists data, r = Some (mkSecret (Some data)) /\ data !! name = Some (RStr s).
Proof.
  unfold response_field. destruct r as [[[data|]]|]; cbn [sec_Data]; [|done..].
  destruct (data !! name) as [[]|] eqn:E; cbn; try done. intros [= ->]. by exists data.
Qed.

Lemma response_field_some op name data s : data !! name = Some (RStr s) ->
  response_field op name (Some (mkSecret (Some data))) = Ret s.
Proof. intros Hn. unfold response_field. cbn [sec_Data]. by rewrite Hn. Qed.

Lemma client_Decrypt_usable c (m : transit_mount c) ct pt w : tm_sealed c m ct pt -> tm_usable c m ct w ->
  exists w', client_Decrypt c (bytes_of_string ct) w = (Ret pt, w').
Proof.
  intros Hs Hu. destruct (tm_decrypt c m pt ct w Hs Hu) as (data & w' & Hd & Hp). exists w'.
  unfold client_Decrypt. rewrite (client_write_clean c "decrypt" _ m), string_of_bytes_of_string by done.
  rewrite (pbind_run _ _ _ _ _ Hd), lift_bind, (response_field_some _ _ _ _ Hp). unfold lift.
  by rewrite b64_decode_encode by (by left).
Qed.

Lemma Encrypt_Ret pt s w b p' :
  Encrypt pt (s, w) = (Ret b, p') ->
  exists c r ct v rest w1, tw_client s = Some c /\
    client_write c "encrypt" {[ "plaintext" := RStr (b64_EncodeToString StdEncoding (content pt)) ]} w
      = (Ret r, w1) /\
    response_field "encrypt" "ciphertext" r = Ret ct /\
    Split ct ":" = [rest; v; default "" (Split ct ":" !! 2)] /\
    b = mkBlobInfo (Some (bytes_of_string ct)) None (Some (mkKeyInfo 0 (tw_keyIdPrefix s +:+ v) None)) /\
    p' = (mkTransitWrapper (tw_logger s) (Some c) (tw_keyIdPrefix s +:+ v) (tw_keyIdPrefix s), w1).
Proof.
  unfold Encrypt, the_client. intros (c & p1 & Hc & He)%pbind_Ret.
  rewrite get_bind in Hc. cbn [fst] in Hc. unfold lift in Hc.
  destruct (tw_client s) as [c0|] eqn:Hs; [|done]. injection Hc as -> <-.
  apply pbind_Ret in He as (ct & p2 & Hct & He). unfold in_api, zoom in Hct. cbn [fst snd] in Hct.
  unfold client_Encrypt in Hct.
  match type of Hct with (let (_, _) := ?m in _) = _ => destruct m as [o w1] eqn:Hm end.
  injection Hct as -> <-. apply pbind_Ret in Hm as (r & w2 & Hr & Hm).
  rewrite lift_bind in Hm. destruct (response_field _ _ r) as [cts|e|] eqn:Hf; [|done..].
  injection Hm as <- ->. rewrite string_of_bytes_of_string in He.
  destruct (Split cts ":") as [|x [|v [|y [|]]]] eqn:Hsp; try done.
  injection He as <- <-. exists c, r, cts, v, x, w1. rewrite Hsp, Hs. by split_and!.
Qed.
End promise.

(** ** Properties *)

(** the options of the Transit wrapper do not depend on the order in which the
    configuration map is iterated: two runs agree on whether they succeed and on
    the result. *)
Theorem transit_getOpts_order (R1 R2 : RangeOrder) ParsePath {L} (opt : list (Opt L)) o :
  getOpts (H := R1) ParsePath opt = Ret o <-> getOpts (H := R2) ParsePath opt = Ret o.
Proof.
  unfold getOpts. destruct (GetOpts opt) as [g|e|]; [|done..]. cbn [mbind outcome_bind].
  set (init := mk_options _ _ _ _ _ _ _ _ _ _ _ _ _ _ _ _ _).
  pose proof (range_loop_order config_step config_step_comm
    (range_order (RangeOrder := R1) (WithConfigMap_ (o_RPC g)))
    (range_order (RangeOrder := R2) (WithConfigMap_ (o_RPC g))) init) as Ho.
  destruct (range_loop config_step (range_order (RangeOrder := R1) _) init) as [a|e|],
    (range_loop config_step (range_order (RangeOrder := R2) _) init) as [b|e'|];
    cbn [mbind outcome_bind]; try done; specialize (Ho ltac:(by rewrite !range_order_perm)
      ltac:(apply range_order_NoDup)).
  - assert (a = b) as -> by (specialize (Ho a); naive_solver). done.
  - specialize (Ho a). naive_solver.
  - specialize (Ho a). naive_solver.
  - specialize (Ho b). naive_solver.
  - specialize (Ho b). naive_solver.
Qed.

(** C39: the Transit wrapper keeps the promise of the interface, with a server that keeps
    the promise of the Transit engine for the wrapper's mount path and key name (both
    ones path.Join leaves as they are): a configured wrapper decrypts the blob it has just
    encrypted, in the state right after, and stays configured; and the blob is decrypted
    by every wrapper with the same client in every later state in which the server may
    still decrypt the ciphertext (the key not deleted, its version not below the minimal
    decryption version). *)
Theorem transit_wrapper_promise `{A : Api} {L} `{RangeOrder} ParsePath getenv :
  WrapperSpec (transit_wrapper (L := L) ParsePath getenv) transit_configured /\
  forall c (m : transit_mount c) s w pt b p', tw_client s = Some c -> Encrypt pt (s, w) = (Ret b, p') ->
  forall s2 w2, tw_client s2 = Some c -> tm_usable c m (string_of_bytes (content (bi_Ciphertext b))) w2 ->
    (Decrypt (Some b) (s2, w2)).1 = Ret (Some (content pt)).
Proof.
  assert (Hdec : forall c (m : transit_mount c) s w ct pt b, tw_client s = Some c -> tm_sealed c m ct pt ->
    tm_usable c m ct w -> content (bi_Ciphertext b) = bytes_of_string ct ->
    (Decrypt (Some b) (s, w)).1 = Ret (Some pt)).
  { intros c m s w ct pt b Hc Hs Hu Hb. destruct (client_Decrypt_usable c m ct pt w Hs Hu) as [w' Hd].
    unfold Decrypt, the_client, mbind, prog_bind, get, lift, in_api, zoom. cbn [fst snd]. by rewrite Hc, Hb, Hd. }
  assert (Henc : forall c (m : transit_mount c) s w pt b p', tw_client s = Some c -> Encrypt pt (s, w) = (Ret b, p') ->
    exists ct, content (bi_Ciphertext b) = bytes_of_string ct /\ tm_sealed c m ct (content pt) /\
      tm_usable c m ct p'.2 /\ tw_client p'.1 = Some c).
  { intros c m s w pt b p' Hc He.
    apply Encrypt_Ret in He as (c' & r & ct & v & rest & w1 & Hc' & Hr & Hf & _ & -> & ->).
    rewrite Hc in Hc'. injection Hc' as <-. exists ct. split; [done|].
    apply response_field_Ret in Hf as (data & -> & Hct). rewrite (client_write_clean c "encrypt" _ m) in Hr by done.
    by destruct (tm_encrypt c m _ _ _ _ _ Hr Hct). }
  split; [split|].
  - intros [s w] p' pt opts opts' blob blob' (c & m & Hc) He _ (Hct & _ & _).
    apply pbind_Ret in He as (b & p1 & He & Hb). injection Hb as <- <-.
    destruct (Henc c m s w pt b p1 Hc He) as (ct & Hb & Hs & Hu & Hc1). destruct p1 as [s1 w1].
    exists (Some (content pt)). split; [|done]. unfold slice_equiv in Hct. rewrite Hb in Hct.
    apply (Hdec c m s1 w1 ct); auto.
  - intros [s w] p' pt opts blob (c & m & Hc) He.
    apply pbind_Ret in He as (b & p1 & He & Hb). injection Hb as <- <-.
    exists c, m. by destruct (Henc c m s w pt b p1 Hc He) as (ct & _ & _ & _ & ?).
  - intros [s w] p' blob opts r (c & m & Hc) He.
    exists c, m. cbn [fst] in *. apply pbind_Ret in He as (c' & p1 & H1 & He). unfold the_client in H1.
    rewrite get_bind in H1. injection H1 as _ <-.
    apply pbind_Ret in He as (b & p2 & H2 & He). injection H2 as _ <-.
    apply pbind_Ret in He as (pt & p3 & H3 & He). injection He as _ <-.
    unfold in_api, zoom in H3. destruct (client_Decrypt _ _ _). by injection H3 as _ <-.
  - intros c m s w pt b p' Hc He s2 w2 Hc2 Hu. destruct (Henc c m s w pt b p' Hc He) as (ct & Hb & Hs & _).
    rewrite Hb, string_of_bytes_of_string in Hu. by apply (Hdec c m s2 w2 ct).
Qed.

(** SetConfig of the Transit wrapper starts at most one lifetime watcher, and
    exactly the one its client holds; when it fails at any step, the trial
    encryption included, no watcher it started is left running. Finalize stops the
    client's watcher. *)
Theorem transit_watchers `{AL : ApiLaws} `{RangeOrder} ParsePath getenv {L} (opt : list (Opt L))
    (s : transitWrapper) (w : api_world) :
  wp (SetConfig ParsePath getenv opt) (fun o p => match o with
    | Ret _ => exists c, tw_client (fst p) = Some c /\ fresh_watcher c (watching w) /\
        watching (snd p) = watched_by c (watching w) /\
        wp Finalize (fun o' p' => o' = Ret tt /\ watching (snd p') = watching w) p
    | Fail _ => watching (snd p) = watching w
    | Panic => True
    end) (s, w).
Proof.
  unfold SetConfig. rewrite wp_bind, wp_lift. destruct (getOpts ParsePath opt) as [opts|e|]; [|done..].
  rewrite wp_bind. unfold update at 1. rewrite wp_modify. cbn [fst snd].
  rewrite wp_bind. unfold in_api at 1. rewrite wp_zoom. cbn [fst snd].
  eapply wp_mono; [|apply wp_newTransitClient]. intros [[c md]|e|] w1 H1; [|done..].
  destruct H1 as [Hf H1]. rewrite wp_bind. unfold update at 1. rewrite wp_modify. cbn [fst snd].
  rewrite wp_bind, wp_attempt. eapply wp_mono; [|apply wp_Encrypt_quiet].
  intros o [s2 w2] [Hc H2]. cbn [fst snd tw_client] in *. rewrite H1 in H2. destruct o as [b|e|]; [| |done].
  - unfold wp at 1, mret, prog_ret. exists c. split_and!; [done..|].
    unfold Finalize, the_client. rewrite wp_bind, wp_bind, wp_get, wp_lift. cbn [fst]. rewrite Hc.
    unfold in_api. rewrite wp_zoom. cbn [fst snd]. by apply (wp_close_fresh c (watching w)).
  - rewrite wp_bind. unfold in_api. rewrite wp_zoom. cbn [fst snd].
    eapply wp_mono; [|by apply (wp_close_fresh c (watching w))].
    by intros [[]|e'|] w3 [? ?].
Qed.

(** ** Witnesses: a server that stores plaintexts, and counts watchers *)
Definition toy_transit (path : string) (data : gmap string rval) : outcome (option secret) :=
  if String.eqb path "transit/encrypt/k" then
    match data !! "plaintext" with
    | Some (RStr p) => Ret (Some (mkSecret (Some {[ "ciphertext" := RStr ("vault:v3:" +:+ p) ]})))
    | _ => Fail (ErrLeaf "400")
    end
  else
    match data !! "ciphertext" with
    | Some (RStr c) => Ret (Some (mkSecret (Some {[ "plaintext" := RStr (TrimPrefix c "vault:v3:") ]})))
    | _ => Fail (ErrLeaf "400")
    end.

Definition toy_api : Api := {|
  api_world := gset nat;
  api_config := unit;
  api_client := unit;
  api_DefaultConfig := lift (Ret tt);
  api_NewConfig := tt;
  set_Address a c := c;
  ConfigureTLS t c := Ret c;
  api_NewClient c := lift (Ret tt);
  SetToken t c := c;
  SetNamespace n c := c;
  client_Token c := "t";
  client_Address c := "https://127.0.0.1:8200";
  Logical_Write c p d := lift (toy_transit p d);
  Logical_Read c p := lift (Fail (ErrLeaf "404"));
  RenewTokenAsSelf c := lift (Ret (mkSecret None));
  NewLifetimeWatcher c s := fun l => let n := fresh l in (Ret n, {[ n ]} ∪ l);
  Watcher_Stop n := fun l => (Ret tt, l ∖ {[ n ]});
|}.

Definition toy_api_laws : ApiLaws toy_api.
Proof.
  refine {| watching := fun l : api_world (Api := toy_api) => l |}; intros; unfold wp; cbn -[fresh];
    try done.
  split; [apply is_fresh|done].
Defined.

#[local] Existing Instance toy_api.
#[local] Existing Instance toy_api_laws.
#[local] Existing Instance default_order.

Definition demo_options (mount : string) : list (Opt Empty_set) :=
  [WithDisallowEnvVars true;
   WithConfigMap (<["mount_path" := mount]> (<["key_name" := "k"]> {[ "key_id_prefix" := "eu-" ]}))].

Definition demo_set (mount : string) : outcome WrapperConfig * (transitWrapper * gset nat) :=
  SetConfig (fun s => (s, None)) (fun _ => "") (demo_options mount) (NewWrapper, {[ 4 ]}).

(** A wrong mount makes the trial encryption fail, and the watcher is gone. *)
Lemma transit_watchers_witness :
  is_ret (fst (demo_set "transit")) = true /\ snd (snd (demo_set "wrong")) = {[ 4 ]}.
Proof.
  split; [vm_compute; reflexivity|].
  pose proof (transit_watchers (AL := toy_api_laws) (fun s => (s, None)) (fun _ => "") (demo_options "wrong")
    NewWrapper {[ 4 ]}) as Hw.
  change (wp (fun _ : transitWrapper * gset nat => demo_set "wrong") (fun o p => match o with
    | Ret _ => exists c, tw_client (fst p) = Some c /\ fresh_watcher c (watching {[ 4 ]}) /\
        watching (snd p) = watched_by c (watching {[ 4 ]}) /\
        wp Finalize (fun o' p' => o' = Ret tt /\ watching (snd p') = watching {[ 4 ]}) p
    | Fail _ => watching (snd p) = watching {[ 4 ]}
    | Panic => True
    end) (NewWrapper, {[ 4 ]})) in Hw.
  unfold wp at 1 in Hw. destruct (demo_set "wrong") as [o p] eqn:He.
  assert (Ho : is_ret o = false) by (apply (f_equal fst) in He; cbn [fst] in He; subst o; vm_compute; reflexivity).
  destruct o as [c|e|]; [discriminate Ho|exact Hw|].
  apply (f_equal fst) in He. vm_compute in He. discriminate He.
Defined.

Definition demo_client : TransitClient := mkTransitClient tt None "transit" "k".

Definition demo_wrapper : transitWrapper := mkTransitWrapper None (Some demo_client) "" "eu-".

Definition demo_mount : transit_mount demo_client.
Proof.
  refine {| tm_usable _ _ := True; tm_sealed ct pt := ct = "vault:v3:" +:+ b64_EncodeToString StdEncoding pt |};
    [reflexivity|reflexivity|..].
  - intros pt w data ct w' Hw Hct. cbn [Logical_Write toy_api demo_client tc_client] in Hw.
    change (tc_mountPath demo_client +:+ "/encrypt/" +:+ tc_keyName demo_client) with "transit/encrypt/k" in Hw.
    unfold toy_transit in Hw. rewrite String.eqb_refl, lookup_singleton_eq in Hw. unfold lift in Hw. injection Hw as <- <-.
    rewrite lookup_singleton_eq in Hct. by injection Hct as <-.
  - intros pt ct w -> _. eexists _, w. cbn [Logical_Write toy_api demo_client tc_client].
    change (tc_mountPath demo_client +:+ "/decrypt/" +:+ tc_keyName demo_client) with "transit/decrypt/k".
    unfold toy_transit. change (String.eqb "transit/decrypt/k" "transit/encrypt/k") with false. cbv iota.
    rewrite lookup_singleton_eq, TrimPrefix_app. split; [reflexivity|]. by rewrite lookup_singleton_eq.
Defined.

Lemma transit_wrapper_promise_witness :
  exists blob p', w_Encrypt (Wrapper := transit_wrapper (L := Empty_set) (fun s => (s, None)) (fun _ => ""))
      (Some ["h"%char]) [] (demo_wrapper, ∅) = (Ret (Some blob), p') /\
    transit_configured p'.
Proof.
  eexists _, _. split; [vm_compute; reflexivity|].
  eapply (spec_keeps_encrypt (WrapperSpec := proj1 (transit_wrapper_promise (L := Empty_set)
    (fun s => (s, None)) (fun _ => ""))) (demo_wrapper, ∅) _ (Some ["h"%char]) []).
  - exists demo_client, demo_mount. reflexivity.
  - vm_compute. reflexivity.
Defined.
