(* ===== verification/Plugin.v ===== *)
(** * The plugin protocol: what both of its services share

    plugin/plugin.go, plugin/metadata_server.go, plugin/metadata_client.go.  The
    gRPC library is a parameter: the class [Grpc] has the status of an error and
    the unary call, [GrpcLaws] their documented behaviour.  The messages are the
    records of the .proto files, with what decoding makes of a message that was
    encoded. *)
From S2P Require Import Prelude Wrapping Kms.

Local Open Scope Z_scope.

Definition ErrPluginShutdown : error := ErrSentinel "plugin is shut down".

Definition ErrNoInstance : error := ErrSentinel "instance not found".

(** gRPC status codes. *)
Definition codes_OK : Z := 0.
Definition codes_Canceled : Z := 1.
Definition codes_Unknown : Z := 2.
Definition codes_InvalidArgument : Z := 3.
Definition codes_DeadlineExceeded : Z := 4.
Definition codes_NotFound : Z := 5.
Definition codes_Unimplemented : Z := 12.
Definition codes_Unavailable : Z := 14.

(** ** Messages

    Decoding an encoded message turns an empty bytes field into a nil slice and
    keeps everything else; encoding fails on a string that is not UTF-8, so the
    strings of a message matter. *)
Class Message (A : Type) := {
  decoded : A -> A;
  strings : A -> list string;
  strings_decoded : forall a, strings (decoded a) = strings a;
}.

Definition wire_bytes (s : slice) : slice := to_slice (content s).

#[export] Program Instance unit_message : Message unit := {| decoded u := u; strings u := [] |}.
Next Obligation. done. Qed.

#[export] Program Instance string_message : Message string :=
  {| decoded s := s; strings s := [s] |}.
Next Obligation. done. Qed.

#[export] Program Instance slice_message : Message slice :=
  {| decoded := wire_bytes; strings s := [] |}.
Next Obligation. done. Qed.

#[export] Program Instance option_message {A} `{Message A} : Message (option A) :=
  {| decoded o := decoded <$> o; strings o := from_option strings [] o |}.
Next Obligation. intros A ? [a|]; simpl; [apply strings_decoded | done]. Qed.

#[export] Program Instance pair_message {A B} `{Message A, Message B} : Message (A * B) :=
  {| decoded p := (decoded p.1, decoded p.2); strings p := strings p.1 ++ strings p.2 |}.
Next Obligation. intros. simpl. by rewrite !strings_decoded. Qed.

Definition map_strings (m : gmap string string) : list string :=
  map_to_list m ≫= fun kv => [kv.1; kv.2].

#[export] Program Instance RPCOptions_message : Message RPCOptions := {|
  decoded o := mkRPCOptions (WithKeyId_ o) (wire_bytes (WithAad_ o)) (WithConfigMap_ o)
                 (WithDisallowEnvVars_ o);
  strings o := WithKeyId_ o :: map_strings (WithConfigMap_ o);
|}.
Next Obligation. done. Qed.

#[export] Program Instance WrapperConfig_message : Message WrapperConfig :=
  {| decoded c := c; strings c := map_strings (wc_Metadata c) |}.
Next Obligation. done. Qed.

#[export] Program Instance KeyInfo_message : Message KeyInfo := {|
  decoded k := mkKeyInfo (ki_Mechanism k) (ki_KeyId k) (wire_bytes (ki_WrappedKey k));
  strings k := [ki_KeyId k];
|}.
Next Obligation. done. Qed.

#[export] Program Instance BlobInfo_message : Message BlobInfo := {|
  decoded b := mkBlobInfo (wire_bytes (bi_Ciphertext b)) (wire_bytes (bi_Iv b))
                 (decoded (bi_KeyInfo b));
  strings b := strings (bi_KeyInfo b);
|}.
Next Obligation. intros [? ? [k|]]; done. Qed.

Lemma wire_bytes_equiv s : slice_equiv (wire_bytes s) s.
Proof. apply content_to_slice. Qed.

Lemma decoded_blob_equiv b : blob_equiv (decoded b) b.
Proof.
  destruct b as [c i [k|]]; split_and!; try apply wire_bytes_equiv; simpl; constructor.
  split_and!; [done..|]. apply wire_bytes_equiv.
Qed.

(** ** gRPC *)
Class Grpc (conn : Type) := {
  (** [status.FromError]: the code and message of an error, [OK] for nil. *)
  FromError : option error -> Z * string;
  (** [utf8.ValidString]. *)
  ValidString : string -> bool;
  (** The connection can carry a call. *)
  up : conn -> Prop;
  (** A unary call of a server's method over a connection. *)
  rpc : forall {Srv Req Resp : Type} `{Message Req} `{Message Resp},
    (Req -> prog Srv Resp) -> Req -> prog (conn * Srv) Resp;
}.

Definition encodable `{Grpc conn} {A} `{Message A} (a : A) : bool :=
  forallb ValidString (strings a).

(** An error that is not a status and wraps none. *)
Fixpoint plain (e : error) : bool :=
  match e with
  | ErrStatus _ _ => false
  | ErrNode _ es => forallb plain es
  | _ => true
  end.

(** [context.Canceled] and [context.DeadlineExceeded]. *)
Definition context_Canceled : string := "context canceled".
Definition context_DeadlineExceeded : string := "context deadline exceeded".

Definition context_error (e : error) : bool :=
  errors_Is context_DeadlineExceeded e || errors_Is context_Canceled e.

(** [status.FromContextError]. *)
Definition FromContextError (e : error) : Z * string :=
  if errors_Is context_DeadlineExceeded e then (codes_DeadlineExceeded, err_msg e)
  else if errors_Is context_Canceled e then (codes_Canceled, err_msg e)
  else (codes_Unknown, err_msg e).

(** The status a server sends for a method's error: the error's own if it has or
    wraps one ([from_error] is [status.FromError]), or that of
    [status.FromContextError]. *)
Definition sent_by (from_error : option error -> Z * string) (e : error) : Z * string :=
  if plain e then FromContextError e else from_error (Some e).

Definition sent `{Grpc conn} (e : error) : Z * string := sent_by FromError e.

Class GrpcLaws (conn : Type) (G : Grpc conn) := {
  FromError_nil : FromError None = (codes_OK, "");
  FromError_status : forall c m, FromError (Some (ErrStatus c m)) = (c, m);
  FromError_plain : forall e, plain e = true -> FromError (Some e) = (codes_Unknown, err_msg e);
  (** A connection that is up delivers both messages. *)
  rpc_ok : forall {Srv Req Resp : Type} `{Message Req} `{Message Resp}
      (h : Req -> prog Srv Resp) req c s r s',
    up c -> encodable req = true -> h (decoded req) s = (Ret r, s') -> encodable r = true ->
    exists c', rpc h req (c, s) = (Ret (decoded r), (c', s')) /\ up c';
  (** An error of the method arrives with the status the server sends for it. *)
  rpc_fail : forall {Srv Req Resp : Type} `{Message Req} `{Message Resp}
      (h : Req -> prog Srv Resp) req c s e s',
    up c -> encodable req = true -> h (decoded req) s = (Fail e, s') -> fst (sent e) <> codes_OK ->
    exists c' e', rpc h req (c, s) = (Fail e', (c', s')) /\ up c' /\
      FromError (Some e') = sent e;
  (** A call that succeeds ran the method, once. *)
  rpc_sound : forall {Srv Req Resp : Type} `{Message Req} `{Message Resp}
      (h : Req -> prog Srv Resp) req c s r c' s',
    rpc h req (c, s) = (Ret r, (c', s')) ->
    encodable req = true /\ (up c -> up c') /\
    exists r0, h (decoded req) s = (Ret r0, s') /\ encodable r0 = true /\ r = decoded r0;
  (** However a call ends, the method ran once or not at all. *)
  rpc_state : forall {Srv Req Resp : Type} `{Message Req} `{Message Resp}
      (h : Req -> prog Srv Resp) req c s,
    snd (snd (rpc h req (c, s))) = s \/
    snd (snd (rpc h req (c, s))) = snd (h (decoded req) s);
}.

(** What [handleRPCError] of both clients does, [unimplemented] being the one
    error they do not share. *)
Definition rpc_error `{Grpc conn} (unimplemented : error) (ctx_done : bool) (err : option error)
    : option error :=
  let (code, msg) := FromError err in
  if code =? codes_Unknown then Some (ErrLeaf msg)
  else if code =? codes_Unimplemented then Some unimplemented
  else if code =? codes_NotFound then Some ErrNoInstance
  else if ctx_done then Some ErrPluginShutdown
  else err.

(** ** Serving *)

Record Metadata := mkMetadata {
  SensitiveKMSFields : list string;
  SensitiveKeyFields : list string;
}.

(** Factories and loggers are opaque. *)
Record ServeOpts := mkServeOpts {
  KMSFactoryFunc : option nat;
  WrapperFactoryFunc : option nat;
  so_Metadata : Metadata;
  so_Logger : option nat;
}.

Inductive plugin_impl :=
| gRPCWrapperPlugin (factory : option nat) (logger : option nat)
| gRPCKMSPlugin (factory : option nat) (logger : option nat)
| gRPCMetadataPlugin (metadata : option Metadata).

(** The versioned plugins [Serve] hands to go-plugin; [default_logger] is the one
    it makes. *)
Definition Serve (default_logger : nat) (opts : ServeOpts) : gmap Z (gmap string plugin_impl) :=
  let logger := match so_Logger opts with None => Some default_logger | l => l end in
  let v1 : gmap string plugin_impl :=
    {[ "metadata" := gRPCMetadataPlugin (Some (so_Metadata opts)) ]} in
  let v1 := match KMSFactoryFunc opts with
    | Some f => <["kms" := gRPCKMSPlugin (Some f) logger]> v1
    | None => v1
    end in
  let v1 := match WrapperFactoryFunc opts with
    | Some f => <["wrapper" := gRPCWrapperPlugin (Some f) logger]> v1
    | None => v1
    end in
  {[ 1 := v1 ]}.

Definition PluginSets : gmap Z (gmap string plugin_impl) :=
  {[ 1 := <["kms" := gRPCKMSPlugin None None]> (<["wrapper" := gRPCWrapperPlugin None None]>
      {[ "metadata" := gRPCMetadataPlugin None ]}) ]}.

(** ** The metadata service *)
Section metadata.
Context {conn : Type} `{Grpc conn}.

#[export] Program Instance Metadata_message : Message Metadata := {|
  decoded m := m;
  strings m := SensitiveKMSFields m ++ SensitiveKeyFields m;
|}.
Next Obligation. done. Qed.

(** The response is built when the server is registered. *)
Definition metadata_GRPCServer (metadata : Metadata) : Metadata :=
  mkMetadata (SensitiveKMSFields metadata) (SensitiveKeyFields metadata).

Definition metadata_Get (req : unit) : prog Metadata Metadata := fun resp => (Ret resp, resp).

Definition metadata_GRPCClient (ctx_done : bool) : prog (conn * Metadata) Metadata :=
  r ← attempt (rpc metadata_Get tt);
  match r with
  | Fail err => lift (Fail (if ctx_done then ErrPluginShutdown else err))
  | Ret resp => mret (mkMetadata (SensitiveKMSFields resp) (SensitiveKeyFields resp))
  | Panic => lift Panic
  end.
End metadata.

(** ** A connection for evaluation: up until a method panics *)
Definition toy_FromError (e : option error) : Z * string :=
  match e with
  | None => (codes_OK, "")
  | Some (ErrStatus c m) => (c, m)
  | Some e => (codes_Unknown, err_msg e)
  end.

Definition toy_grpc : Grpc bool := {|
  FromError := toy_FromError;
  ValidString s := true;
  up c := c = true;
  rpc Srv Req Resp _ _ h req := fun '(c, s) =>
    if c : bool then
      match h (decoded req) s with
      | (Ret r, s') => (Ret (decoded r), (true, s'))
      | (Fail e, s') =>
          let (code, msg) := sent_by toy_FromError e in (Fail (ErrStatus code msg), (true, s'))
      | (Panic, s') => (Fail (ErrStatus codes_Unavailable "error reading from server: EOF"), (false, s'))
      end
    else (Fail (ErrStatus codes_Unavailable "connection refused"), (false, s));
|}.

Lemma toy_grpc_laws : GrpcLaws bool toy_grpc.
Proof.
  assert (He : forall (A : Type) (M : Message A) (a : A), @encodable bool toy_grpc A M a = true)
    by (intros; by apply List.forallb_forall).
  split; try done.
  - by intros [].
  - intros Srv Req Resp ? ? h req c s r s' -> _ Hh _. simpl. rewrite Hh. eauto.
  - intros Srv Req Resp ? ? h req c s e s' -> _ Hh _. simpl. rewrite Hh. unfold sent.
    exists true, (let (c, m) := sent_by toy_FromError e in ErrStatus c m).
    change (@FromError bool toy_grpc) with toy_FromError. by destruct (sent_by toy_FromError e).
  - intros Srv Req Resp ? ? h req [] s r c' s'; simpl; [|done].
    destruct (h (decoded req) s) as [[r0|e|] s0]; [|by destruct (sent_by toy_FromError e)|done].
    intros [= <- <- <-]. eauto 10.
  - intros Srv Req Resp ? ? h req [] s; simpl; [|by left].
    right. destruct (h (decoded req) s) as [[r0|e|] s0]; [done|by destruct (sent_by toy_FromError e)|done].
Qed.

(** ** Facts about errors and metadata *)
Section facts.
Context {conn : Type} `{G : Grpc conn, !GrpcLaws conn G}.

Lemma sent_plain e : plain e = true -> sent e = FromContextError e.
Proof. intros Hp. unfold sent, sent_by. by rewrite Hp. Qed.

Lemma sent_status c m : sent (ErrStatus c m) = (c, m).
Proof. apply FromError_status. Qed.

Lemma FromContextError_code e : fst (FromContextError e) <> codes_OK.
Proof. unfold FromContextError. by repeat case_match. Qed.

(** How a client reads a plain error of the method: a context error keeps its
    code and message as long as the client's own context lasts; every other is
    an error with the same message. *)
Definition reads_as (ctx_done : bool) (e r : error) : Prop :=
  if context_error e
  then if ctx_done then r = ErrPluginShutdown else FromError (Some r) = FromContextError e
  else r = ErrLeaf (err_msg e).

Lemma rpc_error_plain unimpl ctx_done e e' :
  plain e = true -> FromError (Some e') = sent e ->
  exists r, rpc_error unimpl ctx_done (Some e') = Some r /\ reads_as ctx_done e r.
Proof.
  intros Hp. rewrite sent_plain by done. unfold rpc_error, reads_as, context_error. intros Hf.
  rewrite Hf. revert Hf. unfold FromContextError.
  destruct (errors_Is context_DeadlineExceeded e), (errors_Is context_Canceled e); simpl; intros Hf;
    destruct ctx_done; eauto.
Qed.

Lemma rpc_error_NotFound unimpl ctx_done m e' :
  FromError (Some e') = sent (ErrStatus codes_NotFound m) ->
  rpc_error unimpl ctx_done (Some e') = Some ErrNoInstance.
Proof. intros Hf. unfold rpc_error. by rewrite Hf, sent_status. Qed.

Lemma rpc_error_some unimpl ctx_done e : is_Some (rpc_error unimpl ctx_done (Some e)).
Proof. unfold rpc_error. repeat case_match; eauto. Qed.

Lemma Serve_known logger opts v name p :
  Serve logger opts !! v ≫= (fun set => set !! name) = Some p ->
  is_Some (PluginSets !! v ≫= (fun set => set !! name)).
Proof.
  unfold Serve, PluginSets. destruct (decide (v = 1)) as [->|Hv];
    [|by rewrite lookup_singleton_ne by done].
  rewrite !lookup_singleton_eq. simpl.
  destruct (KMSFactoryFunc opts), (WrapperFactoryFunc opts);
    rewrite ?lookup_insert, ?lookup_singleton; repeat case_decide; simplify_eq; eauto; done.
Qed.
End facts.
