(* ===== verification/PluginWrapper.v ===== *)
(** * The wrapper service of a plugin

    plugin/wrapper_server.go and plugin/wrapper_client.go.  The server keeps one
    wrapper object per identifier; a client holds the identifier its SetConfig was
    given.  The implementation behind the server is any [Wrapper]; the client is
    one again, and keeps the promise of [WrapperSpec] that the implementation
    makes. *)
From S2P Require Import Prelude GoText GoEncoding Crypto Wrapping Static Plugin.

(** [uuid.GenerateUUID] of a third-party module, call by call. *)
Class Uuids := { GenerateUUID : nat -> outcome string }.

Class UuidLaws (U : Uuids) := {
  uuid_distinct : forall i j u, GenerateUUID i = Ret u -> GenerateUUID j = Ret u -> i = j;
  uuid_nonempty : forall i u, GenerateUUID i = Ret u -> u <> "";
}.

(** The requests, in the order of their fields: a text, the options, the
    identifier of the instance. *)
Abbreviation EncryptRequest := (slice * option RPCOptions * string)%type.

Abbreviation DecryptRequest := (option BlobInfo * option RPCOptions * string)%type.

Abbreviation SetConfigResponse := (option WrapperConfig * string)%type.

Definition no_options : RPCOptions := mkRPCOptions "" None ∅ false.

(** ** The server *)
Section server.
Context {L W : Type} {impl : Wrapper L W} (hooks : option (InitFinalizer L W)).
(** What the factory makes, and the plugin's logger. *)
Context (factory : W) (logger : option nat).
Context `{Uuids}.

Record server := mkServer { instances : gmap string W; uuids_drawn : nat }.

(** [GRPCServer]: a fresh service. *)
Definition new_server : server := mkServer ∅ 0.

Definition put_instance (id : string) (w : W) (s : server) : server :=
  mkServer (<[id := w]> (instances s)) (uuids_drawn s).

Definition drop_instance (id : string) (s : server) : server :=
  mkServer (delete id (instances s)) (uuids_drawn s).

Definition not_found {A} : outcome A := Fail (ErrStatus codes_NotFound (err_msg ErrNoInstance)).

(** [get]: the wrapper is a reference, so what a call does to it stays. *)
Definition on_instance {A} (id : string) (m : prog W A) : prog server A := fun s =>
  match instances s !! id with
  | None => (not_found, s)
  | Some w => let (o, w') := m w in (o, put_instance id w' s)
  end.

Definition draw_uuid : prog server string := fun s =>
  (GenerateUUID (uuids_drawn s), mkServer (instances s) (S (uuids_drawn s))).

Definition configure_options (opts : RPCOptions) : list (Opt L) :=
  [WithKeyId (WithKeyId_ opts); WithConfigMap (WithConfigMap_ opts);
   WithDisallowEnvVars (WithDisallowEnvVars_ opts); WithLogger logger].

Definition request_options (opts : RPCOptions) : list (Opt L) :=
  [WithAad (WithAad_ opts); WithKeyId (WithKeyId_ opts)].

Definition s_SetConfig (req : option RPCOptions) : prog server SetConfigResponse :=
  let opts := default no_options req in
  let (wc, wrapper) := w_SetConfig (configure_options opts) factory in
  wc ← lift wc;
  id ← draw_uuid;
  _ ← modify (put_instance id wrapper);
  mret (wc, id).

Definition s_Type (WrapperId : string) : prog server string := on_instance WrapperId w_Type.

Definition s_KeyId (WrapperId : string) : prog server string := on_instance WrapperId w_KeyId.

Definition s_Encrypt (req : EncryptRequest) : prog server (option BlobInfo) :=
  let '(plaintext, opts, id) := req in
  on_instance id (w_Encrypt plaintext (request_options (default no_options opts))).

Definition s_Decrypt (req : DecryptRequest) : prog server slice :=
  let '(ciphertext, opts, id) := req in
  on_instance id (w_Decrypt ciphertext (request_options (default no_options opts))).

Definition s_Init (req : option RPCOptions * string) : prog server unit :=
  on_instance req.2
    match hooks with Some initFinalizer => if_Init initFinalizer [] | None => mret tt end.

(** The instance goes first, so a failing hook does not keep it. *)
Definition s_Finalize (req : option RPCOptions * string) : prog server unit := fun s =>
  match instances s !! req.2 with
  | None => (not_found, s)
  | Some w =>
      let s := drop_instance req.2 s in
      match hooks with
      | Some initFinalizer => (fst (if_Finalize initFinalizer [] w), s)
      | None => (Ret tt, s)
      end
  end.

(** Any call the service can get. *)
Inductive call :=
| CallSetConfig (req : option RPCOptions)
| CallType (id : string)
| CallKeyId (id : string)
| CallEncrypt (req : EncryptRequest)
| CallDecrypt (req : DecryptRequest)
| CallInit (req : option RPCOptions * string)
| CallFinalize (req : option RPCOptions * string).

Definition serve (c : call) (s : server) : server :=
  match c with
  | CallSetConfig req => snd (s_SetConfig req s)
  | CallType id => snd (s_Type id s)
  | CallKeyId id => snd (s_KeyId id s)
  | CallEncrypt req => snd (s_Encrypt req s)
  | CallDecrypt req => snd (s_Decrypt req s)
  | CallInit req => snd (s_Init req s)
  | CallFinalize req => snd (s_Finalize req s)
  end.

(** The instance a call names. *)
Definition call_target (c : call) : option string :=
  match c with
  | CallSetConfig _ => None
  | CallType id | CallKeyId id | CallEncrypt (_, id) | CallDecrypt (_, id)
  | CallInit (_, id) | CallFinalize (_, id) => Some id
  end.

(** Every live identifier is one that was drawn. *)
Definition server_inv (s : server) : Prop :=
  forall id, is_Some (instances s !! id) ->
    exists i, i < uuids_drawn s /\ GenerateUUID i = Ret id.

(** ** The client *)
Context {conn : Type} `{Grpc conn}.

Record client := mkClient { wc_id : string; wc_ctx_done : bool }.

(** A client, its connection and the server at the other end. *)
Definition world : Type := client * (conn * server).

Definition handleRPCError (c : client) (err : option error) : option error :=
  rpc_error ErrFunctionNotImplemented (wc_ctx_done c) err.

Definition remote {A} (m : prog (conn * server) A) : prog world A :=
  zoom snd (fun t p => (fst p, t)) m.

(** [resp, err := c.client.M(req); if err != nil { return c.handleRPCError(err) }]. *)
Definition invoke {Req Resp} `{Message Req, Message Resp} (h : Req -> prog server Resp)
    (req : Req) : prog world Resp := fun p =>
  on_err (fun err => default err (handleRPCError (fst p) (Some err))) (remote (rpc h req)) p.

(** [_, err = c.client.M(req); return c.handleRPCError(err)]. *)
Definition invoke_unit {Req} `{Message Req} (h : Req -> prog server unit) (req : Req)
    : prog world unit := fun p =>
  (r ← attempt (remote (rpc h req));
   match r with
   | Panic => lift Panic
   | r => lift (of_err (handleRPCError (fst p) (err_of r)))
   end) p.

Definition c_SetConfig (options : list (Opt L)) : prog world (option WrapperConfig) :=
  p ← get;
  if negb (String.eqb (wc_id (fst p)) "") then lift (Fail (ErrLeaf "already configured"))
  else
    opts ← lift (GetOpts options);
    resp ← invoke s_SetConfig (Some (o_RPC opts));
    _ ← modify (fun p => (mkClient (snd resp) (wc_ctx_done (fst p)), snd p));
    mret (fst resp).

Definition c_Type : prog world string :=
  p ← get; invoke s_Type (wc_id (fst p)).

Definition c_KeyId : prog world string :=
  p ← get; invoke s_KeyId (wc_id (fst p)).

Definition c_Encrypt (pt : slice) (options : list (Opt L)) : prog world (option BlobInfo) :=
  opts ← lift (GetOpts options);
  p ← get;
  invoke s_Encrypt (pt, Some (o_RPC opts), wc_id (fst p)).

Definition c_Decrypt (ct : option BlobInfo) (options : list (Opt L)) : prog world slice :=
  opts ← lift (GetOpts options);
  p ← get;
  invoke s_Decrypt (ct, Some (o_RPC opts), wc_id (fst p)).

Definition c_Init (options : list (Opt L)) : prog world unit :=
  opts ← lift (GetOpts options);
  p ← get;
  invoke_unit s_Init (Some (o_RPC opts), wc_id (fst p)).

Definition c_Finalize (options : list (Opt L)) : prog world unit :=
  opts ← lift (GetOpts options);
  p ← get;
  invoke_unit s_Finalize (Some (o_RPC opts), wc_id (fst p)).

(** The client is a Wrapper, with hooks whatever the implementation has. *)
#[export] Instance plugin_wrapper : Wrapper L world := {|
  w_Type := c_Type;
  w_SetConfig := c_SetConfig;
  w_Encrypt := c_Encrypt;
  w_Decrypt := c_Decrypt;
  w_KeyId := c_KeyId;
|}.

Definition plugin_hooks : InitFinalizer L world := mkInitFinalizer c_Init c_Finalize.
End server.
Arguments server W : clear implicits.
Arguments world W conn : clear implicits.

(** ** The server by itself *)
Section server_facts.
Context {L W : Type} {impl : Wrapper L W} (hooks : option (InitFinalizer L W)).
Context (factory : W) (logger : option nat) `{UuidLaws}.

Lemma on_instance_other {A} id (m : prog W A) s id' :
  id' <> id -> instances (snd (on_instance id m s)) !! id' = instances s !! id'.
Proof.
  intros Hne. unfold on_instance. destruct (instances s !! id) as [w|] eqn:Hw; [|done].
  destruct (m w) as [o w']. simpl. by rewrite lookup_insert_ne.
Qed.

Lemma on_instance_dom {A} id (m : prog W A) s id' :
  is_Some (instances (snd (on_instance id m s)) !! id') <-> is_Some (instances s !! id').
Proof.
  destruct (decide (id' = id)) as [->|Hne]; [|by rewrite on_instance_other].
  unfold on_instance. destruct (instances s !! id) as [w|] eqn:Hw; [|simpl; by rewrite Hw].
  destruct (m w) as [o w']. simpl. rewrite lookup_insert_eq. split; eauto.
Qed.

Lemma on_instance_draws {A} id (m : prog W A) s :
  uuids_drawn (snd (on_instance id m s)) = uuids_drawn s.
Proof. unfold on_instance. destruct (instances s !! id); [by destruct (m w)|done]. Qed.

Lemma on_instance_Ret {A} id (m : prog W A) s a s' :
  on_instance id m s = (Ret a, s') ->
  exists w w', instances s !! id = Some w /\ m w = (Ret a, w') /\ s' = put_instance id w' s.
Proof.
  unfold on_instance, not_found. destruct (instances s !! id) as [w|]; [|done].
  destruct (m w) as [o w'] eqn:Hm. intros [= -> <-]. eauto.
Qed.

Lemma on_instance_inv {A} id (m : prog W A) s :
  server_inv s -> server_inv (snd (on_instance id m s)).
Proof. intros Hs id'. rewrite on_instance_dom, on_instance_draws. apply Hs. Qed.

Lemma drop_instance_inv id (s : server W) : server_inv s -> server_inv (drop_instance id s).
Proof. intros Hs id' Hl. apply Hs. simpl in Hl. by apply lookup_delete_is_Some in Hl as [_ ?]. Qed.

Lemma new_server_inv : server_inv (new_server (W := W)).
Proof. intros id [w Hw]. unfold new_server in Hw. simpl in Hw. by rewrite lookup_empty in Hw. Qed.

(** SetConfig either changes no instance, or adds the configured object under an
    identifier that was not there. *)
Lemma s_SetConfig_state req s :
  server_inv s ->
  let s' := snd (s_SetConfig factory logger req s) in
  server_inv s' /\
  (instances s' = instances s \/
   exists id wc w, instances s !! id = None /\ instances s' = <[id := w]> (instances s) /\
     w_SetConfig (configure_options logger (default no_options req)) factory = (Ret wc, w) /\
     fst (s_SetConfig factory logger req s) = Ret (wc, id)).
Proof.
  intros Hs. unfold s_SetConfig. destruct (w_SetConfig _ factory) as [[wc|e|] w]; run_prog;
    [|by split; [done|left]..].
  unfold draw_uuid, mbind, prog_bind.
  assert (Hdraw : server_inv (mkServer (instances s) (S (uuids_drawn s)))).
  { intros id Hl. destruct (Hs id Hl) as (i & Hi & Hu). exists i. simpl. split; [lia|done]. }
  destruct (GenerateUUID (uuids_drawn s)) as [u|e|] eqn:Hu; simpl; [|by split; [done|left]..].
  split.
  - intros id Hl. simpl in Hl. destruct (decide (id = u)) as [->|Hne].
    + exists (uuids_drawn s). simpl. split; [lia|done].
    + rewrite lookup_insert_ne in Hl by done. by apply Hdraw.
  - right. exists u, wc, w. split_and!; try done.
    destruct (instances s !! u) as [w'|] eqn:Hl; [|done].
    destruct (Hs u ltac:(eauto)) as (i & Hi & Hui).
    pose proof (uuid_distinct _ _ _ Hui Hu). lia.
Qed.

Lemma s_Finalize_state req s :
  snd (s_Finalize hooks req s) =
  if decide (is_Some (instances s !! req.2)) then drop_instance req.2 s else s.
Proof.
  unfold s_Finalize. destruct (instances s !! req.2) as [w|].
  - rewrite decide_True by eauto. by destruct hooks.
  - rewrite decide_False by (intros [? ?]; done). done.
Qed.
End server_facts.

(** ** Client and server together *)
Section refinement.
Context {L W conn : Type} {impl : Wrapper L W} (hooks : option (InitFinalizer L W)).
Context (factory : W) (logger : option nat) `{Uuids}.
Context `{G : Grpc conn, !GrpcLaws conn G}.

(** The client method [m] does what [d] does directly, over a connection that is
    up: values come back as the wire leaves them, plain errors as a client reads
    them, other instances are not touched. *)
Definition simulates {A} `{Message A} (m : prog (world W conn) A) (d : prog W A) : Prop :=
  forall c k s w, up k -> ValidString (wc_id c) = true -> instances s !! wc_id c = Some w ->
    match d w with
    | (Ret a, w') => encodable a = true ->
        exists k', m (c, (k, s)) = (Ret (decoded a), (c, (k', put_instance (wc_id c) w' s))) /\
          up k'
    | (Fail e, w') => plain e = true ->
        exists k' r, m (c, (k, s)) = (Fail r, (c, (k', put_instance (wc_id c) w' s))) /\ up k' /\
          reads_as (wc_ctx_done c) e r
    | (Panic, _) => True
    end.

Lemma invoke_Ret {Req Resp} `{Message Req, Message Resp} (h : Req -> prog (server W) Resp) req
    c k s r s' :
  up k -> encodable req = true -> h (decoded req) s = (Ret r, s') -> encodable r = true ->
  exists k', invoke h req (c, (k, s)) = (Ret (decoded r), (c, (k', s'))) /\ up k'.
Proof.
  intros Hk Hq Hh Hr. destruct (rpc_ok h req k s r s' Hk Hq Hh Hr) as (k' & He & Hk').
  exists k'. split; [|done]. unfold invoke, on_err, remote, zoom. simpl. by rewrite He.
Qed.

Lemma invoke_Fail {Req Resp} `{Message Req, Message Resp} (h : Req -> prog (server W) Resp) req
    c k s e s' :
  up k -> encodable req = true -> h (decoded req) s = (Fail e, s') -> fst (sent e) <> codes_OK ->
  exists k' e', invoke h req (c, (k, s)) =
    (Fail (default e' (handleRPCError c (Some e'))), (c, (k', s'))) /\ up k' /\
    FromError (Some e') = sent e.
Proof.
  intros Hk Hq Hh Hc. destruct (rpc_fail h req k s e s' Hk Hq Hh Hc) as (k' & e' & He & Hk' & Hf).
  exists k', e'. split; [|done]. unfold invoke, on_err, remote, zoom. simpl. by rewrite He.
Qed.

(** A success came from the server. *)
Lemma invoke_sound {Req Resp} `{Message Req, Message Resp} (h : Req -> prog (server W) Resp) req
    c k s r p' :
  invoke h req (c, (k, s)) = (Ret r, p') ->
  exists k' s' r0, p' = (c, (k', s')) /\ encodable req = true /\ (up k -> up k') /\
    h (decoded req) s = (Ret r0, s') /\ encodable r0 = true /\ r = decoded r0.
Proof.
  unfold invoke, on_err, remote, zoom. simpl.
  destruct (rpc h req (k, s)) as [o [k' s']] eqn:He. simpl. intros Heq.
  injection Heq as Ho <-. apply map_err_Ret in Ho as ->.
  apply rpc_sound in He as (Hq & Hk & r0 & Hh & Hr & ->). eauto 10.
Qed.

Lemma simulates_call {Req A} `{Message Req, Message A} (h : Req -> prog (server W) A)
    (req : client -> Req) (d : prog W A) :
  (forall c, ValidString (wc_id c) = true -> encodable (req c) = true) ->
  (forall c, h (decoded (req c)) = on_instance (wc_id c) d) ->
  simulates (p ← get; invoke h (req (fst p))) d.
Proof.
  intros Hq Hh c k s w Hk Hid Hw. rewrite get_bind. cbn [fst].
  assert (Hs : h (decoded (req c)) s = let (o, w') := d w in (o, put_instance (wc_id c) w' s))
    by (rewrite Hh; unfold on_instance; by rewrite Hw).
  destruct (d w) as [[a|e|] w']; [| |done].
  - intros Ha. apply invoke_Ret; auto.
  - intros He. destruct (invoke_Fail h (req c) c k s e _ Hk (Hq c Hid) Hs) as (k' & e' & Hi & Hk' & Hf).
    { rewrite sent_plain by done. apply FromContextError_code. }
    destruct (rpc_error_plain ErrFunctionNotImplemented (wc_ctx_done c) e e' He Hf) as (r & Hr & Hread).
    exists k', r. split_and!; [|done..]. rewrite Hi. unfold handleRPCError. by rewrite Hr.
Qed.
End refinement.

(** ** The promise of the implementation, kept *)
Section promise.
Context {L W conn : Type} {impl : Wrapper L W}.
Context (factory : W) (logger : option nat) `{Uuids}.
Context `{G : Grpc conn, !GrpcLaws conn G}.

(** The client's instance is live, configured, and can be reached. *)
Definition plugin_configured (configured : W -> Prop) (p : world W conn) : Prop :=
  up (fst (snd p)) /\ ValidString (wc_id (fst p)) = true /\
  exists w, instances (snd (snd p)) !! wc_id (fst p) = Some w /\ configured w.

Lemma encodable_request {A} `{Message A} (a : A) (o : RPCOptions) id :
  encodable (a, Some o, id) = true <->
  encodable a = true /\ encodable o = true /\ ValidString id = true.
Proof.
  unfold encodable. simpl. rewrite !forallb_app. simpl.
  rewrite !andb_true_iff. tauto.
Qed.

Lemma blob_equiv_strings b b' : blob_equiv b b' -> strings b = strings b'.
Proof.
  intros (_ & _ & Hk). destruct b as [? ? k], b' as [? ? k']. simpl in *.
  destruct Hk as [x y (_ & Hid & _)|]; [|done]. simpl. by rewrite Hid.
Qed.

Lemma request_options_same (o o' : RPCOptions) :
  slice_equiv (WithAad_ o) (WithAad_ o') -> WithKeyId_ o = WithKeyId_ o' ->
  same_request (L := L) (request_options (decoded o)) (request_options (decoded o')).
Proof.
  intros Ha Hk. eexists _, _. split; [reflexivity|]. split; [reflexivity|]. simpl.
  unfold slice_equiv, wire_bytes in *. by rewrite !content_to_slice.
Qed.

(** What a successful call did at the other end. *)
Lemma c_Encrypt_sound pt opts c k s r p' :
  c_Encrypt pt opts (c, (k, s)) = (Ret r, p') ->
  exists o k' w w' r0, GetOpts opts = Ret o /\ instances s !! wc_id c = Some w /\
    w_Encrypt (wire_bytes pt) (request_options (decoded (o_RPC o))) w = (Ret r0, w') /\
    p' = (c, (k', put_instance (wc_id c) w' s)) /\ (up k -> up k') /\
    encodable (o_RPC o) = true /\ encodable r0 = true /\ r = decoded r0.
Proof.
  unfold c_Encrypt. rewrite lift_bind. destruct (GetOpts opts) as [o|e|]; [|done..].
  rewrite get_bind. intros (k' & s' & r0 & -> & Hq & Hk & Hh & Hr & ->)%invoke_sound.
  apply encodable_request in Hq as (_ & Ho & _). cbn -[decoded] in Hh.
  apply on_instance_Ret in Hh as (w & w' & Hw & He & ->). by exists o, k', w, w', r0.
Qed.

Lemma c_Decrypt_sound ct opts c k s r p' :
  c_Decrypt ct opts (c, (k, s)) = (Ret r, p') ->
  exists o k' w w' r0, GetOpts opts = Ret o /\ instances s !! wc_id c = Some w /\
    w_Decrypt (decoded ct) (request_options (decoded (o_RPC o))) w = (Ret r0, w') /\
    p' = (c, (k', put_instance (wc_id c) w' s)) /\ (up k -> up k') /\ r = wire_bytes r0.
Proof.
  unfold c_Decrypt. rewrite lift_bind. destruct (GetOpts opts) as [o|e|]; [|done..].
  rewrite get_bind. intros (k' & s' & r0 & -> & Hq & Hk & Hh & Hr & ->)%invoke_sound.
  cbn -[decoded] in Hh. apply on_instance_Ret in Hh as (w & w' & Hw & He & ->).
  by exists o, k', w, w', r0.
Qed.

Lemma c_Decrypt_live ct opts o c k s w w' r :
  up k -> ValidString (wc_id c) = true -> instances s !! wc_id c = Some w ->
  GetOpts opts = Ret o -> encodable (o_RPC o) = true -> encodable ct = true ->
  w_Decrypt (decoded ct) (request_options (decoded (o_RPC o))) w = (Ret r, w') ->
  fst (c_Decrypt ct opts (c, (k, s))) = Ret (wire_bytes r).
Proof.
  intros Hk Hid Hw Ho Henc Hct Hd. unfold c_Decrypt. rewrite lift_bind, Ho, get_bind.
  destruct (invoke_Ret s_Decrypt (ct, Some (o_RPC o), wc_id c) c k s r
    (put_instance (wc_id c) w' s)) as (k' & He & _); try done.
  - by apply encodable_request.
  - change (on_instance (wc_id c) (w_Decrypt (decoded ct)
      (request_options (decoded (o_RPC o)))) s = (Ret r, put_instance (wc_id c) w' s)).
    unfold on_instance. by rewrite Hw, Hd.
  - cbn [fst]. by rewrite He.
Qed.
End promise.

(** ** Properties *)

(** the wrapper service isolates its instances. Every call keeps the
    invariant that live identifiers were drawn; it changes no instance but the one
    it names; SetConfig only ever adds, under an identifier no live instance has,
    the object it has successfully configured; and Finalize removes its instance
    even when the object's own hook fails. *)
Theorem plugin_instances_isolated {L W} {impl : Wrapper L W} hooks (factory : W) logger
    `{UuidLaws} (c : call) (s : server W) :
  server_inv s ->
  let s' := serve hooks factory logger c s in
  server_inv s' /\
  (forall id w, instances s !! id = Some w -> call_target c <> Some id ->
     instances s' !! id = Some w) /\
  (forall id w, instances s !! id = None -> instances s' !! id = Some w ->
     exists req wc, c = CallSetConfig req /\
       w_SetConfig (configure_options logger (default no_options req)) factory = (Ret wc, w)) /\
  (forall opts id, c = CallFinalize (opts, id) -> instances s' !! id = None).
Proof.
  intros Hs. simpl.
  assert (Hon : forall A id (m : prog W A),
    let s' := snd (on_instance id m s) in
    server_inv s' /\
    (forall id' w, instances s !! id' = Some w -> Some id <> Some id' ->
       instances s' !! id' = Some w) /\
    (forall id' w, instances s !! id' = None -> instances s' !! id' <> Some w)).
  { intros A id m. split_and!; [by apply on_instance_inv| |].
    - intros id' w Hw Hne. rewrite on_instance_other; congruence.
    - intros id' w Hn Hw. apply (proj1 (eq_None_not_Some _) Hn).
      apply (on_instance_dom id m s id'). eauto. }
  destruct c as [req|id|id|[[pt o] id]|[[ct o] id]|[o id]|[o id]]; simpl.
  - destruct (s_SetConfig_state factory logger req s Hs) as [Hi Hst].
    split_and!; [done| | |done].
    + intros id w Hw _. destruct Hst as [->|(u & wc & w' & Hu & -> & _)]; [done|].
      by rewrite lookup_insert_ne by congruence.
    + intros id w Hn Hw. destruct Hst as [He|(u & wc & w' & Hu & He & Hc & _)].
      * rewrite He in Hw. congruence.
      * rewrite He in Hw. destruct (decide (u = id)) as [->|Hne].
        -- rewrite lookup_insert_eq in Hw. simplify_eq. eauto.
        -- rewrite lookup_insert_ne in Hw by done. congruence.
  - destruct (Hon _ id w_Type) as (? & ? & Hn). split_and!; [done|done| |done].
    intros; exfalso; by eapply Hn.
  - destruct (Hon _ id w_KeyId) as (? & ? & Hn). split_and!; [done|done| |done].
    intros; exfalso; by eapply Hn.
  - edestruct Hon as (? & ? & Hn). split_and!; [done|done| |done].
    intros; exfalso; by eapply Hn.
  - edestruct Hon as (? & ? & Hn). split_and!; [done|done| |done].
    intros; exfalso; by eapply Hn.
  - edestruct Hon as (? & ? & Hn). split_and!; [done|done| |done].
    intros; exfalso; by eapply Hn.
  - rewrite s_Finalize_state. simpl. case_decide as Hl; [|split_and!; try done].
    + split_and!.
      * by apply drop_instance_inv.
      * intros id' w Hw Hne. simpl. by rewrite lookup_delete_ne by congruence.
      * intros id' w Hn Hw. simpl in Hw. apply lookup_delete_Some in Hw as [_ Hw]. congruence.
      * intros ? ? [= -> ->]. simpl. apply lookup_delete_eq.
    + intros; congruence.
    + intros ? ? [= -> ->]. by apply eq_None_not_Some.
Qed.

(** C8: the client refines the implementation. With the request options of an
    accepted option list, strings the wire can carry, a live instance and a
    connection that is up, each of Type, KeyId, Encrypt and Decrypt through the
    plugin is the implementation's own method on the client's instance: same
    value up to nil against empty bytes, the same effect on the instance, no
    effect on the others. An error that is and wraps no gRPC status arrives as
    an error with the same message, unless it is or wraps a context error,
    which gRPC sends with a code of its own: that arrives as a status with code
    DeadlineExceeded or Canceled and the same message, or as ErrPluginShutdown
    when the client's own context is done. *)
Theorem plugin_wrapper_refines {L W conn} {impl : Wrapper L W} `{Uuids}
    `{G : Grpc conn, !GrpcLaws conn G} (opts : list (Opt L)) o :
  GetOpts opts = Ret o -> encodable (o_RPC o) = true ->
  simulates (conn := conn) c_Type w_Type /\
  simulates (conn := conn) c_KeyId w_KeyId /\
  (forall pt, simulates (conn := conn) (c_Encrypt pt opts)
     (w_Encrypt (wire_bytes pt) (request_options (decoded (o_RPC o))))) /\
  (forall ct, encodable ct = true ->
     simulates (conn := conn) (c_Decrypt ct opts)
       (w_Decrypt (decoded ct) (request_options (decoded (o_RPC o))))).
Proof.
  intros Ho Henc.
  assert (Hid : forall c, ValidString (wc_id c) = true -> encodable (wc_id c) = true)
    by (intros c Hc; unfold encodable; simpl; by rewrite Hc).
  split_and!.
  - by apply (simulates_call s_Type wc_id).
  - by apply (simulates_call s_KeyId wc_id).
  - intros pt c k s w Hk Hc Hw. unfold c_Encrypt. rewrite lift_bind, Ho.
    apply (simulates_call s_Encrypt (fun c => (pt, Some (o_RPC o), wc_id c))); try done.
    intros c' Hc'. by apply encodable_request.
  - intros ct Hct c k s w Hk Hc Hw. unfold c_Decrypt. rewrite lift_bind, Ho.
    apply (simulates_call s_Decrypt (fun c => (ct, Some (o_RPC o), wc_id c))); try done.
    intros c' Hc'. by apply encodable_request.
Qed.

(** C9: a wrapper keeps its promise behind a plugin: when the implementation
    decrypts what it encrypts while it is configured, so does the client, as long
    as its instance is live and the connection up; in particular for a blob that
    was encoded, stored and decoded on the way. *)
Theorem plugin_keeps_promise {L W conn} {impl : Wrapper L W} (factory : W) logger `{Uuids}
    `{G : Grpc conn, !GrpcLaws conn G} (configured : W -> Prop) :
  WrapperSpec impl configured ->
  WrapperSpec (plugin_wrapper (conn := conn) factory logger) (plugin_configured configured).
Proof.
  intros Hspec. split.
  - intros [c [k s]] p' pt opts opts' blob blob' (Hk & Hid & w0 & Hw0 & Hcf) He Hreq Hb.
    apply c_Encrypt_sound in He as (o & k' & w & w' & r0 & Ho & Hw & He & -> & Hk' & Henc & Hr & Hd).
    cbn [fst snd] in *. rewrite Hw0 in Hw. injection Hw as <-.
    destruct r0 as [b0|]; [|done].
    assert (blob = decoded b0) as -> by (by injection Hd). clear Hd.
    destruct Hreq as (o1 & o' & Ho1 & Ho' & Ha & Hkey & Hmap). rewrite Ho in Ho1. injection Ho1 as <-.
    destruct (spec_roundtrip w0 w' (wire_bytes pt) (request_options (decoded (o_RPC o)))
      (request_options (decoded (o_RPC o'))) b0 (decoded blob') Hcf He) as (r & Hdec & Hrp).
    { by apply request_options_same. }
    { transitivity (decoded b0); [symmetry; apply decoded_blob_equiv|].
      transitivity blob'; [done|]. symmetry. apply decoded_blob_equiv. }
    exists (wire_bytes r). split; [|by rewrite wire_bytes_equiv, Hrp, wire_bytes_equiv].
    destruct (w_Decrypt (Some (decoded blob')) (request_options (decoded (o_RPC o'))) w')
      as [x w''] eqn:Hx. cbn [fst] in Hdec. subst x.
    eapply (c_Decrypt_live (Some blob') opts' o'); eauto.
    + simpl. apply lookup_insert_eq.
    + unfold encodable in *. simpl in *. by rewrite <- Hkey, <- Hmap.
    + assert (Hs : strings b0 = strings blob').
      { rewrite <- (blob_equiv_strings _ _ Hb). symmetry. apply strings_decoded. }
      unfold encodable in *. change (forallb ValidString (strings blob') = true). by rewrite <- Hs.
  - intros [c [k s]] p' pt opts blob (Hk & Hid & w0 & Hw0 & Hcf) He.
    apply c_Encrypt_sound in He as (o & k' & w & w' & r0 & Ho & Hw & He & -> & Hk' & _).
    cbn [fst snd] in *. rewrite Hw0 in Hw. injection Hw as <-.
    split_and!; [auto|done|]. exists w'. simpl. rewrite lookup_insert_eq. split; [done|].
    by eapply spec_keeps_encrypt.
  - intros [c [k s]] p' ct opts r (Hk & Hid & w0 & Hw0 & Hcf) He.
    apply c_Decrypt_sound in He as (o & k' & w & w' & r0 & Ho & Hw & He & -> & Hk' & _).
    cbn [fst snd] in *. rewrite Hw0 in Hw. injection Hw as <-.
    split_and!; [auto|done|]. exists w'. simpl. rewrite lookup_insert_eq. split; [done|].
    by eapply spec_keeps_decrypt.
Qed.

(** a client without a live instance is told so. Over a connection that is up,
    when no instance has the client's identifier (before SetConfig, after Finalize
    by this or another client) every method but SetConfig fails with ErrNoInstance
    and changes nothing on the server; this includes Type, which the interface
    allows before SetConfig. A client that has an identifier refuses SetConfig,
    also when its instance is gone. *)
Theorem plugin_no_instance {L W conn} {impl : Wrapper L W} hooks (factory : W) logger `{Uuids}
    `{G : Grpc conn, !GrpcLaws conn G} (opts : list (Opt L)) o pt ct (c : client) (k : conn)
    (s : server W) :
  GetOpts opts = Ret o -> encodable (o_RPC o) = true -> encodable ct = true ->
  up k -> ValidString (wc_id c) = true -> instances s !! wc_id c = None ->
  let fails {A} (m : prog (world W conn) A) :=
    exists k', m (c, (k, s)) = (Fail ErrNoInstance, (c, (k', s))) in
  fails c_Type /\ fails c_KeyId /\ fails (c_Encrypt pt opts) /\ fails (c_Decrypt ct opts) /\
  fails (c_Init hooks opts) /\ fails (c_Finalize hooks opts) /\
  (wc_id c <> "" -> c_SetConfig factory logger opts (c, (k, s)) =
     (Fail (ErrLeaf "already configured"), (c, (k, s)))).
Proof.
  intros Ho Henc Hct Hk Hid Hn. cbn zeta.
  assert (He : encodable (wc_id c) = true) by (unfold encodable; simpl; by rewrite Hid).
  assert (Hinv : forall Req Resp (MQ : Message Req) (MR : Message Resp)
      (h : Req -> prog (server W) Resp) req, encodable req = true ->
      h (decoded req) s = (not_found, s) ->
      exists k', invoke h req (c, (k, s)) = (Fail ErrNoInstance, (c, (k', s)))).
  { intros Req Resp MQ MR h req Hq Hh.
    destruct (invoke_Fail h req c k s _ s Hk Hq Hh) as (k' & e' & -> & _ & Hf);
      [by rewrite sent_status|].
    exists k'. unfold handleRPCError. by erewrite rpc_error_NotFound. }
  assert (Hunit : forall (h : option RPCOptions * string -> prog (server W) unit),
      h (decoded (Some (o_RPC o), wc_id c)) s = (not_found, s) ->
      exists k', invoke_unit h (Some (o_RPC o), wc_id c) (c, (k, s)) =
        (Fail ErrNoInstance, (c, (k', s)))).
  { intros h Hh.
    assert (Hq : encodable (Some (o_RPC o), wc_id c) = true)
      by exact (proj2 (encodable_request tt (o_RPC o) (wc_id c)) (conj eq_refl (conj Henc Hid))).
    destruct (rpc_fail h _ k s _ s Hk Hq Hh) as (k' & e' & Hr & _ & Hf); [by rewrite sent_status|].
    exists k'. unfold invoke_unit, remote. run_prog. cbn [snd]. rewrite Hr.
    cbn [fst snd err_of]. unfold handleRPCError. by erewrite rpc_error_NotFound. }
  assert (Hg : forall A (m : prog W A), on_instance (wc_id c) m s = (not_found, s))
    by (intros; unfold on_instance; by rewrite Hn).
  split_and!.
  - unfold c_Type. rewrite get_bind. apply Hinv; [done|]. apply Hg.
  - unfold c_KeyId. rewrite get_bind. apply Hinv; [done|]. apply Hg.
  - unfold c_Encrypt. rewrite lift_bind, Ho, get_bind. apply Hinv; [|apply Hg].
    by apply encodable_request.
  - unfold c_Decrypt. rewrite lift_bind, Ho, get_bind. apply Hinv; [|apply Hg].
    by apply encodable_request.
  - unfold c_Init. rewrite lift_bind, Ho, get_bind. apply Hunit. apply Hg.
  - unfold c_Finalize. rewrite lift_bind, Ho, get_bind. apply Hunit.
    unfold s_Finalize. simpl. by rewrite Hn.
  - intros Hne. unfold c_SetConfig. rewrite get_bind. cbn [fst].
    by destruct (String.eqb_spec (wc_id c) "").
Qed.

(** what a client makes of an error, and of a success, once its plugin is
    shutting down. A status other than Unknown, Unimplemented and NotFound passes
    unchanged while the client's context lasts and becomes ErrPluginShutdown
    after. Init and Finalize treat success the same way: a Finalize whose hook
    succeeds has removed the instance, and still reports ErrPluginShutdown to a
    client whose context is done. *)
Theorem plugin_shutdown_reported {L W conn} {impl : Wrapper L W} hooks `{Uuids}
    `{G : Grpc conn, !GrpcLaws conn G} (opts : list (Opt L)) o (c : client) (k : conn)
    (s : server W) w w' :
  GetOpts opts = Ret o -> encodable (o_RPC o) = true ->
  up k -> ValidString (wc_id c) = true -> instances s !! wc_id c = Some w ->
  match hooks with Some hs => if_Finalize hs [] w = (Ret tt, w') | None => True end ->
  (exists k', c_Finalize hooks opts (c, (k, s)) =
     (if wc_ctx_done c then Fail ErrPluginShutdown else Ret tt,
      (c, (k', drop_instance (wc_id c) s)))) /\
  (forall code m, code <> codes_Unknown -> code <> codes_Unimplemented -> code <> codes_NotFound ->
     handleRPCError c (Some (ErrStatus code m)) =
       Some (if wc_ctx_done c then ErrPluginShutdown else ErrStatus code m)).
Proof.
  intros Ho Henc Hk Hid Hw Hh. split.
  - assert (Hq : encodable (Some (o_RPC o), wc_id c) = true)
      by exact (proj2 (encodable_request tt (o_RPC o) (wc_id c)) (conj eq_refl (conj Henc Hid))).
    assert (Hf : s_Finalize hooks (decoded (Some (o_RPC o), wc_id c)) s =
      (Ret tt, drop_instance (wc_id c) s)).
    { unfold s_Finalize. simpl. rewrite Hw. destruct hooks as [hs|]; [|done]. by rewrite Hh. }
    pose proof (rpc_ok (s_Finalize hooks) _ k s tt _ Hk Hq Hf) as Hr.
    destruct (Hr eq_refl) as (k' & Hr' & _). clear Hr. rename Hr' into Hr.
    exists k'. unfold c_Finalize. rewrite lift_bind, Ho, get_bind.
    unfold invoke_unit, remote. run_prog. cbn [snd fst]. rewrite Hr. cbn [fst snd err_of].
    unfold handleRPCError, rpc_error. rewrite FromError_nil. by destruct (wc_ctx_done c).
  - intros code m H2 H12 H5. unfold handleRPCError, rpc_error. rewrite FromError_status.
    destruct (Z.eqb_spec code codes_Unknown), (Z.eqb_spec code codes_Unimplemented),
      (Z.eqb_spec code codes_NotFound); try done.
    by destruct (wc_ctx_done c).
Qed.

(** ** Witnesses: the static wrapper behind a plugin *)
#[local] Existing Instance toy_gcm.
#[local] Existing Instance toy_gcm_laws.
#[local] Existing Instance toy_entropy.
#[local] Existing Instance default_order.
#[local] Existing Instance toy_grpc.
#[local] Existing Instance toy_grpc_laws.

Definition toy_uuids : Uuids := {| GenerateUUID i := Ret (string_of_bytes (repeat "u"%char (S i))) |}.

Lemma toy_uuid_laws : UuidLaws toy_uuids.
Proof.
  split; cbn [GenerateUUID toy_uuids].
  - intros i j u [= Hi] [= Hj]. assert (He : repeat "u"%char i = repeat "u"%char j).
    { rewrite <- Hj in Hi. injection Hi as Hi.
      apply (f_equal bytes_of_string) in Hi. by rewrite !bytes_of_string_of_bytes in Hi. }
    apply (f_equal length) in He. by rewrite !repeat_length in He.
  - by intros i u [= <-].
Qed.

#[local] Existing Instance toy_uuids.
#[local] Existing Instance toy_uuid_laws.

Definition demo_impl : Wrapper Empty_set (swrapper * nat) :=
  static_wrapper (fun s => (s, None)) (fun _ => "") (fun _ => None).

#[local] Existing Instance demo_impl.

Definition demo_setup (done : bool) : world (swrapper * nat) bool :=
  let p := snd (c_SetConfig (NewWrapper, 0) None (demo_config (demo_key "b") "two" (demo_key "a") "one")
    (mkClient "" false, (true, new_server))) in
  (mkClient (wc_id (fst p)) done, snd p).

Definition demo_call : list (Opt Empty_set) := [WithAad (Some (bytes_of_string "context"))].

(** What the client's SetConfig sends. *)
Definition demo_request : RPCOptions :=
  match GetOpts (demo_config (demo_key "b") "two" (demo_key "a") "one") with
  | Ret o => o_RPC o
  | _ => no_options
  end.

Lemma demo_setup_configured : plugin_configured (fun w => static_inv (fst w)) (demo_setup false).
Proof.
  split_and!; [vm_compute; reflexivity..|].
  exists (demo_s2, 0). split; [vm_compute; reflexivity|]. cbn [fst].
  assert (exists c, demo_set (demo_config (demo_key "b") "two" (demo_key "a") "one")
    = (Ret c, demo_s2)) as [c Hc] by (eexists; vm_compute; reflexivity).
  apply (SetConfig_Ret _ _ _ _ _ _ _ Hc).
Qed.

Lemma plugin_instances_isolated_witness :
  server_inv (serve None (NewWrapper, 0) None (CallFinalize (None, "u")) (snd (snd (demo_setup false)))) /\
  instances (serve None (NewWrapper, 0) None (CallFinalize (None, "u"))
    (snd (snd (demo_setup false)))) !! "u" = None.
Proof.
  assert (Hi : server_inv (snd (snd (demo_setup false)))).
  { replace (snd (snd (demo_setup false))) with
      (serve None (NewWrapper, 0) None (CallSetConfig (Some demo_request)) new_server)
      by (vm_compute; reflexivity).
    apply (plugin_instances_isolated None (NewWrapper, 0) None (CallSetConfig (Some demo_request))
      new_server new_server_inv). }
  destruct (plugin_instances_isolated None (NewWrapper, 0) None (CallFinalize (None, "u"))
    (snd (snd (demo_setup false))) Hi) as (H1 & _ & _ & H4).
  split; [exact H1|]. exact (H4 None "u" eq_refl).
Defined.

Lemma plugin_wrapper_refines_witness :
  exists k', c_KeyId (demo_setup false) = (Ret "two", (mkClient "u" false, (k', snd (snd (demo_setup false))))).
Proof.
  destruct (plugin_wrapper_refines (conn := bool) demo_call
    (mkOptions (mkRPCOptions "" (Some (bytes_of_string "context")) ∅ false) None)
    ltac:(vm_compute; reflexivity) ltac:(vm_compute; reflexivity)) as (_ & Hk & _).
  assert (Hw : instances (snd (snd (demo_setup false))) !! "u" = Some (demo_s2, 0))
    by (vm_compute; reflexivity).
  destruct (Hk (mkClient "u" false) true (snd (snd (demo_setup false))) (demo_s2, 0)
    ltac:(vm_compute; reflexivity) ltac:(vm_compute; reflexivity) Hw
    ltac:(vm_compute; reflexivity)) as (k' & He & _).
  exists k'. transitivity (c_KeyId (mkClient "u" false, (true, snd (snd (demo_setup false)))));
    [vm_compute; reflexivity|].
  rewrite He. vm_compute. reflexivity.
Defined.

Lemma plugin_keeps_promise_witness :
  exists blob p' r, c_Encrypt (Some (bytes_of_string "seal")) demo_call (demo_setup false)
      = (Ret (Some blob), p') /\
    fst (c_Decrypt (Some blob) demo_call p') = Ret r /\ content r = bytes_of_string "seal".
Proof.
  destruct (c_Encrypt (Some (bytes_of_string "seal")) demo_call (demo_setup false)) as [o p'] eqn:He.
  assert (exists blob, o = Ret (Some blob)) as [blob ->].
  { apply (f_equal fst) in He. cbn [fst] in He. subst o. eexists. vm_compute. reflexivity. }
  exists blob, p'.
  assert (exists r, fst (c_Decrypt (Some blob) demo_call p') = Ret r /\
    slice_equiv r (Some (bytes_of_string "seal"))) as (r & Hd & Hr).
  { apply (spec_roundtrip (WrapperSpec := plugin_keeps_promise (conn := bool) (NewWrapper, 0) None
      (fun w => static_inv (fst w)) (static_spec _ _ _))
      (demo_setup false) p' (Some (bytes_of_string "seal")) demo_call demo_call blob blob
      demo_setup_configured He); [|reflexivity].
    eexists _, _. split_and!; reflexivity. }
  exists r. exact (conj eq_refl (conj Hd Hr)).
Defined.

Lemma plugin_no_instance_witness :
  (exists k', c_Type (mkClient "" false, (true, new_server (W := swrapper * nat))) =
     (Fail ErrNoInstance, (mkClient "" false, (k', new_server)))) /\
  (exists k', c_Finalize None demo_call
       (mkClient "u" false, (true, serve None (NewWrapper, 0) None (CallFinalize (None, "u"))
          (snd (snd (demo_setup false))))) =
     (Fail ErrNoInstance, (mkClient "u" false, (k', serve None (NewWrapper, 0) None
        (CallFinalize (None, "u")) (snd (snd (demo_setup false))))))).
Proof.
  split.
  - apply (plugin_no_instance (conn := bool) None (NewWrapper, 0) None demo_call
      (mkOptions (mkRPCOptions "" (Some (bytes_of_string "context")) ∅ false) None) None None
      (mkClient "" false) true new_server); vm_compute; reflexivity.
  - apply (plugin_no_instance (conn := bool) None (NewWrapper, 0) None demo_call
      (mkOptions (mkRPCOptions "" (Some (bytes_of_string "context")) ∅ false) None) None None
      (mkClient "u" false) true _); vm_compute; reflexivity.
Defined.

Lemma plugin_shutdown_reported_witness :
  exists k', c_Finalize None demo_call (demo_setup true) =
    (Fail ErrPluginShutdown,
     (mkClient "u" true, (k', drop_instance "u" (snd (snd (demo_setup true)))))).
Proof.
  assert (Hp : demo_setup true = (mkClient "u" true, (true, snd (snd (demo_setup true)))))
    by (vm_compute; reflexivity).
  assert (Hw : instances (snd (snd (demo_setup true))) !! "u" = Some (demo_s2, 0))
    by (vm_compute; reflexivity).
  destruct (plugin_shutdown_reported (conn := bool) None demo_call
    (mkOptions (mkRPCOptions "" (Some (bytes_of_string "context")) ∅ false) None)
    (mkClient "u" true) true (snd (snd (demo_setup true))) (demo_s2, 0) (demo_s2, 0)
    ltac:(vm_compute; reflexivity) ltac:(vm_compute; reflexivity) ltac:(vm_compute; reflexivity)
    ltac:(vm_compute; reflexivity) Hw I) as [[k' He] _].
  exists k'. exact (eq_trans (f_equal (c_Finalize None demo_call) Hp) He).
Defined.
