(* ===== verification/PluginKms.v ===== *)
(** * The KMS service of a plugin

    plugin/kms_server.go and plugin/kms_client.go.  The server keeps services and
    keys under identifiers of their own; what they own lives in the world of the
    [KMS] behind the server.  Encoding a ConfigMap as a protobuf Struct and a
    public key as PKIX DER are parameters. *)
From S2P Require Import Prelude GoText Wrapping Kms Plugin PluginWrapper.

Local Open Scope Z_scope.

(** [structpb.NewStruct], [AsMap], [x509.MarshalPKIXPublicKey] and
    [x509.ParsePKIXPublicKey]. *)
Class KmsCodec := {
  Struct : Type;
  Struct_message : Message Struct;
  NewStruct : ConfigMap -> outcome Struct;
  AsMap : Struct -> ConfigMap;
  MarshalPKIX : PublicKey -> outcome bytes;
  ParsePKIX : bytes -> outcome PublicKey;
}.

#[export] Existing Instance Struct_message.

(** ** Messages *)

(** The oneof of a SignerOpts message; a variant unknown to the reader is none. *)
Inductive pb_SignerOpts :=
| PbPss (salt_length : Z)
| PbEd25519 (context : string)
| PbNone.

Record SignRequest := mkSignRequest {
  sq_KeyId : string;
  sq_Data : slice;
  sq_Prehashed : bool;
  sq_Hash : Z;
  sq_Opts : option pb_SignerOpts;
}.

Record VerifyRequest := mkVerifyRequest {
  vq_Sign : SignRequest;   (* the fields it shares with a SignRequest *)
  vq_Signature : slice;
}.

(** Data, additional data, identifier. *)
Abbreviation CipherRequest := (slice * slice * string)%type.

Definition pb_strings (o : option pb_SignerOpts) : list string :=
  match o with Some (PbEd25519 c) => [c] | _ => [] end.

#[export] Program Instance bool_message : Message bool := {| decoded b := b; strings b := [] |}.
Next Obligation. done. Qed.

#[export] Program Instance SignRequest_message : Message SignRequest := {|
  decoded r := mkSignRequest (sq_KeyId r) (wire_bytes (sq_Data r)) (sq_Prehashed r) (sq_Hash r) (sq_Opts r);
  strings r := sq_KeyId r :: pb_strings (sq_Opts r);
|}.
Next Obligation. done. Qed.

#[export] Program Instance VerifyRequest_message : Message VerifyRequest := {|
  decoded r := mkVerifyRequest (decoded (vq_Sign r)) (wire_bytes (vq_Signature r));
  strings r := strings (vq_Sign r);
|}.
Next Obligation. done. Qed.

(** ** Signing options on the wire *)

(** [crypto.Hash(h)] of an [int32]. *)
Definition hash_of_int32 (h : Z) : Z := u64 h.

Definition signerOptsToProto (opts : SignerOpts) : outcome (option pb_SignerOpts) :=
  match opts with
  | SHash _ => Ret None
  | SPSS salt _ => Ret (Some (PbPss (s32 salt)))
  | SEd25519 context _ => Ret (Some (PbEd25519 context))
  | SOther type_name _ =>
      Fail (ErrLeaf (String.append "unsupported crypto.SignerOpts type: " type_name))
  end.

Definition protoToSignerOpts (hash : Z) (opts : option pb_SignerOpts) : outcome SignerOpts :=
  match opts with
  | None => Ret (SHash (hash_of_int32 hash))
  | Some (PbPss salt) => Ret (SPSS salt (hash_of_int32 hash))
  | Some (PbEd25519 context) => Ret (SEd25519 context (hash_of_int32 hash))
  | Some PbNone => Fail (ErrLeaf "unsupported SignerOpts variant: *pb.SignerOpts")
  end.

(** The client's part of Sign and Verify: a nil interface is sent as no hash. *)
Definition sign_header (opts : option SignerOpts) : outcome (Z * option pb_SignerOpts) :=
  match opts with
  | None => Ret (0, None)
  | Some o => p ← signerOptsToProto o; Ret (s32 (HashFunc o), p)
  end.

(** ** The server *)
Section server.
Context {W S K : Type} {impl : KMS W S K}.
(** What the factory makes, and the plugin's logger. *)
Context (factory : W -> S * W) (logger : option nat).
Context `{Uuids, KC : KmsCodec}.

Record kserver := mkKserver {
  ks_world : W;
  services : gmap string S;
  keys : gmap string K;
  ks_drawn : nat;
}.

Definition new_kserver (w : W) : kserver := mkKserver w ∅ ∅ 0.

Definition set_services (f : gmap string S -> gmap string S) (s : kserver) : kserver :=
  mkKserver (ks_world s) (f (services s)) (keys s) (ks_drawn s).

Definition set_keys (f : gmap string K -> gmap string K) (s : kserver) : kserver :=
  mkKserver (ks_world s) (services s) (f (keys s)) (ks_drawn s).

Definition in_world {A} (m : prog W A) : prog kserver A :=
  zoom ks_world (fun w s => mkKserver w (services s) (keys s) (ks_drawn s)) m.

Definition k_uuid : prog kserver string := fun s =>
  (GenerateUUID (ks_drawn s), mkKserver (ks_world s) (services s) (keys s) (Nat.succ (ks_drawn s))).

Definition service (id : string) : prog kserver S := fun s =>
  (match services s !! id with Some x => Ret x | None => not_found end, s).

Definition key (id : string) : prog kserver K := fun s =>
  (match keys s !! id with Some x => Ret x | None => not_found end, s).

Definition handleKMSError (err : error) : error :=
  if errors_Is (err_msg ErrNotImplemented) err
  then ErrStatus codes_Unimplemented (err_msg err)
  else err.

Definition s_Open (req : bool * Struct) : prog kserver string :=
  service ← in_world (fun w => let (x, w') := factory w in (Ret x, w'));
  _ ← on_err handleKMSError (in_world
        (kms_Open service (mkOpenOptions logger req.1 (AsMap req.2))));
  id ← k_uuid;
  _ ← modify (set_services <[id := service]>);
  mret id.

(** The service goes first, so a failing Close does not keep it; its keys stay. *)
Definition s_Close (KmsId : string) : prog kserver unit :=
  service ← service KmsId;
  _ ← modify (set_services (delete KmsId));
  on_err handleKMSError (in_world (kms_Close service)).

Definition s_GetKey (req : Struct * string) : prog kserver string :=
  service ← service req.2;
  key ← on_err handleKMSError (in_world (kms_GetKey service (mkKeyOptions (AsMap req.1))));
  id ← k_uuid;
  _ ← modify (set_keys <[id := key]>);
  mret id.

Definition s_CloseKey (KeyId : string) : prog kserver unit := modify (set_keys (delete KeyId)).

Definition k_Encrypt (req : CipherRequest) : prog kserver slice :=
  let '(data, aad, id) := req in
  key ← key id;
  on_err handleKMSError (in_world (key_Encrypt key (mkCipherOptions data aad))).

Definition k_Decrypt (req : CipherRequest) : prog kserver slice :=
  let '(data, aad, id) := req in
  key ← key id;
  on_err handleKMSError (in_world (key_Decrypt key (mkCipherOptions data aad))).

Definition k_Sign (req : SignRequest) : prog kserver slice :=
  key ← key (sq_KeyId req);
  signerOpts ← lift (protoToSignerOpts (sq_Hash req) (sq_Opts req));
  on_err handleKMSError (in_world
    (key_Sign key (mkSignOptions (sq_Data req) (sq_Prehashed req) (Some signerOpts)))).

(** The switch on the error of [key.Verify]. *)
Definition verify_error (err : error) : error :=
  if errors_Is (err_msg ErrInvalidSignature) err
  then ErrStatus codes_InvalidArgument (err_msg err)
  else handleKMSError err.

Definition k_Verify (req : VerifyRequest) : prog kserver unit :=
  let sq := vq_Sign req in
  key ← key (sq_KeyId sq);
  signerOpts ← lift (protoToSignerOpts (sq_Hash sq) (sq_Opts sq));
  on_err verify_error (in_world
    (key_Verify key (mkVerifyOptions (vq_Signature req) (sq_Data sq) (sq_Prehashed sq)
       (Some signerOpts)))).

Definition k_ExportPublic (KeyId : string) : prog kserver slice :=
  key ← key KeyId;
  pub ← on_err handleKMSError (in_world (key_ExportPublic key));
  b ← lift (MarshalPKIX pub);
  mret (Some b).

(** Any call the service can get. *)
Inductive kcall :=
| CallOpen (req : bool * Struct)
| CallClose (id : string)
| CallGetKey (req : Struct * string)
| CallCloseKey (id : string)
| CallCipher (encrypt : bool) (req : CipherRequest)
| CallSign (req : SignRequest)
| CallVerify (req : VerifyRequest)
| CallExportPublic (id : string).

Definition kserve (c : kcall) (s : kserver) : kserver :=
  match c with
  | CallOpen req => snd (s_Open req s)
  | CallClose id => snd (s_Close id s)
  | CallGetKey req => snd (s_GetKey req s)
  | CallCloseKey id => snd (s_CloseKey id s)
  | CallCipher true req => snd (k_Encrypt req s)
  | CallCipher false req => snd (k_Decrypt req s)
  | CallSign req => snd (k_Sign req s)
  | CallVerify req => snd (k_Verify req s)
  | CallExportPublic id => snd (k_ExportPublic id s)
  end.

(** Every live identifier is one that was drawn. *)
Definition kserver_inv (s : kserver) : Prop :=
  forall id, is_Some (services s !! id) \/ is_Some (keys s !! id) ->
    exists i, (i < ks_drawn s)%nat /\ GenerateUUID i = Ret id.

(** ** The client *)
Context {conn : Type} `{Grpc conn}.

Record kclient := mkKclient { kc_id : string; kc_ctx_done : bool }.

Definition kworld : Type := kclient * (conn * kserver).

Definition k_handleRPCError (c : kclient) (err : option error) : option error :=
  rpc_error ErrNotImplemented (kc_ctx_done c) err.

Definition k_remote {A} (m : prog (conn * kserver) A) : prog kworld A :=
  zoom snd (fun t p => (fst p, t)) m.

Definition k_invoke {Req Resp} `{Message Req, Message Resp} (h : Req -> prog kserver Resp)
    (req : Req) : prog kworld Resp := fun p =>
  on_err (fun err => default err (k_handleRPCError (fst p) (Some err))) (k_remote (rpc h req)) p.

Definition c_Open (opts : OpenOptions) : prog kworld unit :=
  p ← get;
  if negb (String.eqb (kc_id (fst p)) "") then lift (Fail (ErrLeaf "already opened"))
  else
    cm ← lift (NewStruct (oo_ConfigMap opts));
    id ← k_invoke s_Open (oo_AllowEnvironment opts, cm);
    modify (fun p => (mkKclient id (kc_ctx_done (fst p)), snd p)).

(** [return c.handleRPCError(err)], also without an error. *)
Definition c_Close : prog kworld unit := fun p =>
  (r ← attempt (k_remote (rpc s_Close (kc_id (fst p))));
   match r with
   | Panic => lift Panic
   | r => lift (of_err (k_handleRPCError (fst p) (err_of r)))
   end) p.

(** A key object of the client is its identifier. *)
Definition c_GetKey (opts : KeyOptions) : prog kworld string :=
  cm ← lift (NewStruct (ko_ConfigMap opts));
  p ← get;
  k_invoke s_GetKey (cm, kc_id (fst p)).

(** The cleanup that runs when the client's key object is collected. *)
Definition c_CleanupKey (id : string) : prog kworld unit :=
  _ ← attempt (k_remote (rpc s_CloseKey id)); mret tt.

Definition ck_Encrypt (id : string) (opts : CipherOptions) : prog kworld slice :=
  k_invoke k_Encrypt (co_Data opts, co_AAD opts, id).

Definition ck_Decrypt (id : string) (opts : CipherOptions) : prog kworld slice :=
  k_invoke k_Decrypt (co_Data opts, co_AAD opts, id).

Definition ck_Sign (id : string) (opts : SignOptions) : prog kworld slice :=
  h ← lift (sign_header (so_SignerOpts opts));
  k_invoke k_Sign (mkSignRequest id (so_Data opts) (so_Prehashed opts) h.1 h.2).

Definition ck_Verify (id : string) (opts : VerifyOptions) : prog kworld unit := fun p =>
  (h ← lift (sign_header (vo_SignerOpts opts));
   r ← attempt (k_remote (rpc k_Verify (mkVerifyRequest
         (mkSignRequest id (vo_Data opts) (vo_Prehashed opts) h.1 h.2) (vo_Signature opts))));
   match r with
   | Panic => lift Panic
   | r =>
       if fst (FromError (err_of r)) =? codes_InvalidArgument then lift (Fail ErrInvalidSignature)
       else match err_of r with
            | Some err => lift (of_err (k_handleRPCError (fst p) (Some err)))
            | None => mret tt
            end
   end) p.

Definition ck_ExportPublic (id : string) : prog kworld PublicKey :=
  der ← k_invoke k_ExportPublic id;
  lift (ParsePKIX (content der)).

(** The client is a KMS again. *)
#[export] Instance plugin_kms : KMS kworld unit string := {|
  kms_Open _ := c_Open;
  kms_GetKey _ := c_GetKey;
  kms_Close _ := c_Close;
  key_Encrypt := ck_Encrypt;
  key_Decrypt := ck_Decrypt;
  key_Sign := ck_Sign;
  key_Verify := ck_Verify;
  key_ExportPublic := ck_ExportPublic;
|}.
End server.
Arguments kserver W S K : clear implicits.
Arguments kworld W S K conn : clear implicits.

(** ** The server by itself *)
Section server_facts.
Context {W S K : Type} {impl : KMS W S K} (factory : W -> S * W) (logger : option nat).
Context `{UuidLaws, KmsCodec}.

(** The tables of two states are the same. *)
Definition same_tables (s s' : kserver W S K) : Prop :=
  services s' = services s /\ keys s' = keys s /\ ks_drawn s' = ks_drawn s.

Lemma wp_in_world {A} (m : prog W A) (Q : outcome A -> kserver W S K -> Prop) s :
  (forall o s', same_tables s s' -> Q o s') -> wp (in_world m) Q s.
Proof. intros HQ. unfold in_world. rewrite wp_zoom, wp_run. by apply HQ. Qed.

Lemma wp_service id (Q : outcome S -> kserver W S K -> Prop) s :
  (forall o, (forall x, o = Ret x -> services s !! id = Some x) -> Q o s) -> wp (service id) Q s.
Proof.
  intros HQ. unfold service, not_found, wp. destruct (services s !! id); apply HQ; naive_solver.
Qed.

Lemma wp_key id (Q : outcome K -> kserver W S K -> Prop) s :
  (forall o, (forall x, o = Ret x -> keys s !! id = Some x) -> Q o s) -> wp (key id) Q s.
Proof.
  intros HQ. unfold key, not_found, wp. destruct (keys s !! id); apply HQ; naive_solver.
Qed.

(** A fresh identifier: not live, and drawn from now on. *)
Lemma wp_k_uuid (Q : outcome string -> kserver W S K -> Prop) s :
  kserver_inv s ->
  (forall o s', services s' = services s -> keys s' = keys s -> kserver_inv s' ->
     (forall id, o = Ret id -> services s !! id = None /\ keys s !! id = None /\
        exists i, (i < ks_drawn s')%nat /\ GenerateUUID i = Ret id) -> Q o s') ->
  wp k_uuid Q s.
Proof.
  intros Hs HQ. unfold k_uuid, wp. apply HQ; [done|done| |].
  - intros id Hl. destruct (Hs id Hl) as (i & Hi & Hu). exists i. split; [|done].
    apply Nat.lt_lt_succ_r, Hi.
  - intros id Hid.
    assert (Hf : ~ (is_Some (services s !! id) \/ is_Some (keys s !! id))).
    { intros (i & Hi & Hu)%Hs. pose proof (uuid_distinct _ _ _ Hu Hid) as ->. by apply Nat.lt_irrefl in Hi. }
    rewrite !eq_None_not_Some. split_and!; [tauto..|]. exists (ks_drawn s).
    split; [apply Nat.lt_succ_diag_r|done].
Qed.

Lemma same_tables_inv s s' : same_tables s s' -> kserver_inv s -> kserver_inv s'.
Proof. intros (H1 & H2 & H3) Hs id. rewrite H1, H2, H3. apply Hs. Qed.

Lemma insert_service_inv id x s :
  (exists i, (i < ks_drawn s)%nat /\ GenerateUUID i = Ret id) -> kserver_inv s ->
  kserver_inv (set_services (K := K) (W := W) (S := S) <[id := x]> s).
Proof.
  intros Hd Hs id' Hl. simpl in *. destruct (decide (id' = id)) as [->|Hne]; [done|].
  apply Hs. by rewrite lookup_insert_ne in Hl by done.
Qed.

Lemma insert_key_inv id x s :
  (exists i, (i < ks_drawn s)%nat /\ GenerateUUID i = Ret id) -> kserver_inv s ->
  kserver_inv (set_keys (K := K) (W := W) (S := S) <[id := x]> s).
Proof.
  intros Hd Hs id' Hl. simpl in *. destruct (decide (id' = id)) as [->|Hne]; [done|].
  apply Hs. by rewrite lookup_insert_ne in Hl by done.
Qed.

Lemma delete_service_inv id s :
  kserver_inv s -> kserver_inv (set_services (K := K) (W := W) (S := S) (delete id) s).
Proof.
  intros Hs id' Hl. apply Hs. simpl in Hl.
  destruct Hl as [Hl|Hl]; [apply lookup_delete_is_Some in Hl as [_ Hl]|]; auto.
Qed.

Lemma delete_key_inv id s :
  kserver_inv s -> kserver_inv (set_keys (K := K) (W := W) (S := S) (delete id) s).
Proof.
  intros Hs id' Hl. apply Hs. simpl in Hl.
  destruct Hl as [Hl|Hl]; [|apply lookup_delete_is_Some in Hl as [_ Hl]]; auto.
Qed.

Lemma wp_s_Open req s :
  kserver_inv s ->
  wp (s_Open factory logger req) (fun o s' => kserver_inv s' /\ keys s' = keys s /\
    match o with
    | Ret id => exists x, services s !! id = None /\ services s' = <[id := x]> (services s)
    | _ => services s' = services s
    end) s.
Proof.
  intros Hs. unfold s_Open. rewrite wp_bind. apply wp_in_world.
  intros o1 s1 Ht1. assert (Hs1 := same_tables_inv _ _ Ht1 Hs). destruct Ht1 as (E1 & E2 & _).
  destruct o1 as [x|e|]; [|by split_and!..].
  rewrite wp_bind, wp_on_err. apply wp_in_world.
  intros o2 s2 Ht2. assert (Hs2 := same_tables_inv _ _ Ht2 Hs1). destruct Ht2 as (F1 & F2 & _).
  destruct o2 as [[]|e|]; simpl; [|split_and!; first [done|congruence]..].
  rewrite wp_bind. apply wp_k_uuid; [done|].
  intros o3 s3 G1 G2 Hs3 Hid. destruct o3 as [id|e|]; [|split_and!; first [done|congruence]..].
  destruct (Hid id eq_refl) as (N1 & N2 & Hd).
  rewrite wp_bind, wp_modify. unfold wp, mret, prog_ret. split_and!.
  - by apply insert_service_inv.
  - simpl. congruence.
  - exists x. simpl. split; congruence.
Qed.

Lemma wp_s_GetKey req s :
  kserver_inv s ->
  wp (s_GetKey req) (fun o s' => kserver_inv s' /\ services s' = services s /\
    match o with
    | Ret id => exists x, keys s !! id = None /\ keys s' = <[id := x]> (keys s)
    | _ => keys s' = keys s
    end) s.
Proof.
  intros Hs. unfold s_GetKey. rewrite wp_bind. apply wp_service.
  intros o1 _. destruct o1 as [x|e|]; [|by split_and!..].
  rewrite wp_bind, wp_on_err. apply wp_in_world.
  intros o2 s2 Ht2. assert (Hs2 := same_tables_inv _ _ Ht2 Hs). destruct Ht2 as (F1 & F2 & _).
  destruct o2 as [y|e|]; simpl; [|split_and!; first [done|congruence]..].
  rewrite wp_bind. apply wp_k_uuid; [done|].
  intros o3 s3 G1 G2 Hs3 Hid. destruct o3 as [id|e|]; [|split_and!; first [done|congruence]..].
  destruct (Hid id eq_refl) as (N1 & N2 & Hd).
  rewrite wp_bind, wp_modify. unfold wp, mret, prog_ret. split_and!.
  - by apply insert_key_inv.
  - simpl. congruence.
  - exists y. simpl. split; congruence.
Qed.

Lemma wp_s_Close id s :
  kserver_inv s ->
  wp (s_Close id) (fun o s' => kserver_inv s' /\ keys s' = keys s /\
    services s' = delete id (services s)) s.
Proof.
  intros Hs. unfold s_Close. rewrite wp_bind. unfold service, not_found, wp at 1.
  destruct (services s !! id) as [x|] eqn:Hx.
  - rewrite wp_bind, wp_modify, wp_on_err. apply wp_in_world.
    intros o s' Ht. assert (Hs' := same_tables_inv _ _ Ht (delete_service_inv id s Hs)).
    by destruct Ht as (-> & -> & _).
  - split_and!; [done|done|]. by rewrite delete_id.
Qed.

(** The operations on a key leave the tables alone. *)
Lemma wp_key_call {A} id (m : K -> prog (kserver W S K) A) s :
  (forall x, wp (m x) (fun _ s' => same_tables s s') s) ->
  wp (x ← key id; m x) (fun _ s' => same_tables s s') s.
Proof.
  intros Hm. rewrite wp_bind. apply wp_key. intros [x|e|] _; [apply Hm|done..].
Qed.

Lemma wp_call_in_world {A} f (m : prog W A) s :
  wp (on_err f (in_world m)) (fun _ s' => same_tables s s') s.
Proof. rewrite wp_on_err. by apply wp_in_world. Qed.

Lemma kserve_key_call c s :
  match c with
  | CallCipher _ _ | CallSign _ | CallVerify _ | CallExportPublic _ =>
      same_tables s (kserve factory logger c s)
  | _ => True
  end.
Proof.
  assert (Hl : forall A B (o : outcome A) (m : A -> prog (kserver W S K) B),
    (forall a, wp (m a) (fun _ s' => same_tables s s') s) ->
    wp (a ← lift o; m a) (fun _ s' => same_tables s s') s).
  { intros A B o m Hm. rewrite wp_bind, wp_lift. destruct o; [apply Hm|done..]. }
  assert (Hw : forall A (m : prog (kserver W S K) A),
    wp m (fun _ s' => same_tables s s') s -> same_tables s (snd (m s))).
  { intros A m Hm. by apply wp_run in Hm. }
  destruct c as [|?|?|?|[] [[data aad] id]|req|req|id]; try done; simpl; apply Hw.
  - apply wp_key_call. intros x. apply wp_call_in_world.
  - apply wp_key_call. intros x. apply wp_call_in_world.
  - apply wp_key_call. intros x. apply Hl. intros o. apply wp_call_in_world.
  - apply wp_key_call. intros x. apply Hl. intros o. apply wp_call_in_world.
  - apply wp_key_call. intros x. rewrite wp_bind.
    eapply wp_mono; [|apply wp_call_in_world]. intros [pub|e|] s' Hs'; [|done..].
    rewrite wp_bind, wp_lift. by destruct (MarshalPKIX pub).
Qed.
End server_facts.

(** ** Properties *)

(** the handles of the KMS service. Every call keeps the invariant that live
    identifiers were drawn. A service stays until it is closed, and a close removes
    it even when the service's own Close fails; a key stays until its own CloseKey,
    also when the service it came from is closed; Open and GetKey add under an
    identifier that was not in use, and nothing else adds. *)
Theorem plugin_kms_handles {W S K} {impl : KMS W S K} (factory : W -> S * W) logger
    `{UuidLaws, KmsCodec} (c : kcall) (s : kserver W S K) :
  kserver_inv s ->
  let s' := kserve factory logger c s in
  kserver_inv s' /\
  match c with
  | CallOpen req => keys s' = keys s /\
      (services s' = services s \/ exists id x, services s !! id = None /\
         services s' = <[id := x]> (services s) /\ fst (s_Open factory logger req s) = Ret id)
  | CallGetKey req => services s' = services s /\
      (keys s' = keys s \/ exists id x, keys s !! id = None /\
         keys s' = <[id := x]> (keys s) /\ fst (s_GetKey req s) = Ret id)
  | CallClose id => services s' = delete id (services s) /\ keys s' = keys s
  | CallCloseKey id => services s' = services s /\ keys s' = delete id (keys s)
  | _ => services s' = services s /\ keys s' = keys s
  end.
Proof.
  intros Hs. cbn zeta. pose proof (kserve_key_call factory logger c s) as Hk.
  destruct c as [req|id|req|id|b req|req|req|id];
    try (split; [by eapply same_tables_inv|by destruct Hk as (? & ? & _)]); clear Hk; simpl.
  - pose proof (wp_s_Open factory logger req s Hs) as Hw. apply wp_run in Hw as (Hi & Hk & Ho).
    split_and!; [done|done|].
    destruct (fst (s_Open factory logger req s)) as [id|e|]; [|by left..].
    destruct Ho as (x & Hx & Ho). right. by exists id, x.
  - pose proof (wp_s_Close id s Hs) as Hw. apply wp_run in Hw as (Hi & Hk & Ho). done.
  - pose proof (wp_s_GetKey req s Hs) as Hw. apply wp_run in Hw as (Hi & Hk & Ho).
    split_and!; [done|done|].
    destruct (fst (s_GetKey req s)) as [id|e|]; [|by left..].
    destruct Ho as (x & Hx & Ho). right. by exists id, x.
  - by split_and!; [apply delete_key_inv| |].
Qed.

(** ** Client and server together *)
Section refinement.
Context {W S K conn : Type} {impl : KMS W S K} `{KC : KmsCodec}.
Context `{G : Grpc conn, !GrpcLaws conn G}.

Definition set_world (w : W) (s : kserver W S K) : kserver W S K :=
  mkKserver w (services s) (keys s) (ks_drawn s).

(** What the client makes of an error of the implementation: ErrNotImplemented is
    still itself, and every other is read as over any connection. *)
Definition seen_error (ctx_done : bool) (e r : error) : Prop :=
  if errors_Is (err_msg ErrNotImplemented) e then r = ErrNotImplemented else reads_as ctx_done e r.

(** The method [m] of the client's key [id] does what [d] does on the key behind
    it, over a connection that is up. *)
Definition k_simulates {A} `{Message A} (id : string) (m : prog (kworld W S K conn) A)
    (d : K -> prog W A) : Prop :=
  forall c k s x, up k -> keys s !! id = Some x ->
    match d x (ks_world s) with
    | (Ret a, w') => encodable a = true ->
        exists k', m (c, (k, s)) = (Ret (decoded a), (c, (k', set_world w' s))) /\ up k'
    | (Fail e, w') => plain e = true ->
        exists k' r, m (c, (k, s)) = (Fail r, (c, (k', set_world w' s))) /\ up k' /\
          seen_error (kc_ctx_done c) e r
    | (Panic, _) => True
    end.

Lemma in_world_run {A} f (m : prog W A) s :
  on_err f (in_world m) s =
  (map_err f (fst (m (ks_world s))), set_world (snd (m (ks_world s))) s).
Proof. unfold on_err, in_world, zoom. by destruct (m (ks_world s)). Qed.

Lemma handleKMSError_status e : plain e = true ->
  sent (handleKMSError e) =
  if errors_Is (err_msg ErrNotImplemented) e then (codes_Unimplemented, err_msg e)
  else FromContextError e.
Proof.
  intros Hp. unfold handleKMSError. destruct (errors_Is _ e).
  - apply sent_status.
  - by apply sent_plain.
Qed.

Lemma handleKMSError_code e : plain e = true -> fst (sent (handleKMSError e)) <> codes_OK.
Proof.
  intros Hp. rewrite handleKMSError_status by done.
  destruct (errors_Is _ e); [done|apply FromContextError_code].
Qed.

Lemma rpc_error_seen ctx_done e e' : plain e = true ->
  FromError (Some e') = sent (handleKMSError e) ->
  exists r, rpc_error ErrNotImplemented ctx_done (Some e') = Some r /\ seen_error ctx_done e r.
Proof.
  intros Hp Hf. unfold seen_error.
  destruct (errors_Is (err_msg ErrNotImplemented) e) eqn:Hi.
  - exists ErrNotImplemented. split; [|done]. unfold rpc_error.
    by rewrite Hf, handleKMSError_status, Hi by done.
  - apply rpc_error_plain; [done|]. rewrite Hf, handleKMSError_status, Hi by done.
    by rewrite sent_plain.
Qed.

Lemma k_simulates_call {Req A} `{Message Req, Message A} (h : Req -> prog (kserver W S K) A)
    req id (d : K -> prog W A) :
  encodable req = true ->
  (forall s x, keys s !! id = Some x ->
     h (decoded req) s = on_err handleKMSError (in_world (d x)) s) ->
  k_simulates id (k_invoke h req) d.
Proof.
  intros Hq Hh c k s x Hk Hx. specialize (Hh s x Hx). rewrite in_world_run in Hh.
  destruct (d x (ks_world s)) as [[a|e|] w']; cbn [fst snd map_err] in Hh; [| |done].
  - intros Ha. destruct (rpc_ok h req k s a _ Hk Hq Hh Ha) as (k' & He & Hk').
    exists k'. split; [|done]. unfold k_invoke, on_err, k_remote, zoom. cbn [fst snd]. by rewrite He.
  - intros He.
    destruct (rpc_fail h req k s _ _ Hk Hq Hh (handleKMSError_code e He)) as (k' & e' & Hr & Hk' & Hf).
    destruct (rpc_error_seen (kc_ctx_done c) e e' He Hf) as (r & Hr' & Hseen).
    exists k', r. split_and!; [|done..]. unfold k_invoke, on_err, k_remote, zoom. cbn [fst snd].
    rewrite Hr. cbn [fst snd map_err]. unfold k_handleRPCError. by rewrite Hr'.
Qed.

Lemma encodable_cipher (data aad : slice) id :
  ValidString id = true -> encodable (data, aad, id) = true.
Proof. intros Hid. unfold encodable. simpl. by rewrite Hid. Qed.

Lemma encodable_sign id data p h o :
  ValidString id = true -> forallb ValidString (pb_strings o) = true ->
  encodable (mkSignRequest id data p h o) = true.
Proof. intros Hid Ho. unfold encodable. simpl. by rewrite Hid. Qed.

Lemma key_bind {A} id x (m : K -> prog (kserver W S K) A) s :
  keys s !! id = Some x -> (y ← key id; m y) s = m x s.
Proof. intros Hx. unfold key, mbind, prog_bind. by rewrite Hx. Qed.
End refinement.

(** Options the wire carries exactly: a hash that fits an [int32], and so a salt
    length. *)
Definition wire_exact (o : SignerOpts) : Prop :=
  0 <= HashFunc o < 2 ^ 31 /\
  match o with SPSS salt _ => - 2 ^ 31 <= salt < 2 ^ 31 | _ => True end.

(** C11: signing options cross the wire. Options of the three known types are read
    back as themselves when hash and salt length fit an int32, and never refused by
    the server; options of any other type are refused by the client before the
    call; and a nil interface arrives as the zero hash. *)
Theorem signer_opts_roundtrip (o : SignerOpts) :
  match sign_header (Some o) with
  | Ret (h, p) => exists o', protoToSignerOpts h p = Ret o' /\ (wire_exact o -> o' = o)
  | Fail _ => exists name h, o = SOther name h
  | Panic => False
  end /\
  (sign_header None = Ret (0, None) /\ protoToSignerOpts 0 None = Ret (SHash 0)).
Proof.
  assert (Hh : forall h, 0 <= h < 2 ^ 31 -> hash_of_int32 (s32 h) = h).
  { intros h Hr. unfold hash_of_int32. rewrite s32_id, u64_id by lia. done. }
  split; [|done]. unfold wire_exact.
  destruct o as [h|salt h|ctx h|name h]; simpl; [..|by eauto];
    (eexists; split; [reflexivity|]); intros [Hr Hs]; rewrite ?Hh by done; try done.
  by rewrite s32_id.
Qed.

(** C10: a key of the client refines the key behind it. For a live key and a
    connection that is up, Encrypt, Decrypt and Sign are the implementation's own,
    on the data as the wire leaves it and (for Sign) the options the server reads
    back: same value up to nil against empty bytes, same effect on the world, and
    no effect on the handles. Of the errors that are and wrap no gRPC status,
    ErrNotImplemented, even wrapped, arrives as itself, a context error as a
    status with its code and message (as ErrPluginShutdown when the client's own
    context is done), and any other as an error with its message. *)
Theorem plugin_key_refines {W S K conn} {impl : KMS W S K} `{KC : KmsCodec}
    `{G : Grpc conn, !GrpcLaws conn G} (id : string) :
  ValidString id = true ->
  (forall co, k_simulates (conn := conn) id (ck_Encrypt id co)
     (fun x => key_Encrypt x (mkCipherOptions (wire_bytes (co_Data co)) (wire_bytes (co_AAD co))))) /\
  (forall co, k_simulates (conn := conn) id (ck_Decrypt id co)
     (fun x => key_Decrypt x (mkCipherOptions (wire_bytes (co_Data co)) (wire_bytes (co_AAD co))))) /\
  (forall so h p o, sign_header (so_SignerOpts so) = Ret (h, p) ->
     forallb ValidString (pb_strings p) = true -> protoToSignerOpts h p = Ret o ->
     k_simulates (conn := conn) id (ck_Sign id so)
       (fun x => key_Sign x (mkSignOptions (wire_bytes (so_Data so)) (so_Prehashed so) (Some o)))).
Proof.
  intros Hid. split_and!.
  - intros co. apply k_simulates_call; [by apply encodable_cipher|].
    intros s x Hx. simpl. by rewrite (key_bind id x).
  - intros co. apply k_simulates_call; [by apply encodable_cipher|].
    intros s x Hx. simpl. by rewrite (key_bind id x).
  - intros so h p o Hh Hp Ho c k s x Hk Hx. unfold ck_Sign. rewrite lift_bind, Hh.
    pose proof (k_simulates_call k_Sign (mkSignRequest id (so_Data so) (so_Prehashed so) h p) id
      (fun x => key_Sign x (mkSignOptions (wire_bytes (so_Data so)) (so_Prehashed so) (Some o)))
      (encodable_sign _ _ _ _ _ Hid Hp)) as Hsim.
    apply (fun Hs => Hsim Hs c k s x Hk Hx). clear s x Hx. intros s x Hx.
    unfold k_Sign. cbn [decoded SignRequest_message sq_KeyId sq_Hash
      sq_Opts sq_Data sq_Prehashed fst snd].
    rewrite (key_bind id x) by done. by rewrite lift_bind, Ho.
Qed.

(** what Verify reports through a plugin. Over a connection that is up and for
    a live key: success is success; an error that is ErrInvalidSignature, even
    wrapped, arrives as ErrInvalidSignature itself, and any other error without a
    status as from the other methods. But an error of the implementation that is
    a status with code InvalidArgument (a malformed request of its own, say)
    arrives as ErrInvalidSignature too. *)
Theorem plugin_Verify_outcome {W S K conn} {impl : KMS W S K} `{KC : KmsCodec}
    `{G : Grpc conn, !GrpcLaws conn G} (id : string) (vo : VerifyOptions) h p o
    (c : kclient) (k : conn) (s : kserver W S K) x :
  ValidString id = true -> sign_header (vo_SignerOpts vo) = Ret (h, p) ->
  forallb ValidString (pb_strings p) = true -> protoToSignerOpts h p = Ret o ->
  up k -> keys s !! id = Some x ->
  let verify := ck_Verify id vo (c, (k, s)) in
  let ends (w' : W) (r' : outcome unit) := exists k', verify = (r', (c, (k', set_world w' s))) /\ up k' in
  match key_Verify x (mkVerifyOptions (wire_bytes (vo_Signature vo)) (wire_bytes (vo_Data vo))
          (vo_Prehashed vo) (Some o)) (ks_world s) with
  | (Panic, _) => True
  | (Ret tt, w') => ends w' (Ret tt)
  | (Fail e, w') =>
      if errors_Is (err_msg ErrInvalidSignature) e then ends w' (Fail ErrInvalidSignature)
      else if plain e then exists r, ends w' (Fail r) /\ seen_error (kc_ctx_done c) e r
      else forall m, e = ErrStatus codes_InvalidArgument m -> ends w' (Fail ErrInvalidSignature)
  end.
Proof.
  intros Hid Hh Hp Ho Hk Hx.
  set (req := mkVerifyRequest (mkSignRequest id (vo_Data vo) (vo_Prehashed vo) h p) (vo_Signature vo)).
  assert (Hq : encodable req = true) by exact (encodable_sign id (vo_Data vo) (vo_Prehashed vo) h p Hid Hp).
  set (vo' := mkVerifyOptions _ _ _ _).
  assert (Hs : k_Verify (decoded req) s = on_err verify_error (in_world (key_Verify x vo')) s).
  { unfold k_Verify. cbn [decoded VerifyRequest_message SignRequest_message req vq_Sign sq_KeyId
      sq_Hash sq_Opts sq_Data sq_Prehashed vq_Signature].
    rewrite (key_bind id x) by done. by rewrite lift_bind, Ho. }
  rewrite in_world_run in Hs. unfold ck_Verify, k_remote. run_prog. rewrite Hh.
  run_prog. cbn [fst snd]. fold req.
  destruct (key_Verify x vo' (ks_world s)) as [[[]|e|] w']; cbn [fst snd map_err] in Hs; [| |done].
  - pose proof (rpc_ok k_Verify req k s tt _ Hk Hq Hs) as Hr.
    destruct (Hr eq_refl) as (k' & Hr' & Hk'). clear Hr. rename Hr' into Hr.
    exists k'. rewrite Hr. cbn [fst snd err_of]. rewrite FromError_nil. done.
  - assert (Hrun : forall code msg, sent (verify_error e) = (code, msg) -> code <> codes_OK ->
      exists k' e', rpc k_Verify req (k, s) = (Fail e', (k', set_world w' s)) /\ up k' /\
        FromError (Some e') = (code, msg)).
    { intros code msg Hc Hne.
      destruct (rpc_fail k_Verify req k s _ _ Hk Hq Hs) as (k' & e' & Hr & Hk' & Hf);
        [by rewrite Hc|]. exists k', e'. by rewrite <- Hc. }
    unfold verify_error in Hrun.
    destruct (errors_Is (err_msg ErrInvalidSignature) e) eqn:Hi; [|destruct (plain e) eqn:Hpl].
    + destruct (Hrun codes_InvalidArgument (err_msg e) (sent_status _ _) ltac:(done)) as (k' & e' & Hr & Hk' & Hf).
      exists k'. rewrite Hr. cbn [fst snd err_of]. by rewrite Hf.
    + pose proof (handleKMSError_code e Hpl) as Hne.
      destruct (sent (handleKMSError e)) as [code msg] eqn:Hsent.
      destruct (Hrun code msg eq_refl Hne) as (k' & e' & Hr & Hk' & Hf).
      rewrite <- Hsent in Hf. destruct (rpc_error_seen (kc_ctx_done c) e e' Hpl Hf) as (r & Hr' & Hseen).
      exists r. split; [|done]. exists k'. rewrite Hr. cbn [fst snd err_of].
      unfold k_handleRPCError. rewrite Hr', Hf, handleKMSError_status by done.
      unfold FromContextError. by repeat case_match.
    + intros m ->. unfold handleKMSError in Hrun. cbn [errors_Is] in Hrun.
      destruct (Hrun _ _ (sent_status _ _) ltac:(done)) as (k' & e' & Hr & Hk' & Hf).
      exists k'. rewrite Hr. cbn [fst snd err_of]. by rewrite Hf.
Qed.

(** ** Witnesses: a small KMS behind a plugin

    Its world counts the calls; its one key type signs with a checksum. *)
#[local] Existing Instance toy_grpc.
#[local] Existing Instance toy_grpc_laws.
#[local] Existing Instance toy_uuids.
#[local] Existing Instance toy_uuid_laws.

Definition toy_struct_message : Message ConfigMap :=
  {| decoded m := m; strings m := []; strings_decoded m := eq_refl |}.

Definition toy_codec : KmsCodec := {|
  Struct := ConfigMap;
  Struct_message := toy_struct_message;
  NewStruct m := Ret m;
  AsMap m := m;
  MarshalPKIX k := match k with PubEd25519 b => Ret b | _ => Fail (ErrLeaf "unsupported key") end;
  ParsePKIX b := Ret (PubEd25519 b);
|}.

#[local] Existing Instance toy_codec.

Definition toy_check (k : nat) (l : bytes) : slice :=
  Some [Z_to_byte (fold_left (fun a b => a + byte_to_Z b) l (Z.of_nat k))].

Definition toy_kms : KMS nat unit nat := {|
  kms_Open _ _ := fun n => (Ret tt, Nat.succ n);
  kms_GetKey _ _ := fun n => (Ret 7%nat, Nat.succ n);
  kms_Close _ := fun n => (Fail (ErrLeaf "busy"), Nat.succ n);
  key_Encrypt _ _ := fun n => (Fail (wrapf "encrypt" ErrNotImplemented), Nat.succ n);
  key_Decrypt _ _ := fun n => (Fail ErrNotImplemented, Nat.succ n);
  key_Sign k o := fun n => (Ret (toy_check k (content (so_Data o))), Nat.succ n);
  key_Verify k o := fun n =>
    (if Nat.eqb (slen (vo_Signature o)) 0
     then Fail (ErrStatus codes_InvalidArgument "no signature given")
     else if decide (vo_Signature o = toy_check k (content (vo_Data o))) then Ret tt
     else Fail (wrapf "toy" ErrInvalidSignature), Nat.succ n);
  key_ExportPublic k := fun n => (Ret (PubEd25519 []), Nat.succ n);
|}.

#[local] Existing Instance toy_kms.

(** A client that has opened its service and asked for a key. *)
Definition demo_kms : kworld nat unit nat bool :=
  snd (c_GetKey (mkKeyOptions ∅)
    (snd (c_Open (fun w => (tt, w)) None (mkOpenOptions None false ∅)
       (mkKclient "" false, (true, new_kserver 0%nat))))).

Definition demo_kserver : kserver nat unit nat :=
  mkKserver 2%nat {[ "u" := tt ]} {[ "uu" := 7%nat ]} 2.

Lemma demo_kms_state : demo_kms = (mkKclient "u" false, (true, demo_kserver)).
Proof. vm_compute. reflexivity. Qed.

Lemma plugin_kms_handles_witness :
  kserver_inv demo_kserver /\
  services (kserve (fun w => (tt, w)) None (CallClose "u") demo_kserver) !! "u" = None /\
  keys (kserve (fun w => (tt, w)) None (CallClose "u") demo_kserver) !! "uu" = Some 7%nat.
Proof.
  assert (Hinv : kserver_inv demo_kserver).
  { change demo_kserver with (snd (snd (mkKclient "u" false, (true, demo_kserver)))).
    rewrite <- demo_kms_state.
    assert (H0 : kserver_inv (S := unit) (K := nat) (new_kserver 0%nat)) by (intros id [[? H]|[? H]]; done).
    set (c1 := CallOpen (KC := toy_codec) (false, (∅ : ConfigMap))).
    set (c2 := CallGetKey (KC := toy_codec) ((∅ : ConfigMap), "u")).
    change (snd (snd demo_kms)) with
      (kserve (fun w => (tt, w)) None c2 (kserve (fun w => (tt, w)) None c1 (new_kserver 0%nat))).
    apply (plugin_kms_handles (fun w => (tt, w)) None c2).
    by apply (plugin_kms_handles (fun w => (tt, w)) None c1). }
  destruct (plugin_kms_handles (fun w => (tt, w)) None (CallClose "u") demo_kserver Hinv)
    as (_ & Hs & Hk).
  split; [exact Hinv|]. rewrite Hs, Hk. split; vm_compute; reflexivity.
Defined.

Lemma plugin_key_refines_witness :
  (exists p, ck_Sign "uu" (mkSignOptions (Some (bytes_of_string "hi")) true (Some (SHash SHA256))) demo_kms
     = (Ret (toy_check 7 (bytes_of_string "hi")), p)) /\
  (exists p, ck_Encrypt "uu" (mkCipherOptions None None) demo_kms = (Fail ErrNotImplemented, p)).
Proof.
  destruct (plugin_key_refines (conn := bool) (impl := toy_kms) (G := toy_grpc) "uu"
    ltac:(vm_compute; reflexivity)) as (He & _ & Hs).
  rewrite demo_kms_state. split.
  - destruct (Hs (mkSignOptions (Some (bytes_of_string "hi")) true (Some (SHash SHA256))) SHA256 None
      (SHash SHA256) ltac:(vm_compute; reflexivity) ltac:(vm_compute; reflexivity)
      ltac:(vm_compute; reflexivity)
      (mkKclient "u" false) true demo_kserver 7%nat ltac:(vm_compute; reflexivity)
      ltac:(vm_compute; reflexivity) ltac:(vm_compute; reflexivity)) as (k' & Hr & _).
    eexists. rewrite Hr. vm_compute. reflexivity.
  - destruct (He (mkCipherOptions None None)
      (mkKclient "u" false) true demo_kserver 7%nat ltac:(vm_compute; reflexivity)
      ltac:(vm_compute; reflexivity) ltac:(vm_compute; reflexivity)) as (k' & r & Hr & _ & Hseen).
    eexists. rewrite Hr. by rewrite Hseen.
Defined.

Lemma plugin_Verify_outcome_witness :
  (exists p, ck_Verify "uu" (mkVerifyOptions (Some []) None true None) demo_kms =
     (Fail ErrInvalidSignature, p)) /\
  (exists p, ck_Verify "uu" (mkVerifyOptions (toy_check 7 []) None true None) demo_kms = (Ret tt, p)).
Proof.
  rewrite demo_kms_state. split.
  - destruct (plugin_Verify_outcome (conn := bool) (impl := toy_kms) (G := toy_grpc) "uu"
      (mkVerifyOptions (Some []) None true None) 0 None (SHash 0)
      (mkKclient "u" false) true demo_kserver 7%nat ltac:(vm_compute; reflexivity)
      ltac:(vm_compute; reflexivity) ltac:(vm_compute; reflexivity) ltac:(vm_compute; reflexivity)
      ltac:(vm_compute; reflexivity) ltac:(vm_compute; reflexivity) _ eq_refl) as (k' & Hr & _).
    by eexists.
  - destruct (plugin_Verify_outcome (conn := bool) (impl := toy_kms) (G := toy_grpc) "uu"
      (mkVerifyOptions (toy_check 7 []) None true None) 0 None (SHash 0)
      (mkKclient "u" false) true demo_kserver 7%nat ltac:(vm_compute; reflexivity)
      ltac:(vm_compute; reflexivity) ltac:(vm_compute; reflexivity) ltac:(vm_compute; reflexivity)
      ltac:(vm_compute; reflexivity) ltac:(vm_compute; reflexivity)) as (k' & Hr & _).
    by eexists.
Defined.
