(* ===== verification/Pkcs11Client.v ===== *)
(** * The PKCS#11 client of the original wrapper

    wrappers/pkcs11/pkcs11_client.go.  One client owns one library context; every
    operation opens a session, logs in, works and closes it.  The state is the
    client object with the library's state.  A nil [*pkcs11.Ctx] is dereferenced
    by its methods; the values handed to [%w] and [%s] are kept in the error. *)
From S2P Require Import Prelude GoText GoEncoding GoAsn1 Wrapping Crypto P11 KeyBuilder Kms Pkcs11Keys.

Local Open Scope Z_scope.

(** ** Keys and mechanisms *)

Record Pkcs11Key := mkPkcs11Key { pk_label : string; pk_id : string }.

Definition Pkcs11Key_String (k : Pkcs11Key) : string := pk_label k +:+ ":" +:+ pk_id k.

Definition newPkcs11Key (v : string) : outcome Pkcs11Key :=
  match cut_last v ":" with
  | None => Fail (ErrLeaf "Invalid key format")
  | Some (label, id) => Ret (mkPkcs11Key label id)
  end.

(** [Set] has a value receiver: it assigns the fields of a copy, so the key of
    the caller, the state here, is the one it had. *)
Definition Pkcs11Key_Set (v : string) : prog Pkcs11Key unit := fun k =>
  match cut_last v ":" with
  | None => (Fail (ErrLeaf "Invalid key format"), k)
  | Some _ => (Ret tt, k)
  end.

Definition CKM_RSA_PKCS : Z := 0x1.
Definition CKM_AES_CBC : Z := 0x1082.
Definition CKM_AES_CBC_PAD : Z := 0x1085.

Definition DefaultRsaOaepHash : string := "sha256".
Definition CryptoAesGcmNonceSize : nat := 12.
Definition CryptoAesGcmOverhead : nat := 16.

Definition EnvHsmWrapperLib : string := "BAO_HSM_LIB".
Definition EnvHsmWrapperSlot : string := "BAO_HSM_SLOT".
Definition EnvHsmWrapperTokenLabel : string := "BAO_HSM_TOKEN_LABEL".
Definition EnvHsmWrapperPin : string := "BAO_HSM_PIN".
Definition EnvHsmWrapperKeyLabel : string := "BAO_HSM_KEY_LABEL".
Definition EnvHsmWrapperKeyId : string := "BAO_HSM_KEY_ID".
Definition EnvHsmWrapperMechanism : string := "BAO_HSM_MECHANISM".
Definition EnvHsmWrapperRsaOaepHash : string := "BAO_HSM_RSA_OAEP_HASH".
Definition EnvHsmWrapperDisableSoftwareEncryption : string := "BAO_HSM_DISABLE_SOFTWARE_ENCRYPTION".

(** [numberAutoParse]: hexadecimal behind [0x], decimal otherwise. *)
Definition numberAutoParse (value : string) (bitSize : Z) : outcome Z :=
  let value := ToLower value in
  if HasPrefix value "0x" then ParseUint (sdrop 2 value) 16 bitSize
  else ParseUint value 10 bitSize.

Definition MechanismString (mech : Z) : string :=
  if mech =? CKM_RSA_PKCS_OAEP then "CKM_RSA_PKCS_OAEP"
  else if mech =? CKM_AES_GCM then "CKM_AES_GCM"
  else if mech =? CKM_RSA_PKCS then "CKM_RSA_PKCS"
  else if mech =? CKM_AES_CBC then "CKM_AES_CBC"
  else if mech =? CKM_AES_CBC_PAD then "CKM_AES_CBC_PAD"
  else "Unknown".

Definition GetKeyTypeFromMech (mech : Z) : outcome Z :=
  if mech =? CKM_RSA_PKCS_OAEP then Ret CKK_RSA
  else if mech =? CKM_AES_GCM then Ret CKK_AES
  else if (mech =? CKM_RSA_PKCS) || (mech =? CKM_AES_CBC) || (mech =? CKM_AES_CBC_PAD)
  then Fail (Errorf ["deprecated mechanism: "; MechanismString mech; " ("; FormatUint mech; ")"])
  else Fail (Errorf ["unsupported mechanism: "; FormatUint mech]).

Definition is_one_of (s : string) (l : list string) : bool := existsb (String.eqb s) l.

Definition MechanismFromString (mech : string) : outcome Z :=
  if is_one_of mech ["CKM_RSA_PKCS_OAEP"; "RSA_PKCS_OAEP"] then Ret CKM_RSA_PKCS_OAEP
  else if is_one_of mech ["CKM_AES_GCM"; "AES_GCM"] then Ret CKM_AES_GCM
  else if is_one_of mech ["CKM_RSA_PKCS"; "RSA_PKCS"; "CKM_AES_CBC_PAD"; "AES_CBC_PAD"]
  then Fail (Errorf ["deprecated mechanism: "; mech])
  else
    match numberAutoParse mech 32 with
    | Ret mechanismNum =>
        if is_ret (GetKeyTypeFromMech mechanismNum) then Ret mechanismNum
        else Fail (Errorf ["unsupported mechanism: "; mech])
    | _ => Fail (Errorf ["unsupported mechanism: "; mech])
    end.

(** The mechanism and the mask generation function of the token, and the
    [crypto.Hash]. *)
Definition RsaHashMechFromString (mech : string) : outcome (Z * Z * Z) :=
  let mech := ToLower mech in
  if String.eqb mech "sha1" then Ret (CKM_SHA_1, CKG_MGF1_SHA1, SHA1)
  else if String.eqb mech "sha224" then Ret (CKM_SHA224, CKG_MGF1_SHA224, SHA224)
  else if String.eqb mech "sha256" then Ret (CKM_SHA256, CKG_MGF1_SHA256, SHA256)
  else if String.eqb mech "sha384" then Ret (CKM_SHA384, CKG_MGF1_SHA384, SHA384)
  else if String.eqb mech "sha512" then Ret (CKM_SHA512, CKG_MGF1_SHA512, SHA512)
  else Fail (Errorf ["unsupported mechanism: "; mech]).

Definition DefaultMechanism (keytype : Z) : outcome Z :=
  if keytype =? CKK_RSA then Ret CKM_RSA_PKCS_OAEP
  else if keytype =? CKK_AES then Ret CKM_AES_GCM
  else Fail (ErrLeaf "unsupported key type").

(** [int64(u)]: the conversion of a [uint64] wraps. *)
Definition s64 (z : Z) : Z := (z + 2 ^ 63) mod 2 ^ 64 - 2 ^ 63.

(** Attribute values, little-endian on the platform modelled. *)
Definition GetValueAsInt (value : slice) : Z :=
  let l := content value in
  match length l with
  | 1%nat | 2%nat | 4%nat => le_to_Z l
  | 8%nat => s64 (le_to_Z l)
  | _ => 0
  end.

(** On 64 bits no [uint64] exceeds [math.MaxUint]. *)
Definition GetValueAsUint (value : slice) : outcome Z :=
  let l := content value in
  match length l with
  | 1%nat | 2%nat | 4%nat => Ret (le_to_Z l)
  | 8%nat =>
      if 2 ^ 64 - 1 <? le_to_Z l then Fail (ErrLeaf "value exceeds max uint") else Ret (le_to_Z l)
  | n => Fail (Errorf ["cannot convert byte slice of length "; FormatUint (Z.of_nat n); " to uint"])
  end.

(** ** The client *)

Record Pkcs11Client := mkPkcs11Client {
  c_client : option Z;
  c_lib : string;
  c_slot : option Z;
  c_tokenLabel : string;
  c_pin : string;
  c_keyLabel : string;
  c_keyId : string;
  c_mechanism : Z;
  c_rsaOaepHash : string;
  c_disableSoftwareEncryption : bool;
}.

Definition set_client (x : option Z) (c : Pkcs11Client) : Pkcs11Client :=
  mkPkcs11Client x (c_lib c) (c_slot c) (c_tokenLabel c) (c_pin c) (c_keyLabel c) (c_keyId c)
    (c_mechanism c) (c_rsaOaepHash c) (c_disableSoftwareEncryption c).

Definition set_slot (x : option Z) (c : Pkcs11Client) : Pkcs11Client :=
  mkPkcs11Client (c_client c) (c_lib c) x (c_tokenLabel c) (c_pin c) (c_keyLabel c) (c_keyId c)
    (c_mechanism c) (c_rsaOaepHash c) (c_disableSoftwareEncryption c).

(** [KeyInfo]; [hk_public] is the [public] pointer. *)
Inductive HsmKeyInfo := mkHsmKeyInfo {
  hk_handle : Z;
  hk_public : option HsmKeyInfo;
  hk_class : Z;
  hk_keytype : Z;
  hk_encrypt : bool;
  hk_decrypt : bool;
}.

Definition set_public (p k : HsmKeyInfo) : HsmKeyInfo :=
  mkHsmKeyInfo (hk_handle k) (Some p) (hk_class k) (hk_keytype k) (hk_encrypt k) (hk_decrypt k).

Definition GetCurrentKey (c : Pkcs11Client) : Pkcs11Key := mkPkcs11Key (c_keyLabel c) (c_keyId c).

(** The options of the wrapper (wrappers/pkcs11/options.go). *)
Record options := mk_options {
  opts_Options : Options;
  withSlot : string;
  withPin : string;
  withLib : string;
  withKeyId : string;
  withKeyLabel : string;
  withTokenLabel : string;
  withMechanism : string;
  withRsaOaepHash : string;
  withDisableSoftwareEncryption : string;
}.

Section config.
(** [api.ReadBaoVariable] and [parseutil.ParseBool] are third-party. *)
Context (ReadBaoVariable : string -> string) (parseutil_ParseBool : string -> outcome bool).

(** The first half of newPkcs11Client: the settings, checked and parsed in the
    order of the code, and the client object before it is initialised. *)
Definition client_settings (opts : options) : outcome Pkcs11Client :=
  let disallow := WithDisallowEnvVars_ (o_RPC (opts_Options opts)) in
  let setting name configured := env_switch ReadBaoVariable disallow [name] configured in
  let lib := setting EnvHsmWrapperLib (withLib opts) in
  if String.eqb lib "" then Fail (ErrLeaf "lib is required") else
  let slot := setting EnvHsmWrapperSlot (withSlot opts) in
  let tokenLabel := setting EnvHsmWrapperTokenLabel (withTokenLabel opts) in
  if String.eqb slot "" && String.eqb tokenLabel "" then Fail (ErrLeaf "slot or token label required") else
  let pin := setting EnvHsmWrapperPin (withPin opts) in
  if String.eqb pin "" then Fail (ErrLeaf "pin is required") else
  let keyId := TrimPrefix (setting EnvHsmWrapperKeyId (withKeyId opts)) "0x" in
  let keyLabel := setting EnvHsmWrapperKeyLabel (withKeyLabel opts) in
  if String.eqb keyId "" && String.eqb keyLabel "" then Fail (ErrLeaf "key id or key label required") else
  let mechanism := setting EnvHsmWrapperMechanism (withMechanism opts) in
  let rsaOaepHash := ToLower (setting EnvHsmWrapperRsaOaepHash (withRsaOaepHash opts)) in
  let softwareEncryption := setting EnvHsmWrapperDisableSoftwareEncryption
                              (withDisableSoftwareEncryption opts) in
  disableSoftwareEncryption ←
    (if String.eqb softwareEncryption "" then Ret false else parseutil_ParseBool softwareEncryption);
  slotNum ←
    (if String.eqb slot "" then Ret None
     else match numberAutoParse slot 32 with
          | Ret n => Ret (Some n)
          | _ => Fail (ErrLeaf "Invalid slot number")
          end);
  mechanismNum ← (if String.eqb mechanism "" then Ret 0 else MechanismFromString mechanism);
  Ret (mkPkcs11Client None lib slotNum tokenLabel pin keyLabel keyId mechanismNum rsaOaepHash
         disableSoftwareEncryption).

(** The metadata it reports. *)
Definition client_metadata (c : Pkcs11Client) : WrapperConfig :=
  let when (b : bool) (k v : string) (m : gmap string string) := if b then <[k := v]> m else m in
  mkWrapperConfig
    (when (is_set (c_rsaOaepHash c)) "rsa_oaep_hash" (c_rsaOaepHash c)
    (when (negb (c_mechanism c =? 0)) "mechanism" (MechanismString (c_mechanism c))
    (when (is_set (c_tokenLabel c)) "token_label" (c_tokenLabel c)
    (match c_slot c with Some n => <["slot" := FormatUint n]> | None => id end
    (<["key_id" := c_keyId c]> (<["key_label" := c_keyLabel c]> {[ "lib" := c_lib c ]})))))).
End config.

Section client.
Context `{P : Pkcs11} `{PC : PublicCrypto}.

(** The client object and the library. *)
Record cworld := mkCworld { cw_client : Pkcs11Client; cw_lib : p11 }.

Definition in_lib {A} (m : prog p11 A) : prog cworld A :=
  zoom cw_lib (fun l w => mkCworld (cw_client w) l) m.

(** A method of [c.client]. *)
Definition call {A} (f : Z -> prog p11 A) : prog cworld A :=
  w ← get;
  match c_client (cw_client w) with Some ctx => in_lib (f ctx) | None => lift Panic end.

Definition update (f : Pkcs11Client -> Pkcs11Client) : prog cworld unit :=
  modify (fun w => mkCworld (f (cw_client w)) (cw_lib w)).

(** ** Sessions *)

Definition InitializeClient : prog cworld unit :=
  w ← get;
  match c_client (cw_client w) with
  | Some _ => mret tt
  | None =>
      ctx ← in_lib (ctx_New (c_lib (cw_client w)));
      _ ← update (set_client ctx);
      o ← attempt (call C_Initialize);
      match o with
      | Ret _ => mret tt
      | Fail err => _ ← update (set_client None); lift (Fail (wrapf "failed to initialize PKCS11" err))
      | Panic => lift Panic
      end
  end.

(** The loop over the slots: the first whose token has the label. *)
Fixpoint label_slot (tokenLabel : string) (slots : list Z) : prog cworld (option Z) :=
  match slots with
  | [] => mret None
  | slot :: slots =>
      o ← attempt (call (fun ctx => C_GetTokenInfo ctx slot));
      match o with
      | Ret tokenInfo =>
          if String.eqb (ti_Label tokenInfo) tokenLabel then mret (Some slot)
          else label_slot tokenLabel slots
      | Fail _ => label_slot tokenLabel slots
      | Panic => lift Panic
      end
  end.

(** An error of GetSlotList is dropped; the list beside it is nil. *)
Definition GetSlotForLabel : prog cworld Z :=
  w ← get;
  let c := cw_client w in
  match c_slot c with
  | Some slot => mret slot
  | None =>
      if String.eqb (c_tokenLabel c) "" then lift (Fail (ErrLeaf "not token label configured")) else
      o ← attempt (call C_GetSlotList);
      slots ← lift (match o with Ret l => Ret l | Fail _ => Ret [] | Panic => Panic end);
      found ← label_slot (c_tokenLabel c) slots;
      match found with
      | Some slot => _ ← update (set_slot (Some slot)); mret slot
      | None => lift (Fail (Errorf ["failed to find token with label: "; c_tokenLabel c]))
      end
  end.

Definition GetSession : prog cworld Z :=
  w ← get;
  match c_client (cw_client w) with
  | None => lift (Fail (ErrLeaf "PKCS11 not initialized"))
  | Some _ =>
      slot ← GetSlotForLabel;
      session ← on_err (wrapf "failed to open session")
        (call (fun ctx => C_OpenSession ctx slot (Z.lor CKF_SERIAL_SESSION CKF_RW_SESSION)));
      _ ← on_err (wrapf "failed to login") (call (fun ctx => C_Login ctx session CKU_USER (c_pin (cw_client w))));
      mret session
  end.

(** The errors of Logout and CloseSession are dropped. *)
Definition CloseSession (session : Z) : prog cworld unit :=
  w ← get;
  match c_client (cw_client w) with
  | None => mret tt
  | Some _ =>
      o1 ← attempt (call (fun ctx => C_Logout ctx session));
      match o1 with Panic => lift Panic | _ =>
      o2 ← attempt (call (fun ctx => C_CloseSession ctx session));
      match o2 with Panic => lift Panic | _ => mret tt end end
  end.

(** [session, err := c.GetSession()], the return on its error, the deferred
    CloseSession and the rest of the body. *)
Definition with_session {A} (f : Z -> prog cworld A) : prog cworld A :=
  session ← GetSession;
  o ← attempt (f session);
  _ ← CloseSession session;
  lift o.

Definition client_Close : prog cworld unit :=
  w ← get;
  match c_client (cw_client w) with
  | None => mret tt
  | Some _ =>
      o ← attempt (call C_Finalize);
      match o with Panic => lift Panic | _ =>
      _ ← call ctx_Destroy;
      update (set_client None) end
  end.

(** The second half of newPkcs11Client, on the client it made. *)
Definition client_validate : prog cworld unit :=
  _ ← InitializeClient;
  with_session (fun _ => mret tt).

Definition newPkcs11Client (ReadBaoVariable : string -> string)
    (parseutil_ParseBool : string -> outcome bool) (opts : options) :
    prog p11 (Pkcs11Client * WrapperConfig) := fun l =>
  match client_settings ReadBaoVariable parseutil_ParseBool opts with
  | Ret c =>
      let (o, w) := client_validate (mkCworld c l) in
      (_ ← o; Ret (cw_client w, client_metadata c), cw_lib w)
  | Fail e => (Fail e, l)
  | Panic => (Panic, l)
  end.

Definition GenerateRandom (length : Z) : prog cworld slice :=
  with_session (fun session => call (fun ctx => C_GenerateRandom ctx session length)).

(** ** Key lookup *)

(** The flags of an object, read off the attributes returned. *)
Fixpoint read_flags (attrs : list Attribute) (encrypt decrypt : Z) : outcome (Z * Z) :=
  match attrs with
  | [] => Ret (encrypt, decrypt)
  | attr :: attrs =>
      val ← GetValueAsUint (at_Value attr);
      if at_Type attr =? CKA_ENCRYPT then read_flags attrs val decrypt
      else if at_Type attr =? CKA_DECRYPT then read_flags attrs encrypt val
      else read_flags attrs encrypt decrypt
  end.

Definition flag_template (class : Z) : outcome (list Attribute) :=
  if class =? CKO_SECRET_KEY
  then Ret [NewAttribute CKA_ENCRYPT (AInt 0); NewAttribute CKA_DECRYPT (AInt 0)]
  else if class =? CKO_PRIVATE_KEY then Ret [NewAttribute CKA_DECRYPT (AInt 0)]
  else if class =? CKO_PUBLIC_KEY then Ret [NewAttribute CKA_ENCRYPT (AInt 0)]
  else Fail (Errorf ["found unsupported object of class "; FormatUint class]).

Definition get_attributes (session obj : Z) (template : list Attribute) : prog cworld (list Attribute) :=
  on_err (wrapf "failed to pkcs#11 GetAttributeValue")
    (call (fun ctx => C_GetAttributeValue ctx session obj template)).

Definition ResolveKeyAttrs (session obj : Z) : prog cworld HsmKeyInfo :=
  attrs ← get_attributes session obj [NewAttribute CKA_CLASS (AInt 0); NewAttribute CKA_KEY_TYPE (AInt 0)];
  a0 ← lift (index attrs 0);
  class ← lift (GetValueAsUint (at_Value a0));
  a1 ← lift (index attrs 1);
  keytype ← lift (GetValueAsUint (at_Value a1));
  template ← lift (flag_template class);
  attrs ← get_attributes session obj template;
  flags ← lift (read_flags attrs 0 0);
  mret (mkHsmKeyInfo obj None class keytype (fst flags =? 1) (snd flags =? 1)).

Definition find_handles (session : Z) (template : list Attribute) (max : Z) (suffix : string) :
    prog cworld (list Z) :=
  _ ← on_err (wrapf ("failed to pkcs#11 FindObjectsInit" +:+ suffix))
        (call (fun ctx => C_FindObjectsInit ctx session template));
  objs ← on_err (wrapf ("failed to pkcs#11 FindObjects" +:+ suffix))
        (call (fun ctx => C_FindObjects ctx session max));
  _ ← on_err (wrapf ("failed to pkcs#11 FindObjectsFinal" +:+ suffix))
        (call (fun ctx => C_FindObjectsFinal ctx session));
  mret objs.

Definition FindMatchingPublicKey (session privObj : Z) : prog cworld HsmKeyInfo :=
  attrs ← on_err (wrapf "failed to get CKA_ID from private key")
    (call (fun ctx => C_GetAttributeValue ctx session privObj [NewAttribute CKA_ID (AInt 0)]));
  a0 ← lift (index attrs 0);
  if Nat.eqb (slen (at_Value a0)) 0
  then lift (Fail (ErrLeaf "private key has no CKA_ID, cannot find matching public key")) else
  objs ← find_handles session
    [NewAttribute CKA_CLASS (AInt CKO_PUBLIC_KEY); NewAttribute CKA_ID (ABytes (at_Value a0))] 1
    " for public key";
  match objs with
  | [] => lift (Fail (ErrLeaf "no public key found with matching CKA_ID"))
  | obj :: _ => ResolveKeyAttrs session obj
  end.

(** An identifier that is not hexadecimal leaves no CKA_ID in the template. *)
Definition key_template (key : Pkcs11Key) : list Attribute :=
  match hex_DecodeString (pk_id key) with
  | Ret (b :: l) => [NewAttribute CKA_ID (ABytes (Some (b :: l)))]
  | _ => []
  end ++
  (if String.eqb (pk_label key) "" then []
   else [NewAttribute CKA_LABEL (ABytes (Some (bytes_of_string (pk_label key))))]).

Fixpoint resolve_all (session : Z) (objs : list Z) : prog cworld (list HsmKeyInfo) :=
  match objs with
  | [] => mret []
  | obj :: objs =>
      key ← ResolveKeyAttrs session obj;
      keys ← resolve_all session objs;
      mret (key :: keys)
  end.

(** Two objects: a private key and its public key, in either order. *)
Definition pair_up (k0 k1 : HsmKeyInfo) : outcome HsmKeyInfo :=
  privateKey ←
    (if (hk_class k0 =? CKO_PRIVATE_KEY) && (hk_class k1 =? CKO_PUBLIC_KEY) then Ret (k0, k1)
     else if (hk_class k0 =? CKO_PUBLIC_KEY) && (hk_class k1 =? CKO_PRIVATE_KEY) then Ret (k1, k0)
     else Fail (Errorf ["found two objects, expected public/private key pair (class ";
       FormatUint CKO_PUBLIC_KEY; " and "; FormatUint CKO_PRIVATE_KEY; ") but got class ";
       FormatUint (hk_class k0); " and "; FormatUint (hk_class k1)]));
  let (private, public) := privateKey : HsmKeyInfo * HsmKeyInfo in
  if negb (hk_keytype private =? hk_keytype public)
  then Fail (Errorf ["private key type does not match public key type (";
    FormatUint (hk_keytype private); " vs "; FormatUint (hk_keytype public); ")"])
  else Ret (set_public public private).

Definition FindKey (session : Z) (key : Pkcs11Key) : prog cworld HsmKeyInfo :=
  objs ← find_handles session (key_template key) 2 "";
  match length objs with
  | 1%nat | 2%nat =>
      keys ← resolve_all session objs;
      match keys with
      | [k0] =>
          if hk_class k0 =? CKO_SECRET_KEY then mret k0
          else if hk_class k0 =? CKO_PRIVATE_KEY then
            pubKey ← on_err (wrapf "found private key but failed to find matching public key")
              (FindMatchingPublicKey session (hk_handle k0));
            mret (set_public pubKey k0)
          else lift (Fail (Errorf ["found a single object of class "; FormatUint (hk_class k0);
                 ", expected a secret key or private key"]))
      | [k0; k1] => lift (pair_up k0 k1)
      | _ => lift Panic
      end
  | O => lift (Fail (ErrLeaf "no key found"))
  | _ => lift (Fail (ErrLeaf "could not find unique secret key or key pair"))
  end.

(** ** Encryption *)

(** A ciphertext, a nonce and the key they were made with. *)
Definition sealed : Type := slice * slice * Pkcs11Key.

(** [fmt.Errorf("...: %s", err)]: the error is printed, not wrapped. *)
Definition printf (prefix : string) (e : error) : error := ErrLeaf (prefix +:+ ": " +:+ err_msg e).

Definition gcm_mechanism (nonce : slice) : Mechanism :=
  NewMechanism CKM_AES_GCM (GCMParams nonce None (Z.of_nat CryptoAesGcmOverhead * 8)).

(** EncryptInit and Encrypt on the token, DecryptInit and Decrypt. *)
Definition token_encrypt (session : Z) (mech : Mechanism) (key : Z) (plaintext : slice) : prog cworld slice :=
  _ ← on_err (printf "failed to pkcs11 EncryptInit") (call (fun ctx => C_EncryptInit ctx session mech key));
  on_err (printf "failed to pkcs11 Encrypt") (call (fun ctx => C_Encrypt ctx session plaintext)).

Definition token_decrypt (session : Z) (mech : Mechanism) (key : Z) (ciphertext : slice) : prog cworld slice :=
  _ ← on_err (printf "failed to pkcs11 DecryptInit") (call (fun ctx => C_DecryptInit ctx session mech key));
  on_err (printf "failed to pkcs11 Decrypt") (call (fun ctx => C_Decrypt ctx session ciphertext)).

(** A token that made its own nonce has appended it: the ciphertext is then
    twelve bytes longer than the plaintext and the tag. *)
Definition split_nonce (nonce plaintext ciphertext : slice) : slice * slice :=
  let l := content ciphertext in
  if Nat.eqb (length l) (CryptoAesGcmNonceSize + slen plaintext + CryptoAesGcmOverhead)
  then (Some (take (length l - CryptoAesGcmNonceSize) l), Some (drop (length l - CryptoAesGcmNonceSize) l))
  else (ciphertext, nonce).

Definition EncryptAesGcm (session key : Z) (keyId : Pkcs11Key) (plaintext : slice) : prog cworld sealed :=
  nonce ← call (fun ctx => C_GenerateRandom ctx session (Z.of_nat CryptoAesGcmNonceSize));
  ciphertext ← token_encrypt session (gcm_mechanism nonce) key plaintext;
  mret (split_nonce nonce plaintext ciphertext, keyId).

Definition oaep_hash_name (c : Pkcs11Client) : string :=
  if is_set (c_rsaOaepHash c) then c_rsaOaepHash c else DefaultRsaOaepHash.

Definition oaep_mechanism (hash mgfHash : Z) : Mechanism :=
  NewMechanism CKM_RSA_PKCS_OAEP (OAEPParams hash mgfHash CKZ_DATA_SPECIFIED None).

Definition EncryptRsaOaep (session key : Z) (keyId : Pkcs11Key) (plaintext : slice) : prog cworld sealed :=
  w ← get;
  h ← lift (RsaHashMechFromString (oaep_hash_name (cw_client w)));
  ciphertext ← token_encrypt session (oaep_mechanism h.1.1 h.1.2) key plaintext;
  mret (ciphertext, None, keyId).

(** [rnd]: what [rand.Reader] yields. *)
Definition EncryptRsaOaepSoftware (rnd : bytes) (pubkey : PublicKey) (keyId : Pkcs11Key) (plaintext : slice) :
    prog cworld sealed :=
  w ← get;
  h ← lift (RsaHashMechFromString (oaep_hash_name (cw_client w)));
  ciphertext ← lift (map_err (wrapf "failed to encrypt with software RSA OAEP")
    (rsa_EncryptOAEP h.2 rnd pubkey (content plaintext)));
  mret (ciphertext, None, keyId).

(** The sanity checks are those of the PKCS#11 KMS. *)
Definition ExportRSAPublicKey (sh key : Z) : prog cworld PublicKey :=
  attrs ← get_attributes sh key
    [NewAttribute CKA_MODULUS (ABytes None); NewAttribute CKA_PUBLIC_EXPONENT (ABytes None)];
  a0 ← lift (index attrs 0);
  a1 ← lift (index attrs 1);
  lift (map_err (wrapf "malformed rsa public key")
    (rsa_check (be_to_Z (content (at_Value a0))) (be_to_Z (content (at_Value a1))))).

Definition effective_mechanism (c : Pkcs11Client) (key : HsmKeyInfo) : outcome Z :=
  if c_mechanism c =? 0 then DefaultMechanism (hk_keytype key) else Ret (c_mechanism c).

(** [key.public], dereferenced. *)
Definition public_of (key : HsmKeyInfo) : outcome HsmKeyInfo :=
  match hk_public key with Some p => Ret p | None => Panic end.

(** The checks of Encrypt before it chooses a mechanism. *)
Definition encrypt_allowed (c : Pkcs11Client) (key : HsmKeyInfo) : outcome unit :=
  if (hk_class key =? CKO_SECRET_KEY) && negb (hk_encrypt key)
  then Fail (ErrLeaf "secret key does not have CKA_ENCRYPT")
  else if (hk_class key =? CKO_PRIVATE_KEY) && c_disableSoftwareEncryption c then
    p ← public_of key;
    if hk_encrypt p then Ret tt else Fail (ErrLeaf "public key does not have CKA_ENCRYPT")
  else Ret tt.

(** The body of Encrypt, on the key it found. *)
Definition encrypt_with (rnd : bytes) (session : Z) (keyId : Pkcs11Key) (key : HsmKeyInfo) (plaintext : slice) :
    prog cworld sealed :=
  w ← get;
  let c := cw_client w in
  _ ← lift (encrypt_allowed c key);
  mechanism ← lift (effective_mechanism c key);
  if mechanism =? CKM_AES_GCM then EncryptAesGcm session (hk_handle key) keyId plaintext
  else if mechanism =? CKM_RSA_PKCS_OAEP then
    p ← lift (public_of key);
    if c_disableSoftwareEncryption c then EncryptRsaOaep session (hk_handle p) keyId plaintext
    else
      pubkey ← ExportRSAPublicKey session (hk_handle p);
      EncryptRsaOaepSoftware rnd pubkey keyId plaintext
  else lift (Fail (ErrLeaf "unsupported mechanism")).

Definition client_Encrypt (rnd : bytes) (plaintext : slice) : prog cworld sealed :=
  with_session (fun session =>
    w ← get;
    let keyId := GetCurrentKey (cw_client w) in
    key ← FindKey session keyId;
    encrypt_with rnd session keyId key plaintext).

(** ** Decryption *)

Definition DecryptAesGcm (session key : Z) (nonce ciphertext : slice) : prog cworld slice :=
  token_decrypt session (gcm_mechanism nonce) key ciphertext.

Definition DecryptRsaOaep (session key : Z) (ciphertext : slice) : prog cworld slice :=
  w ← get;
  h ← lift (RsaHashMechFromString (oaep_hash_name (cw_client w)));
  token_decrypt session (oaep_mechanism h.1.1 h.1.2) key ciphertext.

Definition decrypt_allowed (key : HsmKeyInfo) : outcome unit :=
  if (hk_class key =? CKO_SECRET_KEY) && negb (hk_decrypt key)
  then Fail (ErrLeaf "secret key does not have CKA_DECRYPT")
  else if (hk_class key =? CKO_PRIVATE_KEY) && negb (hk_decrypt key)
  then Fail (ErrLeaf "private key does not have CKA_DECRYPT")
  else Ret tt.

Definition decrypt_with (session : Z) (key : HsmKeyInfo) (nonce ciphertext : slice) : prog cworld slice :=
  w ← get;
  _ ← lift (decrypt_allowed key);
  mechanism ← lift (effective_mechanism (cw_client w) key);
  if mechanism =? CKM_AES_GCM then DecryptAesGcm session (hk_handle key) nonce ciphertext
  else if mechanism =? CKM_RSA_PKCS_OAEP then DecryptRsaOaep session (hk_handle key) ciphertext
  else lift (Fail (ErrLeaf "unsupported mechanism")).

Definition client_Decrypt (ciphertext nonce : slice) (keyId : option Pkcs11Key) : prog cworld slice :=
  with_session (fun session =>
    w ← get;
    key ← FindKey session (default (GetCurrentKey (cw_client w)) keyId);
    decrypt_with session key nonce ciphertext).
End client.
Arguments cworld P : clear implicits.
Arguments mkCworld {P}.

(** ** What the library promises *)

(** The sessions that are open; what a call may do to them, and that it returns. *)
Class HsmLaws (P : Pkcs11) := {
  open_sessions : p11 -> gset Z;
  law_OpenSession ctx slot fl l : wp (C_OpenSession ctx slot fl) (fun o l' => match o with
    | Ret h => h ∉ open_sessions l /\ open_sessions l' = {[ h ]} ∪ open_sessions l
    | Fail _ => open_sessions l' = open_sessions l
    | Panic => False
    end) l;
  (* a failed call may have left the session open *)
  law_CloseSession ctx h l : h ∈ open_sessions l ->
    wp (C_CloseSession ctx h) (fun o l' => match o with
    | Ret _ => open_sessions l' = open_sessions l ∖ {[ h ]}
    | Fail _ => open_sessions l' = open_sessions l ∖ {[ h ]} \/ open_sessions l' = open_sessions l
    | Panic => False
    end) l;
  law_Login ctx h u pin : keeps open_sessions (C_Login ctx h u pin);
  law_Logout ctx h : keeps open_sessions (C_Logout ctx h);
  law_GetSlotList ctx : keeps open_sessions (C_GetSlotList ctx);
  law_GetTokenInfo ctx slot : keeps open_sessions (C_GetTokenInfo ctx slot);
  law_GenerateRandom ctx h n : keeps open_sessions (C_GenerateRandom ctx h n);
  law_GetAttributeValue ctx h o t l : wp (C_GetAttributeValue ctx h o t) (fun r l' =>
    r <> Panic /\ open_sessions l' = open_sessions l /\ forall a, r = Ret a -> length a = length t) l;
  law_FindObjectsInit ctx h t : keeps open_sessions (C_FindObjectsInit ctx h t);
  law_FindObjects ctx h n l : 0 <= n -> wp (C_FindObjects ctx h n) (fun r l' =>
    r <> Panic /\ open_sessions l' = open_sessions l /\ forall a, r = Ret a -> Z.of_nat (length a) <= n) l;
  law_FindObjectsFinal ctx h : keeps open_sessions (C_FindObjectsFinal ctx h);
  law_EncryptInit ctx h m o : keeps open_sessions (C_EncryptInit ctx h m o);
  law_Encrypt ctx h d : keeps open_sessions (C_Encrypt ctx h d);
  law_DecryptInit ctx h m o : keeps open_sessions (C_DecryptInit ctx h m o);
  law_Decrypt ctx h d : keeps open_sessions (C_Decrypt ctx h d);
}.

(** [rsa.EncryptOAEP] returns. *)
Definition oaep_total (PC : PublicCrypto) : Prop :=
  forall h r k m, rsa_EncryptOAEP h r k m <> Panic.

Section laws.
Context `{HL : HsmLaws} `{PC : PublicCrypto}.

Definition w_open (w : cworld P) : gset Z := open_sessions (cw_lib w).

(** [calm c pan m R]: from a state with the client object [c], [m] leaves the
    object and the open sessions alone, panics only if [pan], and returns values
    in [R]. *)
Definition calm {A} (c : Pkcs11Client) (pan : Prop) (m : prog (cworld P) A) (R : A -> Prop) : Prop :=
  forall w, cw_client w = c -> wp m (fun o w' =>
    cw_client w' = c /\ w_open w' = w_open w /\ (o = Panic -> pan) /\ forall a, o = Ret a -> R a) w.

Lemma calm_bind {A B} c pan (m : prog (cworld P) A) (f : A -> prog (cworld P) B) R R' :
  calm c pan m R -> (forall a, R a -> calm c pan (f a) R') -> calm c pan (m ≫= f) R'.
Proof.
  intros Hm Hf w Hw. rewrite wp_bind. eapply wp_mono; [|exact (Hm w Hw)].
  intros [a|e|] w1 (Hc & Ho & Hp & HR); simpl; [|split_and!; naive_solver..].
  eapply wp_mono; [|exact (Hf a (HR a eq_refl) w1 Hc)]. intros o w2 (? & Ho2 & ? & ?).
  split_and!; [done|congruence|done..].
Qed.

Lemma calm_weaken {A} c pan (m : prog (cworld P) A) (R R' : A -> Prop) :
  calm c pan m R -> (forall a, R a -> R' a) -> calm c pan m R'.
Proof. intros Hm HR w Hw. eapply wp_mono; [|exact (Hm w Hw)]. naive_solver. Qed.

Lemma calm_lift {A} c (pan : Prop) (o : outcome A) (R : A -> Prop) :
  (o = Panic -> pan) -> (forall a, o = Ret a -> R a) -> calm c pan (lift o) R.
Proof. intros Hp HR w Hw. rewrite wp_lift. split_and!; naive_solver. Qed.

Lemma calm_fail {A} c pan e (R : A -> Prop) : calm c pan (lift (Fail e)) R.
Proof. apply calm_lift; naive_solver. Qed.

(** A pure step that does not panic. *)
Lemma calm_pure {A B} c pan (o : outcome A) (f : A -> prog (cworld P) B) R :
  o <> Panic -> (forall a, o = Ret a -> calm c pan (f a) R) -> calm c pan (lift o ≫= f) R.
Proof. intros Ho Hf. eapply calm_bind; [by apply (calm_lift _ _ _ (fun a => o = Ret a))|done]. Qed.

Lemma calm_ret {A} c pan (a : A) (R : A -> Prop) : R a -> calm c pan (mret a) R.
Proof. intros H. apply calm_lift; naive_solver. Qed.

Lemma calm_get c pan : calm c pan get (fun w => cw_client w = c).
Proof. intros w Hw. rewrite wp_get. split_and!; naive_solver. Qed.

Lemma calm_on_err {A} c pan f (m : prog (cworld P) A) R : calm c pan m R -> calm c pan (on_err f m) R.
Proof.
  intros Hm w Hw. rewrite wp_on_err. eapply wp_mono; [|exact (Hm w Hw)].
  intros [] w1; simpl; naive_solver.
Qed.

Lemma calm_attempt {A} c pan pan' (m : prog (cworld P) A) R :
  calm c pan m R -> calm c pan' (attempt m) (fun o => (o = Panic -> pan) /\ forall a, o = Ret a -> R a).
Proof.
  intros Hm w Hw. rewrite wp_attempt. eapply wp_mono; [|exact (Hm w Hw)].
  intros o w1 (? & ? & ? & ?). split_and!; naive_solver.
Qed.

(** A calm step at the head of a program that is not. *)
Lemma wp_calm_bind {A B} c (m : prog (cworld P) A) (f : A -> prog (cworld P) B) R
    (Q : outcome B -> cworld P -> Prop) w :
  calm c False m R -> cw_client w = c ->
  (forall a w1, cw_client w1 = c -> w_open w1 = w_open w -> R a -> wp (f a) Q w1) ->
  (forall e w1, cw_client w1 = c -> w_open w1 = w_open w -> Q (Fail e) w1) ->
  wp (m ≫= f) Q w.
Proof.
  intros Hm Hw Hf He. rewrite wp_bind. eapply wp_mono; [|exact (Hm w Hw)].
  intros [a|e|] w1 (? & ? & ? & ?); [|by apply He|tauto]. apply Hf; auto.
Qed.

(** A library call that leaves the sessions alone. *)
Lemma calm_call_R {A} c ctx pan (f : Z -> prog p11 A) (R : A -> Prop) :
  c_client c = Some ctx ->
  (forall l, wp (f ctx) (fun o l' => o <> Panic /\ open_sessions l' = open_sessions l /\
     forall a, o = Ret a -> R a) l) ->
  calm c pan (call f) R.
Proof.
  intros Hctx Hf w Hw. unfold call. rewrite wp_bind, wp_get, Hw, Hctx.
  unfold in_lib. rewrite wp_zoom. eapply wp_mono; [|apply Hf].
  intros o l (? & ? & ?). unfold w_open. simpl. split_and!; naive_solver.
Qed.

Lemma calm_call {A} c ctx pan (f : Z -> prog p11 A) :
  c_client c = Some ctx -> keeps open_sessions (f ctx) -> calm c pan (call f) (fun _ => True).
Proof.
  intros Hctx Hf. apply (calm_call_R c ctx); [done|]. intros l.
  eapply wp_mono; [|apply Hf]. naive_solver.
Qed.
End laws.

Section safety.
Context `{HL : HsmLaws} `{PC : PublicCrypto} (HO : oaep_total PC).
Context (c : Pkcs11Client) (ctx : Z) (Hctx : c_client c = Some ctx).

Local Hint Resolve law_Login law_Logout law_GetSlotList law_GetTokenInfo law_GenerateRandom
  law_FindObjectsInit law_FindObjectsFinal law_EncryptInit law_Encrypt law_DecryptInit law_Decrypt : hsm.

Lemma GetValueAsUint_no_panic v : GetValueAsUint v <> Panic.
Proof. unfold GetValueAsUint. repeat case_match; done. Qed.

Lemma read_flags_no_panic attrs e d : read_flags attrs e d <> Panic.
Proof.
  revert e d. induction attrs as [|a attrs IH]; intros e d; simpl; [done|].
  pose proof (GetValueAsUint_no_panic (at_Value a)).
  destruct (GetValueAsUint (at_Value a)); simpl; [|done..]. by repeat case_match.
Qed.

Lemma flag_template_no_panic class : flag_template class <> Panic.
Proof. unfold flag_template. by repeat case_match. Qed.

Lemma index_no_panic {A} (l : list A) i : (i < length l)%nat -> index l i <> Panic.
Proof. intros H. unfold index. apply lookup_lt_is_Some in H as [x ->]. done. Qed.

Lemma rsa_check_no_panic n e : rsa_check n e <> Panic.
Proof. unfold rsa_check. by repeat case_match. Qed.

Lemma RsaHash_no_panic s : RsaHashMechFromString s <> Panic.
Proof. unfold RsaHashMechFromString. cbv zeta. by repeat case_match. Qed.

Lemma DefaultMechanism_no_panic t : DefaultMechanism t <> Panic.
Proof. unfold DefaultMechanism. by repeat case_match. Qed.

Lemma calm_attributes pan session obj t :
  calm c pan (get_attributes session obj t) (fun a => length a = length t).
Proof.
  apply calm_on_err, (calm_call_R c ctx); [done|]. intros l. apply law_GetAttributeValue.
Qed.

Lemma calm_ResolveKeyAttrs pan session obj :
  calm c pan (ResolveKeyAttrs session obj) (fun k => hk_public k = None).
Proof.
  eapply calm_bind; [apply calm_attributes|]. intros attrs Hl. simpl in Hl.
  apply calm_pure; [apply index_no_panic; lia|]. intros a0 _.
  apply calm_pure; [apply GetValueAsUint_no_panic|]. intros class _.
  apply calm_pure; [apply index_no_panic; lia|]. intros a1 _.
  apply calm_pure; [apply GetValueAsUint_no_panic|]. intros keytype _.
  apply calm_pure; [apply flag_template_no_panic|]. intros t _.
  eapply calm_bind; [apply calm_attributes|]. intros attrs' _.
  apply calm_pure; [apply read_flags_no_panic|]. intros fl _.
  by apply calm_ret.
Qed.

Lemma calm_find_handles pan session t max suffix : 0 <= max ->
  calm c pan (find_handles session t max suffix) (fun l => Z.of_nat (length l) <= max).
Proof.
  intros Hmax. eapply calm_bind; [apply calm_on_err, (calm_call c ctx); auto with hsm|]. intros _ _.
  eapply calm_bind; [apply calm_on_err, (calm_call_R c ctx); [done|]; intros l; by apply law_FindObjects|].
  intros objs Ho. eapply calm_bind; [apply calm_on_err, (calm_call c ctx); auto with hsm|]. intros _ _.
  by apply calm_ret.
Qed.

Lemma calm_resolve_all pan session objs :
  calm c pan (resolve_all session objs) (fun ks => length ks = length objs /\
    Forall (fun k => hk_public k = None) ks).
Proof.
  induction objs as [|o objs IH]; simpl; [by apply calm_ret|].
  eapply calm_bind; [apply calm_ResolveKeyAttrs|]. intros k Hk.
  eapply calm_bind; [exact IH|]. intros ks [Hl Hks]. apply calm_ret. simpl. auto.
Qed.

Lemma calm_FindMatchingPublicKey pan session obj :
  calm c pan (FindMatchingPublicKey session obj) (fun _ => True).
Proof.
  eapply calm_bind; [apply calm_on_err, (calm_call_R c ctx); [done|]; intros l; apply law_GetAttributeValue|].
  intros attrs Hl. simpl in Hl.
  apply calm_pure; [apply index_no_panic; lia|]. intros a0 _.
  case_match; [apply calm_fail|].
  eapply calm_bind; [by apply calm_find_handles|]. intros [|o l] _; [apply calm_fail|].
  eapply calm_weaken; [apply calm_ResolveKeyAttrs|done].
Qed.

(** A key as FindKey returns it: a secret key, or a private key with a public one. *)
Definition key_shape (k : HsmKeyInfo) : Prop :=
  hk_class k = CKO_SECRET_KEY /\ hk_public k = None \/
  hk_class k = CKO_PRIVATE_KEY /\ exists p, hk_public k = Some p.

Lemma pair_up_shape k0 k1 : pair_up k0 k1 <> Panic /\
  forall k, pair_up k0 k1 = Ret k -> hk_class k = CKO_PRIVATE_KEY /\
    exists p, hk_public k = Some p /\ hk_class p = CKO_PUBLIC_KEY /\ hk_keytype p = hk_keytype k.
Proof.
  assert (Hpair : forall a b : HsmKeyInfo, hk_class a = CKO_PRIVATE_KEY -> hk_class b = CKO_PUBLIC_KEY ->
    forall e, let r := if negb (hk_keytype a =? hk_keytype b) then Fail e else Ret (set_public b a) in
    r <> Panic /\ forall k, r = Ret k -> hk_class k = CKO_PRIVATE_KEY /\
      exists p, hk_public k = Some p /\ hk_class p = CKO_PUBLIC_KEY /\ hk_keytype p = hk_keytype k).
  { intros a b Ha Hb e. cbv zeta. destruct (Z.eqb_spec (hk_keytype a) (hk_keytype b)); simpl; [|done].
    split; [done|]. intros k [= <-]. simpl. eauto. }
  unfold pair_up. destruct ((hk_class k0 =? CKO_PRIVATE_KEY) && _) eqn:E1;
    [|destruct ((hk_class k0 =? CKO_PUBLIC_KEY) && _) eqn:E2]; unfold mbind, outcome_bind.
  - apply andb_true_iff in E1 as [? ?]. apply Hpair; lia.
  - apply andb_true_iff in E2 as [? ?]. apply Hpair; lia.
  - split; [done|]. intros k Hk. discriminate Hk.
Qed.

Lemma calm_FindKey pan session key : calm c pan (FindKey session key) key_shape.
Proof.
  eapply calm_bind; [by apply calm_find_handles|]. intros objs Ho.
  destruct objs as [|o0 [|o1 [|o2 objs]]]; [apply calm_fail| | |apply calm_fail]; cbn [length].
  - eapply calm_bind; [apply calm_resolve_all|]. intros ks [Hl Hks].
    destruct ks as [|k0 [|]]; try done. apply Forall_cons in Hks as [Hk0 _].
    destruct (hk_class k0 =? CKO_SECRET_KEY) eqn:E; [apply calm_ret; left; split; [lia|done]|].
    destruct (hk_class k0 =? CKO_PRIVATE_KEY) eqn:E'; [|apply calm_fail].
    eapply calm_bind; [apply calm_on_err, calm_FindMatchingPublicKey|]. intros p _.
    apply calm_ret. right. simpl. split; [lia|eauto].
  - eapply calm_bind; [apply calm_resolve_all|]. intros ks [Hl Hks].
    destruct ks as [|k0 [|k1 [|]]]; try done. destruct (pair_up_shape k0 k1) as [Hp HR].
    apply calm_lift; [done|]. intros k Hk. apply HR in Hk as (Hk1 & p & Hk2 & _). right. eauto.
Qed.
Lemma calm_token_encrypt pan session m key pt : calm c pan (token_encrypt session m key pt) (fun _ => True).
Proof.
  eapply calm_bind; [apply calm_on_err, (calm_call c ctx); auto with hsm|]. intros _ _.
  apply calm_on_err, (calm_call c ctx); auto with hsm.
Qed.

Lemma calm_token_decrypt pan session m key ct : calm c pan (token_decrypt session m key ct) (fun _ => True).
Proof.
  eapply calm_bind; [apply calm_on_err, (calm_call c ctx); auto with hsm|]. intros _ _.
  apply calm_on_err, (calm_call c ctx); auto with hsm.
Qed.

Lemma effective_no_panic key : effective_mechanism c key <> Panic.
Proof. unfold effective_mechanism. case_match; [apply DefaultMechanism_no_panic|done]. Qed.

(** Where Encrypt dereferences a public key that is not there. *)
Definition secret_with_oaep (key : HsmKeyInfo) : Prop :=
  hk_class key = CKO_SECRET_KEY /\ effective_mechanism c key = Ret CKM_RSA_PKCS_OAEP.

Lemma encrypt_allowed_no_panic key : key_shape key -> encrypt_allowed c key <> Panic.
Proof.
  unfold encrypt_allowed, key_shape. intros [[-> _]|[-> [p Hp]]].
  - destruct (negb (hk_encrypt key)); simpl; done.
  - simpl. unfold public_of. rewrite Hp. destruct (c_disableSoftwareEncryption c); simpl; [|done].
    by destruct (hk_encrypt p).
Qed.

Lemma calm_encrypt_with rnd session keyId key pt : key_shape key ->
  calm c (secret_with_oaep key) (encrypt_with rnd session keyId key pt) (fun _ => True).
Proof.
  intros Hk. eapply calm_bind; [apply calm_get|]. intros w Hw. simpl in Hw. rewrite Hw.
  apply calm_pure; [by apply encrypt_allowed_no_panic|]. intros _ _.
  apply calm_pure; [apply effective_no_panic|]. intros m Hm.
  destruct (m =? CKM_AES_GCM).
  - eapply calm_bind; [apply (calm_call c ctx); auto with hsm|]. intros n _.
    eapply calm_bind; [apply calm_token_encrypt|]. intros ct _. by apply calm_ret.
  - destruct (m =? CKM_RSA_PKCS_OAEP) eqn:Eo; [|apply calm_fail].
    apply Z.eqb_eq in Eo. subst m.
    eapply (calm_bind _ _ _ _ (fun _ => True)); [apply calm_lift; [|done]|].
    { unfold public_of, secret_with_oaep. destruct Hk as [[H1 H2]|[H1 [p H2]]]; rewrite H2; done. }
    intros p _. destruct (c_disableSoftwareEncryption c).
    + eapply calm_bind; [apply calm_get|]. intros w' _.
      apply calm_pure; [apply RsaHash_no_panic|]. intros h _.
      eapply calm_bind; [apply calm_token_encrypt|]. intros ct _. by apply calm_ret.
    + eapply calm_bind; [|intros pub _; eapply calm_bind; [apply calm_get|]; intros w' _].
      * eapply calm_bind; [apply calm_attributes|]. intros attrs Hl. simpl in Hl.
        apply calm_pure; [apply index_no_panic; lia|]. intros a0 _.
        apply calm_pure; [apply index_no_panic; lia|]. intros a1 _.
        apply (calm_lift _ _ _ (fun _ => True)); [|done]. intros Hp. exfalso. revert Hp.
        pose proof (rsa_check_no_panic (be_to_Z (content (at_Value a0))) (be_to_Z (content (at_Value a1)))).
        by destruct (rsa_check _ _).
      * apply calm_pure; [apply RsaHash_no_panic|]. intros h _.
        apply calm_pure; [|by intros ct _; apply calm_ret].
        pose proof (HO h.2 rnd pub (content pt)). by destruct (rsa_EncryptOAEP _ _ _ _).
Qed.

Lemma calm_decrypt_with session key nonce ct :
  calm c False (decrypt_with session key nonce ct) (fun _ => True).
Proof.
  eapply calm_bind; [apply calm_get|]. intros w Hw. simpl in Hw. rewrite Hw.
  apply calm_pure; [unfold decrypt_allowed; by repeat case_match|]. intros _ _.
  apply calm_pure; [apply effective_no_panic|]. intros m Hm.
  destruct (m =? CKM_AES_GCM); [apply calm_token_decrypt|].
  destruct (m =? CKM_RSA_PKCS_OAEP); [|apply calm_fail].
  eapply calm_bind; [apply calm_get|]. intros w' _.
  apply calm_pure; [apply RsaHash_no_panic|]. intros h _. apply calm_token_decrypt.
Qed.

Lemma calm_label_slot pan label slots : calm c pan (label_slot label slots) (fun _ => True).
Proof.
  induction slots as [|s slots IH]; simpl; [by apply calm_ret|].
  eapply calm_bind; [eapply calm_attempt, (calm_call c ctx False); auto with hsm|].
  intros o [Hp _]. destruct o; [|exact IH|done]. case_match; [by apply calm_ret|exact IH].
Qed.

Lemma wp_client_call {A} f (Q : outcome A -> cworld P -> Prop) w :
  cw_client w = c -> wp (f ctx) (fun o l => Q o (mkCworld c l)) (cw_lib w) -> wp (call f) Q w.
Proof.
  intros Hw H. unfold call. rewrite wp_bind, wp_get, Hw, Hctx. unfold in_lib.
  by rewrite wp_zoom, Hw.
Qed.

(** What the deferred CloseSession does to its session, whatever Logout answers:
    it is closed, unless the library's own CloseSession, its last call, fails. *)
Definition closes (session : Z) (w w' : cworld P) : Prop :=
  w_open w' = w_open w ∖ {[ session ]} \/
  w_open w' = w_open w /\ exists l e, C_CloseSession ctx session l = (Fail e, cw_lib w').

Lemma wp_CloseSession w session : cw_client w = c -> session ∈ w_open w ->
  wp (CloseSession session) (fun o w' => o = Ret tt /\ cw_client w' = c /\ closes session w w') w.
Proof.
  intros Hw Hs. unfold CloseSession. rewrite wp_bind, wp_get, Hw, Hctx, wp_bind, wp_attempt.
  apply wp_client_call; [done|]. eapply wp_mono; [|apply law_Logout]. intros o l (Hp & Ho).
  assert (Hrest : wp (o2 ← attempt (call (fun ctx => C_CloseSession ctx session));
      match o2 with Panic => lift Panic | _ => mret tt end)
    (fun o w' => o = Ret tt /\ cw_client w' = c /\ closes session w w') (mkCworld c l)).
  { rewrite wp_bind, wp_attempt. apply wp_client_call; [done|].
    pose proof (law_CloseSession ctx session l ltac:(rewrite Ho; exact Hs)) as H. unfold wp in H |- *.
    cbn [cw_lib]. destruct (C_CloseSession ctx session l) as [o2 l2] eqn:E.
    unfold closes, w_open in *. simpl in *.
    destruct o2 as [u|e|]; [| |done]; simpl; rewrite <- ?Ho; (split; [done|]; split; [done|]); [by left|].
    destruct H as [H|H]; [by left|]. right. split; [done|]. by exists l, e. }
  destruct o; [exact Hrest|exact Hrest|done].
Qed.
End safety.

(** ** The session discipline *)

Section discipline.
Context `{HL : HsmLaws} `{PC : PublicCrypto} (HO : oaep_total PC).

Lemma client_call_run {A} (f : Z -> prog p11 A) (w : cworld P) ctx o l :
  c_client (cw_client w) = Some ctx -> f ctx (cw_lib w) = (o, l) ->
  call f w = (o, mkCworld (cw_client w) l).
Proof.
  intros Hctx Hf. unfold call, in_lib, zoom. rewrite get_bind, Hctx. by rewrite Hf.
Qed.

(** The same client up to the cached slot. *)
Definition same_client (c c' : Pkcs11Client) : Prop := exists s, c' = set_slot s c.

Lemma same_client_refl c : same_client c c.
Proof. exists (c_slot c). by destruct c. Qed.

Lemma effective_same c c' k : same_client c c' -> effective_mechanism c' k = effective_mechanism c k.
Proof. by intros [s ->]. Qed.

(** A session that was opened and whose login failed is not closed. *)
Definition login_leak {A} (w : cworld P) (o : outcome A) (w' : cworld P) : Prop :=
  exists h e, o = Fail (wrapf "failed to login" e) /\ h ∉ w_open w /\ w_open w' = {[ h ]} ∪ w_open w.

(** A session that was opened and whose closing, the last call made, failed. *)
Definition close_leak (ctx : Z) (w w' : cworld P) : Prop :=
  exists h l e, C_CloseSession ctx h l = (Fail e, cw_lib w') /\ h ∉ w_open w /\
    w_open w' = {[ h ]} ∪ w_open w.

(** The sessions after a call: those before, but for these two. *)
Definition balanced {A} (ctx : Z) (w : cworld P) (o : outcome A) (w' : cworld P) : Prop :=
  w_open w' = w_open w \/ login_leak w o w' \/ close_leak ctx w w'.

Lemma wp_GetSlotForLabel w ctx : c_client (cw_client w) = Some ctx ->
  wp GetSlotForLabel (fun o w' => o <> Panic /\ same_client (cw_client w) (cw_client w') /\
    w_open w' = w_open w) w.
Proof.
  intros Hctx. unfold GetSlotForLabel. rewrite wp_bind, wp_get.
  destruct (c_slot (cw_client w)) as [s|];
    [split_and!; [done|apply same_client_refl|done]|].
  destruct (String.eqb _ _); [split_and!; [done|apply same_client_refl|done]|].
  assert (Hfail : forall A (o : outcome A) w1, o <> Panic -> cw_client w1 = cw_client w ->
    w_open w1 = w_open w -> o <> Panic /\ same_client (cw_client w) (cw_client w1) /\ w_open w1 = w_open w).
  { intros A o w1 Hp -> Ho. split_and!; [done|apply same_client_refl|done]. }
  eapply wp_calm_bind; [eapply calm_attempt, (calm_call (cw_client w) ctx False); [done|apply law_GetSlotList]
    |done| |by intros; apply Hfail].
  intros o w1 Hc1 Ho1 [Hp _]. eapply (wp_calm_bind (cw_client w) _ _ (fun _ => True));
    [apply calm_lift; destruct o; auto; done|done| |by intros; apply Hfail; congruence].
  intros slots w2 Hc2 Ho2 _. eapply (wp_calm_bind (cw_client w));
    [by eapply calm_label_slot|done| |by intros; apply Hfail; congruence].
  intros [s|] w3 Hc3 Ho3 _; [|apply Hfail; congruence].
  unfold update. rewrite wp_bind, wp_modify, wp_ret. unfold w_open in *. simpl.
  split_and!; [done| |congruence]. exists (Some s). by rewrite Hc3.
Qed.

(** What GetSession leaves behind. *)
Lemma wp_GetSession w ctx : c_client (cw_client w) = Some ctx ->
  wp GetSession (fun o w' => same_client (cw_client w) (cw_client w') /\ match o with
    | Ret h => h ∉ w_open w /\ w_open w' = {[ h ]} ∪ w_open w
    | Fail _ => w_open w' = w_open w \/ login_leak w o w'
    | Panic => False
    end) w.
Proof.
  intros Hctx. unfold GetSession. rewrite wp_bind, wp_get, Hctx, wp_bind.
  eapply wp_mono; [|by apply (wp_GetSlotForLabel w ctx)].
  intros [slot|e|] w1 (Hp & Hs & Ho); [|by auto|done].
  assert (Hctx1 : c_client (cw_client w1) = Some ctx) by (destruct Hs as [? ->]; done).
  rewrite wp_bind, wp_on_err. apply (wp_client_call _ _ Hctx1); [done|].
  eapply wp_mono; [|apply law_OpenSession]. intros [h|e|] l Hl; simpl; [|by unfold w_open in *; simpl; rewrite <- Ho; auto|done].
  destruct Hl as [Hh Hl]. rewrite wp_bind, wp_on_err. apply (wp_client_call _ _ Hctx1); [done|].
  eapply wp_mono; [|apply law_Login]. intros o l2 [Hp2 Ho2]. unfold login_leak, w_open in *. simpl in *.
  destruct o as [u|e|]; simpl; [rewrite wp_ret; simpl| |done];
    rewrite Ho2, Hl, <- Ho; split_and!; [done..|]. right. by exists h, e.
Qed.

(** A body run with a session. *)
Lemma wp_with_session {A} (f : Z -> prog (cworld P) A) pan w ctx :
  c_client (cw_client w) = Some ctx ->
  (forall c session, same_client (cw_client w) c -> calm c pan (f session) (fun _ => True)) ->
  wp (with_session f) (fun o w' => same_client (cw_client w) (cw_client w') /\ (o = Panic -> pan) /\
    balanced ctx w o w') w.
Proof.
  intros Hctx Hf. unfold with_session. rewrite wp_bind.
  eapply wp_mono; [|by apply (wp_GetSession w ctx)].
  intros [h|e|] w1 [Hs Hw1]; [| |done].
  - destruct Hw1 as [Hh Ho]. rewrite wp_bind, wp_attempt.
    eapply wp_mono; [|exact (Hf _ h Hs w1 eq_refl)].
    intros o w2 (Hc2 & Ho2 & Hp & _). rewrite wp_bind.
    assert (Hctx2 : c_client (cw_client w1) = Some ctx) by (destruct Hs as [? ->]; done).
    eapply wp_mono; [|apply (wp_CloseSession _ _ Hctx2 w2 h Hc2); rewrite Ho2, Ho; set_solver].
    intros o3 w3 (-> & Hc3 & Ho3). rewrite wp_lift. split_and!; [congruence|done|].
    destruct Ho3 as [Ho3|(Ho3 & l & e & Hl)].
    + left. rewrite Ho3, Ho2, Ho. set_solver.
    + right. right. exists h, l, e. split_and!; [done..|congruence].
  - split_and!; [done..|]. destruct Hw1 as [|(h & e' & He & Hr)]; [by left|].
    right. left. exists h, e'. split; [by injection He as ->|done].
Qed.

Lemma calm_Encrypt_body rnd pt w c ctx session : c_client (cw_client w) = Some ctx -> same_client (cw_client w) c ->
  calm c (exists key, secret_with_oaep (cw_client w) key)
    (w' ← get; let keyId := GetCurrentKey (cw_client w') in
     key ← FindKey session keyId; encrypt_with rnd session keyId key pt) (fun _ => True).
Proof.
  intros Hctx Hs. assert (Hctx' : c_client c = Some ctx) by (destruct Hs as [? ->]; done).
  eapply calm_bind; [apply calm_get|]. intros w' _.
  eapply calm_bind; [by apply (calm_FindKey c ctx)|]. intros key Hk.
  intros w0 Hw0. eapply wp_mono; [|by apply (calm_encrypt_with HO c ctx Hctx' _ _ _ _ _ Hk)].
  intros o w1 (Hc & Ho & Hp & HR). split_and!; [done..| |done].
  intros E. exists key. destruct (Hp E) as [H1 H2]. split; [done|]. by rewrite <- (effective_same _ c).
Qed.

Lemma calm_Decrypt_body ct nonce keyId w c ctx session : c_client (cw_client w) = Some ctx ->
  same_client (cw_client w) c ->
  calm c False
    (w' ← get; key ← FindKey session (default (GetCurrentKey (cw_client w')) keyId);
     decrypt_with session key nonce ct) (fun _ => True).
Proof.
  intros Hctx Hs. assert (Hctx' : c_client c = Some ctx) by (destruct Hs as [? ->]; done).
  eapply calm_bind; [apply calm_get|]. intros w' _.
  eapply calm_bind; [by apply (calm_FindKey c ctx)|]. intros key Hk. by apply (calm_decrypt_with c ctx).
Qed.

(** C16: no session is left behind: with an initialised client, Encrypt,
    Decrypt and GenerateRandom leave the sessions of the token as they were, on
    every way out, panics included, with two exceptions: the session that was
    opened is not closed when the login in it fails, and that case is exact; and
    it may stay open when the library's own C_CloseSession, the last call that
    is made, fails, an error the client drops and does not retry. *)
Theorem hsm_sessions_balanced rnd pt ct nonce keyId n (w : cworld P) ctx :
  c_client (cw_client w) = Some ctx ->
  wp (client_Encrypt rnd pt) (balanced ctx w) w /\
  wp (client_Decrypt ct nonce keyId) (balanced ctx w) w /\
  wp (GenerateRandom n) (balanced ctx w) w /\
  forall slot h l1 e l2, c_slot (cw_client w) = Some slot ->
    C_OpenSession ctx slot (Z.lor CKF_SERIAL_SESSION CKF_RW_SESSION) (cw_lib w) = (Ret h, l1) ->
    C_Login ctx h CKU_USER (c_pin (cw_client w)) l1 = (Fail e, l2) ->
    client_Encrypt rnd pt w = (Fail (wrapf "failed to login" e), mkCworld (cw_client w) l2) /\
    open_sessions l2 = {[ h ]} ∪ w_open w.
Proof.
  intros Hctx. split_and!.
  - eapply wp_mono; [|eapply (wp_with_session _ _ w ctx Hctx); intros; by eapply calm_Encrypt_body].
    by intros o w' (_ & _ & H).
  - eapply wp_mono; [|eapply (wp_with_session _ _ w ctx Hctx); intros; by eapply calm_Decrypt_body].
    by intros o w' (_ & _ & H).
  - eapply wp_mono; [|eapply (wp_with_session _ False w ctx Hctx)]; [by intros o w' (_ & _ & H)|].
    intros c session [s ->]. by apply (calm_call _ ctx), law_GenerateRandom.
  - intros slot h l1 e l2 Hslot Ho Hl.
    pose proof (law_OpenSession ctx slot (Z.lor CKF_SERIAL_SESSION CKF_RW_SESSION) (cw_lib w)) as H1.
    pose proof (law_Login ctx h CKU_USER (c_pin (cw_client w)) l1) as H2.
    unfold wp in H1, H2. rewrite Ho in H1. rewrite Hl in H2. split; [|unfold w_open; naive_solver congruence].
    apply pbind_run_fail. unfold GetSession. rewrite get_bind, Hctx.
    erewrite pbind_run; [|unfold GetSlotForLabel; rewrite get_bind, Hslot; reflexivity].
    erewrite pbind_run; [|by apply (on_err_run _ _ _ (Ret h)), (client_call_run _ w ctx)].
    erewrite pbind_run_fail; [done|]. by apply (on_err_run _ _ _ (Fail e)), (client_call_run _ (mkCworld (cw_client w) l1) ctx).
Qed.

(** Decrypt of an initialised client never panics, and Encrypt only where
    it dereferences the public half of a secret key: a secret key for which the
    mechanism is RSA-OAEP, and then it always does. *)
Theorem hsm_panics rnd pt ct nonce keyId (w : cworld P) ctx :
  c_client (cw_client w) = Some ctx ->
  wp (client_Decrypt ct nonce keyId) (fun o _ => o <> Panic) w /\
  wp (client_Encrypt rnd pt) (fun o _ => o = Panic -> exists key, secret_with_oaep (cw_client w) key) w /\
  forall key session keyId, secret_with_oaep (cw_client w) key -> hk_public key = None ->
    hk_encrypt key = true ->
    encrypt_with rnd session keyId key pt w = (Panic, w).
Proof.
  intros Hctx. split_and!.
  - eapply wp_mono; [|eapply (wp_with_session _ _ w ctx Hctx); intros; by eapply calm_Decrypt_body].
    by intros o w' (_ & H & _).
  - eapply wp_mono; [|eapply (wp_with_session _ _ w ctx Hctx); intros; by eapply calm_Encrypt_body].
    by intros o w' (_ & H & _).
  - intros key session keyId' [H1 H2] Hp He.
    unfold encrypt_with, encrypt_allowed, public_of. rewrite get_bind, H1, He, H2, Hp. done.
Qed.

(** *** Round trip *)

(** AES-GCM on a token.  [key_in l o] is the secret key the object [o] holds,
    [may_decrypt l ctx h o] that the session is logged in and has no operation
    under way, and that the object's attributes permit decryption.  A ciphertext
    is as long as the data and the tag and was made with the object's key, under
    the nonce handed over, or the token has appended the twelve bytes of its own;
    with the nonce used it decrypts to the data in every state in which the
    session is open and the object holds that key and may be used. *)
Context {K : Type} (key_in : p11 -> Z -> option K) (may_decrypt : p11 -> Z -> Z -> Z -> Prop).

Definition hsm_gcm_law : Prop :=
  forall ctx h o nonce data l0 l1 l2 c,
    C_EncryptInit ctx h (gcm_mechanism nonce) o l0 = (Ret tt, l1) ->
    C_Encrypt ctx h data l1 = (Ret c, l2) ->
    exists k body iv, key_in l0 o = Some k /\
      (content c = body /\ iv = content nonce \/ content c = body ++ iv /\ length iv = 12%nat) /\
      length body = (slen data + 16)%nat /\
      forall ctx' h' o' nonce' c' l4,
        h' ∈ open_sessions l4 -> may_decrypt l4 ctx' h' o' -> key_in l4 o' = Some k ->
        content nonce' = iv -> content c' = body ->
        exists l5 l6 p,
          C_DecryptInit ctx' h' (gcm_mechanism nonce') o' l4 = (Ret tt, l5) /\
          C_Decrypt ctx' h' c' l5 = (Ret p, l6) /\ content p = content data.

(** A body run with a session returned: the session was got and the body ran. *)
Lemma with_session_Ret {A} (f : Z -> prog (cworld P) A) w a w' :
  with_session f w = (Ret a, w') ->
  exists h w1 w2, GetSession w = (Ret h, w1) /\ f h w1 = (Ret a, w2).
Proof.
  unfold with_session. rewrite pbind_Ret. intros (h & w1 & Hg & H). rewrite attempt_bind in H.
  apply pbind_Ret in H as ([] & w3 & _ & H). exists h, w1. unfold lift in H.
  destruct (f h w1) as [o w2]. simpl in H. exists w2. split; [done|]. congruence.
Qed.

(** And conversely: the outcome is the body's. *)
Lemma with_session_outcome {A} (f : Z -> prog (cworld P) A) w ctx h w1 R :
  c_client (cw_client w) = Some ctx -> GetSession w = (Ret h, w1) ->
  calm (cw_client w1) False (f h) R -> fst (with_session f w) = fst (f h w1).
Proof.
  intros Hctx Hg Hf. unfold with_session. rewrite (pbind_run _ _ _ _ _ Hg), attempt_bind.
  pose proof (wp_GetSession w ctx Hctx) as Hs. unfold wp in Hs. rewrite Hg in Hs.
  destruct Hs as [[s Hs] [Hh Ho]].
  specialize (Hf w1 eq_refl). apply wp_run in Hf as (Hc2 & Ho2 & _).
  assert (Hctx1 : c_client (cw_client w1) = Some ctx) by (rewrite Hs; done).
  pose proof (wp_CloseSession _ _ Hctx1 (snd (f h w1)) h Hc2 ltac:(rewrite Ho2, Ho; set_solver)) as Hcl.
  unfold wp in Hcl. destruct (CloseSession h _) as [o w3] eqn:Ec. destruct Hcl as (-> & _).
  by rewrite (pbind_run _ _ _ _ _ Ec).
Qed.

Lemma token_encrypt_Ret session m key pt (w w' : cworld P) ctx ct : c_client (cw_client w) = Some ctx ->
  token_encrypt session m key pt w = (Ret ct, w') ->
  exists l1 l2, C_EncryptInit ctx session m key (cw_lib w) = (Ret tt, l1) /\
    C_Encrypt ctx session pt l1 = (Ret ct, l2).
Proof.
  intros Hctx. unfold token_encrypt. rewrite pbind_Ret. intros ([] & w1 & Hi & He).
  rewrite on_err_Ret in Hi. rewrite on_err_Ret in He. unfold call, in_lib, zoom in Hi, He.
  rewrite get_bind, Hctx in Hi. destruct (C_EncryptInit _ _ _ _ _) as [o l1] eqn:E1.
  injection Hi as -> <-. rewrite get_bind in He. simpl in He. rewrite Hctx in He.
  destruct (C_Encrypt _ _ _ _) as [o l2] eqn:E2. injection He as -> _. eauto.
Qed.

Lemma token_decrypt_run session m key ct (w : cworld P) ctx l5 l6 p : c_client (cw_client w) = Some ctx ->
  C_DecryptInit ctx session m key (cw_lib w) = (Ret tt, l5) ->
  C_Decrypt ctx session ct l5 = (Ret p, l6) ->
  token_decrypt session m key ct w = (Ret p, mkCworld (cw_client w) l6).
Proof.
  intros Hctx H1 H2. unfold token_decrypt.
  erewrite pbind_run; [|by apply (on_err_run _ _ _ (Ret tt)), (client_call_run _ w ctx)].
  by apply (on_err_run _ _ _ (Ret p)), (client_call_run _ (mkCworld (cw_client w) l5) ctx).
Qed.

(** The nonce and the body of a ciphertext are told apart by its length. *)
Lemma split_nonce_spec nonce pt c body iv :
  (content c = body /\ iv = content nonce \/ content c = body ++ iv /\ length iv = 12%nat) ->
  length body = (slen pt + 16)%nat ->
  content (split_nonce nonce pt c).1 = body /\ content (split_nonce nonce pt c).2 = iv.
Proof.
  unfold split_nonce, CryptoAesGcmNonceSize, CryptoAesGcmOverhead.
  intros [[<- ->]|[Hc Hiv]] Hb; [|rewrite Hc, length_app].
  - destruct (Nat.eqb_spec (length (content c)) (12 + slen pt + 16)); [lia|]. done.
  - destruct (Nat.eqb_spec (length body + length iv) (12 + slen pt + 16)); [|lia]. simpl.
    rewrite Hiv. replace (length body + 12 - 12)%nat with (length body) by lia.
    by rewrite take_app_length, drop_app_length.
Qed.

(** The library's state when the data is handed over: after the nonce was drawn. *)
Definition at_encryption (ctx session : Z) (w : cworld P) : p11 :=
  snd (C_GenerateRandom ctx session (Z.of_nat CryptoAesGcmNonceSize) (cw_lib w)).

Lemma EncryptAesGcm_Ret o session k pt (w w' : cworld P) ctx ct iv k' : c_client (cw_client w) = Some ctx ->
  hsm_gcm_law -> EncryptAesGcm session o k pt w = (Ret (ct, iv, k'), w') ->
  k' = k /\ exists x, key_in (at_encryption ctx session w) o = Some x /\
  forall ctx' h' o' nonce c l4,
    h' ∈ open_sessions l4 -> may_decrypt l4 ctx' h' o' -> key_in l4 o' = Some x ->
    content nonce = content iv -> content c = content ct ->
    exists l5 l6 p,
      C_DecryptInit ctx' h' (gcm_mechanism nonce) o' l4 = (Ret tt, l5) /\
      C_Decrypt ctx' h' c l5 = (Ret p, l6) /\ content p = content pt.
Proof.
  intros Hctx Hlaw. unfold EncryptAesGcm. rewrite pbind_Ret. intros (nonce & w1 & Hn & H).
  assert (Hc1 : c_client (cw_client w1) = Some ctx /\ cw_lib w1 = at_encryption ctx session w).
  { unfold call, in_lib, zoom in Hn. rewrite get_bind, Hctx in Hn. unfold at_encryption.
    destruct (C_GenerateRandom _ _ _ _). by injection Hn as _ <-. }
  destruct Hc1 as [Hc1 Hl1].
  apply pbind_Ret in H as (c & w2 & He & H).
  apply (token_encrypt_Ret _ _ _ _ _ _ ctx) in He as (l1 & l2 & E1 & E2); [|done].
  destruct (Hlaw _ _ _ _ _ _ _ _ _ E1 E2) as (x & body & iv0 & Hx & Hc & Hlen & Hdec).
  destruct (split_nonce_spec nonce pt c body iv0 Hc Hlen) as [S1 S2].
  injection H as Hs <- _. rewrite Hs in S1, S2. simpl in S1, S2. split; [done|].
  exists x. split; [by rewrite <- Hl1|].
  intros ctx' h' o' nonce' c' l4 Hop Hmay Hkey Hn' Hc'. apply Hdec; try done; congruence.
Qed.

(** The key a sealed value is returned with is the one asked for. *)
Lemma encrypt_with_key rnd session k key pt (w w' : cworld P) ct iv k' :
  encrypt_with rnd session k key pt w = (Ret (ct, iv, k'), w') -> k' = k.
Proof.
  unfold encrypt_with. rewrite get_bind, lift_bind. destruct (encrypt_allowed _ _); [|done..].
  rewrite lift_bind. destruct (effective_mechanism _ _); [|done..]. destruct (_ =? CKM_AES_GCM).
  - intros H. apply pbind_Ret in H as (n & w1 & _ & H). apply pbind_Ret in H as (c & w2 & _ & H).
    by injection H.
  - destruct (_ =? _); [|done]. rewrite lift_bind. destruct (public_of _); [|done..].
    destruct (c_disableSoftwareEncryption _); intros H.
    + unfold EncryptRsaOaep in H. rewrite get_bind in H. apply pbind_Ret in H as (h & w1 & _ & H).
      apply pbind_Ret in H as (c & w2 & _ & H). by injection H.
    + apply pbind_Ret in H as (pub & w1 & _ & H). unfold EncryptRsaOaepSoftware in H. rewrite get_bind in H.
      apply pbind_Ret in H as (h & w2 & _ & H). apply pbind_Ret in H as (c & w3 & _ & H). by injection H.
Qed.

(** What an AES key on a token encrypted, the client decrypts: for a
    ciphertext Encrypt returned under the key it found, any later Decrypt naming
    that key returns the plaintext, provided a session can be got, the name leads
    to an object that holds the key the data was encrypted with, and this object
    may decrypt with AES-GCM; whether the token used the nonce it was given or
    has appended its own. *)
Lemma client_roundtrip rnd pt (w w' : cworld P) ctx ct iv k :
  c_client (cw_client w) = Some ctx -> hsm_gcm_law ->
  client_Encrypt rnd pt w = (Ret (ct, iv, k), w') ->
  exists s key ws ws', FindKey s (GetCurrentKey (cw_client w)) ws = (Ret key, ws') /\
    same_client (cw_client w) (cw_client ws) /\
    (effective_mechanism (cw_client w) key = Ret CKM_AES_GCM ->
     k = GetCurrentKey (cw_client w) /\
     exists x, key_in (at_encryption ctx s ws') (hk_handle key) = Some x /\
     forall ct' iv' (w2 : cworld P) ctx2 s2 w3 key2 w4,
       content ct' = content ct -> content iv' = content iv ->
       c_client (cw_client w2) = Some ctx2 -> GetSession w2 = (Ret s2, w3) ->
       FindKey s2 k w3 = (Ret key2, w4) ->
       key_in (cw_lib w4) (hk_handle key2) = Some x ->
       may_decrypt (cw_lib w4) ctx2 s2 (hk_handle key2) ->
       decrypt_allowed key2 = Ret tt -> effective_mechanism (cw_client w2) key2 = Ret CKM_AES_GCM ->
       exists p, fst (client_Decrypt ct' iv' (Some k) w2) = Ret p /\ content p = content pt).
Proof.
  intros Hctx Hlaw He. apply with_session_Ret in He as (s & w1 & w5 & Hg & He).
  rewrite get_bind in He. apply pbind_Ret in He as (key & w6 & Hf & He).
  pose proof (wp_GetSession w ctx Hctx) as Hs. unfold wp in Hs. rewrite Hg in Hs. destruct Hs as [Hs _].
  assert (Hcur : GetCurrentKey (cw_client w1) = GetCurrentKey (cw_client w)) by (by destruct Hs as [? ->]).
  assert (Hctx1 : c_client (cw_client w1) = Some ctx) by (destruct Hs as [? ->]; done).
  pose proof (calm_FindKey _ ctx Hctx1 False s (GetCurrentKey (cw_client w1)) w1 eq_refl) as Hcalm.
  unfold wp in Hcalm. rewrite Hf in Hcalm. destruct Hcalm as (Hc6 & _).
  exists s, key, w1, w6. rewrite <- Hcur. split; [done|]. split; [done|]. intros Hm.
  unfold encrypt_with in He. rewrite get_bind, lift_bind in He.
  destruct (encrypt_allowed _ key); [|done..]. rewrite lift_bind, Hc6, (effective_same _ _ key Hs), Hm in He.
  apply (EncryptAesGcm_Ret _ _ _ _ _ _ ctx) in He as (-> & x & Hx & Hdec); [|congruence|apply Hlaw].
  split; [done|]. exists x. split; [done|].
  intros ct' iv' w2 ctx2 s2 w3 key2 w4 Hct Hiv Hctx2 Hg2 Hf2 Hkey Hmay Hal Hm2.
  pose proof (wp_GetSession w2 ctx2 Hctx2) as Hs2. unfold wp in Hs2. rewrite Hg2 in Hs2.
  destruct Hs2 as [Hs2 [_ Ho3]].
  assert (Hctx3 : c_client (cw_client w3) = Some ctx2) by (destruct Hs2 as [? ->]; done).
  unfold client_Decrypt. erewrite (with_session_outcome _ w2 ctx2 s2 w3); [|done..|by apply (calm_Decrypt_body _ _ _ w2 _ ctx2)].
  pose proof (calm_FindKey _ ctx2 Hctx3 False s2 (GetCurrentKey (cw_client w1)) w3 eq_refl) as Hcalm2.
  unfold wp in Hcalm2. rewrite Hf2 in Hcalm2. destruct Hcalm2 as (Hc4 & Ho4 & _).
  assert (Hop : s2 ∈ open_sessions (cw_lib w4)) by (change (s2 ∈ w_open w4); rewrite Ho4, Ho3; set_solver).
  destruct (Hdec ctx2 s2 (hk_handle key2) iv' ct' (cw_lib w4) Hop Hmay Hkey Hiv Hct) as (l5 & l6 & p & D1 & D2 & Hp).
  exists p. split; [|done].
  rewrite get_bind. simpl. rewrite (pbind_run _ _ _ _ _ Hf2).
  unfold decrypt_with. rewrite get_bind, Hal, lift_bind, Hc4, (effective_same _ _ key2 Hs2), Hm2, lift_bind. simpl.
  unfold DecryptAesGcm. rewrite (token_decrypt_run _ _ _ _ _ ctx2 l5 l6 p); [done| |done|done]. by rewrite Hc4.
Qed.

End discipline.

(** ** Names, settings and integers *)

(** The name a blob carries reads back as the key it names exactly when the
    identifier has no colon (the label may have any), and every name that is
    accepted prints back to itself. *)
Lemma key_name_roundtrip (k : Pkcs11Key) (v : string) :
  (newPkcs11Key (Pkcs11Key_String k) = Ret k <-> Contains (pk_id k) ":" = false) /\
  (newPkcs11Key v = Ret k -> Pkcs11Key_String k = v) /\
  (newPkcs11Key v = Fail (ErrLeaf "Invalid key format") <-> cut_last v ":" = None).
Proof.
  unfold newPkcs11Key, Pkcs11Key_String. split_and!.
  - split.
    + destruct (cut_last _ _) as [[a b]|] eqn:E; [|done].
      intros [= <-]. simpl. by apply cut_last_spec in E as [_ ?].
    + intros H. change (":" +:+ pk_id k) with (String ":" (pk_id k)).
      rewrite cut_last_app by done. by destruct k.
  - destruct (cut_last v ":") as [[a b]|] eqn:E; [|done]. intros [= <-]. simpl.
    by apply cut_last_spec in E as [-> _].
  - destruct (cut_last v ":") as [[a b]|]; naive_solver.
Qed.

Lemma key_name_roundtrip_witness :
  newPkcs11Key "a:b:0f" = Ret (mkPkcs11Key "a:b" "0f") /\ Pkcs11Key_String (mkPkcs11Key "a:b" "0f") = "a:b:0f".
Proof.
  destruct (key_name_roundtrip (mkPkcs11Key "a:b" "0f") "a:b:0f") as ([_ H] & H2 & _).
  split; [by apply H | apply H2; reflexivity].
Defined.

Lemma numberAutoParse_bound s n : numberAutoParse s 32 = Ret n -> 0 <= n < 2 ^ 32.
Proof. unfold numberAutoParse. case_match; by apply ParseUint_bound. Qed.

Lemma MechanismFromString_known s m :
  MechanismFromString s = Ret m -> m = CKM_RSA_PKCS_OAEP \/ m = CKM_AES_GCM.
Proof.
  unfold MechanismFromString. destruct (is_one_of _ _); [naive_solver|].
  destruct (is_one_of _ _); [naive_solver|]. destruct (is_one_of _ _); [done|].
  destruct (numberAutoParse s 32) as [n| |]; [|done..].
  unfold GetKeyTypeFromMech. destruct (Z.eqb_spec n CKM_RSA_PKCS_OAEP); [simpl; naive_solver|].
  destruct (Z.eqb_spec n CKM_AES_GCM); [simpl; naive_solver|]. by destruct (_ || _).
Qed.

Lemma settings_disallowed getenv getenv' parse_bool opts :
  WithDisallowEnvVars_ (o_RPC (opts_Options opts)) = true ->
  client_settings getenv parse_bool opts = client_settings getenv' parse_bool opts.
Proof. intros Hd. unfold client_settings. rewrite Hd. cbv beta zeta. by rewrite !env_switch_disallowed. Qed.

(** Is the setting read from this variable empty? *)
Ltac setting name :=
  match goal with
  | |- context [String.eqb (env_switch ?g ?d [name] ?x) ""] =>
      destruct (String.eqb_spec (env_switch g d [name] x) "")
  | H : context [String.eqb (env_switch ?g ?d [name] ?x) ""] |- _ =>
      destruct (String.eqb_spec (env_switch g d [name] x) "")
  end.

(** C17: the settings a client is made from are well formed: a library and a pin;
    a slot of 32 bits, or a token label to find it by; an identifier or a label of
    the key; no mechanism pinned, or one of the two supported. The environment
    is not read when it is disallowed. *)
Theorem hsm_settings_valid getenv parse_bool (opts : options) c :
  client_settings getenv parse_bool opts = Ret c ->
  c_client c = None /\ c_lib c <> "" /\ c_pin c <> "" /\
  match c_slot c with Some n => 0 <= n < 2 ^ 32 | None => c_tokenLabel c <> "" end /\
  (c_keyId c <> "" \/ c_keyLabel c <> "") /\
  (c_mechanism c = 0 \/ c_mechanism c = CKM_RSA_PKCS_OAEP \/ c_mechanism c = CKM_AES_GCM) /\
  (WithDisallowEnvVars_ (o_RPC (opts_Options opts)) = true ->
   forall getenv', client_settings getenv' parse_bool opts = Ret c).
Proof.
  intros H. assert (Hdis : WithDisallowEnvVars_ (o_RPC (opts_Options opts)) = true ->
    forall getenv', client_settings getenv' parse_bool opts = Ret c).
  { intros Hd getenv'. by rewrite (settings_disallowed getenv' getenv). }
  revert H. unfold client_settings. cbv beta zeta.
  setting EnvHsmWrapperLib; [done|].
  destruct (_ && _) eqn:Ht; [done|]. apply andb_false_iff in Ht.
  setting EnvHsmWrapperPin; [done|].
  destruct (_ && _) eqn:Hk; [done|]. apply andb_false_iff in Hk.
  intros H. inv_ret. subst c. simpl. rewrite !String.eqb_neq in Hk.
  split_and!; [done..| |done| |done].
  - setting EnvHsmWrapperSlot; simplify_eq.
    + destruct Ht as [Ht|Ht]; [done|by apply String.eqb_neq in Ht].
    + destruct (numberAutoParse _ 32) eqn:En; simplify_eq. by eapply numberAutoParse_bound.
  - setting EnvHsmWrapperMechanism; simplify_eq; [by left|].
    right. by eapply MechanismFromString_known.
Qed.

Lemma le_to_Z_bound l : 0 <= le_to_Z l < 256 ^ Z.of_nat (length l).
Proof.
  induction l as [|b l IH]; cbn [le_to_Z length]; [done|]. pose proof (byte_to_Z_bound b).
  rewrite Nat2Z.inj_succ, Z.pow_succ_r by lia. lia.
Qed.

Lemma s64_small z : 0 <= z < 2 ^ 63 -> s64 z = z.
Proof. intros H. unfold s64. rewrite Z.mod_small; lia. Qed.

(** C18: attribute values are integers of 1, 2, 4 or 8 bytes: for every other
    length the unsigned reading is an error and the signed one 0; a value read is
    below 2^64, the signed reading is its two's complement, and the check against
    the largest [uint] never fails. *)
Theorem hsm_value_bounds (v : slice) :
  match GetValueAsUint v with
  | Ret n => 0 <= n < 2 ^ 64 /\ (slen v = 1 \/ slen v = 2 \/ slen v = 4 \/ slen v = 8)%nat /\
      GetValueAsInt v = (if n <? 2 ^ 63 then n else n - 2 ^ 64) /\ (slen v <> 8%nat -> n < 2 ^ 32)
  | Fail e => e <> ErrLeaf "value exceeds max uint" /\ GetValueAsInt v = 0
  | Panic => False
  end.
Proof.
  unfold GetValueAsUint, GetValueAsInt, slen. pose proof (le_to_Z_bound (content v)) as B.
  destruct (length (content v)) as [|[|[|[|[|[|[|[|[|n]]]]]]]]] eqn:E; try done;
    try (change (256 ^ _) with (2 ^ 8) in B || change (256 ^ _) with (2 ^ 16) in B ||
         change (256 ^ _) with (2 ^ 32) in B);
    try (destruct (Z.ltb_spec (le_to_Z (content v)) (2 ^ 63)); [|lia]; split_and!; [lia..|auto|done|lia]).
  change (256 ^ _) with (2 ^ 64) in B.
  destruct (Z.ltb_spec (2 ^ 64 - 1) (le_to_Z (content v))); [lia|]. split_and!; [lia..|auto| |done].
  destruct (Z.ltb_spec (le_to_Z (content v)) (2 ^ 63)); [apply s64_small; lia|].
  unfold s64. rewrite <- (Z_mod_plus_full _ (-1)), Z.mod_small; lia.
Qed.

(** An identifier that is not hexadecimal is accepted without a label, and the
    search it makes has an empty template: it matches every object. *)
Definition odd_id_options : options :=
  mk_options getDefaultOptions "0" "1234" "/lib/p11.so" "beef0" "" "" "" "" "".

Example hsm_key_id_ignored (P : Pkcs11) : exists c,
  client_settings (fun _ => "") (fun _ => Ret false) odd_id_options = Ret c /\
  key_template (GetCurrentKey c) = [].
Proof. eexists. split; reflexivity. Qed.

(** ** Witnesses: the concrete token *)

Section witnesses.
#[local] Existing Instance toy_p11.
#[local] Existing Instance toy_public.

Lemma foldr_max_bound (l : list Z) x : x ∈ l -> x <= foldr Z.max 0 l.
Proof.
  induction l as [|y l IH]; intros Hx; [by apply not_elem_of_nil in Hx|]. simpl.
  apply elem_of_cons in Hx as [->|Hx]; [lia|]. specialize (IH Hx). lia.
Qed.

Lemma toy_crypt_keeps f h d : (forall k p a, f k p a <> Panic) ->
  keeps (fun s : toy_state => list_to_set (C := gset Z) (ty_open s)) (toy_crypt f h d).
Proof.
  intros Hf s. unfold wp, toy_crypt. repeat case_match; simplify_eq; simpl; auto; by split; [apply Hf|].
Qed.

Lemma toy_start_keeps h m o : keeps (fun s : toy_state => list_to_set (C := gset Z) (ty_open s)) (toy_start h m o).
Proof. intros s. unfold wp, toy_start. by repeat case_match; simplify_eq. Qed.

Lemma toy_hsm_laws : HsmLaws toy_p11.
Proof.
  refine {| open_sessions := (fun s : toy_state => list_to_set (C := gset Z) (ty_open s)) : p11 (Pkcs11 := toy_p11) -> gset Z |};
    try (intros; intros s; by cbn); try (intros; apply toy_start_keeps).
  - intros ctx slot fl l. unfold wp. simpl. split; [|done].
    rewrite elem_of_list_to_set. intros H%foldr_max_bound. lia.
  - intros ctx h l Hh. unfold wp. simpl. apply set_eq. intros x.
    rewrite elem_of_list_to_set, list_elem_of_filter, elem_of_difference, elem_of_list_to_set. set_solver.
  - intros ctx h o t l. unfold wp. simpl. split_and!; [done..|]. intros a [= <-]. by rewrite length_map.
  - intros ctx h n l Hn. unfold wp. simpl. split_and!; [done..|]. intros a [= <-]. rewrite length_take. lia.
  - intros ctx h d. by apply toy_crypt_keeps.
  - intros ctx h d. apply toy_crypt_keeps. intros k p a. by case_match.
Defined.

#[local] Existing Instance toy_hsm_laws.

Lemma toy_oaep_total : oaep_total toy_public.
Proof. done. Qed.

Definition demo_client (mechanism : Z) : Pkcs11Client :=
  mkPkcs11Client (Some 1) "/lib/p11.so" None "hsm" "1234" "aes" "01" mechanism "" false.

Definition demo_cworld (mechanism : Z) : cworld toy_p11 := mkCworld (demo_client mechanism) toy_lib0.

Lemma hsm_sessions_balanced_witness :
  wp (client_Encrypt [] (Some (bytes_of_string "seal")))
    (fun o w' => is_ret o = true /\ w_open w' = ∅) (demo_cworld 0).
Proof.
  destruct (hsm_sessions_balanced toy_oaep_total [] (Some (bytes_of_string "seal")) None None None 4
    (demo_cworld 0) 1 eq_refl) as (He & _).
  rewrite wp_run in He |- *. split; [by vm_compute|].
  destruct He as [He|[(h & e & He & _)|(h & l & e & He & _)]]; [exact He|by vm_compute in He|done].
Defined.

Lemma hsm_panics_witness :
  wp (client_Decrypt None None None) (fun o _ => o <> Panic) (demo_cworld CKM_RSA_PKCS_OAEP) /\
  fst (client_Encrypt [] (Some (bytes_of_string "seal")) (demo_cworld CKM_RSA_PKCS_OAEP)) = Panic.
Proof.
  split; [|by vm_compute].
  exact (proj1 (hsm_panics toy_oaep_total [] None None None None (demo_cworld CKM_RSA_PKCS_OAEP) 1 eq_refl)).
Defined.
#[local] Opaque toy_gcm.

Definition toy_key_in (l : p11) (o : Z) : option bytes := if o =? 7 then Some toy_key else None.

Definition toy_may (l : p11) (ctx h o : Z) : Prop := True.

Lemma toy_hsm_gcm : hsm_gcm_law toy_key_in toy_may.
Proof.
  intros ctx h o nonce data l0 l1 l2 c. cbn. unfold toy_start.
  destruct (bool_decide (h ∈ ty_open l0)) eqn:Eh; [|done]. simpl.
  destruct (o =? 7) eqn:Eo; [|done]. simpl. destruct (Nat.eqb_spec (slen nonce) 12) as [Hl|]; [|done].
  intros [= <-]. unfold toy_crypt. cbn. rewrite Eh. simpl. intros [= <- <-].
  exists toy_key, (gcm_seal (AesGcm := toy_gcm) toy_key (content nonce) (content data) []), (content nonce).
  split; [unfold toy_key_in; by rewrite Eo|].
  split; [by left|]. split; [exact (gcm_seal_length (AesGcmLaws := toy_gcm_laws) _ _ _ _)|].
  intros ctx' h' o' nonce' c' l4 Hop _ Hkey Hn Hc.
  assert (Eh' : bool_decide (h' ∈ ty_open l4) = true).
  { apply bool_decide_eq_true. by apply elem_of_list_to_set in Hop. }
  assert (Eo' : o' =? 7 = true) by (unfold toy_key_in in Hkey; by destruct (o' =? 7)).
  eexists _, _, (Some (content data)). split; [|split; [|reflexivity]].
  - rewrite Eh', Eo'. simpl. unfold slen in *. rewrite Hn, Hl. reflexivity.
  - unfold toy_crypt. cbn. rewrite Eh'. simpl. rewrite Hn, Hc.
    rewrite (gcm_open_seal (AesGcmLaws := toy_gcm_laws)) by exact Hl. reflexivity.
Qed.

Definition demo_sealed := client_Encrypt [] (Some (bytes_of_string "seal")) (demo_cworld 0).

Lemma client_roundtrip_witness :
  exists ct iv k p, fst demo_sealed = Ret (ct, iv, k) /\
    fst (client_Decrypt ct iv (Some k) (demo_cworld 0)) = Ret p /\ content p = bytes_of_string "seal".
Proof.
  destruct demo_sealed as [o w'] eqn:He. assert (Ho := f_equal fst He). vm_compute in Ho.
  simpl in Ho. destruct o as [[[ct iv] k]| |]; [|discriminate Ho..].
  destruct (client_roundtrip (HL := toy_hsm_laws) toy_oaep_total toy_key_in toy_may [] (Some (bytes_of_string "seal"))
    (demo_cworld 0) w' 1 ct iv k eq_refl toy_hsm_gcm He) as (s & key & ws & ws' & Hf & Hs & Hd).
  destruct ws as [cl l]. destruct Hs as [sl Hs]. simpl in Hs. subst cl.
  assert (Hkey := f_equal fst Hf). cbn in Hkey. injection Hkey as Hkey. subst key.
  destruct (Hd eq_refl) as (Hk & x & Hx & Hd'). subst k. injection Hx as <-.
  destruct (Hd' ct iv (demo_cworld 0) 1 1 (mkCworld (P := toy_p11) (set_slot (Some 5) (demo_client 0)) (mkToy 2 [1] None []))
    (mkHsmKeyInfo 7 None CKO_SECRET_KEY CKK_AES true true)
    (mkCworld (P := toy_p11) (set_slot (Some 5) (demo_client 0)) (mkToy 2 [1] None []))
    eq_refl eq_refl eq_refl eq_refl eq_refl eq_refl I eq_refl eq_refl) as (p & Hp & Hp2).
  exists ct, iv, (GetCurrentKey (demo_client 0)), p. split; [done|]. split; [exact Hp|exact Hp2].
Defined.
End witnesses.

Lemma hsm_settings_valid_witness : exists c,
  client_settings (fun _ => "") (fun _ => Ret false) odd_id_options = Ret c /\ c_slot c = Some 0 /\ c_pin c <> "".
Proof.
  eexists. split; [reflexivity|]. split; [reflexivity|].
  apply (hsm_settings_valid (fun _ => "") (fun _ => Ret false) odd_id_options _ eq_refl).
Defined.
