(* ===== verification/Pkcs11Wrapper.v ===== *)
(** * The original PKCS#11 wrapper

    wrappers/pkcs11: options.go and pkcs11.go, over the client of Pkcs11Client.v.
    The state is the wrapper object, whose client object is changed through the
    interface it is held by, with the library's state. *)
From S2P Require Import Prelude GoText GoEncoding Wrapping Crypto P11 Kms Pkcs11Keys Pkcs11Client.

(** ** Options *)

(** Three fields have two keys each. *)
Definition config_step (kv : string * string) (opts : options) : outcome options :=
  let (k, v) := kv in
  let (o, slot, pin, lib, id, label, token, mech, hash, soft) := opts in
  if is_one_of k ["key_id"] then Ret (mk_options o slot pin lib v label token mech hash soft)
  else if is_one_of k ["slot"] then Ret (mk_options o v pin lib id label token mech hash soft)
  else if is_one_of k ["pin"] then Ret (mk_options o slot v lib id label token mech hash soft)
  else if is_one_of k ["lib"; "module"] then Ret (mk_options o slot pin v id label token mech hash soft)
  else if is_one_of k ["token"; "token_label"] then Ret (mk_options o slot pin lib id label v mech hash soft)
  else if is_one_of k ["label"; "key_label"] then Ret (mk_options o slot pin lib id v token mech hash soft)
  else if is_one_of k ["mechanism"] then Ret (mk_options o slot pin lib id label token v hash soft)
  else if is_one_of k ["rsa_oaep_hash"] then Ret (mk_options o slot pin lib id label token mech v soft)
  else if is_one_of k ["disable_software_encryption"]
  then Ret (mk_options o slot pin lib id label token mech hash v)
  else Ret opts.

Definition set_pin (pin : string) (opts : options) : options :=
  let (o, slot, _, lib, id, label, token, mech, hash, soft) := opts in
  mk_options o slot pin lib id label token mech hash soft.

Definition Type_pkcs11 : string := "pkcs11".

Section wrapper.
Context `{P : Pkcs11} `{PC : PublicCrypto}.
Context (ParsePath : string -> string * option error).
Context (ReadBaoVariable : string -> string) (parseutil_ParseBool : string -> outcome bool).

Definition getOpts `{RangeOrder} {L} (opt : list (Opt L)) : outcome options :=
  o ← GetOpts opt;
  opts ← range_loop config_step (range_order (WithConfigMap_ (o_RPC o)))
           (mk_options o "" "" "" "" "" "" "" "" "");
  if negb (WithDisallowEnvVars_ (o_RPC o)) then
    match ParsePaths ParsePath [Some 0] {[ 0 := withPin opts ]} with
    | (Ret _, st) => Ret (set_pin (default "" (st !! 0)) opts)
    | (Fail e, _) => Fail e
    | (Panic, _) => Panic
    end
  else Ret opts.

(** ** The wrapper *)

Record hsmWrapper := mkHsmWrapper {
  hw_client : option Pkcs11Client;
  hw_keyId : string;
  hw_currentKeyId : string;
}.

Definition NewWrapper : hsmWrapper := mkHsmWrapper None "" "".

Definition hsm_world : Type := hsmWrapper * p11.

(** A method of [k.client]; the nil interface panics. *)
Definition in_client {A} (m : prog (cworld P) A) : prog hsm_world A := fun s =>
  match hw_client (fst s) with
  | Some c =>
      let (o, w) := m (mkCworld c (snd s)) in
      (o, (mkHsmWrapper (Some (cw_client w)) (hw_keyId (fst s)) (hw_currentKeyId (fst s)), cw_lib w))
  | None => (Panic, s)
  end.

Definition update (f : hsmWrapper -> hsmWrapper) : prog hsm_world unit :=
  modify (fun s => (f (fst s), snd s)).

Definition Init : prog hsm_world unit := mret tt.

Definition Finalize : prog hsm_world unit := in_client client_Close.

(** The client it replaces, if any, is not closed. *)
Definition SetConfig `{RangeOrder} {L} (opt : list (Opt L)) : prog hsm_world WrapperConfig :=
  opts ← lift (getOpts opt);
  cw ← zoom snd (fun l s => (fst s, l)) (newPkcs11Client ReadBaoVariable parseutil_ParseBool opts);
  _ ← update (fun s => mkHsmWrapper (Some cw.1) (Pkcs11Key_String (GetCurrentKey cw.1)) (hw_currentKeyId s));
  mret cw.2.

Definition KeyId : prog hsm_world string := s ← get; mret (hw_currentKeyId (fst s)).

Definition Encrypt (rnd : bytes) (plaintext : slice) : prog hsm_world BlobInfo :=
  r ← in_client (client_Encrypt rnd plaintext);
  let '(ciphertext, iv, key) := r in
  let keyId := Pkcs11Key_String key in
  _ ← update (fun s => mkHsmWrapper (hw_client s) (hw_keyId s) keyId);
  mret (mkBlobInfo ciphertext iv (Some (mkKeyInfo 0 keyId None))).

(** A blob without key info is given the wrapper's own key (in place). *)
Definition Decrypt (in_ : option BlobInfo) : prog hsm_world slice :=
  match in_ with
  | None => lift (Fail (ErrLeaf "given input for decryption is nil"))
  | Some b =>
      s ← get;
      let info := default (mkKeyInfo 0 (hw_keyId (fst s)) None) (bi_KeyInfo b) in
      keyId ← lift (newPkcs11Key (ki_KeyId info));
      in_client (client_Decrypt (bi_Ciphertext b) (bi_Iv b) (Some keyId))
  end.

#[export] Instance hsm_wrapper `{RangeOrder} {L} (rnd : bytes) : Wrapper L hsm_world := {|
  w_Type := mret Type_pkcs11;
  w_SetConfig opt := c ← SetConfig opt; mret (Some c);
  w_Encrypt pt _ := b ← Encrypt rnd pt; mret (Some b);
  w_Decrypt b _ := Decrypt b;
  w_KeyId := KeyId;
|}.
End wrapper.

(** ** Options and the order of iteration *)

(** Two keys of the same field. *)
Definition aliases : list (string * string) :=
  [("lib", "module"); ("token", "token_label"); ("label", "key_label")].

Definition alias (k1 k2 : string) : bool :=
  existsb (fun p => (String.eqb k1 p.1 && String.eqb k2 p.2) || (String.eqb k1 p.2 && String.eqb k2 p.1)) aliases.

(** A configuration with both keys of a field. *)
Definition ambiguous (m : gmap string string) : bool :=
  existsb (fun p => bool_decide (is_Some (m !! p.1)) && bool_decide (is_Some (m !! p.2))) aliases.

Lemma hsm_config_step_comm : steps_commute config_step (fun k1 k2 => alias k1 k2 = false).
Proof.
  intros k1 v1 k2 v2 a b Hne Hal. destruct a. unfold config_step, is_one_of. cbn [existsb].
  repeat match goal with
  | |- context [String.eqb k1 ?s] => destruct (String.eqb_spec k1 s) as [->|?];
      cbn [orb mbind outcome_bind]
  end;
  repeat match goal with
  | |- context [String.eqb k2 ?s] => destruct (String.eqb_spec k2 s) as [->|?]; cbn [orb];
      [try congruence; try discriminate Hal|]
  end; exact id.
Qed.

Lemma unambiguous_compat (m : gmap string string) : ambiguous m = false ->
  keys_compat (fun k1 k2 => alias k1 k2 = false) (map_to_list m).*1.
Proof.
  intros Ha k1 k2 H1 H2 _. apply not_true_is_false. intros Hal. revert Ha. apply not_false_iff_true.
  assert (Hin : forall k, k ∈ (map_to_list m).*1 -> is_Some (m !! k)).
  { intros k ([k' x] & -> & Hx%elem_of_map_to_list)%list_elem_of_fmap. by exists x. }
  apply Hin in H1, H2. unfold ambiguous, alias in *. apply existsb_exists in Hal as (p & Hp & Hk).
  apply existsb_exists. exists p. split; [done|].
  apply orb_true_iff in Hk as [Hk|Hk]; apply andb_true_iff in Hk as [->%String.eqb_eq ->%String.eqb_eq];
    by rewrite !bool_decide_true.
Qed.

(** the options a configuration map stands for do not depend on the order
    in which the map is iterated, as long as no field is given under both of its
    keys; when one is, they do. *)
Theorem hsm_getOpts_order ParsePath {L} :
  (forall (R1 R2 : RangeOrder) (opt : list (Opt L)) o g,
     GetOpts opt = Ret g -> ambiguous (WithConfigMap_ (o_RPC g)) = false ->
     (getOpts (H := R1) ParsePath opt = Ret o <-> getOpts (H := R2) ParsePath opt = Ret o)) /\
  exists (R1 R2 : RangeOrder) (m : gmap string string) o1 o2,
    getOpts (H := R1) (L := L) ParsePath [WithDisallowEnvVars true; WithConfigMap m] = Ret o1 /\
    getOpts (H := R2) (L := L) ParsePath [WithDisallowEnvVars true; WithConfigMap m] = Ret o2 /\
    withLib o1 <> withLib o2.
Proof.
  split.
  - intros R1 R2 opt o g Hg Ha. unfold getOpts. rewrite Hg. cbn [mbind outcome_bind].
    set (init := mk_options _ _ _ _ _ _ _ _ _ _).
    assert (Ho : forall b, range_loop config_step (range_order (RangeOrder := R1) (WithConfigMap_ (o_RPC g))) init = Ret b <->
      range_loop config_step (range_order (RangeOrder := R2) (WithConfigMap_ (o_RPC g))) init = Ret b).
    { apply (range_loop_order_compat _ (fun k1 k2 => alias k1 k2 = false)); [apply hsm_config_step_comm| | |apply range_order_NoDup].
      - intros k1 k2 H1 H2. rewrite range_order_perm in H1, H2. by apply (unambiguous_compat _ Ha).
      - by rewrite !range_order_perm. }
    assert (Hr : forall l i, is_ret (range_loop config_step l i) = true).
    { intros l. induction l as [|[k v] l IH]; intros i; [done|]. simpl. destruct i. simpl.
      repeat case_match; simpl; apply IH. }
    pose proof (Hr (range_order (RangeOrder := R1) (WithConfigMap_ (o_RPC g))) init) as [x Hx]%is_ret_Ret.
    pose proof (proj1 (Ho x) Hx) as Hx'. by rewrite Hx, Hx'.
  - exists default_order, reverse_order, (<["lib" := "a"]> {[ "module" := "b" ]}). eexists _, _.
    split; [vm_compute; reflexivity|]. split; [vm_compute; reflexivity|]. vm_compute. discriminate.
Qed.

(** ** Blobs *)

Section blobs.
Context `{HL : HsmLaws} `{PC : PublicCrypto} (HO : oaep_total PC).

Definition the_cworld (c : Pkcs11Client) (s : hsm_world) : cworld P := mkCworld c (snd s).

(** C15: the blobs of the wrapper round trip, on a token whose AES-GCM is what
    hsm_gcm_law says. When the identifier of the key has no colon, a blob Encrypt
    returned carries the name that KeyId reports from then on, and a wrapper in
    any later state and configuration decrypts the blob, stored and read back, to
    the plaintext, a ciphertext to which the token has appended a nonce of its
    own included. The conditions are those of PKCS#11: it can get a session, in
    which the blob's own label and identifier lead to an object that holds the
    key the data was encrypted with and is allowed to decrypt, with AES-GCM as
    the mechanism, and the token lets that session start the operation (logged
    in, no other operation under way). That the session is still open when it
    decrypts is proved of the code, not assumed. *)
Theorem hsm_wrapper_roundtrip {K} (key_in : p11 -> Z -> option K) may_decrypt
    rnd pt (s s' : hsm_world) c ctx blob :
  hw_client (fst s) = Some c -> c_client c = Some ctx -> Contains (c_keyId c) ":" = false ->
  hsm_gcm_law key_in may_decrypt ->
  Encrypt rnd pt s = (Ret blob, s') ->
  fst (KeyId s') = Ret (Pkcs11Key_String (GetCurrentKey c)) /\
  exists session key ws ws', FindKey session (GetCurrentKey c) ws = (Ret key, ws') /\ same_client c (cw_client ws) /\
    (effective_mechanism c key = Ret CKM_AES_GCM ->
     exists x, key_in (at_encryption ctx session ws') (hk_handle key) = Some x /\
     forall blob' (s2 : hsm_world) c2 ctx2 session2 w3 key2 w4, blob_equiv blob blob' ->
       hw_client (fst s2) = Some c2 -> c_client c2 = Some ctx2 ->
       GetSession (the_cworld c2 s2) = (Ret session2, w3) ->
       FindKey session2 (GetCurrentKey c) w3 = (Ret key2, w4) ->
       key_in (cw_lib w4) (hk_handle key2) = Some x ->
       may_decrypt (cw_lib w4) ctx2 session2 (hk_handle key2) ->
       decrypt_allowed key2 = Ret tt -> effective_mechanism c2 key2 = Ret CKM_AES_GCM ->
       exists p, fst (Decrypt (Some blob') s2) = Ret p /\ slice_equiv p pt).
Proof.
  intros Hcl Hctx Hcol Hlaw He. unfold Encrypt in He.
  apply pbind_Ret in He as ([[ct iv] k] & s1 & He & H). unfold in_client in He. rewrite Hcl in He.
  destruct (client_Encrypt rnd pt (mkCworld c (snd s))) as [o w'] eqn:Ec. injection He as -> <-.
  destruct (client_roundtrip HO key_in may_decrypt rnd pt (mkCworld c (snd s)) w' ctx ct iv k Hctx Hlaw Ec)
    as (session & key & ws & ws' & Hf & Hs & Hd).
  injection H as <- <-. simpl. assert (Hk : k = GetCurrentKey c).
  { apply with_session_Ret in Ec as (h & w1 & w2 & Hg & Hb). pose proof (wp_GetSession (mkCworld c (snd s)) ctx Hctx) as Hw.
    unfold wp in Hw. rewrite Hg in Hw. destruct Hw as [[sl Hw] _]. rewrite get_bind, Hw in Hb.
    apply pbind_Ret in Hb as (key' & w5 & _ & Hb). eapply encrypt_with_key. exact Hb. }
  subst k. split; [done|]. exists session, key, ws, ws'. split; [done|]. split; [done|]. intros Hm.
  destruct (Hd Hm) as (_ & x & Hx & Hd'). exists x. split; [done|].
  intros blob' s2 c2 ctx2 session2 w3 key2 w4 (Hct & Hiv & Hki) Hc2 Hctx2 Hg2 Hf2 Hh Hmay Ha Hm2.
  simpl in *. assert (Hname : exists ki, bi_KeyInfo blob' = Some ki /\ ki_KeyId ki = Pkcs11Key_String (GetCurrentKey c)).
  { destruct (bi_KeyInfo blob') as [ki|]; [|by inversion Hki].
    inversion Hki as [y z (_ & Hn & _)|]; simplify_eq. by exists ki. }
  destruct Hname as (ki & Hki' & Hname).
  destruct (Hd' (bi_Ciphertext blob') (bi_Iv blob') (the_cworld c2 s2) ctx2 session2 w3 key2 w4) as (p & Hp & Hpc);
    try done; [by symmetry..|]. exists p. split; [|exact Hpc].
  unfold Decrypt. rewrite get_bind, Hki'. simpl. rewrite Hname, lift_bind.
  rewrite (proj2 (proj1 (key_name_roundtrip (GetCurrentKey c) ""))) by done.
  unfold in_client. rewrite Hc2. unfold the_cworld in Hp. by destruct (client_Decrypt _ _ _ _).
Qed.
End blobs.

(** ** Witnesses *)

Section witnesses.
#[local] Existing Instance toy_p11.
#[local] Existing Instance toy_public.
#[local] Existing Instance toy_hsm_laws.

Definition demo_pin : list (Opt Empty_set) := [WithConfigMap {[ "pin" := "1234" ]}].

Definition demo_pin_options : outcome options :=
  getOpts (H := default_order) (fun s => (s, None)) demo_pin.

Lemma hsm_getOpts_order_witness :
  exists o, demo_pin_options = Ret o /\ withPin o = "1234" /\
    getOpts (H := reverse_order) (fun s => (s, None)) demo_pin = Ret o.
Proof.
  destruct demo_pin_options as [o| |] eqn:Eo; [|by vm_compute in Eo..].
  destruct (GetOpts demo_pin) as [g| |] eqn:Eg; [|by vm_compute in Eg..].
  exists o. split; [done|]. split; [by vm_compute in Eo; injection Eo as <-|].
  destruct (hsm_getOpts_order (fun s => (s, None)) (L := Empty_set)) as [H _].
  refine (proj1 (H default_order reverse_order demo_pin o g Eg _) Eo).
  vm_compute in Eg. injection Eg as <-. vm_compute. reflexivity.
Defined.

Definition demo_hsm : hsm_world (P := toy_p11) :=
  (mkHsmWrapper (Some (demo_client 0)) "aes:01" "", toy_lib0).

Definition demo_blob := Encrypt [] (Some (bytes_of_string "seal")) demo_hsm.

Definition demo_found : HsmKeyInfo := mkHsmKeyInfo 7 None CKO_SECRET_KEY CKK_AES true true.

Definition demo_in_session : cworld toy_p11 :=
  mkCworld (P := toy_p11) (set_slot (Some 5%Z) (demo_client 0)) (mkToy 2 [1%Z] None []).

#[local] Opaque toy_gcm.

Lemma hsm_wrapper_roundtrip_witness :
  exists blob p, fst demo_blob = Ret blob /\ fst (Decrypt (Some blob) demo_hsm) = Ret p /\
    slice_equiv p (Some (bytes_of_string "seal")).
Proof.
  destruct demo_blob as [o s'] eqn:He. assert (Ho := f_equal fst He). vm_compute in Ho. simpl in Ho.
  destruct o as [blob| |]; [|discriminate Ho..].
  destruct (hsm_wrapper_roundtrip (HL := toy_hsm_laws) toy_oaep_total toy_key_in toy_may [] (Some (bytes_of_string "seal"))
    demo_hsm s' (demo_client 0) 1 blob eq_refl eq_refl eq_refl toy_hsm_gcm He)
    as (_ & s & key & ws & ws' & Hf & Hs & Hd).
  destruct ws as [cl l]. destruct Hs as [sl Hs]. simpl in Hs. subst cl.
  assert (Hkey := f_equal fst Hf). cbn in Hkey. injection Hkey as Hkey. subst key.
  destruct (Hd eq_refl) as (x & Hx & Hd'). injection Hx as <-.
  destruct (Hd' blob demo_hsm (demo_client 0) 1%Z 1%Z demo_in_session demo_found demo_in_session
    (reflexivity blob) eq_refl eq_refl eq_refl eq_refl eq_refl I eq_refl eq_refl) as (p & Hp & Hp2).
  exists blob, p. split; [done|]. split; [exact Hp|exact Hp2].
Defined.
End witnesses.
