(* ===== verification/Kmip.v ===== *)
(** * The KMIP wrapper

    wrappers/kmip: options.go and kmip.go.  The KMIP client library and the
    server behind it are external: dialling, cloning and closing a connection and
    the three requests the wrapper sends are operations over an abstract world.
    The state is the wrapper object with this world. *)
From S2P Require Import Prelude GoText Wrapping.

Local Open Scope Z_scope.

(** ** The library's data *)

Inductive CryptographicAlgorithm := AlgNone | AlgAES | AlgRSA | AlgOther (n : Z).

Inductive BlockCipherMode := ModeNone | ModeGCM.

Inductive PaddingMethod := PaddingNone | PaddingOAEP.

Inductive HashingAlgorithm := HashNone | SHA_256 | SHA_384 | SHA_512.

Inductive MaskGenerator := MaskNone | MGF1.

Inductive ObjectType := TypeSymmetricKey | TypePublicKey | TypePrivateKey | TypeOther (n : Z).

#[export] Instance CryptographicAlgorithm_eq_dec : EqDecision CryptographicAlgorithm.
Proof. solve_decision. Defined.

#[export] Instance ObjectType_eq_dec : EqDecision ObjectType.
Proof. solve_decision. Defined.

Record CryptographicParameters := mkCryptographicParameters {
  cp_Algorithm : CryptographicAlgorithm;
  cp_BlockCipherMode : BlockCipherMode;
  cp_PaddingMethod : PaddingMethod;
  cp_HashingAlgorithm : HashingAlgorithm;
  cp_MaskGenerator : MaskGenerator;
  cp_MaskGeneratorHash : HashingAlgorithm;
  cp_TagLength : Z;
  cp_IVLength : Z;
}.

Definition zero_params : CryptographicParameters :=
  mkCryptographicParameters AlgNone ModeNone PaddingNone HashNone MaskNone HashNone 0 0.

(** Usage mask bits. *)
Definition CryptographicUsageEncrypt : Z := 4.
Definition CryptographicUsageDecrypt : Z := 8.

(** The names of attributes, and their dynamically typed values; the boolean of
    a link tells a public-key link. *)
Inductive AttributeName :=
| NameObjectType | NameCryptographicAlgorithm | NameCryptographicUsageMask | NameLink | NameOther (s : string).

Inductive AttributeValue :=
| VAlgorithm (a : CryptographicAlgorithm)
| VObjectType (t : ObjectType)
| VUsageMask (mask : Z)
| VLink (public_key_link : bool) (linked : string)
| VOther.

Record Attribute := mkAttribute { a_Name : AttributeName; a_Value : AttributeValue }.

(** The options the wrapper builds; a timeout is a [time.Duration]. *)
Inductive client_option :=
| WithRootCAFile (s : string)
| WithClientCertFiles (cert key : string)
| WithRootCAPem (s : string)
| WithClientCertPEM (cert key : string)
| WithServerName (s : string)
| WithTimeoutMiddleware (duration : Z)
| WithTlsCipherSuiteNames (names : list string)
| WithKmipVersions (versions : list (Z * Z)).

Definition V1_2 : Z * Z := (1, 2).
Definition V1_3 : Z * Z := (1, 3).
Definition V1_4 : Z * Z := (1, 4).

(** [ttlv.CompareVersions(a, b) >= 0]. *)
Definition version_ge (a b : Z * Z) : bool := (b.1 <? a.1) || (a.1 =? b.1) && (b.2 <=? a.2).

Class Kmip := {
  kmip_world : Type;
  kmip_conn : Type;
  DialContext : string -> list client_option -> prog kmip_world kmip_conn;
  CloneCtx : kmip_conn -> prog kmip_world kmip_conn;
  conn_Close : kmip_conn -> prog kmip_world unit;
  conn_Version : kmip_conn -> Z * Z;
  Version_String : Z * Z -> string;
  (* key, IV, parameters, data; the data and the authentication tag of the response *)
  Encrypt_exec : kmip_conn -> string -> slice -> CryptographicParameters -> slice ->
    prog kmip_world (slice * slice);
  (* key, nonce, parameters, authentication tag when one is given, data *)
  Decrypt_exec : kmip_conn -> string -> slice -> CryptographicParameters -> option slice -> slice ->
    prog kmip_world slice;
  GetAttributes_exec : kmip_conn -> string -> list AttributeName -> prog kmip_world (list Attribute);
  (* what [ttlv.EnumStr] prints *)
  alg_EnumStr : CryptographicAlgorithm -> string;
  type_EnumStr : ObjectType -> string;
}.

(** ** Cryptographic parameters *)

Definition rsa_oaep (h : HashingAlgorithm) : CryptographicParameters :=
  mkCryptographicParameters AlgRSA ModeNone PaddingOAEP h MGF1 h 0 0.

Definition cryptoParamsPreset (name : string) : option CryptographicParameters :=
  if String.eqb name "AES_GCM"
  then Some (mkCryptographicParameters AlgAES ModeGCM PaddingNone HashNone MaskNone HashNone 16 12)
  else if String.eqb name "RSA_OAEP_SHA256" then Some (rsa_oaep SHA_256)
  else if String.eqb name "RSA_OAEP_SHA384" then Some (rsa_oaep SHA_384)
  else if String.eqb name "RSA_OAEP_SHA512" then Some (rsa_oaep SHA_512)
  else None.

Definition mechanisms : list string := ["AES_GCM"; "RSA_OAEP_SHA256"; "RSA_OAEP_SHA384"; "RSA_OAEP_SHA512"].

(** [slices.Index]: [None] for -1. *)
Fixpoint slices_Index (l : list string) (s : string) : option nat :=
  match l with
  | [] => None
  | x :: l => if String.eqb x s then Some 0%nat else S <$> slices_Index l s
  end.

(** ** Options *)

Record options := mk_options {
  opts_Options : Options;
  withCaCertFile : string;
  withClientCertFile : string;
  withClientKeyFile : string;
  withCaCertBytes : string;
  withClientCertBytes : string;
  withClientKeyBytes : string;
  withEndpoint : string;
  withServerName : string;
  withTimeout : Z;
  withCryptoParams : string;
  withTls12Ciphers : list string;
}.

Definition default_options (o : Options) : options := mk_options o "" "" "" "" "" "" "" "" 10 "AES_GCM" [].

Definition set_key_id (v : string) : Options -> Options := set_rpc (fun r =>
  mkRPCOptions v (WithAad_ r) (WithConfigMap_ r) (WithDisallowEnvVars_ r)).

Definition config_step (kv : string * string) (opts : options) : outcome options :=
  let (k, v) := kv in
  let (o, ca, cc, ck, cab, ccb, ckb, ep, sn, tm, cp, cs) := opts in
  let at_ := String.eqb k in
  if at_ "kms_key_id" then Ret (mk_options (set_key_id v o) ca cc ck cab ccb ckb ep sn tm cp cs)
  else if at_ "endpoint" then Ret (mk_options o ca cc ck cab ccb ckb v sn tm cp cs)
  else if at_ "ca_cert" then Ret (mk_options o v cc ck cab ccb ckb ep sn tm cp cs)
  else if at_ "client_cert" then Ret (mk_options o ca v ck cab ccb ckb ep sn tm cp cs)
  else if at_ "client_key" then Ret (mk_options o ca cc v cab ccb ckb ep sn tm cp cs)
  else if at_ "ca_cert_bytes" then Ret (mk_options o ca cc ck v ccb ckb ep sn tm cp cs)
  else if at_ "client_cert_bytes" then Ret (mk_options o ca cc ck cab v ckb ep sn tm cp cs)
  else if at_ "client_key_bytes" then Ret (mk_options o ca cc ck cab ccb v ep sn tm cp cs)
  else if at_ "server_name" then Ret (mk_options o ca cc ck cab ccb ckb ep v tm cp cs)
  else if at_ "timeout" then
    t ← ParseUint v 10 64; Ret (mk_options o ca cc ck cab ccb ckb ep sn t cp cs)
  else if at_ "encrypt_alg" then Ret (mk_options o ca cc ck cab ccb ckb ep sn tm v cs)
  else if at_ "tls12_ciphers" then
    Ret (mk_options o ca cc ck cab ccb ckb ep sn tm cp (cs ++ map TrimSpace (Split v ",")))
  else Ret opts.

Definition getOpts `{RangeOrder} {L} (opt : list (Opt L)) : outcome options :=
  o ← GetOpts opt;
  range_loop config_step (range_order (WithConfigMap_ (o_RPC o))) (default_options o).

Definition EnvKmipWrapperKeyId : string := "BAO_KMIP_WRAPPER_KEY_ID".
Definition EnvVaultKmipSealKeyId : string := "VAULT_KMIP_SEAL_KEY_ID".
Definition EnvKmipEndpoint : string := "BAO_KMIP_ENDPOINT".
Definition EnvKmipCaCert : string := "BAO_KMIP_CA_CERT".
Definition EnvKmipClientCert : string := "BAO_KMIP_CLIENT_CERT".
Definition EnvKmipClientKey : string := "BAO_KMIP_CLIENT_KEY".
Definition EnvKmipServerName : string := "BAO_KMIP_SERVER_NAME".
Definition EnvKmipTimeout : string := "BAO_KMIP_TIMEOUT".
Definition EnvKmipEncryptAlg : string := "BAO_KMIP_ENCRYPT_ALG".
Definition EnvKmipTls12Ciphers : string := "BAO_KMIP_TLS12_CIPHERS".

Definition Type_kmip : string := "kmip".

(** [time.Duration(t) * time.Second] on 64 bits. *)
Definition int64 (x : Z) : Z := (x + 2 ^ 63) mod 2 ^ 64 - 2 ^ 63.
Definition seconds (t : Z) : Z := int64 (int64 t * 1000000000).

Section kmip.
Context `{K : Kmip}.

Record kwrapper := mk_kwrapper {
  k_keyId : string;
  k_pubKeyId : string;
  k_endpoint : string;
  k_timeout : Z;
  k_opts : list client_option;
  k_cryptoParams : CryptographicParameters;
  k_mechanismID : Z;
  k_cachedClient : option kmip_conn;
}.

Definition NewWrapper : kwrapper := mk_kwrapper "" "" "" 0 [] zero_params 0 None.

Definition set_keyId (x : string) (k : kwrapper) : kwrapper :=
  mk_kwrapper x (k_pubKeyId k) (k_endpoint k) (k_timeout k) (k_opts k) (k_cryptoParams k) (k_mechanismID k) (k_cachedClient k).
Definition set_pubKeyId (x : string) (k : kwrapper) : kwrapper :=
  mk_kwrapper (k_keyId k) x (k_endpoint k) (k_timeout k) (k_opts k) (k_cryptoParams k) (k_mechanismID k) (k_cachedClient k).
Definition set_endpoint (x : string) (k : kwrapper) : kwrapper :=
  mk_kwrapper (k_keyId k) (k_pubKeyId k) x (k_timeout k) (k_opts k) (k_cryptoParams k) (k_mechanismID k) (k_cachedClient k).
Definition set_timeout (x : Z) (k : kwrapper) : kwrapper :=
  mk_kwrapper (k_keyId k) (k_pubKeyId k) (k_endpoint k) x (k_opts k) (k_cryptoParams k) (k_mechanismID k) (k_cachedClient k).
Definition add_opts (x : list client_option) (k : kwrapper) : kwrapper :=
  mk_kwrapper (k_keyId k) (k_pubKeyId k) (k_endpoint k) (k_timeout k) (k_opts k ++ x) (k_cryptoParams k) (k_mechanismID k) (k_cachedClient k).
Definition set_cryptoParams (x : CryptographicParameters) (k : kwrapper) : kwrapper :=
  mk_kwrapper (k_keyId k) (k_pubKeyId k) (k_endpoint k) (k_timeout k) (k_opts k) x (k_mechanismID k) (k_cachedClient k).
Definition set_mechanismID (x : Z) (k : kwrapper) : kwrapper :=
  mk_kwrapper (k_keyId k) (k_pubKeyId k) (k_endpoint k) (k_timeout k) (k_opts k) (k_cryptoParams k) x (k_cachedClient k).
Definition set_cachedClient (x : option kmip_conn) (k : kwrapper) : kwrapper :=
  mk_kwrapper (k_keyId k) (k_pubKeyId k) (k_endpoint k) (k_timeout k) (k_opts k) (k_cryptoParams k) (k_mechanismID k) x.

Definition kworld : Type := kwrapper * kmip_world.

Definition in_kmip {A} (m : prog kmip_world A) : prog kworld A := zoom snd (fun w s => (fst s, w)) m.

Definition update (f : kwrapper -> kwrapper) : prog kworld unit := modify (fun s => (f (fst s), snd s)).

(** ** Connections *)

Definition connect : prog kworld kmip_conn :=
  s ← get;
  on_err (wrapf "failed to dial kmip connection endpoint")
    (match k_cachedClient (fst s) with
     | Some c => in_kmip (CloneCtx c)
     | None => in_kmip (DialContext (k_endpoint (fst s)) (k_opts (fst s)))
     end).

(** The rest of a function after [defer conn.Close()], whose error is dropped. *)
Definition with_conn {A} (conn : kmip_conn) (body : prog kworld A) : prog kworld A :=
  o ← attempt body;
  c ← attempt (in_kmip (conn_Close conn));
  match c with Panic => lift Panic | _ => lift o end.

(** ** Key verification *)

Definition lift_opt {A} (o : option A) : outcome A := match o with Some a => Ret a | None => Panic end.

(** The type assertions without an [ok] panic. *)
Definition as_algorithm (v : AttributeValue) : outcome CryptographicAlgorithm :=
  match v with VAlgorithm a => Ret a | _ => Panic end.

Definition as_object_type (v : AttributeValue) : outcome ObjectType :=
  match v with VObjectType t => Ret t | _ => Panic end.

Definition as_mask (v : AttributeValue) : outcome Z :=
  match v with VUsageMask m => Ret m | _ => Panic end.

(** One turn of the loop over the attributes, on the public key found so far. *)
Definition verify_attribute (keyId : string) (alg : CryptographicAlgorithm) (expected : ObjectType)
    (attr : Attribute) (pubKeyId : string) : outcome string :=
  match a_Name attr with
  | NameCryptographicAlgorithm =>
      keyAlg ← as_algorithm (a_Value attr);
      if decide (alg = keyAlg) then Ret pubKeyId
      else Fail (ErrLeaf ("key has an invalid cryptographic algorithm attribute (wants " +:+
             quoted (alg_EnumStr alg) +:+ ", got " +:+ quoted (alg_EnumStr keyAlg) +:+ ")"))
  | NameObjectType =>
      otype ← as_object_type (a_Value attr);
      if decide (expected = otype) then Ret pubKeyId
      else Fail (ErrLeaf ("unexpected object type (wants " +:+ quoted (type_EnumStr expected) +:+
             ", got " +:+ quoted (type_EnumStr otype) +:+ ")"))
  | NameCryptographicUsageMask =>
      mask ← as_mask (a_Value attr);
      if (bool_decide (expected = TypeSymmetricKey) || bool_decide (expected = TypePrivateKey)) &&
         (Z.land mask CryptographicUsageDecrypt =? 0)
      then Fail (ErrLeaf ("key " +:+ quoted keyId +:+ " does not allow decrypt operations"))
      else if (bool_decide (expected = TypeSymmetricKey) || bool_decide (expected = TypePublicKey)) &&
         (Z.land mask CryptographicUsageEncrypt =? 0)
      then Fail (ErrLeaf ("key " +:+ quoted keyId +:+ " does not allow encrypt operations"))
      else Ret pubKeyId
  | NameLink =>
      if decide (expected = TypePrivateKey) then
        match a_Value attr with
        | VLink true linked => Ret linked
        | _ => Ret pubKeyId
        end
      else Ret pubKeyId
  | NameOther _ => Ret pubKeyId
  end.

Fixpoint verify_attributes (keyId : string) (alg : CryptographicAlgorithm) (expected : ObjectType)
    (attrs : list Attribute) (pubKeyId : string) : outcome string :=
  match attrs with
  | [] =>
      if bool_decide (expected = TypePrivateKey) && String.eqb pubKeyId ""
      then Fail (ErrLeaf ("missing public key link attribute for the private key " +:+ quoted keyId))
      else Ret pubKeyId
  | attr :: attrs =>
      pubKeyId ← verify_attribute keyId alg expected attr pubKeyId;
      verify_attributes keyId alg expected attrs pubKeyId
  end.

Definition verifyKeyAttributes (client : kmip_conn) (keyId : string) (alg : CryptographicAlgorithm)
    (expected : ObjectType) : prog kworld string :=
  attrs ← on_err (wrapf "failed to get key attributes")
    (in_kmip (GetAttributes_exec client keyId
       [NameObjectType; NameCryptographicAlgorithm; NameCryptographicUsageMask; NameLink]));
  lift (verify_attributes keyId alg expected attrs "").

Definition expected_type (alg : CryptographicAlgorithm) : outcome ObjectType :=
  match alg with
  | AlgRSA => Ret TypePrivateKey
  | AlgAES => Ret TypeSymmetricKey
  | _ => Fail (ErrLeaf ("unsupported cryptographic algorithm " +:+ quoted (alg_EnumStr alg)))
  end.

Definition verifyKey (client : kmip_conn) : prog kworld unit :=
  s ← get;
  let alg := cp_Algorithm (k_cryptoParams (fst s)) in
  expected ← lift (expected_type alg);
  pubKey ← verifyKeyAttributes client (k_keyId (fst s)) alg expected;
  if is_set pubKey then
    _ ← verifyKeyAttributes client pubKey alg TypePublicKey;
    update (set_pubKeyId pubKey)
  else mret tt.

(** ** Requests *)

(** [uuid.GenerateRandomBytes(n)] of this call. *)
Definition encryptKMIP (rnd : nat -> outcome bytes) (plainDEK : slice) : prog kworld (slice * slice) :=
  s ← get;
  let p := k_cryptoParams (fst s) in
  iv ← lift (if 0 <? cp_IVLength p then b ← rnd (Z.to_nat (cp_IVLength p)); Ret (Some b) else Ret None);
  client ← connect;
  with_conn client (
    let keyId := if is_set (k_pubKeyId (fst s)) then k_pubKeyId (fst s) else k_keyId (fst s) in
    resp ← in_kmip (Encrypt_exec client keyId iv p plainDEK);
    mret (append_slice resp.1 resp.2, iv)).

(** The tag length is that of the wrapper's own parameters, not of [cparams]. *)
Definition decryptKMIP (keyId : string) (cparams : CryptographicParameters) (nonce encryptedDEK : slice) :
    prog kworld slice :=
  s ← get;
  let tagLen := cp_TagLength (k_cryptoParams (fst s)) in
  if Z.of_nat (slen encryptedDEK) <? tagLen then lift (Fail (ErrLeaf "invalid encrypted DEK")) else
  client ← connect;
  with_conn client (
    let n := (slen encryptedDEK - Z.to_nat tagLen)%nat in
    if (0 <? tagLen) && version_ge (conn_Version client) V1_4
    then in_kmip (Decrypt_exec client keyId nonce cparams (Some (Some (drop n (content encryptedDEK))))
           (Some (take n (content encryptedDEK))))
    else in_kmip (Decrypt_exec client keyId nonce cparams None encryptedDEK)).

Definition Encrypt (rnd : nat -> outcome bytes) (plaintext : slice) : prog kworld BlobInfo :=
  match plaintext with
  | None => lift (Fail (ErrLeaf "given plaintext for encryption is nil"))
  | Some _ =>
      r ← on_err (wrapf "error encrypting data") (encryptKMIP rnd plaintext);
      s ← get;
      mret (mkBlobInfo r.1 r.2 (Some (mkKeyInfo (k_mechanismID (fst s)) (k_keyId (fst s)) None)))
  end.

(** A blob without key info is dereferenced; [%q] of the number is left out. *)
Definition Decrypt (in_ : option BlobInfo) : prog kworld slice :=
  match in_ with
  | None => lift (Fail (ErrLeaf "given input for decryption is nil"))
  | Some b =>
      match bi_KeyInfo b with
      | None => lift Panic
      | Some info =>
          let mId := ki_Mechanism info in
          if Z.of_nat (length mechanisms) <=? mId
          then lift (Fail (ErrLeaf "invalid encryption mechanism ID")) else
          match mechanisms !! Z.to_nat mId ≫= cryptoParamsPreset with
          | None => lift (Fail (ErrLeaf "mechanism ID does not match any KMIP cryptographic parameter"))
          | Some cparams =>
              on_err (wrapf "error decrypting data encryption key")
                (decryptKMIP (ki_KeyId info) cparams (bi_Iv b) (bi_Ciphertext b))
          end
      end
  end.

Definition KeyId : prog kworld string := s ← get; mret (k_keyId (fst s)).

(** ** Configuration *)

Section config.
Context (getenv : string -> string).

(** An environment variable, empty when the environment is disallowed; and the
    configured value where it is empty. *)
Definition env (disallow : bool) (name : string) : string := if disallow then "" else getenv name.

Definition or_else (a b : string) : string := if String.eqb a "" then b else a.

(** The first assignments to the key identifier. *)
Definition config_keyId (opts : options) : outcome string :=
  let id := env_switch getenv (WithDisallowEnvVars_ (o_RPC (opts_Options opts)))
              [EnvKmipWrapperKeyId; EnvVaultKmipSealKeyId] (WithKeyId_ (o_RPC (opts_Options opts))) in
  if String.eqb id "" then Fail (ErrLeaf "key id not found (env or config) for kmip wrapper configuration")
  else Ret id.

(** The mTLS options, files first. *)
Definition tls_options (opts : options) (disallow : bool) : list client_option :=
  let file name configured := if disallow then "" else or_else (getenv name) configured in
  let cert := file EnvKmipClientCert (withClientCertFile opts) in
  let key := file EnvKmipClientKey (withClientKeyFile opts) in
  (if disallow then [] else [WithRootCAFile (or_else (getenv EnvKmipCaCert) (withCaCertFile opts))]) ++
  (if is_set key && is_set cert then [WithClientCertFiles cert key] else []) ++
  (if is_set (withCaCertBytes opts) then [WithRootCAPem (withCaCertBytes opts)] else []) ++
  (if is_set (withClientCertBytes opts) && is_set (withClientKeyBytes opts)
   then [WithClientCertPEM (withClientCertBytes opts) (withClientKeyBytes opts)] else []).

(** The timeout the environment sets; an empty variable is zero. *)
Definition env_timeout : outcome Z :=
  let s := getenv EnvKmipTimeout in if String.eqb s "" then Ret 0 else ParseUint s 10 64.

Definition config_ciphers (opts : options) (disallow : bool) : list string :=
  let s := env disallow EnvKmipTls12Ciphers in
  match (if String.eqb s "" then [] else Split s ",") with [] => withTls12Ciphers opts | l => l end.

Definition metadata (k : kwrapper) (cpname serverName : string) (ciphers : list string) (conn : kmip_conn) :
    gmap string string :=
  let when (b : bool) (key v : string) (m : gmap string string) := if b then <[key := v]> m else m in
  when (is_set (k_pubKeyId k)) "kms_public_key_id" (k_pubKeyId k)
  (when (negb (Nat.eqb (length ciphers) 0)) "kmip_tls12_ciphers" (String.concat "," ciphers)
  (when (is_set serverName) "server_name" serverName
  (<["kmip_version" := Version_String (conn_Version conn)]>
  (<["encrypt_alg" := cpname]> (<["timeout" := Itoa (int64 (k_timeout k))]>
  (<["endpoint" := k_endpoint k]> {[ "kms_key_id" := k_keyId k ]})))))).

(** The settings up to the connection, in the order of the code: what was
    assigned before a failure stays assigned. *)
Definition configure (opts : options) : prog kworld (string * string * list string) :=
  let disallow := WithDisallowEnvVars_ (o_RPC (opts_Options opts)) in
  id ← lift (config_keyId opts);
  _ ← update (set_keyId id);
  _ ← (if disallow then mret tt else update (set_endpoint (getenv EnvKmipEndpoint)));
  _ ← update (fun k => set_endpoint (or_else (k_endpoint k) (withEndpoint opts)) k);
  _ ← update (add_opts (tls_options opts disallow));
  let serverName := or_else (env disallow EnvKmipServerName) (withServerName opts) in
  _ ← update (add_opts (if is_set serverName then [WithServerName serverName] else []));
  _ ← (if disallow then mret tt else t ← lift env_timeout; update (set_timeout t));
  _ ← update (fun k => if k_timeout k =? 0 then set_timeout (withTimeout opts) k else k);
  _ ← update (fun k => add_opts (if 0 <? k_timeout k then [WithTimeoutMiddleware (seconds (k_timeout k))] else []) k);
  let ciphers := config_ciphers opts disallow in
  _ ← update (add_opts (match ciphers with [] => [] | _ => [WithTlsCipherSuiteNames ciphers] end));
  let cpname := or_else (env disallow EnvKmipEncryptAlg) (withCryptoParams opts) in
  _ ← update (set_cryptoParams (default zero_params (cryptoParamsPreset cpname)));
  match cryptoParamsPreset cpname with
  | None => lift (Fail (ErrLeaf ("invalid crypto parameters " +:+ quoted cpname)))
  | Some _ =>
      match slices_Index mechanisms cpname with
      | None => lift (Fail (ErrLeaf "KMIP cryptographic parameter does not have an associated mechanism ID"))
      | Some mId =>
          _ ← update (set_mechanismID (Z.of_nat mId));
          _ ← update (add_opts [WithKmipVersions [V1_2; V1_3; V1_4]]);
          mret (cpname, serverName, ciphers)
      end
  end.

Definition SetConfig `{RangeOrder} {L} (opt : list (Opt L)) : prog kworld WrapperConfig :=
  opts ← lift (getOpts opt);
  r ← configure opts;
  conn ← on_err (wrapf "failed to dial kmip connection endpoint") connect;
  with_conn conn (
    _ ← on_err (wrapf "invalid kmip key object") (verifyKey conn);
    _ ← update (set_cachedClient (Some conn));
    s ← get;
    mret (mkWrapperConfig (metadata (fst s) r.1.1 r.1.2 r.2 conn))).
End config.

#[export] Instance kmip_wrapper `{RangeOrder} {L} (getenv : string -> string) (rnd : nat -> outcome bytes) :
    Wrapper L kworld := {|
  w_Type := mret Type_kmip;
  w_SetConfig opt := c ← SetConfig getenv opt; mret (Some c);
  w_Encrypt pt _ := b ← Encrypt rnd pt; mret (Some b);
  w_Decrypt b _ := Decrypt b;
  w_KeyId := KeyId;
|}.
End kmip.
Arguments kwrapper K : clear implicits.
Arguments kworld K : clear implicits.

(** ** Accepting a key *)

Section verification.
Context `{K : Kmip}.

Definition needs_decrypt (t : ObjectType) : Prop := t = TypeSymmetricKey \/ t = TypePrivateKey.

Definition needs_encrypt (t : ObjectType) : Prop := t = TypeSymmetricKey \/ t = TypePublicKey.

(** What an attribute must say for the key to be used. *)
Definition attr_ok (alg : CryptographicAlgorithm) (expected : ObjectType) (attr : Attribute) : Prop :=
  match a_Name attr with
  | NameCryptographicAlgorithm => a_Value attr = VAlgorithm alg
  | NameObjectType => a_Value attr = VObjectType expected
  | NameCryptographicUsageMask => exists m, a_Value attr = VUsageMask m /\
      (needs_decrypt expected -> Z.land m CryptographicUsageDecrypt <> 0) /\
      (needs_encrypt expected -> Z.land m CryptographicUsageEncrypt <> 0)
  | _ => True
  end.

Definition public_link (attr : Attribute) : option string :=
  match a_Name attr, a_Value attr with NameLink, VLink true linked => Some linked | _, _ => None end.

(** The last public-key link, of a private key only. *)
Definition linked_key (expected : ObjectType) (attrs : list Attribute) (found : string) : string :=
  if decide (expected = TypePrivateKey) then default found (last (omap public_link attrs)) else found.

Lemma verify_attribute_spec keyId alg expected attr found id :
  verify_attribute keyId alg expected attr found = Ret id <->
  attr_ok alg expected attr /\ id = linked_key expected [attr] found.
Proof.
  unfold verify_attribute, attr_ok, linked_key, public_link, needs_decrypt, needs_encrypt.
  destruct attr as [[] v]; simpl.
  - destruct v; simpl; try (split; [done|naive_solver]).
    repeat case_decide; subst; naive_solver.
  - destruct v; simpl; try (split; [done|naive_solver]).
    repeat case_decide; subst; naive_solver.
  - destruct v as [| |m| |]; simpl; try (split; [done|naive_solver]).
    destruct (Z.eqb_spec (Z.land m CryptographicUsageDecrypt) 0) as [Hd|Hd];
      destruct (Z.eqb_spec (Z.land m CryptographicUsageEncrypt) 0) as [He|He];
      repeat case_bool_decide; simpl; repeat case_decide; naive_solver.
  - case_decide; destruct v as [| | |[] l|]; simpl; naive_solver.
  - case_decide; naive_solver.
Qed.

Lemma linked_key_cons expected a attrs found :
  linked_key expected (a :: attrs) found = linked_key expected attrs (linked_key expected [a] found).
Proof.
  unfold linked_key. case_decide; [|done]. cbn [omap list_omap]. destruct (public_link a) as [l|]; [|done].
  simpl. rewrite last_cons. by destruct (last (omap public_link attrs)).
Qed.

Lemma verify_attributes_spec keyId alg expected attrs found id :
  verify_attributes keyId alg expected attrs found = Ret id <->
  Forall (attr_ok alg expected) attrs /\ id = linked_key expected attrs found /\
  (expected = TypePrivateKey -> id <> "").
Proof.
  revert found. induction attrs as [|a attrs IH]; intros found; cbn [verify_attributes].
  - assert (linked_key expected [] found = found) as -> by (unfold linked_key; by case_decide).
    case_bool_decide as He; cbn [andb]; [destruct (String.eqb_spec found "")|]; naive_solver.
  - rewrite obind_Ret, Forall_cons, linked_key_cons. split.
    + intros (found' & [Ha ->]%verify_attribute_spec & H). apply IH in H as (? & ? & ?). auto.
    + intros ([Ha Hl] & Hid & Hp). eexists. split; [by apply verify_attribute_spec|]. by apply IH.
Qed.

(** a key is accepted exactly when the server answers the request for its
    attributes and every attribute it reports is as the configured algorithm needs
    it (algorithm, object type, and the usage bits for the operations of this kind
    of key), and a private key links to a public key; the result is the last such
    link of a private key, and empty for every other kind. *)
Theorem kmip_verify_attributes client keyId alg expected (s s' : kworld K) id :
  verifyKeyAttributes client keyId alg expected s = (Ret id, s') <->
  exists attrs w,
    GetAttributes_exec client keyId
      [NameObjectType; NameCryptographicAlgorithm; NameCryptographicUsageMask; NameLink] (snd s) = (Ret attrs, w) /\
    s' = (fst s, w) /\
    Forall (attr_ok alg expected) attrs /\ id = linked_key expected attrs "" /\
    (expected = TypePrivateKey -> id <> "").
Proof.
  unfold verifyKeyAttributes. rewrite pbind_Ret. split.
  - intros (attrs & s1 & Hg & H). rewrite on_err_Ret in Hg. unfold in_kmip, zoom in Hg.
    destruct (GetAttributes_exec _ _ _ _) as [o w]. injection Hg as -> <-. injection H as H <-.
    apply verify_attributes_spec in H as (? & ? & ?). by exists attrs, w.
  - intros (attrs & w & Hg & -> & H). exists attrs, (fst s, w). split; [|unfold lift; f_equal; by apply verify_attributes_spec].
    rewrite on_err_Ret. unfold in_kmip, zoom. by rewrite Hg.
Qed.
End verification.

(** ** Connections *)

(** The connections that are open. *)
Class KmipLaws (K : Kmip) := {
  conn_id : kmip_conn -> nat;
  open_conns : kmip_world -> gset nat;
  law_Dial ep o w : wp (DialContext ep o) (fun r w' => match r with
    | Ret c => conn_id c ∉ open_conns w /\ open_conns w' = {[ conn_id c ]} ∪ open_conns w
    | _ => open_conns w' = open_conns w
    end) w;
  law_Clone c0 w : wp (CloneCtx c0) (fun r w' => match r with
    | Ret c => conn_id c ∉ open_conns w /\ open_conns w' = {[ conn_id c ]} ∪ open_conns w
    | _ => open_conns w' = open_conns w
    end) w;
  law_Close c w : wp (conn_Close c) (fun r w' => r <> Panic /\
    open_conns w' = open_conns w ∖ {[ conn_id c ]}) w;
  law_Encrypt_exec c k i p d : keeps open_conns (Encrypt_exec c k i p d);
  law_Decrypt_exec c k n p t d : keeps open_conns (Decrypt_exec c k n p t d);
  law_GetAttributes c k l : keeps open_conns (GetAttributes_exec c k l);
}.

Section connections.
Context `{KL : KmipLaws}.

Definition conns (s : kworld K) : gset nat := open_conns (snd s).

(** [m] neither opens nor closes a connection for good. *)
Definition quiet {A} (m : prog (kworld K) A) : Prop := forall s, wp m (fun _ s' => conns s' = conns s) s.

Lemma quiet_bind {A B} (m : prog (kworld K) A) (f : A -> prog (kworld K) B) :
  quiet m -> (forall a, quiet (f a)) -> quiet (m ≫= f).
Proof.
  intros Hm Hf s. rewrite wp_bind. eapply wp_mono; [|apply Hm]. intros [a|e|] s1 H1; try done.
  eapply wp_mono; [|apply Hf]. congruence.
Qed.

Lemma quiet_lift {A} (o : outcome A) : quiet (lift o).
Proof. by intros s. Qed.

Lemma quiet_ret {A} (a : A) : quiet (mret a).
Proof. by intros s. Qed.

Lemma quiet_get : quiet get.
Proof. by intros s. Qed.

Lemma quiet_update f : quiet (update f).
Proof. by intros s. Qed.

Lemma quiet_on_err {A} f (m : prog (kworld K) A) : quiet m -> quiet (on_err f m).
Proof. intros Hm s. rewrite wp_on_err. apply Hm. Qed.

Lemma quiet_in_kmip {A} (m : prog kmip_world A) : keeps open_conns m -> quiet (in_kmip m).
Proof.
  intros Hm s. unfold in_kmip. rewrite wp_zoom. eapply wp_mono; [|apply Hm]. by intros o w [_ H].
Qed.

Hint Resolve quiet_lift quiet_ret quiet_get quiet_update quiet_on_err quiet_in_kmip
  law_Encrypt_exec law_Decrypt_exec law_GetAttributes : kmip.

Definition connected (s : kworld K) (o : outcome kmip_conn) (s' : kworld K) : Prop :=
  fst s' = fst s /\ match o with
  | Ret c => conn_id c ∉ conns s /\ conns s' = {[ conn_id c ]} ∪ conns s
  | _ => conns s' = conns s
  end.

Lemma wp_connect s : wp connect (connected s) s.
Proof.
  unfold connect, connected. rewrite wp_bind, wp_get, wp_on_err.
  destruct (k_cachedClient (fst s)) as [c|]; unfold in_kmip; rewrite wp_zoom;
    (eapply wp_mono; [|apply law_Clone || apply law_Dial]); by intros [] w.
Qed.

(** A function that connects, defers the close and goes on. *)
Lemma quiet_connected {A} (m : prog (kworld K) kmip_conn) (body : kmip_conn -> prog (kworld K) A) :
  (forall s, wp m (connected s) s) -> (forall c, quiet (body c)) ->
  quiet (conn ← m; with_conn conn (body conn)).
Proof.
  intros Hm Hb s. rewrite wp_bind. eapply wp_mono; [|apply Hm].
  intros [c|e|] s1 [_ H1]; [|done..]. destruct H1 as [Hc Ho]. unfold with_conn.
  rewrite wp_bind, wp_attempt. eapply wp_mono; [|apply Hb]. intros o s2 H2.
  rewrite wp_bind, wp_attempt. unfold in_kmip. rewrite wp_zoom.
  eapply wp_mono; [|apply law_Close]. intros r w [Hr Hw]. unfold conns in *.
  destruct r; [..|done]; rewrite wp_lift; simpl; rewrite Hw, H2, Ho; set_solver.
Qed.

Lemma quiet_verifyKeyAttributes c id alg t : quiet (verifyKeyAttributes c id alg t).
Proof. apply quiet_bind; eauto with kmip. Qed.

Lemma quiet_verifyKey c : quiet (verifyKey c).
Proof.
  apply quiet_bind; [eauto with kmip|]. intros s. apply quiet_bind; [eauto with kmip|]. intros t.
  apply quiet_bind; [apply quiet_verifyKeyAttributes|]. intros id.
  case_match; [|eauto with kmip]. apply quiet_bind; [apply quiet_verifyKeyAttributes|eauto with kmip].
Qed.

Lemma quiet_configure getenv opts : quiet (configure getenv opts).
Proof.
  unfold configure.
  repeat first [apply quiet_bind; [|intros ?] | solve [eauto with kmip] | case_match].
Qed.

(** C21: every connection the wrapper opens is closed again: Encrypt, Decrypt
    and SetConfig leave the open connections of the process as they were, whatever
    the server answers and on every way out, also when a panic unwinds them. *)
Theorem kmip_connections getenv rnd pt in_ `{RangeOrder} {L} (opt : list (Opt L)) s :
  wp (Encrypt rnd pt) (fun _ s' => conns s' = conns s) s /\
  wp (Decrypt in_) (fun _ s' => conns s' = conns s) s /\
  wp (SetConfig getenv opt) (fun _ s' => conns s' = conns s) s.
Proof.
  assert (Hd : forall id cp n d, quiet (decryptKMIP id cp n d)).
  { intros. apply quiet_bind; [eauto with kmip|]. intros s0. cbv zeta. destruct (_ <? _); [eauto with kmip|].
    apply (quiet_connected connect); [apply wp_connect|]. intros c. destruct (_ && _); eauto with kmip. }
  assert (He : quiet (encryptKMIP rnd pt)).
  { apply quiet_bind; [eauto with kmip|]. intros s0. apply quiet_bind; [eauto with kmip|]. intros iv.
    apply (quiet_connected connect); [apply wp_connect|]. intros c. apply quiet_bind; eauto with kmip. }
  split_and!.
  - destruct pt; [|done]. apply quiet_bind; [by apply quiet_on_err|]. intros r. apply quiet_bind; eauto with kmip.
  - destruct in_ as [b|]; [|done]. unfold Decrypt. destruct (bi_KeyInfo b) as [info|]; [|done]. cbv zeta.
    destruct (_ <=? _); [done|]. destruct (_ ≫= _); [|done]. by apply quiet_on_err.
  - apply quiet_bind; [eauto with kmip|]. intros o. apply quiet_bind; [apply quiet_configure|]. intros r.
    apply (quiet_connected (on_err _ connect)).
    + intros s0. rewrite wp_on_err. eapply wp_mono; [|apply wp_connect]. by intros [] s1.
    + intros c. apply quiet_bind; [apply quiet_on_err, quiet_verifyKey|]. intros _.
      repeat (apply quiet_bind; [|intros ?]); eauto with kmip.
Qed.
End connections.

(** ** Configuration *)

Section configuration.
Context `{K : Kmip}.

(** The mechanism written into a blob names the parameters the wrapper uses. *)
Definition mechanism_ok (k : kwrapper K) : Prop :=
  exists name, mechanisms !! Z.to_nat (k_mechanismID k) = Some name /\ 0 <= k_mechanismID k < 4 /\
    cryptoParamsPreset name = Some (k_cryptoParams k).

Definition kmip_inv (k : kwrapper K) : Prop :=
  k_keyId k <> "" /\ mechanism_ok k /\ is_Some (k_cachedClient k) /\
  (cp_Algorithm (k_cryptoParams k) = AlgRSA -> k_pubKeyId k <> "").

Lemma slices_Index_Some l s i : slices_Index l s = Some i -> l !! i = Some s.
Proof.
  revert i. induction l as [|x l IH]; intros i; simpl; [done|].
  destruct (String.eqb_spec x s) as [->|]; [by intros [= <-]|].
  destruct (slices_Index l s) as [j|]; [|done]. intros [= <-]. simpl. by apply IH.
Qed.

(** What the settings leave alone, once the key identifier is set. *)
Definition settled (p : string) (c : option kmip_conn) (s : kworld K) : Prop :=
  k_pubKeyId (fst s) = p /\ k_cachedClient (fst s) = c /\ k_keyId (fst s) <> "".

Definition configured_to (p : string) (c : option kmip_conn) {A} (o : outcome A) (s : kworld K) : Prop :=
  k_pubKeyId (fst s) = p /\ k_cachedClient (fst s) = c /\
  (is_ret o = true -> k_keyId (fst s) <> "" /\ mechanism_ok (fst s)).

Lemma wp_settled {A B} p c (m : prog (kworld K) A) (f : A -> prog (kworld K) B) s :
  settled p c s -> (forall s, settled p c s -> wp m (fun _ s' => settled p c s') s) ->
  (forall a s1, settled p c s1 -> wp (f a) (configured_to p c) s1) ->
  wp (m ≫= f) (configured_to p c) s.
Proof.
  intros Hs Hm Hf. rewrite wp_bind. eapply wp_mono; [|by apply Hm].
  intros [a|e|] s1 H1; [by apply Hf|..]; destruct H1 as (? & ? & _); done.
Qed.

Lemma preset_known name p : cryptoParamsPreset name = Some p ->
  exists i, slices_Index mechanisms name = Some i /\ (i < 4)%nat.
Proof.
  unfold cryptoParamsPreset. intros H.
  repeat match type of H with
  | context [String.eqb name ?s] => destruct (String.eqb_spec name s) as [->|]; [eexists; split; [reflexivity|lia]|]
  end. done.
Qed.

Lemma wp_configure getenv opts (s : kworld K) :
  wp (configure getenv opts) (configured_to (k_pubKeyId (fst s)) (k_cachedClient (fst s))) s.
Proof.
  unfold configure. cbv zeta. rewrite wp_bind, wp_lift. unfold config_keyId.
  set (id := env_switch _ _ _ _). destruct (String.eqb_spec id "") as [|Hid]; [by split_and!|].
  rewrite wp_bind. unfold update at 1. rewrite wp_modify.
  set (disallow := WithDisallowEnvVars_ _).
  assert (H0 : settled (k_pubKeyId (fst s)) (k_cachedClient (fst s)) (set_keyId id (fst s), snd s)) by done.
  revert H0. generalize (set_keyId id (fst s), snd s). intros s1 H1.
  do 8 (apply wp_settled; [assumption|
    intros s0 H0; repeat case_match; try rewrite wp_bind, wp_lift; repeat case_match; exact H0 ||
      (unfold update; rewrite ?wp_modify; simpl; repeat case_match; exact H0)|];
    clear s1 H1; intros _ s1 H1).
  set (cpname := or_else _ _). rewrite wp_bind. unfold update. rewrite wp_modify.
  destruct (cryptoParamsPreset cpname) as [p|] eqn:Ep; [|by destruct H1 as (? & ? & ?)].
  destruct (preset_known _ _ Ep) as (i & Hi & Hlt). rewrite Hi, wp_bind, wp_modify, wp_bind, wp_modify, wp_ret.
  destruct H1 as (? & ? & ?). split_and!; [done..|]. intros _. split; [done|].
  exists cpname. simpl. rewrite Nat2Z.id. split_and!; [by apply slices_Index_Some|lia|lia|done].
Qed.

Lemma verifyKeyAttributes_Ret client keyId alg expected (s s' : kworld K) id :
  verifyKeyAttributes client keyId alg expected s = (Ret id, s') ->
  fst s' = fst s /\ (expected = TypePrivateKey -> id <> "") /\ (expected <> TypePrivateKey -> id = "").
Proof.
  unfold verifyKeyAttributes. rewrite pbind_Ret. intros (attrs & s1 & Hg & H).
  rewrite on_err_Ret in Hg. unfold in_kmip, zoom in Hg.
  destruct (GetAttributes_exec _ _ _ _) as [o w]. injection Hg as -> <-. injection H as H <-.
  apply verify_attributes_spec in H as (_ & -> & Hp). split; [done|]. split; [done|].
  intros He. unfold linked_key. by rewrite decide_False.
Qed.

(** An accepted key: the public key of an RSA key is recorded; for an AES key
    what was recorded before is kept. *)
Lemma verifyKey_Ret client (s s' : kworld K) u :
  verifyKey client s = (Ret u, s') ->
  match cp_Algorithm (k_cryptoParams (fst s)) with
  | AlgRSA => exists p, p <> "" /\ fst s' = set_pubKeyId p (fst s)
  | AlgAES => fst s' = fst s
  | _ => False
  end.
Proof.
  unfold verifyKey. rewrite get_bind. cbv zeta. rewrite lift_bind.
  destruct (cp_Algorithm (k_cryptoParams (fst s))) eqn:Ea; simpl; [done| | |done].
  - rewrite pbind_Ret. intros (p & s1 & (Hf & _ & Hp)%verifyKeyAttributes_Ret & H).
    rewrite Hp in H by done. injection H as _ <-. done.
  - rewrite pbind_Ret. intros (p & s1 & (Hf & Hp & _)%verifyKeyAttributes_Ret & H).
    specialize (Hp eq_refl). rewrite (proj2 (is_set_spec p) Hp) in H.
    apply pbind_Ret in H as (p2 & s2 & (Hf2 & _ & _)%verifyKeyAttributes_Ret & H).
    injection H as _ <-. exists p. split; [done|]. simpl. congruence.
Qed.

Lemma connect_state (s s' : kworld K) c : connect s = (Ret c, s') -> fst s' = fst s.
Proof.
  unfold connect. rewrite get_bind, on_err_Ret. unfold in_kmip, zoom.
  destruct (k_cachedClient (fst s)) as [c0|];
    [destruct (CloneCtx c0 (snd s)) as [o w]|destruct (DialContext _ _ (snd s)) as [o w]]; by intros [= _ <-].
Qed.

Lemma with_conn_Ret {A} c (body : prog (kworld K) A) s a s' :
  with_conn c body s = (Ret a, s') -> exists s1, body s = (Ret a, s1) /\ fst s' = fst s1.
Proof.
  unfold with_conn. rewrite attempt_bind. destruct (body s) as [o s1]. simpl. rewrite attempt_bind.
  unfold in_kmip, zoom. destruct (conn_Close c (snd s1)) as [r w]. simpl. intros H.
  exists s1. destruct r; unfold lift in H; by simplify_eq.
Qed.

(** C20: a wrapper SetConfig accepted is well formed: a key identifier, the
    parameters named by the mechanism its blobs will carry, a connection to clone,
    and for RSA the public key that encrypts. With an AES key, though, the public
    key of an earlier configuration is kept (and Encrypt goes on using it). *)
Theorem kmip_SetConfig_inv getenv `{RangeOrder} {L} (opt : list (Opt L)) (s s' : kworld K) c :
  SetConfig getenv opt s = (Ret c, s') ->
  kmip_inv (fst s') /\
  (cp_Algorithm (k_cryptoParams (fst s')) = AlgAES -> k_pubKeyId (fst s') = k_pubKeyId (fst s)).
Proof.
  unfold SetConfig. rewrite lift_bind. destruct (getOpts opt) as [opts|e|]; [|done..].
  rewrite pbind_Ret. intros (r & s1 & Hc & Hr).
  pose proof (wp_configure getenv opts s) as Hw. unfold wp in Hw. rewrite Hc in Hw.
  destruct Hw as (Hp & _ & Hw). destruct (Hw eq_refl) as [Hid Hm].
  apply pbind_Ret in Hr as (conn & s2 & Hcn & Hr). rewrite on_err_Ret in Hcn. apply connect_state in Hcn.
  apply with_conn_Ret in Hr as (s3 & Hr & ->).
  apply pbind_Ret in Hr as (u & s4 & Hv & Hr). rewrite on_err_Ret in Hv.
  apply verifyKey_Ret in Hv. rewrite Hcn in Hv.
  unfold update in Hr. rewrite modify_bind, get_bind in Hr. injection Hr as _ <-. simpl.
  destruct (cp_Algorithm (k_cryptoParams (fst s1))) eqn:Ea; [done| | |done].
  - rewrite Hv. split; [|done]. split_and!; [done|exact Hm|done|]. simpl. congruence.
  - destruct Hv as (p & Hp0 & Hv). rewrite Hv. split; [split_and!; [done|exact Hm|done|done]|].
    simpl. congruence.
Qed.
End configuration.

(** ** Blobs *)

Section blobs.
Context `{KL : KmipLaws}.

(** [serves c w]: in the world [w] the connection [c] is open and its server
    holds the two keys (or the one key), active and with the usage they need. *)
Context (serves : kmip_conn -> kmip_world -> Prop).

(** What a server makes of a pair of keys it holds: the data and the tag of an
    Encrypt response together end in a tag of the parameters' length, at
    whatever point the server splits them, and any server that holds the keys
    takes them back under the same IV and parameters, the tag apart from
    protocol version 1.4 on and in the data before. *)
Definition kmip_key_law (e d : string) (p : CryptographicParameters) : Prop :=
  forall c iv data w ct tag w1, serves c w ->
  Encrypt_exec c e iv p data w = (Ret (ct, tag), w1) ->
  exists body t, content ct ++ content tag = body ++ t /\ Z.of_nat (length t) = cp_TagLength p /\
    forall c' w2 iv', serves c' w2 -> content iv' = content iv ->
      (version_ge (conn_Version c') V1_4 = true -> 0 < cp_TagLength p ->
       exists r w3, Decrypt_exec c' d iv' p (Some (Some t)) (Some body) w2 = (Ret r, w3) /\
         content r = content data) /\
      (version_ge (conn_Version c') V1_4 = false \/ cp_TagLength p = 0 ->
       forall data', content data' = body ++ t ->
       exists r w3, Decrypt_exec c' d iv' p None data' w2 = (Ret r, w3) /\ content r = content data).

(** The wrapper gets a connection, and to such a server. *)
Definition reaches (s : kworld K) : Prop :=
  exists c s1, connect s = (Ret c, s1) /\ serves c (snd s1).

Definition encryption_key (k : kwrapper K) : string :=
  if is_set (k_pubKeyId k) then k_pubKeyId k else k_keyId k.

Lemma with_conn_outcome {A} c (body : prog (kworld K) A) s : fst (with_conn c body s) = fst (body s).
Proof.
  unfold with_conn. rewrite attempt_bind, attempt_bind. destruct (body s) as [o s1]. simpl.
  unfold in_kmip, zoom. pose proof (law_Close c (snd s1)) as Hc. unfold wp in Hc.
  destruct (conn_Close c (snd s1)) as [r w]. destruct Hc as [Hr _]. by destruct r.
Qed.

(** Encrypt: the request that was sent, and the blob made of its answer. *)
Lemma kmip_Encrypt_Ret rnd pt s blob s' : Encrypt rnd pt s = (Ret blob, s') ->
  exists conn iv s1 ct tag w1, connect s = (Ret conn, s1) /\
    Encrypt_exec conn (encryption_key (fst s)) iv (k_cryptoParams (fst s)) pt (snd s1) = (Ret (ct, tag), w1) /\
    bi_Ciphertext blob = append_slice ct tag /\ bi_Iv blob = iv /\
    bi_KeyInfo blob = Some (mkKeyInfo (k_mechanismID (fst s)) (k_keyId (fst s)) None).
Proof.
  unfold Encrypt. destruct pt as [d|]; [|done]. rewrite pbind_Ret. intros ([c i] & s1 & He & H).
  rewrite get_bind in H. injection H as <- <-. rewrite on_err_Ret in He.
  unfold encryptKMIP in He. rewrite get_bind in He. cbv zeta in He. rewrite lift_bind in He.
  destruct (if 0 <? _ then _ else _) as [iv|e|]; [|done..].
  apply pbind_Ret in He as (conn & s2 & Hcn & He). pose proof (connect_state _ _ _ Hcn) as Hc.
  apply with_conn_Ret in He as (s3 & He & Hs). apply pbind_Ret in He as ([ct tag] & s4 & He & H).
  injection H as <- <- <-. unfold in_kmip, zoom in He.
  destruct (Encrypt_exec _ _ _ _ _ _) as [o w] eqn:E. injection He as -> <-.
  exists conn, iv, s2, ct, tag, w. split; [exact Hcn|]. split; [exact E|]. split; [done|]. split; [done|].
  simpl. rewrite Hs. simpl. by rewrite Hc.
Qed.

(** Decrypt of a blob with a known mechanism, run on a connection. *)
Lemma Decrypt_run b info name p s conn s1 :
  bi_KeyInfo b = Some info -> 0 <= ki_Mechanism info < 4 ->
  mechanisms !! Z.to_nat (ki_Mechanism info) = Some name -> cryptoParamsPreset name = Some p ->
  connect s = (Ret conn, s1) ->
  let tagLen := cp_TagLength (k_cryptoParams (fst s)) in
  let ct := content (bi_Ciphertext b) in
  let n := (length ct - Z.to_nat tagLen)%nat in
  tagLen <= Z.of_nat (length ct) ->
  fst (Decrypt (Some b) s) = map_err (wrapf "error decrypting data encryption key") (fst
    (if (0 <? tagLen) && version_ge (conn_Version conn) V1_4
     then Decrypt_exec conn (ki_KeyId info) (bi_Iv b) p (Some (Some (drop n ct))) (Some (take n ct)) (snd s1)
     else Decrypt_exec conn (ki_KeyId info) (bi_Iv b) p None (bi_Ciphertext b) (snd s1))).
Proof.
  intros Hk Hm Hn Hp Hc tagLen ct n Hlen. unfold Decrypt. rewrite Hk. cbv zeta.
  destruct (Z.leb_spec (Z.of_nat (length mechanisms)) (ki_Mechanism info)) as [Hle|_];
    [change (Z.of_nat (length mechanisms)) with 4 in Hle; lia|].
  rewrite Hn. simpl. rewrite Hp. unfold on_err, decryptKMIP. rewrite get_bind. cbv zeta.
  fold tagLen. unfold slen. fold ct.
  destruct (Z.ltb_spec (Z.of_nat (length ct)) tagLen); [lia|].
  rewrite (pbind_run _ _ _ _ _ Hc). fold n.
  destruct (with_conn conn _ s1) as [o s2] eqn:Ew.
  pose proof (f_equal fst Ew) as Ho. rewrite with_conn_outcome in Ho. simpl in Ho. subst o. simpl.
  unfold in_kmip, zoom. f_equal. destruct (_ && _); by destruct (Decrypt_exec _ _ _ _ _ _ _).
Qed.

(** C19: what a well-formed wrapper encrypted is decrypted again, from the blob
    as it was returned or stored and read back, over a connection of any protocol
    version: Encrypt joins data and tag, Decrypt splits them where the version
    asks for it. The wrapper may be the same or any other one whose configured
    algorithm has a tag of the same length, as long as both get a connection to
    a server that holds the keys of the encrypting wrapper, active and with the
    usage they need. What such a server promises of its keys is kmip_key_law: data
    and tag of an Encrypt response together end in a tag of the configured length,
    and under the same IV and parameters a server with the keys takes them back. *)
Theorem kmip_roundtrip rnd pt s s' blob :
  kmip_inv (fst s) ->
  kmip_key_law (encryption_key (fst s)) (k_keyId (fst s)) (k_cryptoParams (fst s)) ->
  reaches s -> Encrypt rnd pt s = (Ret blob, s') ->
  forall blob' s2, blob_equiv blob blob' ->
    cp_TagLength (k_cryptoParams (fst s2)) = cp_TagLength (k_cryptoParams (fst s)) ->
    reaches s2 ->
    exists r, fst (Decrypt (Some blob') s2) = Ret r /\ slice_equiv r pt.
Proof.
  intros (_ & (name & Hname & Hm & Hp) & _) Hlaw (conn0 & s1 & Hcn & Hsv) He
    blob' s2 (Hct & Hiv & Hki) Htl (conn2 & s3 & Ec & Hsv2).
  apply kmip_Encrypt_Ret in He as (conn & iv & s4 & ct & tag & w1 & Hcn' & He & Hbc & Hbi & Hbk).
  rewrite Hcn in Hcn'. injection Hcn' as <- <-.
  destruct (Hlaw _ _ _ _ _ _ _ Hsv He) as (body & t & Hbt & Ht & Hdec). rewrite Hbk in Hki.
  destruct (bi_KeyInfo blob') as [ki|] eqn:Ek; [|by inversion Hki].
  inversion Hki as [x y (Hmech & Hkid & _)|]; simplify_eq. simpl in Hmech, Hkid.
  assert (Hc : content (bi_Ciphertext blob') = body ++ t).
  { rewrite <- Hct. unfold slice_equiv. rewrite Hbc, append_slice_content. done. }
  assert (Hlen : Z.of_nat (length (content (bi_Ciphertext blob'))) = Z.of_nat (length body) + cp_TagLength (k_cryptoParams (fst s)))
    by (rewrite Hc, length_app; lia).
  rewrite (Decrypt_run blob' ki name (k_cryptoParams (fst s)) s2 conn2 s3) by (done || congruence || lia).
  cbv zeta. rewrite Htl. rewrite <- Hkid.
  replace (length (content (bi_Ciphertext blob')) - Z.to_nat (cp_TagLength (k_cryptoParams (fst s))))%nat
    with (length body) by lia.
  destruct (Hdec conn2 (snd s3) (bi_Iv blob') Hsv2) as [D1 D2]; [by rewrite <- Hiv|].
  destruct ((0 <? cp_TagLength _) && version_ge (conn_Version conn2) V1_4) eqn:Ev.
  - apply andb_true_iff in Ev as [Ev1 Ev2]. destruct (D1 Ev2 ltac:(lia)) as (r & w3 & Hr & Hrc).
    rewrite Hc, take_app_length, drop_app_length, Hr. by exists r.
  - destruct (D2 ltac:(apply andb_false_iff in Ev as [?|?]; [right; lia|by left]) _ Hc) as (r & w3 & Hr & Hrc).
    rewrite Hr. by exists r.
Qed.

(** Every preset is AES-GCM with a tag of 16 bytes, or RSA without a tag. *)
Lemma cryptoParamsPreset_cases name p : cryptoParamsPreset name = Some p ->
  (cp_Algorithm p = AlgAES /\ cp_TagLength p = 16) \/ (cp_Algorithm p = AlgRSA /\ cp_TagLength p = 0).
Proof.
  unfold cryptoParamsPreset. intros H. repeat case_match; simplify_eq; simpl; auto.
Qed.

(** changing the algorithm does not keep the capability to decrypt. Over
    protocol version 1.4, with a server that wants the tag of AES-GCM apart and
    none with RSA, a wrapper now configured for RSA fails on the blobs it made
    with AES-GCM, and one configured for AES-GCM on those it made with RSA: the
    length of the tag is taken from the wrapper, not from the blob. *)
Theorem kmip_migration_fails b info name p s conn s1 :
  bi_KeyInfo b = Some info -> 0 <= ki_Mechanism info < 4 ->
  mechanisms !! Z.to_nat (ki_Mechanism info) = Some name -> cryptoParamsPreset name = Some p ->
  mechanism_ok (fst s) -> connect s = (Ret conn, s1) -> version_ge (conn_Version conn) V1_4 = true ->
  (forall c k n d p w, 0 < cp_TagLength p -> is_ret (fst (Decrypt_exec c k n p None d w)) = false) ->
  (forall c k n t d p w, cp_TagLength p = 0 -> is_ret (fst (Decrypt_exec c k n p (Some t) d w)) = false) ->
  cp_Algorithm (k_cryptoParams (fst s)) <> cp_Algorithm p ->
  is_ret (fst (Decrypt (Some b) s)) = false.
Proof.
  intros Hk Hm Hn Hp (name' & _ & _ & Hp') Hc Hv Hno Hsome Halg.
  destruct (Z.leb_spec (cp_TagLength (k_cryptoParams (fst s))) (Z.of_nat (length (content (bi_Ciphertext b))))) as [Hl|Hl].
  - rewrite (Decrypt_run b info name p s conn s1) by done. cbv zeta. rewrite Hv, andb_true_r.
    assert (Hmap : forall A f (o : outcome A), is_ret o = false -> is_ret (map_err f o) = false) by (by intros A f []).
    apply Hmap. apply cryptoParamsPreset_cases in Hp as [[A B]|[A B]], Hp' as [[A' B']|[A' B']];
      try congruence; rewrite B'; simpl; [by apply Hno; lia|by apply Hsome].
  - unfold Decrypt. rewrite Hk. cbv zeta.
    destruct (_ <=? _); [done|]. rewrite Hn. simpl. rewrite Hp.
    unfold on_err, decryptKMIP. rewrite get_bind. cbv zeta.
    unfold slen. by rewrite (proj2 (Z.ltb_lt _ _) Hl).
Qed.
End blobs.

(** With environment variables disallowed SetConfig does not read the environment:
    outcome and new state are the same whatever it holds. *)
Lemma kmip_env_isolated (K : Kmip) `{RangeOrder} {L} g1 g2 (opt : list (Opt L)) o (s : kworld K) :
  GetOpts opt = Ret o -> WithDisallowEnvVars_ (o_RPC o) = true ->
  SetConfig g1 opt s = SetConfig g2 opt s.
Proof.
  intros Ho Hd. unfold SetConfig. rewrite !lift_bind. unfold getOpts. rewrite Ho. simpl.
  destruct (range_loop _ _ _) as [opts| |] eqn:E; [|done..].
  assert (Hopts : WithDisallowEnvVars_ (o_RPC (opts_Options opts)) = true).
  { rewrite <- Hd. refine (range_loop_frame config_step (fun x => WithDisallowEnvVars_ (o_RPC (opts_Options x))) _ _ _ _ E).
    intros k v x y. unfold config_step. destruct x.
    repeat (case_match; [intros; inv_ret; by subst|]). by intros [= <-]. }
  unfold configure, config_keyId, tls_options, config_ciphers, env.
  revert Hopts. generalize (WithDisallowEnvVars_ (o_RPC (opts_Options opts))). by intros ? ->.
Qed.

(** ** Witnesses: a server of protocol version 1.4

    AES-GCM adds a tag that it wants back apart; RSA adds nothing.  Connections
    are numbered, and a closed one carries no request. *)

Definition toy_tag : bytes := repeat "t"%char 16.

Definition toy_attributes : list Attribute :=
  [mkAttribute NameCryptographicUsageMask (VUsageMask 12)].

Definition toy_dial : prog (gset nat) nat := fun w => let c := fresh w in (Ret c, {[ c ]} ∪ w).

Definition toy_over {A} (c : nat) (o : outcome A) : prog (gset nat) A := fun w =>
  (if bool_decide (c ∈ w) then o else Fail (ErrLeaf "use of closed network connection"), w).

Definition toy_kmip : Kmip := {|
  kmip_world := gset nat;
  kmip_conn := nat;
  DialContext ep o := toy_dial;
  CloneCtx c := toy_dial;
  conn_Close c := fun w => (Ret tt, w ∖ {[ c ]});
  conn_Version c := V1_4;
  Version_String v := "1.4";
  Encrypt_exec c k iv p d := toy_over c (Ret (d, if 0 <? cp_TagLength p then Some toy_tag else None));
  Decrypt_exec c k n p t d := toy_over c
    (match t, 0 <? cp_TagLength p with
     | Some t, true => if bool_decide (content t = toy_tag) then Ret d else Fail (ErrLeaf "bad tag")
     | None, false => Ret d
     | _, _ => Fail (ErrLeaf "Invalid Message")
     end);
  GetAttributes_exec c k l := mret
    (if String.eqb k "rsa" then mkAttribute NameLink (VLink true "rsa-pub") :: toy_attributes else toy_attributes);
  alg_EnumStr a := "alg";
  type_EnumStr t := "type";
|}.

#[local] Existing Instance toy_kmip.
#[local] Existing Instance default_order.

Lemma toy_kmip_laws : KmipLaws toy_kmip.
Proof.
  refine {| conn_id := (fun c : nat => c) : kmip_conn (Kmip := toy_kmip) -> nat;
            open_conns := (fun w : gset nat => w) : kmip_world (Kmip := toy_kmip) -> gset nat |};
    try (intros; split; [apply is_fresh|done]); intros; try (intros w; unfold wp; simpl); try done.
  - unfold toy_over. by case_bool_decide.
  - unfold toy_over. by repeat case_match.
Defined.

#[local] Existing Instance toy_kmip_laws.

Definition toy_serves (c : nat) (w : gset nat) : Prop := c ∈ w.

Lemma toy_over_open {A} c (o : outcome A) w : c ∈ w -> toy_over c o w = (o, w).
Proof. intros H. unfold toy_over. by rewrite bool_decide_true. Qed.

Lemma toy_key_law e d p : cp_TagLength p = 16 \/ cp_TagLength p = 0 -> kmip_key_law toy_serves e d p.
Proof.
  intros Hp c iv data w ct tag w1 Hc. simpl. rewrite toy_over_open by done. intros [= <- <- _].
  exists (content data), (if 0 <? cp_TagLength p then toy_tag else []).
  destruct Hp as [Hp|Hp]; rewrite Hp; simpl; (split; [done|]); (split; [done|]);
    intros c' w2 iv' Hc' _; rewrite !toy_over_open by done; split; intros Hv.
  - intros _. by eexists _, _.
  - destruct Hv as [Hv|Hv]; discriminate Hv.
  - intros Hz; discriminate Hz.
  - intros data' Hd. rewrite toy_over_open by done. eexists _, _. split; [reflexivity|].
    by rewrite Hd, app_nil_r.
Qed.

Definition demo_config (alg : string) (key : string) : list (Opt Empty_set) :=
  [WithDisallowEnvVars true; WithConfigMap (<["encrypt_alg" := alg]> {[ "kms_key_id" := key ]})].

Definition demo_set (alg key : string) (s : kworld toy_kmip) : outcome WrapperConfig * kworld toy_kmip :=
  SetConfig (fun _ => "") (demo_config alg key) s.

Definition demo_rnd (n : nat) : outcome bytes := Ret (repeat "i"%char n).

Definition demo_new : kworld toy_kmip := (NewWrapper, ∅).
Definition demo_aes : kworld toy_kmip := snd (demo_set "AES_GCM" "aes" demo_new).
Definition demo_rsa : kworld toy_kmip := snd (demo_set "RSA_OAEP_SHA256" "rsa" demo_aes).

Lemma demo_set_Ret alg key s : is_ret (fst (demo_set alg key s)) = true ->
  exists c, SetConfig (fun _ => "") (demo_config alg key) s = (Ret c, snd (demo_set alg key s)).
Proof. unfold demo_set. destruct (SetConfig _ _ s) as [[c| |] s']; by eauto. Qed.

Lemma kmip_SetConfig_inv_witness :
  kmip_inv (fst demo_aes) /\ kmip_inv (fst demo_rsa) /\ k_pubKeyId (fst demo_rsa) = "rsa-pub" /\
  k_pubKeyId (fst (snd (demo_set "AES_GCM" "aes" demo_rsa))) = "rsa-pub".
Proof.
  destruct (demo_set_Ret "AES_GCM" "aes" demo_new ltac:(vm_compute; reflexivity)) as [c1 H1].
  destruct (demo_set_Ret "RSA_OAEP_SHA256" "rsa" demo_aes ltac:(vm_compute; reflexivity)) as [c2 H2].
  destruct (demo_set_Ret "AES_GCM" "aes" demo_rsa ltac:(vm_compute; reflexivity)) as [c3 H3].
  destruct (kmip_SetConfig_inv _ _ _ _ _ H1) as [I1 _].
  destruct (kmip_SetConfig_inv _ _ _ _ _ H2) as [I2 _].
  destruct (kmip_SetConfig_inv _ _ _ _ _ H3) as [_ E3].
  split; [exact I1|]. split; [exact I2|]. split; [by vm_compute|].
  rewrite E3; by vm_compute.
Defined.

Definition demo_blob : outcome BlobInfo * kworld toy_kmip := Encrypt demo_rnd (Some (bytes_of_string "seal")) demo_aes.

Lemma kmip_roundtrip_witness : exists b r, fst demo_blob = Ret b /\
  fst (Decrypt (Some b) demo_aes) = Ret r /\ slice_equiv r (Some (bytes_of_string "seal")).
Proof.
  destruct demo_blob as [[b| |] s'] eqn:E; [|apply (f_equal fst) in E; by vm_compute in E..].
  destruct (demo_set_Ret "AES_GCM" "aes" demo_new ltac:(vm_compute; reflexivity)) as [c1 H1].
  assert (I : kmip_inv (fst demo_aes)).
  { split_and!; [by vm_compute| |vm_compute; eauto|by vm_compute].
    exists "AES_GCM". split_and!; vm_compute; congruence. }
  assert (Hr : reaches toy_serves demo_aes).
  { destruct (connect demo_aes) as [[c| |] s1] eqn:Ec; [|apply (f_equal fst) in Ec; by vm_compute in Ec..].
    exists c, s1. split; [done|]. unfold toy_serves.
    assert (Hb : match fst (connect demo_aes) with
      | Ret c => bool_decide (c ∈ snd (snd (connect demo_aes))) | _ => false end = true) by (by vm_compute).
    rewrite Ec in Hb. by apply bool_decide_eq_true in Hb. }
  destruct (kmip_roundtrip (K := toy_kmip) toy_serves demo_rnd (Some (bytes_of_string "seal")) demo_aes s' b I
    (toy_key_law _ _ (k_cryptoParams (fst demo_aes)) ltac:(left; vm_compute; reflexivity)) Hr E b demo_aes (reflexivity b) eq_refl
    Hr) as (r & Hd & Hp). rename Hd into Hr'.
  exists b, r. split; [done|]. split; [exact Hr'|exact Hp].
Defined.

Lemma kmip_migration_fails_witness : exists b, fst demo_blob = Ret b /\
  is_ret (fst (Decrypt (Some b) demo_aes)) = true /\ is_ret (fst (Decrypt (Some b) demo_rsa)) = false.
Proof.
  destruct (fst demo_blob) as [b| |] eqn:E; [|by vm_compute in E..]. exists b. split; [done|].
  vm_compute in E. injection E as <-. split; [by vm_compute|].
  destruct (connect demo_rsa) as [[conn| |] s1] eqn:Ec; [|apply (f_equal fst) in Ec; by vm_compute in Ec..].
  match goal with |- is_ret (fst (Decrypt (Some ?b) _)) = false =>
  refine (kmip_migration_fails b (mkKeyInfo 0 "aes" None) "AES_GCM" _ demo_rsa conn s1 eq_refl _ eq_refl eq_refl _ Ec eq_refl _ _ _) end.
  - simpl. lia.
  - exists "RSA_OAEP_SHA256". split_and!; vm_compute; congruence.
  - intros c k n d p w Hp. cbn [Decrypt_exec toy_kmip]. rewrite (proj2 (Z.ltb_lt _ _) Hp).
    unfold toy_over. cbn [fst]. destruct (bool_decide _); reflexivity.
  - intros c k n t d p w Hp. cbn [Decrypt_exec toy_kmip]. rewrite Hp.
    unfold toy_over. cbn [fst]. destruct t, (bool_decide _); reflexivity.
  - by vm_compute.
Defined.

Lemma kmip_verify_attributes_witness : exists s',
  verifyKeyAttributes (K := toy_kmip) 0%nat "rsa" AlgRSA TypePrivateKey demo_new = (Ret "rsa-pub", s').
Proof.
  eexists. apply (kmip_verify_attributes (K := toy_kmip)). eexists _, _. split; [reflexivity|].
  split; [reflexivity|]. split; [|split; [by vm_compute|done]].
  repeat constructor. exists 12. split; [done|]. split; by intros _.
Defined.
