(* ===== verification/Cloud.v ===== *)
(** * What the wrappers of cloud key services share

    Nine packages under wrappers/ (awskms, gcpckms, azurekeyvault, alicloudkms,
    huaweicloudkms, ocikms, ovhcloudkms, tencentcloudkms, tcloudpublickms) have
    one shape: SetConfig reads a configuration map and the environment and
    connects; Encrypt seals the plaintext under a fresh key and has the service
    wrap that key; Decrypt has it unwrapped and opens the envelope.  Here are the
    state they run in, the reading of their settings, and the lemma that turns
    what a service does with a key into the promise of the Wrapper interface. *)
From S2P Require Import Prelude GoText GoEncoding Crypto Wrapping Envelope.

(** ** The state

    The wrapper object, the state of the client library with the service behind
    it, and the number of random draws the process has made. *)
Record cloud (O W : Type) := mk_cloud {
  cl_object : O;
  cl_service : W;
  cl_draws : nat;
}.
Arguments mk_cloud {O W}.
Arguments cl_object {O W}.
Arguments cl_service {O W}.
Arguments cl_draws {O W}.

Definition self {O W} : prog (cloud O W) O := fun s => (Ret (cl_object s), s).

Definition update {O W} (f : O -> O) : prog (cloud O W) unit :=
  modify (fun s => mk_cloud (f (cl_object s)) (cl_service s) (cl_draws s)).

Definition in_service {O W A} (m : prog W A) : prog (cloud O W) A :=
  zoom cl_service (fun w s => mk_cloud (cl_object s) w (cl_draws s)) m.

Lemma self_bind {O W B} (f : O -> prog (cloud O W) B) s : (self ≫= f) s = f (cl_object s) s.
Proof. done. Qed.

Lemma update_bind {O W B} g (f : unit -> prog (cloud O W) B) s :
  (update g ≫= f) s = f tt (mk_cloud (g (cl_object s)) (cl_service s) (cl_draws s)).
Proof. done. Qed.

Lemma in_service_run {O W A} (m : prog W A) (s : cloud O W) o w :
  m (cl_service s) = (o, w) -> in_service m s = (o, mk_cloud (cl_object s) w (cl_draws s)).
Proof. intros H. unfold in_service, zoom. by rewrite H. Qed.

Lemma in_service_at {O W A} (m : prog W A) (k : O) w n o w' :
  m w = (o, w') -> in_service m (mk_cloud k w n) = (o, mk_cloud k w' n).
Proof. intros H. unfold in_service, zoom. simpl. by rewrite H. Qed.

Lemma in_service_Ret {O W A} (m : prog W A) (s s' : cloud O W) a :
  in_service m s = (Ret a, s') ->
  exists w, m (cl_service s) = (Ret a, w) /\ s' = mk_cloud (cl_object s) w (cl_draws s).
Proof.
  unfold in_service, zoom. destruct (m (cl_service s)) as [o w]. intros [= -> <-]. eauto.
Qed.

(** A method of a client, which may be nil. *)
Definition call_client {O W C B} (client : O -> option C) (f : C -> O -> prog W B) : prog (cloud O W) B :=
  k ← self;
  match client k with None => lift Panic | Some c => in_service (f c k) end.

Lemma call_client_Ret {O W C B} (client : O -> option C) (f : C -> O -> prog W B) s a s' :
  call_client client f s = (Ret a, s') ->
  exists c w, client (cl_object s) = Some c /\ f c (cl_object s) (cl_service s) = (Ret a, w) /\
    s' = mk_cloud (cl_object s) w (cl_draws s).
Proof.
  unfold call_client. rewrite self_bind. destruct (client _) as [c|]; [|done].
  intros H. apply in_service_Ret in H as (w & H & ->). eauto.
Qed.

Lemma call_client_at {O W C B} (client : O -> option C) (f : C -> O -> prog W B) k w n c o w' :
  client k = Some c -> f c k w = (o, w') ->
  call_client client f (mk_cloud k w n) = (o, mk_cloud k w' n).
Proof. intros Hc Hf. unfold call_client. rewrite self_bind. simpl. rewrite Hc. by apply in_service_at. Qed.

Lemma wp_self {O W} Q (s : cloud O W) : wp self Q s <-> Q (Ret (cl_object s)) s.
Proof. done. Qed.

Lemma wp_update {O W} f Q (s : cloud O W) :
  wp (update f) Q s <-> Q (Ret tt) (mk_cloud (f (cl_object s)) (cl_service s) (cl_draws s)).
Proof. done. Qed.

(** A call into the client library, whatever it does to the service. *)
Lemma wp_in_service {O W A} (m : prog W A) Q (s : cloud O W) :
  (forall o w, m (cl_service s) = (o, w) -> Q o (mk_cloud (cl_object s) w (cl_draws s))) ->
  wp (in_service m) Q s.
Proof. unfold wp, in_service, zoom. destruct (m (cl_service s)) as [o w]. auto. Qed.

(** A program that does the same from every state: one outcome, one change of the
    object, nothing sent to the service.  [obs] is a part of the object it leaves
    alone. *)
Definition uniform {O W X} (obs : O -> X) (m : prog (cloud O W) unit) : Prop :=
  exists o f, (forall s, m s = (o, mk_cloud (f (cl_object s)) (cl_service s) (cl_draws s))) /\
    forall k, obs (f k) = obs k.

Lemma uniform_update {O W X} (obs : O -> X) f :
  (forall k, obs (f k) = obs k) -> uniform (W := W) obs (update f).
Proof. intros H. by exists (Ret tt), f. Qed.

Lemma uniform_lift {O W X} (obs : O -> X) o : uniform (W := W) obs (lift o).
Proof. exists o, id. split; [|done]. by intros []. Qed.

Lemma uniform_bind {O W X} (obs : O -> X) (m : prog (cloud O W) unit) f :
  uniform obs m -> uniform obs (f tt) -> uniform obs (m ≫= f).
Proof.
  intros (o1 & f1 & H1 & K1) (o2 & f2 & H2 & K2).
  destruct o1 as [[]|e|].
  - exists o2, (fun k => f2 (f1 k)). split; [|intros k; by rewrite K2].
    intros s. by rewrite (pbind_run _ _ _ _ _ (H1 s)), H2.
  - exists (Fail e), f1. split; [|done]. intros s. by apply pbind_run_fail.
  - exists Panic, f1. split; [|done]. intros s. unfold mbind, prog_bind. by rewrite H1.
Qed.

Lemma uniform_lift_bind {O W X A} (obs : O -> X) (o : outcome A) (f : A -> prog (cloud O W) unit) :
  (forall a, o = Ret a -> uniform obs (f a)) -> uniform obs (lift o ≫= f).
Proof.
  intros H. destruct o as [a|e|]; [by apply H|..].
  - exists (Fail e), id. split; [|done]. by intros [].
  - exists Panic, id. split; [|done]. by intros [].
Qed.

(** ** Settings

    [ParsePaths(&opts.a, &opts.b, ...)] on distinct fields, unless environment
    variables are disallowed: the new values of the fields. *)
Section settings.
Context (ParsePath : string -> string * option error).

Definition parse_secrets (disallow : bool) (vals : list string) : outcome (list string) :=
  if disallow then Ret vals else
  let addresses := seq 0 (length vals) in
  match ParsePaths ParsePath (map Some addresses) (list_to_map (zip addresses vals)) with
  | (Ret _, st) => Ret (map (fun p => default "" (st !! p)) addresses)
  | (Fail e, _) => Fail e
  | (Panic, _) => Panic
  end.
End settings.

Lemma parse_secrets_disallowed P1 P2 vals : parse_secrets P1 true vals = parse_secrets P2 true vals.
Proof. done. Qed.

Definition disallows (o : Options) : bool := WithDisallowEnvVars_ (o_RPC o).

Definition configured_key (o : Options) : string := WithKeyId_ (o_RPC o).

(** Two programs that begin alike and go on alike. *)
Lemma bind_agrees {S B C} (m1 m2 : prog S B) (f1 f2 : B -> prog S C) s :
  m1 s = m2 s -> (forall b s', m1 s = (Ret b, s') -> f1 b s' = f2 b s') -> (m1 ≫= f1) s = (m2 ≫= f2) s.
Proof.
  intros Hm Hf. unfold mbind, prog_bind. rewrite <- Hm. destruct (m1 s) as [[b|e|] s']; [|done..]. by apply Hf.
Qed.

(** The common form of getOpts: the global options, the configuration map, and the
    references in some fields. *)
Section reading.
Context {O : Type} (step : string * string -> O -> outcome O) (start : Options -> O) (proj : O -> Options)
  (secrets : O -> list string) (set : list string -> O -> O).

Definition read_opts `{RangeOrder} {L} (ParsePath : string -> string * option error) (opt : list (Opt L)) :
    outcome O :=
  o ← GetOpts opt;
  opts ← range_loop step (range_order (WithConfigMap_ (o_RPC o))) (start o);
  vals ← parse_secrets ParsePath (disallows (proj opts)) (secrets opts);
  Ret (set vals opts).

(** With environment variables disallowed no reference is followed, and no entry
    of the map allows them again. *)
Lemma read_opts_disallowed `{RangeOrder} {L} P1 P2 (opt : list (Opt L)) o :
  (forall k v x y, step (k, v) x = Ret y -> disallows (proj y) = disallows (proj x)) ->
  (forall o, disallows (proj (start o)) = disallows o) ->
  (forall vals x, disallows (proj (set vals x)) = disallows (proj x)) ->
  GetOpts opt = Ret o -> disallows o = true ->
  read_opts P1 opt = read_opts P2 opt /\
  forall opts, read_opts P1 opt = Ret opts -> disallows (proj opts) = true.
Proof.
  intros Hstep Hstart Hset Ho Hd. unfold read_opts. rewrite Ho. simpl.
  destruct (range_loop step _ _) as [a|e|] eqn:El; [|done..]. simpl.
  assert (E : disallows (proj a) = true).
  { rewrite <- Hd, <- (Hstart o). refine (range_loop_frame step (fun x => disallows (proj x)) _ _ _ _ El).
    intros k v x y. apply Hstep. }
  rewrite E. simpl. split; [done|]. intros opts [= <-]. by rewrite Hset.
Qed.
(** The same where no field is a reference. *)
Lemma map_opts_disallowed `{RangeOrder} {L} (opt : list (Opt L)) o opts :
  (forall k v x y, step (k, v) x = Ret y -> disallows (proj y) = disallows (proj x)) ->
  (forall o, disallows (proj (start o)) = disallows o) ->
  GetOpts opt = Ret o -> disallows o = true ->
  (o ← GetOpts opt; range_loop step (range_order (WithConfigMap_ (o_RPC o))) (start o)) = Ret opts ->
  disallows (proj opts) = true.
Proof.
  intros Hstep Hstart Ho Hd. rewrite Ho. simpl. intros El. rewrite <- Hd, <- (Hstart o).
  refine (range_loop_frame step (fun x => disallows (proj x)) _ _ _ _ El). intros k v x y. apply Hstep.
Qed.
End reading.

(** A step of a configuration loop leaves the flag alone, and so do the secrets. *)
Ltac frame_step step :=
  let x := fresh "x" in
  intros ?k ?v x ?y; unfold step; destruct x; repeat (case_match; [intros; inv_ret; by subst|]);
  by intros [= <-].

Ltac frame_set set := let x := fresh "x" in intros ?vals x; unfold set; destruct x; by repeat case_match.

(** A switch with a default branch that fails. *)
Definition required (msg v : string) : outcome string :=
  if String.eqb v "" then Fail (ErrLeaf msg) else Ret v.

(** A switch without a default branch keeps the old value. *)
Definition or_keep (old v : string) : string := if String.eqb v "" then old else v.

(** [x := ""; if !disallow { x = os.Getenv(name) }; if x == "" { x = configured }]. *)
Definition env_or (getenv : string -> string) (disallow : bool) (name configured : string) : string :=
  let v := if disallow then "" else getenv name in
  if String.eqb v "" then configured else v.

Definition deprecated_key_id (v : string) : Options -> Options := set_rpc (fun r =>
  mkRPCOptions v (WithAad_ r) (WithConfigMap_ r) (WithDisallowEnvVars_ r)).

(** A call without options asks for the same as another one. *)
Lemma no_options {L} : same_request (L := L) [] [].
Proof. exists getDefaultOptions, getDefaultOptions. split_and!; reflexivity. Qed.

(** ** Envelopes *)

Section envelopes.
Context `{AesGcm, Entropy} {L : Type}.

(** [wrapping.EnvelopeEncrypt(plaintext, opt...)], which draws a key and a nonce. *)
Definition seal_envelope {O W} (plaintext : slice) (opt : list (Opt L)) : prog (cloud O W) EnvelopeInfo :=
  fun s =>
    (map_err (wrapf "error wrapping data")
       (EnvelopeEncrypt (rand_bytes (cl_draws s) 32) (rand_nonce (cl_draws s)) plaintext opt),
     mk_cloud (cl_object s) (cl_service s) (S (cl_draws s))).

Definition open_envelope (key : slice) (b : BlobInfo) (opt : list (Opt L)) : outcome slice :=
  EnvelopeDecrypt (Some {| ei_Key := key; ei_Iv := bi_Iv b; ei_Ciphertext := bi_Ciphertext b |}) opt.

Lemma seal_envelope_Ret {O W} pt opt (s s' : cloud O W) env :
  seal_envelope pt opt s = (Ret env, s') ->
  s' = mk_cloud (cl_object s) (cl_service s) (S (cl_draws s)) /\
  EnvelopeEncrypt (rand_bytes (cl_draws s) 32) (rand_nonce (cl_draws s)) pt opt = Ret env.
Proof.
  unfold seal_envelope. destruct (EnvelopeEncrypt _ _ _ _) eqn:E; [|done..]. by intros [= -> <-].
Qed.

Context `{!AesGcmLaws _}.

(** An envelope opens under the same request, with its key, also after it was
    stored and read back. *)
Lemma seal_open {O W} pt opt opt' (s s' : cloud O W) env key b :
  seal_envelope pt opt s = (Ret env, s') -> same_request opt opt' ->
  slice_equiv (ei_Key env) key -> slice_equiv (ei_Iv env) (bi_Iv b) ->
  slice_equiv (ei_Ciphertext env) (bi_Ciphertext b) ->
  bi_Ciphertext b <> None /\ exists r, open_envelope key b opt' = Ret r /\ slice_equiv r pt.
Proof.
  intros He (o & o' & Ho & Ho' & Haad & _) Hk Hiv Hct.
  apply seal_envelope_Ret in He as [_ He].
  pose proof (rand_nonce_length (cl_draws s)) as Hn.
  destruct (rand_bytes (cl_draws s) 32) as [dek| |] eqn:Hd;
    [|unfold EnvelopeEncrypt in He; rewrite Ho in He; done..].
  pose proof (rand_bytes_length _ _ _ Hd) as Hl.
  rewrite (EnvelopeEncrypt_eq dek _ pt opt o Hl Hn Ho) in He. injection He as <-.
  unfold slice_equiv in *. simpl in *.
  split.
  { intros Hnone. rewrite Hnone in Hct. apply (f_equal length) in Hct.
    rewrite gcm_seal_length in Hct. simpl in Hct. lia. }
  exists (to_slice (content pt)). rewrite content_to_slice. split; [|done].
  apply (EnvelopeDecrypt_sealed dek (rand_nonce (cl_draws s)) (content pt) _ opt' o'); simpl; try done.
  by rewrite <- Hiv, <- Hct, <- Haad.
Qed.

(** ** The promise

    What a wrapper has to show about the key: Encrypt leaves an envelope with its
    key in the key information, in a form [sealed] that Decrypt recognises, and
    [unwrap] gets the key back from any stored form of it. *)
Section promise.
Context {O W : Type} (impl : Wrapper L (cloud O W)) (configured : cloud O W -> Prop).
Context (sealed : KeyInfo -> Prop) (unwrap : KeyInfo -> prog (cloud O W) slice).

Definition encrypt_wraps : Prop := forall s s' pt opts b,
  configured s -> w_Encrypt pt opts s = (Ret (Some b), s') ->
  exists env s1 ki, seal_envelope pt opts s = (Ret env, s1) /\
    bi_Ciphertext b = ei_Ciphertext env /\ bi_Iv b = ei_Iv env /\ bi_KeyInfo b = Some ki /\
    forall ki', keyinfo_equiv ki ki' ->
      sealed ki' /\ exists key, fst (unwrap ki' s') = Ret key /\ slice_equiv (ei_Key env) key.

Definition decrypt_unwraps : Prop := forall s b opts ki key r,
  bi_KeyInfo b = Some ki -> bi_Ciphertext b <> None -> sealed ki -> fst (unwrap ki s) = Ret key ->
  open_envelope key b opts = Ret r -> fst (w_Decrypt (Some b) opts s) = Ret r.

Definition keeps_configured : Prop :=
  (forall s s' pt opts b, configured s -> w_Encrypt pt opts s = (Ret b, s') -> configured s') /\
  (forall s s' b opts r, configured s -> w_Decrypt b opts s = (Ret r, s') -> configured s').

Lemma envelope_promise :
  encrypt_wraps -> decrypt_unwraps -> keeps_configured -> WrapperSpec impl configured.
Proof.
  intros He Hd [K1 K2]. split; [|exact K1|exact K2].
  intros s s' pt opts opts' b b' Hc Hb Hr (Hct & Hiv & Hki).
  destruct (He _ _ _ _ _ Hc Hb) as (env & s1 & ki & Hs & E1 & E2 & E3 & Hu).
  rewrite E3 in Hki. inversion Hki as [x ki' Hkk Hx Hy|]. subst x.
  destruct (Hu ki' Hkk) as (Hse & key & Hun & Hkey).
  rewrite E1 in Hct. rewrite E2 in Hiv.
  destruct (seal_open pt opts opts' s s1 env key b' Hs Hr Hkey Hiv Hct) as (Hn & r & Hop & Heq).
  exists r. split; [|done]. by apply (Hd s' b' opts' ki' key r).
Qed.

(** The promise for the blobs that satisfy [good]. *)
Record promise_for (good : BlobInfo -> Prop) : Prop := {
  pf_roundtrip : forall s s' pt opts opts' b b',
    configured s -> w_Encrypt pt opts s = (Ret (Some b), s') -> good b ->
    same_request opts opts' -> blob_equiv b b' ->
    exists r, fst (w_Decrypt (Some b') opts' s') = Ret r /\ slice_equiv r pt;
  pf_keeps : keeps_configured;
}.
End promise.

(** ** The common shape of Encrypt and Decrypt

    The envelope, its key wrapped by the service, and the blob made of both; and
    back.  [wrap] answers with the key identifier and the wrapped key. *)
Definition seal_and_wrap {O W} (mechanism : Z) (wrap : slice -> prog (cloud O W) (string * slice))
    (plaintext : slice) (opt : list (Opt L)) : prog (cloud O W) BlobInfo :=
  env ← seal_envelope plaintext opt;
  r ← wrap (ei_Key env);
  mret (mkBlobInfo (ei_Ciphertext env) (ei_Iv env) (Some (mkKeyInfo mechanism r.1 r.2))).

Definition unwrap_and_open {O W} (unwrap : KeyInfo -> prog (cloud O W) slice) (on_open : error -> error)
    (info : KeyInfo) (b : BlobInfo) (opt : list (Opt L)) : prog (cloud O W) slice :=
  key ← unwrap info;
  lift (map_err on_open (open_envelope key b opt)).

Definition nil_plaintext : error := ErrLeaf "given plaintext for encryption is nil".

Definition nil_blob : error := ErrLeaf "given input for decryption is nil".

Section shape.
Context {O W : Type} (impl : Wrapper L (cloud O W)) (configured : O -> Prop) (mechanism : Z) (on_open : error -> error).
Context (wrap : slice -> prog (cloud O W) (string * slice)) (unwrap : KeyInfo -> prog (cloud O W) slice).

Definition encrypts_by_wrap : Prop := forall s s' pt opts b,
  w_Encrypt pt opts s = (Ret b, s') ->
  exists b', b = Some b' /\ seal_and_wrap mechanism wrap pt opts s = (Ret b', s').

Definition decrypts_by_unwrap : Prop := forall s b info opts,
  bi_KeyInfo b = Some info -> ki_Mechanism info = mechanism ->
  w_Decrypt (Some b) opts s = unwrap_and_open unwrap on_open info b opts s.

(** The service gives back the key it wrapped, and both calls leave the wrapper
    configured. *)
Definition wrap_unwrap : Prop := forall s s' dek id ct,
  configured (cl_object s) -> wrap dek s = (Ret (id, ct), s') ->
  configured (cl_object s') /\
  forall ki, slice_equiv ct (ki_WrappedKey ki) -> ki_KeyId ki = id -> ki_Mechanism ki = mechanism ->
    exists key, fst (unwrap ki s') = Ret key /\ slice_equiv dek key.

Lemma shape_promise :
  encrypts_by_wrap -> decrypts_by_unwrap -> wrap_unwrap ->
  (forall s s' b opts r, w_Decrypt b opts s = (Ret r, s') -> cl_object s' = cl_object s) ->
  WrapperSpec impl (fun s => configured (cl_object s)).
Proof.
  intros He Hd Hw Hk.
  assert (Henc : forall s s' pt opts b, configured (cl_object s) ->
    w_Encrypt pt opts s = (Ret b, s') ->
    exists env s1 id ct, seal_envelope pt opts s = (Ret env, s1) /\
      configured (cl_object s1) /\ wrap (ei_Key env) s1 = (Ret (id, ct), s') /\
      b = Some (mkBlobInfo (ei_Ciphertext env) (ei_Iv env) (Some (mkKeyInfo mechanism id ct)))).
  { intros s s' pt opts b Hc Hb. destruct (He _ _ _ _ _ Hb) as (b' & -> & Hs).
    apply pbind_Ret in Hs as (env & s1 & Hs & Hr). apply pbind_Ret in Hr as ([id ct] & s2 & Hr & Hb').
    injection Hb' as <- <-. exists env, s1, id, ct.
    pose proof (seal_envelope_Ret _ _ _ _ _ Hs) as [-> _]. done. }
  apply (envelope_promise _ _ (fun ki => ki_Mechanism ki = mechanism) unwrap).
  - intros s s' pt opts b Hc Hb. destruct (Henc _ _ _ _ _ Hc Hb) as (env & s1 & id & ct & Hs & Hc1 & Hr & [= ->]).
    exists env, s1, (mkKeyInfo mechanism id ct). split; [exact Hs|]. do 3 (split; [done|]).
    intros ki' (Hm & Hi & Hk'). simpl in *. split; [done|].
    destruct (Hw _ _ _ _ _ Hc1 Hr) as [_ Hu]. by apply Hu.
  - intros s b opts ki key r Hki _ Hm Hu Ho. rewrite (Hd _ _ _ _ Hki Hm). unfold unwrap_and_open.
    destruct (unwrap ki s) as [o s1] eqn:E. simpl in Hu. subst o.
    rewrite (pbind_run _ _ _ _ _ E). simpl. by rewrite Ho.
  - split.
    + intros s s' pt opts b Hc Hb. destruct (Henc _ _ _ _ _ Hc Hb) as (env & s1 & id & ct & Hs & Hc1 & Hr & _).
      by destruct (Hw _ _ _ _ _ Hc1 Hr).
    + intros s s' b opts r Hc Hb. by rewrite (Hk _ _ _ _ _ Hb).
Qed.
End shape.
End envelopes.

(** ** Services that take the key as base64 text *)

Definition key_text (key : slice) : string := b64_EncodeToString StdEncoding (content key).

Definition text_bytes (s : string) : slice := Some (bytes_of_string s).

Definition bytes_text (s : slice) : string := string_of_bytes (content s).

(** [base64.StdEncoding.DecodeString]. *)
Definition text_key (s : string) : outcome slice := b ← b64_DecodeString StdEncoding s; Ret (Some b).

Lemma text_key_text key : text_key (key_text key) = Ret (Some (content key)).
Proof. unfold text_key, key_text. rewrite b64_decode_encode; [done|by left]. Qed.

Lemma bytes_text_bytes s ct : slice_equiv (text_bytes s) ct -> bytes_text ct = s.
Proof.
  unfold bytes_text, slice_equiv. intros <-. simpl. apply string_of_bytes_of_string.
Qed.

(** The key as text to the service, and the answer back. *)
Definition text_wrap {O W} (encrypt : string -> prog (cloud O W) (string * string)) (key : slice) :
    prog (cloud O W) (string * slice) :=
  r ← encrypt (key_text key); mret (r.1, text_bytes r.2).

Definition text_unwrap {O W} (decrypt : KeyInfo -> string -> prog (cloud O W) string)
    (bad_text : error -> error) (info : KeyInfo) : prog (cloud O W) slice :=
  t ← decrypt info (bytes_text (ki_WrappedKey info)); lift (map_err bad_text (text_key t)).

Lemma text_wrap_unwrap {O W} configured mechanism (encrypt : string -> prog (cloud O W) (string * string))
    decrypt bad_text :
  (forall s s' t id ct, configured (cl_object s) -> encrypt t s = (Ret (id, ct), s') ->
     configured (cl_object s') /\
     forall info, exists s'', decrypt info ct s' = (Ret t, s'')) ->
  wrap_unwrap configured mechanism (text_wrap encrypt) (text_unwrap decrypt bad_text).
Proof.
  intros Hl s s' dek id ct Hc Hw. apply pbind_Ret in Hw as ([i t] & s1 & Hw & Hr).
  injection Hr as <- <- <-. destruct (Hl _ _ _ _ _ Hc Hw) as [Hc' Hd]. split; [done|].
  intros ki Hk _ _. destruct (Hd ki) as [s2 Hd']. exists (Some (content dek)). split; [|done].
  unfold text_unwrap. rewrite (bytes_text_bytes _ _ Hk), (pbind_run _ _ _ _ _ Hd').
  simpl. by rewrite text_key_text.
Qed.

(** Unwrapping and opening leave the object alone when the service calls do. *)
Lemma unwrap_and_open_object `{AesGcm} {L O W} (unwrap : KeyInfo -> prog (cloud O W) slice) on_open info b
    (opt : list (Opt L)) s s' r :
  (forall k s1, unwrap info s = (Ret k, s1) -> cl_object s1 = cl_object s) ->
  unwrap_and_open unwrap on_open info b opt s = (Ret r, s') -> cl_object s' = cl_object s.
Proof.
  intros Hu Hd. apply pbind_Ret in Hd as (key & s1 & Hk & Hd). injection Hd as _ <-. eauto.
Qed.

Lemma text_unwrap_object {O W} (decrypt : KeyInfo -> string -> prog (cloud O W) string) bad_text info s s' k :
  (forall t a s1, decrypt info t s = (Ret a, s1) -> cl_object s1 = cl_object s) ->
  text_unwrap decrypt bad_text info s = (Ret k, s') -> cl_object s' = cl_object s.
Proof.
  intros Hd Hu. apply pbind_Ret in Hu as (t & s1 & Ht & Hu). injection Hu as _ <-. eauto.
Qed.

(** Most wrappers check for a nil plaintext, refuse a nil blob and dereference its
    key information. *)
Section checked.
Context `{AesGcm, Entropy} {L O W : Type} (impl : Wrapper L (cloud O W)) (mechanism : Z) (msg : string).
Context (wrap : slice -> prog (cloud O W) (string * slice)) (unwrap : KeyInfo -> prog (cloud O W) slice).

Definition checked_Encrypt (plaintext : slice) (opt : list (Opt L)) : prog (cloud O W) BlobInfo :=
  match plaintext with
  | None => lift (Fail nil_plaintext)
  | Some _ => seal_and_wrap mechanism wrap plaintext opt
  end.

Definition checked_Decrypt (in_ : option BlobInfo) (opt : list (Opt L)) : prog (cloud O W) slice :=
  match in_ with
  | None => lift (Fail nil_blob)
  | Some b =>
      match bi_KeyInfo b with
      | None => lift Panic
      | Some info => unwrap_and_open unwrap (wrapf msg) info b opt
      end
  end.

Lemma checked_encrypts :
  w_Encrypt = (fun pt opt => b ← checked_Encrypt pt opt; mret (Some b)) ->
  encrypts_by_wrap impl mechanism wrap.
Proof.
  intros E s s' pt opts b He. rewrite E in He. apply pbind_Ret in He as (b' & s1 & He & Hb).
  injection Hb as <- <-. exists b'. split; [done|]. unfold checked_Encrypt in He. by destruct pt.
Qed.

Lemma checked_decrypts : w_Decrypt = checked_Decrypt -> decrypts_by_unwrap impl mechanism (wrapf msg) unwrap.
Proof. intros E s b info opts Hi _. rewrite E. unfold checked_Decrypt. by rewrite Hi. Qed.

Lemma checked_object b (opts : list (Opt L)) s s' r :
  (forall info k s1 s2, unwrap info s1 = (Ret k, s2) -> cl_object s2 = cl_object s1) ->
  checked_Decrypt b opts s = (Ret r, s') -> cl_object s' = cl_object s.
Proof.
  intros Hu. destruct b as [b|]; simpl; [|done]. destruct (bi_KeyInfo b) as [info|]; [|done].
  apply unwrap_and_open_object. intros k s1. apply Hu.
Qed.
End checked.

(** The promise of a wrapper of this kind whose service takes the key as text. *)
Lemma text_promise `{AesGcm, Entropy} `{!AesGcmLaws _} {L O W} (impl : Wrapper L (cloud O W)) configured
    mechanism msg encrypt decrypt bad_text :
  w_Encrypt = (fun pt opt => b ← checked_Encrypt mechanism (text_wrap encrypt) pt opt; mret (Some b)) ->
  w_Decrypt = checked_Decrypt msg (text_unwrap decrypt bad_text) ->
  (forall s s' t id ct, configured (cl_object s) -> encrypt t s = (Ret (id, ct), s') ->
     configured (cl_object s') /\ forall info, exists s'', decrypt info ct s' = (Ret t, s'')) ->
  (forall info t a s1 s2, decrypt info t s1 = (Ret a, s2) -> cl_object s2 = cl_object s1) ->
  WrapperSpec impl (fun s => configured (cl_object s)).
Proof.
  intros He Hd Hl Ho.
  apply (shape_promise _ configured mechanism (wrapf msg) (text_wrap encrypt) (text_unwrap decrypt bad_text)).
  - by apply checked_encrypts.
  - by apply checked_decrypts.
  - by apply text_wrap_unwrap.
  - intros s s' b opts r. rewrite Hd. apply checked_object. intros info k s1 s2.
    apply text_unwrap_object. intros t a s3. apply Ho.
Qed.
