(* ===== verification/AwsKms.v ===== *)
(** * The AWS KMS wrapper

    wrappers/awskms: options.go and awskms.go.  The AWS SDK and the services
    behind it are external: a client is a value made from a configuration, its
    calls are operations over an abstract world.  awsutil's region and credential
    chain read the environment by themselves, so they are parameters apart. *)
From S2P Require Import Prelude GoText Crypto Wrapping Envelope Cloud.
#[local] Open Scope Z_scope.

(** ** The SDK *)

(** A credentials provider: none, static, an assumed role (with the provider its
    STS client uses), or one of awsutil's chains. *)
Inductive credentials :=
| NoCredentials
| StaticCredentials (accessKey secretKey sessionToken : string)
| AssumeRole (sts : credentials) (roleArn roleSessionName : string)
| CredentialChain (n : nat).

(** [aws.Config]; whether its HTTP client is the pooled clean one. *)
Record aws_Config := mk_aws_Config {
  ac_CleanHTTP : bool;
  ac_Region : string;
  ac_Credentials : credentials;
  ac_BaseEndpoint : option string;
}.

(** [awsutil.CredentialsConfig], without logger and HTTP client. *)
Record CredentialsConfig := mkCredentialsConfig {
  cc_AccessKey : string;
  cc_SecretKey : string;
  cc_SessionToken : string;
  cc_Filename : string;
  cc_Profile : string;
  cc_RoleARN : string;
  cc_RoleSessionName : string;
  cc_WebIdentityTokenFile : string;
  cc_Region : string;
}.

(** The answer to DescribeKey: the output, its metadata and the identifier may be
    nil. *)
Class Aws := {
  aws_world : Type;
  aws_client : Type;
  aws_DefaultRegion : string;
  aws_NewFromConfig : aws_Config -> aws_client;
  aws_DescribeKey : aws_client -> string -> prog aws_world (option (option (option string)));
  aws_Encrypt : aws_client -> string -> slice -> prog aws_world (option string * slice);
  aws_Decrypt : aws_client -> slice -> prog aws_world slice;
}.

(** ** Options *)

Record options := mk_options {
  opts_Options : Options;
  withKeyNotRequired : bool;
  withRegion : string;
  withEndpoint : string;
  withAccessKey : string;
  withSecretKey : string;
  withSessionToken : string;
  withSharedCredsFilename : string;
  withSharedCredsProfile : string;
  withWebIdentityTokenFile : string;
  withRoleSessionName : string;
  withRoleArn : string;
}.

Definition getDefaultOptions (o : Options) : options :=
  mk_options o false "" "" "" "" "" "" "" "" "" "".

Definition config_step (kv : string * string) (opts : options) : outcome options :=
  let (k, v) := kv in
  let (o, nr, rg, ep, ak, sk, st, fn, pr, wi, rn, ra) := opts in
  let at_ := String.eqb k in
  if at_ "key_not_required" then
    b ← ParseBool v; Ret (mk_options o b rg ep ak sk st fn pr wi rn ra)
  else if at_ "kms_key_id" then Ret (mk_options (deprecated_key_id v o) nr rg ep ak sk st fn pr wi rn ra)
  else if at_ "region" then Ret (mk_options o nr v ep ak sk st fn pr wi rn ra)
  else if at_ "endpoint" then Ret (mk_options o nr rg v ak sk st fn pr wi rn ra)
  else if at_ "access_key" then Ret (mk_options o nr rg ep v sk st fn pr wi rn ra)
  else if at_ "secret_key" then Ret (mk_options o nr rg ep ak v st fn pr wi rn ra)
  else if at_ "session_token" then Ret (mk_options o nr rg ep ak sk v fn pr wi rn ra)
  else if at_ "shared_creds_filename" then Ret (mk_options o nr rg ep ak sk st v pr wi rn ra)
  else if at_ "shared_creds_profile" then Ret (mk_options o nr rg ep ak sk st fn v wi rn ra)
  else if at_ "web_identity_token_file" then Ret (mk_options o nr rg ep ak sk st fn pr v rn ra)
  else if at_ "role_session_name" then Ret (mk_options o nr rg ep ak sk st fn pr wi v ra)
  else if at_ "role_arn" then Ret (mk_options o nr rg ep ak sk st fn pr wi rn v)
  else Ret opts.

Definition set_secrets (vals : list string) (opts : options) : options :=
  let (o, nr, rg, ep, ak, sk, st, fn, pr, wi, rn, ra) := opts in
  match vals with
  | [ak; sk; st] => mk_options o nr rg ep ak sk st fn pr wi rn ra
  | _ => opts
  end.

Definition getOpts `{RangeOrder} {L} (ParsePath : string -> string * option error)
    (opt : list (Opt L)) : outcome options :=
  o ← GetOpts opt;
  opts ← range_loop config_step (range_order (WithConfigMap_ (o_RPC o))) (getDefaultOptions o);
  vals ← parse_secrets ParsePath (disallows (opts_Options opts))
           [withAccessKey opts; withSecretKey opts; withSessionToken opts];
  Ret (set_secrets vals opts).

(** ** The wrapper *)

Definition Type_awskms : string := "awskms".

Definition EnvAwsKmsWrapperKeyId : string := "AWSKMS_WRAPPER_KEY_ID".
Definition EnvVaultAwsKmsSealKeyId : string := "VAULT_AWSKMS_SEAL_KEY_ID".

Definition AwsKmsEncrypt : Z := 0.
Definition AwsKmsEnvelopeAesGcmEncrypt : Z := 1.

Section aws.
Context {A : Aws}.

Record awrapper := mk_awrapper {
  w_accessKey : string;
  w_secretKey : string;
  w_sessionToken : string;
  w_region : string;
  w_endpoint : string;
  w_sharedCredsFilename : string;
  w_sharedCredsProfile : string;
  w_roleArn : string;
  w_roleSessionName : string;
  w_webIdentityTokenFile : string;
  w_keyNotRequired : bool;
  w_keyId : string;
  w_currentKeyId : string;
  w_client : option aws_client;
  w_logger : option nat;
}.

Definition NewWrapper : awrapper :=
  mk_awrapper "" "" "" "" "" "" "" "" "" "" false "" "" None None.

Abbreviation state := (cloud awrapper aws_world).

Definition set_key (nr : bool) (lg : option nat) (k : awrapper) : awrapper :=
  let (ak, sk, st, rg, ep, fn, pr, ra, rn, wi, _, ki, ck, cl, _) := k in
  mk_awrapper ak sk st rg ep fn pr ra rn wi nr ki ck cl lg.

Definition set_keyId (id : string) (k : awrapper) : awrapper :=
  let (ak, sk, st, rg, ep, fn, pr, ra, rn, wi, nr, _, ck, cl, lg) := k in
  mk_awrapper ak sk st rg ep fn pr ra rn wi nr id ck cl lg.

(** [k.currentKeyId.Store(id)]. *)
Definition store_current (id : string) (k : awrapper) : awrapper :=
  let (ak, sk, st, rg, ep, fn, pr, ra, rn, wi, nr, ki, _, cl, lg) := k in
  mk_awrapper ak sk st rg ep fn pr ra rn wi nr ki id cl lg.

Definition set_client (c : option aws_client) (k : awrapper) : awrapper :=
  let (ak, sk, st, rg, ep, fn, pr, ra, rn, wi, nr, ki, ck, _, lg) := k in
  mk_awrapper ak sk st rg ep fn pr ra rn wi nr ki ck c lg.

Definition set_region (r : string) (k : awrapper) : awrapper :=
  let (ak, sk, st, _, ep, fn, pr, ra, rn, wi, nr, ki, ck, cl, lg) := k in
  mk_awrapper ak sk st r ep fn pr ra rn wi nr ki ck cl lg.

(** The credentials and, where the environment is allowed, what comes from files
    and from it; then the endpoint, where it is still empty. *)
Definition set_credentials (getenv : string -> string) (opts : options) (k : awrapper) : awrapper :=
  let (_, _, _, rg, ep, fn, pr, _, _, wi, nr, ki, ck, cl, lg) := k in
  let d := disallows (opts_Options opts) in
  let ep := if d then ep else getenv "AWS_KMS_ENDPOINT" in
  mk_awrapper (withAccessKey opts) (withSecretKey opts) (withSessionToken opts) rg
    (if String.eqb ep "" then withEndpoint opts else ep)
    (if d then fn else withSharedCredsFilename opts)
    (if d then pr else withSharedCredsProfile opts)
    (withRoleArn opts) (withRoleSessionName opts)
    (if d then wi else withWebIdentityTokenFile opts)
    nr ki ck cl lg.

Definition KeyId : prog state string := k ← self; mret (w_currentKeyId k).

Section config.
Context (ParsePath : string -> string * option error) (getenv : string -> string)
  (GetRegion : string -> prog aws_world string)
  (GenerateCredentialChain : CredentialsConfig -> prog aws_world aws_Config).

(** The configuration with the environment disallowed.  With a role to assume
    the HTTP client is the default one again. *)
Definition static_config (k : awrapper) : outcome aws_Config :=
  if xorb (is_set (w_accessKey k)) (is_set (w_secretKey k))
  then Fail (ErrLeaf ("static AWS client credentials haven't been properly configured " +:+
         "(the access key or secret key were provided but not both)"))
  else
    let creds := if is_set (w_accessKey k) && is_set (w_secretKey k)
                 then StaticCredentials (w_accessKey k) (w_secretKey k) (w_sessionToken k)
                 else NoCredentials in
    Ret (if is_set (w_roleArn k)
         then mk_aws_Config false (w_region k) (AssumeRole creds (w_roleArn k) (w_roleSessionName k)) None
         else mk_aws_Config true (w_region k) creds None).

Definition credentials_config (k : awrapper) : CredentialsConfig :=
  mkCredentialsConfig (w_accessKey k) (w_secretKey k) (w_sessionToken k) (w_sharedCredsFilename k)
    (w_sharedCredsProfile k) (w_roleArn k) (w_roleSessionName k) (w_webIdentityTokenFile k) (w_region k).

Definition with_endpoint (ep : string) (c : aws_Config) : aws_Config :=
  if is_set ep then mk_aws_Config (ac_CleanHTTP c) (ac_Region c) (ac_Credentials c) (Some ep) else c.

Definition GetAwsKmsClient (disallowEnv : bool) : prog state aws_client :=
  k ← self;
  awsConfig ← (if disallowEnv then lift (static_config k)
               else in_service (GenerateCredentialChain (credentials_config k)));
  mret (aws_NewFromConfig (with_endpoint (w_endpoint k) awsConfig)).

(** The first switch of SetConfig: the new key identifier. *)
Definition choose_key (opts : options) (k : awrapper) : outcome string :=
  let o := opts_Options opts in
  let v := env_switch getenv (disallows o) [EnvAwsKmsWrapperKeyId; EnvVaultAwsKmsSealKeyId]
             (configured_key o) in
  if is_set v then Ret v
  else if w_keyNotRequired k then Ret (w_keyId k)
  else Fail (ErrLeaf "key id not found in env or config for aws kms wrapper configuration").

(** A failing GetRegion empties the region. *)
Definition choose_region (opts : options) : prog state unit :=
  if negb (disallows (opts_Options opts)) then
    r ← attempt (in_service (GetRegion (withRegion opts)));
    _ ← update (set_region match r with Ret region => region | _ => "" end);
    lift (r ← r; Ret tt)
  else update (set_region (if is_set (withRegion opts) then withRegion opts else aws_DefaultRegion)).

(** The client of a wrapper that has none yet, tested with the key. *)
Definition init_client (disallow : bool) : prog state unit :=
  client ← on_err (wrapf "error initializing AWS KMS wrapping client") (GetAwsKmsClient disallow);
  k ← self;
  _ ← (if w_keyNotRequired k then mret tt else
       keyInfo ← on_err (wrapf "error fetching AWS KMS wrapping key information")
         (in_service (aws_DescribeKey client (w_keyId k)));
       match keyInfo with
       | Some (Some (Some id)) => update (store_current id)
       | _ => lift (Fail (ErrLeaf "no key information returned"))
       end);
  update (set_client (Some client)).

Definition metadata (k : awrapper) : gmap string string :=
  let m : gmap string string := <["key_id" := w_keyId k]> {[ "region" := w_region k ]} in
  if is_set (w_endpoint k) then <["endpoint" := w_endpoint k]> m else m.

Definition SetConfig `{RangeOrder} {L} (opt : list (Opt L)) : prog state WrapperConfig :=
  opts ← lift (getOpts ParsePath opt);
  let disallow := disallows (opts_Options opts) in
  _ ← update (set_key (withKeyNotRequired opts) (o_Logger (opts_Options opts)));
  k ← self;
  id ← lift (choose_key opts k);
  _ ← update (fun k => store_current id (set_keyId id k));
  _ ← choose_region opts;
  _ ← update (set_credentials getenv opts);
  k ← self;
  _ ← match w_client k with Some _ => mret tt | None => init_client disallow end;
  k ← self;
  mret (mkWrapperConfig (metadata k)).
End config.

Section crypt.
Context `{AesGcm, Entropy} {L : Type}.

Definition Encrypt (plaintext : slice) (opt : list (Opt L)) : prog state BlobInfo :=
  match plaintext with
  | None => lift (Fail (ErrLeaf "given plaintext for encryption is nil"))
  | Some _ =>
      env ← seal_envelope plaintext opt;
      k ← self;
      match w_client k with
      | None => lift (Fail (ErrLeaf "nil client"))
      | Some client =>
          output ← on_err (wrapf "error encrypting data")
            (in_service (aws_Encrypt client (w_keyId k) (ei_Key env)));
          _ ← match output.1 with Some id => update (store_current id) | None => mret tt end;
          mret (mkBlobInfo (ei_Ciphertext env) (ei_Iv env)
            (Some (mkKeyInfo AwsKmsEnvelopeAesGcmEncrypt (default "" output.1) output.2)))
      end
  end.

(** [k.client.Decrypt], on a nil interface before SetConfig. *)
Definition client_Decrypt (ciphertext : slice) : prog state slice :=
  k ← self;
  match w_client k with
  | None => lift Panic
  | Some client => in_service (aws_Decrypt client ciphertext)
  end.

(** A blob without key information, which the caller's blob is given too. *)
Definition legacy_info (in_ : BlobInfo) : KeyInfo := default (mkKeyInfo AwsKmsEncrypt "" None) (bi_KeyInfo in_).

Definition unwrap (info : KeyInfo) : prog state slice :=
  on_err (wrapf "error decrypting data encryption key") (client_Decrypt (ki_WrappedKey info)).

Definition Decrypt (in_ : option BlobInfo) (opt : list (Opt L)) : prog state slice :=
  match in_ with
  | None => lift (Fail (ErrLeaf "given input for decryption is nil"))
  | Some b =>
      let info := legacy_info b in
      if ki_Mechanism info =? AwsKmsEncrypt then
        on_err (wrapf "error decrypting data") (client_Decrypt (bi_Ciphertext b))
      else if ki_Mechanism info =? AwsKmsEnvelopeAesGcmEncrypt then
        key ← unwrap info;
        lift (map_err (wrapf "error decrypting data") (open_envelope key b opt))
      else lift (Fail (ErrLeaf ("invalid mechanism: " +:+ FormatUint (ki_Mechanism info))))
  end.

#[export] Instance aws_wrapper `{RangeOrder} (ParsePath : string -> string * option error)
    (getenv : string -> string) (GetRegion : string -> prog aws_world string)
    (Chain : CredentialsConfig -> prog aws_world aws_Config) : Wrapper L state := {|
  w_Type := mret Type_awskms;
  w_SetConfig opt := c ← SetConfig ParsePath getenv GetRegion Chain opt; mret (Some c);
  w_Encrypt pt opt := b ← Encrypt pt opt; mret (Some b);
  w_Decrypt b opt := Decrypt b opt;
  w_KeyId := KeyId;
|}.
End crypt.
End aws.
Arguments awrapper A : clear implicits.

(** ** What the service guarantees

    A key it encrypted is decrypted again by the same client. *)
Class AwsLaws (A : Aws) := aws_decrypts : forall c k dek w id ct w',
  aws_Encrypt c k dek w = (Ret (id, ct), w') -> forall ct', slice_equiv ct ct' ->
  exists key w'', aws_Decrypt c ct' w' = (Ret key, w'') /\ slice_equiv dek key.

Section properties.
Context {A : Aws}.

Definition client_of (s : cloud (awrapper A) aws_world) : option aws_client := w_client (cl_object s).

Definition connected (s : cloud (awrapper A) aws_world) : Prop := is_Some (client_of s).

Lemma client_set_key nr lg k : w_client (set_key (A := A) nr lg k) = w_client k.
Proof. by destruct k. Qed.

Lemma client_set_keyId id k : w_client (set_keyId (A := A) id k) = w_client k.
Proof. by destruct k. Qed.

Lemma aws_client_store id k : w_client (store_current (A := A) id k) = w_client k.
Proof. by destruct k. Qed.

Lemma client_set_region r k : w_client (set_region (A := A) r k) = w_client k.
Proof. by destruct k. Qed.

Lemma client_set_credentials g o k : w_client (set_credentials (A := A) g o k) = w_client k.
Proof. by destruct k. Qed.

Lemma aws_getOpts_disallowed `{RangeOrder} {L} P1 P2 (opt : list (Opt L)) o :
  GetOpts opt = Ret o -> disallows o = true ->
  getOpts P1 opt = getOpts P2 opt /\
  forall opts, getOpts P1 opt = Ret opts -> disallows (opts_Options opts) = true.
Proof.
  apply (read_opts_disallowed config_step getDefaultOptions opts_Options
    (fun o => [withAccessKey o; withSecretKey o; withSessionToken o]) set_secrets);
    [frame_step config_step|done|frame_set set_secrets].
Qed.

(** [c] is a client that found the key of the wrapper, under its current
    identifier. *)
Definition described (c : aws_client) (k : awrapper A) : Prop :=
  exists id w w', aws_DescribeKey c (w_keyId k) w = (Ret (Some (Some (Some id))), w') /\
    w_currentKeyId k = id.

(** What becomes of the client [c0] a wrapper had before SetConfig. *)
Definition tested (c0 : option aws_client) (o : outcome WrapperConfig) (s : cloud (awrapper A) aws_world) : Prop :=
  match c0 with
  | Some c => client_of s = Some c
  | None =>
      match o with
      | Ret _ => exists c, client_of s = Some c /\
          (w_keyNotRequired (cl_object s) = false -> described c (cl_object s))
      | _ => client_of s = None
      end
  end.

Lemma tested_early o s : is_ret o = false -> tested (client_of s) o s.
Proof. unfold tested. destruct (client_of s) eqn:E; [done|]. destruct o; try done. Qed.

Lemma wp_choose_region R (opts : options) s Q :
  (forall o s', client_of s' = client_of s -> Q o s') -> wp (choose_region (A := A) R opts) Q s.
Proof.
  intros HQ. unfold choose_region. destruct (negb _).
  - rewrite wp_bind, wp_attempt. apply wp_in_service. intros o w _. cbv beta iota.
    rewrite wp_bind, wp_update, wp_lift. destruct o; simpl; apply HQ; unfold client_of; simpl; apply client_set_region.
  - rewrite wp_update. apply HQ. unfold client_of. simpl. apply client_set_region.
Qed.

Lemma wp_GetAwsKmsClient C d s Q :
  (forall o s', cl_object s' = cl_object s -> Q o s') -> wp (GetAwsKmsClient (A := A) C d) Q s.
Proof.
  intros HQ. unfold GetAwsKmsClient. rewrite wp_bind, wp_self, wp_bind.
  assert (Hk : forall o w, match o with
    | Ret c => wp (mret (aws_NewFromConfig (with_endpoint (w_endpoint (cl_object s)) c))) Q
                 (mk_cloud (cl_object s) w (cl_draws s))
    | Fail e => Q (Fail e) (mk_cloud (cl_object s) w (cl_draws s))
    | Panic => Q Panic (mk_cloud (cl_object s) w (cl_draws s)) end)
    by (intros [c|e|] w; rewrite ?wp_ret; by apply HQ).
  destruct d; [rewrite wp_lift; destruct s; apply Hk|apply wp_in_service; intros o w _; apply Hk].
Qed.

Lemma wp_init_client C d s :
  client_of s = None ->
  wp (init_client (A := A) C d) (fun o s' => match o with
    | Ret _ => exists c, client_of s' = Some c /\
        (w_keyNotRequired (cl_object s') = false -> described c (cl_object s'))
    | _ => client_of s' = None end) s.
Proof.
  intros Hn. unfold init_client. rewrite wp_bind, wp_on_err. apply wp_GetAwsKmsClient.
  intros o s1 H1. assert (Hn1 : client_of s1 = None) by (unfold client_of; by rewrite H1).
  destruct o as [c|e|]; [|exact Hn1..]. cbn [map_err]. rewrite wp_bind, wp_self, wp_bind.
  destruct (w_keyNotRequired (cl_object s1)) eqn:Ek.
  - rewrite wp_ret. cbv beta iota. rewrite wp_update. exists c. destruct (cl_object s1). simpl in *. by rewrite Ek.
  - rewrite wp_bind, wp_on_err. apply wp_in_service. intros o w Hd.
    destruct o as [[[[id|]|]|]|e|]; try exact Hn1. cbn [map_err].
    rewrite wp_update. cbv beta iota. rewrite wp_update. exists c. destruct (cl_object s1). simpl in *. split; [done|]. intros _.
    by exists id, (cl_service s1), w.
Qed.

(** SetConfig gives an AWS wrapper its client exactly once, and tested: a
    wrapper without a client that is configured gets one that has found the
    configured key, unless no key is required, and one whose SetConfig fails still
    has none. A wrapper with a client keeps it, whatever is configured. *)
Theorem aws_client_tested `{RangeOrder} {L} P g R C (opt : list (Opt L)) s :
  wp (SetConfig P g R C opt) (fun o s' => tested (client_of s) o s') s.
Proof.
  unfold SetConfig. rewrite wp_bind, wp_lift.
  destruct (getOpts P opt) as [opts|e|]; [|by apply tested_early..].
  rewrite wp_bind, wp_update, wp_bind, wp_self, wp_bind, wp_lift.
  set (s1 := mk_cloud _ _ _).
  assert (H1 : client_of s1 = client_of s) by apply client_set_key.
  rewrite <- H1. destruct (choose_key _ _ _) as [id|e|]; [|by apply tested_early..].
  rewrite wp_bind, wp_update, wp_bind. apply wp_choose_region. intros o s2 H2.
  replace (client_of s1) with (client_of s2)
    by (rewrite H2; unfold client_of; simpl; by rewrite aws_client_store, client_set_keyId).
  clear. destruct o as [[]|e|]; [|by apply tested_early..].
  rewrite wp_bind, wp_update, wp_bind, wp_self, wp_bind. set (s3 := mk_cloud _ _ _).
  assert (H3 : client_of s3 = client_of s2) by apply client_set_credentials.
  rewrite <- H3. change (w_client (cl_object s3)) with (client_of s3).
  destruct (client_of s3) as [c|] eqn:E; [by rewrite wp_ret|].
  eapply wp_mono; [|by apply wp_init_client]. intros [x|e|] s4 H4; [|exact H4..].
  by rewrite wp_bind, wp_self, wp_ret.
Qed.

(** With environment variables disallowed SetConfig reads neither the environment
    nor the references in the configuration, and asks neither of the helpers that
    do: outcome and new state are the same whatever they answer. *)
Lemma aws_env_isolated `{RangeOrder} {L} P1 P2 g1 g2 R1 R2 C1 C2 (opt : list (Opt L)) o
    (s : cloud (awrapper A) aws_world) :
  GetOpts opt = Ret o -> disallows o = true ->
  SetConfig P1 g1 R1 C1 opt s = SetConfig P2 g2 R2 C2 opt s.
Proof.
  intros Ho Hd. destruct (aws_getOpts_disallowed P1 P2 opt o Ho Hd) as [E Hopts].
  unfold SetConfig. rewrite <- E, !lift_bind.
  destruct (getOpts P1 opt) as [opts|e|]; [|done..].
  specialize (Hopts opts eq_refl). unfold choose_key, choose_region, set_credentials.
  revert Hopts. generalize (disallows (opts_Options opts)). by intros ? ->.
Qed.

(** ** Encrypt and Decrypt *)

Section promise.
Context `{AesGcm, Entropy} {L : Type}.

(** An Encrypt that succeeds, step by step. *)
Lemma aws_Encrypt_Ret pt (opt : list (Opt L)) s b s' : Encrypt (A := A) pt opt s = (Ret b, s') ->
  exists env s1 c id ct w1,
    seal_envelope pt opt s = (Ret env, s1) /\ client_of s = Some c /\
    aws_Encrypt c (w_keyId (cl_object s)) (ei_Key env) (cl_service s) = (Ret (id, ct), w1) /\
    client_of s' = Some c /\ cl_service s' = w1 /\
    b = mkBlobInfo (ei_Ciphertext env) (ei_Iv env)
          (Some (mkKeyInfo AwsKmsEnvelopeAesGcmEncrypt (default "" id) ct)).
Proof.
  unfold Encrypt. destruct pt as [d|]; [|done]. rewrite pbind_Ret. intros (env & s1 & Hs & He).
  pose proof (seal_envelope_Ret _ _ _ _ _ Hs) as [E1 _]. rewrite self_bind in He. subst s1.
  simpl in He. destruct (w_client (cl_object s)) as [c|] eqn:Hc; [|done].
  apply pbind_Ret in He as ([id ct] & s2 & He & Hr). rewrite on_err_Ret in He.
  apply in_service_Ret in He as (w1 & He & ->). simpl in He.
  exists env, (mk_cloud (cl_object s) (cl_service s) (S (cl_draws s))), c, id, ct, w1.
  split; [exact Hs|]. split; [done|]. split; [exact He|]. unfold client_of.
  destruct id as [id|]; injection Hr as <- <-; simpl; rewrite ?aws_client_store; done.
Qed.

Lemma client_Decrypt_run ct (s : cloud (awrapper A) aws_world) c : client_of s = Some c ->
  client_Decrypt ct s = in_service (aws_Decrypt c ct) s.
Proof. intros Hc. unfold client_Decrypt. rewrite self_bind. unfold client_of in Hc. by rewrite Hc. Qed.

Lemma client_Decrypt_object ct (s s' : cloud (awrapper A) aws_world) o :
  client_Decrypt ct s = (o, s') -> cl_object s' = cl_object s.
Proof.
  unfold client_Decrypt. rewrite self_bind. destruct (w_client _); [|by intros [= _ <-]].
  unfold in_service, zoom. destruct (aws_Decrypt _ _ _). by intros [= _ <-].
Qed.

Lemma aws_Decrypt_object b (opt : list (Opt L)) s s' r :
  Decrypt (A := A) b opt s = (Ret r, s') -> cl_object s' = cl_object s.
Proof.
  unfold Decrypt. destruct b as [b|]; [|done]. cbv zeta. destruct (_ =? _).
  { rewrite on_err_Ret. apply client_Decrypt_object. }
  destruct (_ =? _); [|done]. rewrite pbind_Ret. intros (key & s1 & Hu & Hd).
  injection Hd as _ <-. unfold unwrap in Hu. rewrite on_err_Ret in Hu. by apply client_Decrypt_object in Hu.
Qed.

(** the AWS wrapper keeps the promise of the interface: with a service that
    decrypts what it encrypted, a wrapper that has a client decrypts every blob it
    has encrypted, under the same options, also after the blob was stored and read
    back, and keeps its client. *)
Theorem aws_promise `{!AesGcmLaws _} `{RangeOrder} (Laws : AwsLaws A) P g R C :
  WrapperSpec (aws_wrapper (L := L) P g R C) connected.
Proof.
  apply (envelope_promise _ _ (fun ki => ki_Mechanism ki = AwsKmsEnvelopeAesGcmEncrypt) unwrap).
  - intros s s' pt opts b _ He. apply pbind_Ret in He as (b' & s1 & He & Hb). injection Hb as <- <-.
    apply aws_Encrypt_Ret in He as (env & s2 & c & id & ct & w1 & Hs & Hc & He & Hc' & <- & ->).
    eexists env, s2, _. split; [exact Hs|]. do 3 (split; [done|]). intros ki' (Hm & _ & Hk).
    split; [by rewrite <- Hm|]. destruct (Laws _ _ _ _ _ _ _ He _ Hk) as (key & w2 & Hd & Hkey).
    exists key. split; [|done]. unfold unwrap. rewrite (on_err_run _ _ _ (Ret key) (mk_cloud (cl_object s1) w2 (cl_draws s1))); [done|].
    rewrite (client_Decrypt_run _ _ _ Hc'). by apply in_service_run.
  - intros s b opts ki key r Hki _ Hm Hu Ho. change (fst (Decrypt (Some b) opts s) = Ret r).
    unfold Decrypt, legacy_info. rewrite Hki. cbv zeta. cbn [from_option id]. unfold id. rewrite Hm.
    change (AwsKmsEnvelopeAesGcmEncrypt =? AwsKmsEncrypt) with false. cbv iota. rewrite Z.eqb_refl.
    destruct (unwrap ki s) as [o s1] eqn:E. simpl in Hu. subst o.
    rewrite (pbind_run _ _ _ _ _ E). simpl. by rewrite Ho.
  - split.
    + intros s s' pt opts b _ He. apply pbind_Ret in He as (b' & s1 & He & Hb). injection Hb as <- <-.
      apply aws_Encrypt_Ret in He as (? & ? & c & ? & ? & ? & _ & _ & _ & Hc & _). by exists c.
    + intros s s' b opts r Hc Hd. apply aws_Decrypt_object in Hd. unfold connected, client_of in *. by rewrite Hd.
Qed.
End promise.
End properties.

(** ** Witnesses: a service that reverses what it encrypts *)

Definition toy_aws : Aws := {|
  aws_world := unit;
  aws_client := aws_Config;
  aws_DefaultRegion := "us-east-1";
  aws_NewFromConfig c := c;
  aws_DescribeKey c k := if String.eqb k "alias" then mret (Some (Some (Some "key-1")))
                         else lift (Fail (ErrLeaf "NotFoundException"));
  aws_Encrypt c k dek := mret (Some "key-1", Some (rev (content dek)));
  aws_Decrypt c ct := mret (Some (rev (content ct)));
|}.

#[local] Existing Instance toy_aws.
#[local] Existing Instance toy_gcm.
#[local] Existing Instance toy_gcm_laws.
#[local] Existing Instance toy_entropy.
#[local] Existing Instance default_order.

Lemma toy_aws_laws : AwsLaws toy_aws.
Proof.
  intros c k dek w id ct w' [= <- <- <-] ct' Hc. unfold slice_equiv in *. simpl in Hc.
  eexists _, _. split; [reflexivity|]. simpl. by rewrite <- Hc, rev_involutive.
Qed.

Definition demo_config (key : string) : list (Opt Empty_set) :=
  [WithDisallowEnvVars true; WithConfigMap {[ "kms_key_id" := key ]}].

Definition no_region (r : string) : prog (@aws_world toy_aws) string := lift (Fail (ErrLeaf "no region")).

Definition no_chain (c : CredentialsConfig) : prog (@aws_world toy_aws) aws_Config :=
  lift (Fail (ErrLeaf "no chain")).

Definition demo_new : cloud (awrapper toy_aws) (@aws_world toy_aws) := mk_cloud NewWrapper tt 0.

Definition demo_set (key : string) : outcome WrapperConfig * cloud (awrapper toy_aws) (@aws_world toy_aws) :=
  SetConfig demo_parse_path (fun _ => "") no_region no_chain (demo_config key) demo_new.

Lemma aws_env_isolated_witness :
  is_ret (fst (demo_set "alias")) = true /\
  SetConfig (fun s => (s, None)) (fun _ => "x") (fun r => mret r)
    (fun _ => mret (mk_aws_Config true "r" NoCredentials None)) (demo_config "alias") demo_new = demo_set "alias".
Proof.
  split; [by vm_compute|].
  apply (aws_env_isolated (A := toy_aws) _ _ _ _ _ _ _ _ (demo_config "alias")
    (mkOptions (mkRPCOptions "" None {[ "kms_key_id" := "alias" ]} true) None)); reflexivity.
Defined.

Lemma aws_promise_witness : exists b r s,
  Encrypt (L := Empty_set) (Some (bytes_of_string "seal")) [] (snd (demo_set "alias")) = (Ret b, s) /\
  fst (Decrypt (L := Empty_set) (Some b) [] s) = Ret r /\ slice_equiv r (Some (bytes_of_string "seal")).
Proof.
  pose proof (aws_promise (A := toy_aws) (L := Empty_set) toy_aws_laws demo_parse_path (fun _ => "")
    no_region no_chain) as Spec.
  destruct (Encrypt (L := Empty_set) (Some (bytes_of_string "seal")) [] (snd (demo_set "alias")))
    as [[b| |] s] eqn:E; [|apply (f_equal fst) in E; by vm_compute in E..].
  destruct (spec_roundtrip (WrapperSpec := Spec) (snd (demo_set "alias")) s
    (Some (bytes_of_string "seal")) [] [] b b) as (r & Hr & Hp).
  - vm_compute. eauto.
  - change ((b ← Encrypt (L := Empty_set) (Some (bytes_of_string "seal")) []; mret (Some b))
      (snd (demo_set "alias")) = (Ret (Some b), s)). by rewrite (pbind_run _ _ _ _ _ E).
  - apply no_options.
  - reflexivity.
  - exists b, r, s. split; [reflexivity|]. split; [exact Hr|exact Hp].
Defined.
