(* ===== verification/GcpCkms.v ===== *)
(** * The Google Cloud KMS wrapper

    wrappers/gcpckms: options.go and gcpckms.go.  The Cloud KMS client, which
    looks for credentials in the environment where it is given none, and the credentials
    library are external.  Where the code formats an error with [%s]
    the wrapped error is lost. *)
From S2P Require Import Prelude GoText Crypto Wrapping Envelope Cloud.
#[local] Open Scope Z_scope.

(** ** The SDK *)

(** Google credentials are opaque. *)
Inductive client_option :=
| WithUserAgent (s : string)
| WithCredentials (n : nat)
| WithCredentialsFile (path : string).

Class Gcp := {
  gcp_world : Type;
  gcp_client : Type;
  DefaultAuthScopes : list string;
  CredentialsFromJSONWithType : bytes -> string -> list string -> prog gcp_world nat;
  (* the first argument is the environment, which the SDK reads by itself *)
  NewKeyManagementClient : (string -> string) -> list client_option -> prog gcp_world gcp_client;
  gcp_GetCryptoKey : gcp_client -> string -> prog gcp_world string;
  gcp_TestPermissions : gcp_client -> string -> list string -> prog gcp_world (list string);
  gcp_Encrypt : gcp_client -> string -> slice -> prog gcp_world (string * slice);
  gcp_Decrypt : gcp_client -> string -> slice -> prog gcp_world slice;
}.

(** ** Options *)

Record options := mk_options {
  opts_Options : Options;
  withCredentialsPath : string;
  withCredentialsJSON : string;
  withCredentialsType : string;
  withCredentialsScopes : string;
  withProject : string;
  withRegion : string;
  withKeyRing : string;
  withCryptoKey : string;
  withUserAgent : string;
  withKeyNotRequired : bool;
}.

Definition getDefaultOptions (o : Options) : options := mk_options o "" "" "" "" "" "" "" "" "" false.

Definition config_step (kv : string * string) (opts : options) : outcome options :=
  let (k, v) := kv in
  let (o, cp, cj, ct, cs, pj, rg, kr, ck, ua, nr) := opts in
  let at_ := String.eqb k in
  if at_ "key_not_required" then b ← ParseBool v; Ret (mk_options o cp cj ct cs pj rg kr ck ua b)
  else if at_ "user_agent" then Ret (mk_options o cp cj ct cs pj rg kr ck v nr)
  else if at_ "credentials" then Ret (mk_options o v cj ct cs pj rg kr ck ua nr)
  else if at_ "credentials_json" then Ret (mk_options o cp v ct cs pj rg kr ck ua nr)
  else if at_ "credentials_type" then Ret (mk_options o cp cj v cs pj rg kr ck ua nr)
  else if at_ "credentials_scopes" then Ret (mk_options o cp cj ct v pj rg kr ck ua nr)
  else if at_ "project" then Ret (mk_options o cp cj ct cs v rg kr ck ua nr)
  else if at_ "region" then Ret (mk_options o cp cj ct cs pj v kr ck ua nr)
  else if at_ "key_ring" then Ret (mk_options o cp cj ct cs pj rg v ck ua nr)
  else if at_ "crypto_key" then Ret (mk_options o cp cj ct cs pj rg kr v ua nr)
  else Ret opts.

Definition set_secrets (vals : list string) (opts : options) : options :=
  let (o, cp, cj, ct, cs, pj, rg, kr, ck, ua, nr) := opts in
  match vals with [cp] => mk_options o cp cj ct cs pj rg kr ck ua nr | _ => opts end.

Definition getOpts `{RangeOrder} {L} (ParsePath : string -> string * option error)
    (opt : list (Opt L)) : outcome options :=
  o ← GetOpts opt;
  opts ← range_loop config_step (range_order (WithConfigMap_ (o_RPC o))) (getDefaultOptions o);
  vals ← parse_secrets ParsePath (disallows (opts_Options opts)) [withCredentialsPath opts];
  Ret (set_secrets vals opts).

(** ** The wrapper *)

Definition Type_gcpckms : string := "gcpckms".

Definition EnvGcpCkmsWrapperCredsPath : string := "GOOGLE_CREDENTIALS".
Definition EnvGcpCkmsWrapperProject : string := "GOOGLE_PROJECT".
Definition EnvGcpCkmsWrapperLocation : string := "GOOGLE_REGION".
Definition EnvGcpCkmsWrapperKeyRing : string := "GCPCKMS_WRAPPER_KEY_RING".
Definition EnvVaultGcpCkmsSealKeyRing : string := "VAULT_GCPCKMS_SEAL_KEY_RING".
Definition EnvGcpCkmsWrapperCryptoKey : string := "GCPCKMS_WRAPPER_CRYPTO_KEY".
Definition EnvVaultGcpCkmsSealCryptoKey : string := "VAULT_GCPCKMS_SEAL_CRYPTO_KEY".

Definition GcpCkmsEncrypt : Z := 0.
Definition GcpCkmsEnvelopeAesGcmEncrypt : Z := 1.

Definition keyPermissions : list string :=
  ["cloudkms.cryptoKeyVersions.useToSign"; "cloudkms.cryptoKeyVersions.useToVerify";
   "cloudkms.cryptoKeyVersions.viewPublicKey"; "cloudkms.cryptoKeyVersions.useToDecrypt";
   "cloudkms.cryptoKeyVersions.useToEncrypt"].

Section gcp.
Context {G : Gcp}.

Record gwrapper := mk_gwrapper {
  g_credsPath : string;
  g_credsJSON : string;
  g_credsType : string;
  g_credsScopes : string;
  g_project : string;
  g_location : string;
  g_keyRing : string;
  g_cryptoKey : string;
  g_currentKeyId : string;
  g_keyNotRequired : bool;
  g_userAgent : string;
  g_client : option gcp_client;
}.

Definition NewWrapper : gwrapper := mk_gwrapper "" "" "" "" "" "" "" "" "" false "" None.

Abbreviation state := (cloud gwrapper gcp_world).

(** The fields SetConfig assigns, one after the other. *)
Definition set_flags (nr : bool) (ua : string) (g : gwrapper) : gwrapper :=
  let (cp, cj, ct, cs, pj, lc, kr, ck, id, _, _, cl) := g in
  mk_gwrapper cp cj ct cs pj lc kr ck id nr ua cl.

Definition set_credsPath (v : string) (g : gwrapper) : gwrapper :=
  let (_, cj, ct, cs, pj, lc, kr, ck, id, nr, ua, cl) := g in
  mk_gwrapper v cj ct cs pj lc kr ck id nr ua cl.

Definition set_project (v : string) (g : gwrapper) : gwrapper :=
  let (cp, cj, ct, cs, _, lc, kr, ck, id, nr, ua, cl) := g in
  mk_gwrapper cp cj ct cs v lc kr ck id nr ua cl.

Definition set_location (v : string) (g : gwrapper) : gwrapper :=
  let (cp, cj, ct, cs, pj, _, kr, ck, id, nr, ua, cl) := g in
  mk_gwrapper cp cj ct cs pj v kr ck id nr ua cl.

Definition set_keyRing (v : string) (g : gwrapper) : gwrapper :=
  let (cp, cj, ct, cs, pj, lc, _, ck, id, nr, ua, cl) := g in
  mk_gwrapper cp cj ct cs pj lc v ck id nr ua cl.

Definition set_cryptoKey (v : string) (g : gwrapper) : gwrapper :=
  let (cp, cj, ct, cs, pj, lc, kr, _, id, nr, ua, cl) := g in
  mk_gwrapper cp cj ct cs pj lc kr v id nr ua cl.

Definition set_creds (j t sc : string) (g : gwrapper) : gwrapper :=
  let (cp, _, _, _, pj, lc, kr, ck, id, nr, ua, cl) := g in
  mk_gwrapper cp j t sc pj lc kr ck id nr ua cl.

Definition store_current (v : string) (g : gwrapper) : gwrapper :=
  let (cp, cj, ct, cs, pj, lc, kr, ck, _, nr, ua, cl) := g in
  mk_gwrapper cp cj ct cs pj lc kr ck v nr ua cl.

Definition set_client (c : option gcp_client) (g : gwrapper) : gwrapper :=
  let (cp, cj, ct, cs, pj, lc, kr, ck, id, nr, ua, _) := g in
  mk_gwrapper cp cj ct cs pj lc kr ck id nr ua c.

Definition ParentName (g : gwrapper) : string :=
  "projects/" +:+ g_project g +:+ "/locations/" +:+ g_location g +:+
  "/keyRings/" +:+ g_keyRing g +:+ "/cryptoKeys/" +:+ g_cryptoKey g.

Definition KeyId : prog state string := g ← self; mret (g_currentKeyId g).

(** The scopes of credentials given as JSON. *)
Definition cred_scopes (g : gwrapper) : list string :=
  match (if is_set (g_credsScopes g) then Split (g_credsScopes g) "," else []) with
  | [] => DefaultAuthScopes
  | l => l
  end.

Definition createClient (environ : string -> string) (disallowEnv : bool) : prog state gcp_client :=
  g ← self;
  creds ← (if is_set (g_credsJSON g) && is_set (g_credsType g) then
             c ← on_err (wrapf "failed to create credentials from provided configuration")
               (in_service (CredentialsFromJSONWithType (bytes_of_string (g_credsJSON g)) (g_credsType g)
                  (cred_scopes g)));
             mret [WithCredentials c]
           else mret []);
  let files := if negb disallowEnv && is_set (g_credsPath g) then [WithCredentialsFile (g_credsPath g)] else [] in
  on_err (wrapf "failed to create KMS client")
    (in_service (NewKeyManagementClient environ (WithUserAgent (g_userAgent g) :: creds ++ files))).

Section config.
Context (ParsePath : string -> string * option error) (getenv : string -> string).

(** A setting that must be there. *)
Definition setting (opts : options) (names : list string) (configured msg : string) : outcome string :=
  required msg (env_switch getenv (disallows (opts_Options opts)) names configured).

(** The settings, in the order of the code. *)
Definition settings (opts : options) : prog state unit :=
  _ ← update (set_flags (withKeyNotRequired opts) (withUserAgent opts));
  _ ← update (fun g => set_credsPath (or_keep (g_credsPath g)
        (env_switch getenv (disallows (opts_Options opts)) [EnvGcpCkmsWrapperCredsPath] (withCredentialsPath opts))) g);
  project ← lift (setting opts [EnvGcpCkmsWrapperProject] (withProject opts)
    "'project' not found for GCP CKMS wrapper configuration");
  _ ← update (set_project project);
  location ← lift (setting opts [EnvGcpCkmsWrapperLocation] (withRegion opts)
    "'region' not found for GCP CKMS wrapper configuration");
  _ ← update (set_location location);
  keyRing ← lift (setting opts [EnvGcpCkmsWrapperKeyRing; EnvVaultGcpCkmsSealKeyRing] (withKeyRing opts)
    "'key_ring' not found for GCP CKMS wrapper configuration");
  _ ← update (set_keyRing keyRing);
  let key := setting opts [EnvGcpCkmsWrapperCryptoKey; EnvVaultGcpCkmsSealCryptoKey] (withCryptoKey opts)
    "'crypto_key' not found for GCP CKMS wrapper configuration" in
  _ ← match key with
      | Ret key => update (set_cryptoKey key)
      | _ => if withKeyNotRequired opts then mret tt else lift (_ ← key; Ret tt)
      end;
  update (set_creds (withCredentialsJSON opts) (withCredentialsType opts) (withCredentialsScopes opts)).

(** The client of a wrapper that has none is kept before it is tested. *)
Definition init_client (disallow : bool) : prog state unit :=
  kmsClient ← on_err (wrapf "error initializing GCP CKMS wrapper client") (createClient getenv disallow);
  _ ← update (set_client (Some kmsClient));
  g ← self;
  if g_keyNotRequired g then mret tt else
  name ← on_err (fun e => ErrLeaf ("error checking key existence: " +:+ err_msg e))
    (in_service (gcp_GetCryptoKey kmsClient (ParentName g)));
  _ ← update (store_current name);
  permissions ← in_service (gcp_TestPermissions kmsClient (ParentName g) keyPermissions);
  match permissions with
  | [] => lift (Fail (ErrLeaf ("permissions check failed - ensure the service account has at least " +:+
            "roles/cloudkms.cryptoKeyEncrypterDecrypter permissions (for encryption keys) or " +:+
            "roles/cloudkms.signerVerifier permissions (for signing keys)")))
  | _ => mret tt
  end.

Definition metadata (g : gwrapper) : gmap string string :=
  <["crypto_key" := g_cryptoKey g]> (<["key_ring" := g_keyRing g]>
    (<["region" := g_location g]> {[ "project" := g_project g ]})).

Definition SetConfig `{RangeOrder} {L} (opt : list (Opt L)) : prog state WrapperConfig :=
  opts ← lift (getOpts ParsePath opt);
  _ ← settings opts;
  g ← self;
  _ ← match g_client g with Some _ => mret tt | None => init_client (disallows (opts_Options opts)) end;
  g ← self;
  mret (mkWrapperConfig (metadata g)).
End config.

(** A method of a nil client. *)
Definition with_client {A} (f : gcp_client -> gwrapper -> prog gcp_world A) : prog state A :=
  call_client g_client f.

Section crypt.
Context `{AesGcm, Entropy} {L : Type}.

Definition Encrypt (plaintext : slice) (opt : list (Opt L)) : prog state BlobInfo :=
  match plaintext with
  | None => lift (Fail (ErrLeaf "given plaintext for encryption is nil"))
  | Some _ =>
      env ← seal_envelope plaintext opt;
      resp ← with_client (fun c g => gcp_Encrypt c (ParentName g) (ei_Key env));
      _ ← update (store_current resp.1);
      mret (mkBlobInfo (ei_Ciphertext env) (ei_Iv env)
        (Some (mkKeyInfo GcpCkmsEnvelopeAesGcmEncrypt resp.1 resp.2)))
  end.

(** A blob without key information, which the caller's blob is given too. *)
Definition legacy_info (in_ : BlobInfo) : KeyInfo := default (mkKeyInfo GcpCkmsEncrypt "" None) (bi_KeyInfo in_).

Definition unwrap (info : KeyInfo) : prog state slice :=
  on_err (wrapf "failed to decrypt envelope")
    (with_client (fun c g => gcp_Decrypt c (ParentName g) (ki_WrappedKey info))).

(** A nil blob is dereferenced. *)
Definition Decrypt (in_ : option BlobInfo) (opt : list (Opt L)) : prog state slice :=
  match in_ with
  | None => lift Panic
  | Some b =>
      match bi_Ciphertext b with
      | None => lift (Fail (ErrLeaf "given ciphertext for decryption is nil"))
      | Some _ =>
          let info := legacy_info b in
          if ki_Mechanism info =? GcpCkmsEncrypt then
            on_err (wrapf "failed to decrypt data")
              (with_client (fun c g => gcp_Decrypt c (ParentName g) (bi_Ciphertext b)))
          else if ki_Mechanism info =? GcpCkmsEnvelopeAesGcmEncrypt then
            key ← unwrap info;
            lift (map_err (wrapf "error decrypting data with envelope") (open_envelope key b opt))
          else lift (Fail (ErrLeaf ("invalid mechanism: " +:+ FormatUint (ki_Mechanism info))))
      end
  end.

#[export] Instance gcp_wrapper `{RangeOrder} (ParsePath : string -> string * option error)
    (getenv : string -> string) : Wrapper L state := {|
  w_Type := mret Type_gcpckms;
  w_SetConfig opt := c ← SetConfig ParsePath getenv opt; mret (Some c);
  w_Encrypt pt opt := b ← Encrypt pt opt; mret (Some b);
  w_Decrypt b opt := Decrypt b opt;
  w_KeyId := KeyId;
|}.
End crypt.
End gcp.
Arguments gwrapper G : clear implicits.

(** ** What the service guarantees

    A key it encrypted is decrypted again by the same client, under the same key
    name. *)
Class GcpLaws (G : Gcp) := gcp_decrypts : forall c k dek w id ct w',
  gcp_Encrypt c k dek w = (Ret (id, ct), w') -> forall ct', slice_equiv ct ct' ->
  exists key w'', gcp_Decrypt c k ct' w' = (Ret key, w'') /\ slice_equiv dek key.

Section properties.
Context {G : Gcp}.

Definition client_of (s : cloud (gwrapper G) gcp_world) : option gcp_client := g_client (cl_object s).

Definition connected (s : cloud (gwrapper G) gcp_world) : Prop := is_Some (client_of s).

Lemma settings_uniform getenv opts : uniform (W := gcp_world) (g_client (G := G)) (settings getenv opts).
Proof.
  unfold settings.
  repeat first [ apply uniform_bind | apply uniform_lift_bind; intros ? _
    | apply uniform_update; by intros [] ].
  destruct (setting _ _ _ _ _); [|case_match..]; try apply uniform_lift;
    apply uniform_update; by intros [].
Qed.

Lemma gcp_getOpts_disallowed `{RangeOrder} {L} P1 P2 (opt : list (Opt L)) o :
  GetOpts opt = Ret o -> disallows o = true ->
  getOpts P1 opt = getOpts P2 opt /\
  forall opts, getOpts P1 opt = Ret opts -> disallows (opts_Options opts) = true.
Proof.
  apply (read_opts_disallowed config_step getDefaultOptions opts_Options
    (fun o => [withCredentialsPath o]) set_secrets);
    [frame_step config_step|done|frame_set set_secrets].
Qed.

(** The SDK makes the same of both environments when it creates a client. *)
Definition sdk_agrees (g1 g2 : string -> string) : Prop := forall l w,
  NewKeyManagementClient (Gcp := G) g1 l w = NewKeyManagementClient g2 l w.

Lemma createClient_agrees g1 g2 d s : sdk_agrees g1 g2 ->
  createClient (G := G) g1 d s = createClient g2 d s.
Proof.
  intros Hs. unfold createClient. rewrite !self_bind. apply bind_agrees; [done|]. intros creds s' _.
  unfold on_err, in_service, zoom. by rewrite Hs.
Qed.

(** With environment variables disallowed SetConfig itself reads neither the
    environment nor the references in the configuration: outcome and new state
    are the same whatever they hold, as long as the SDK, which goes on looking for
    credentials in the environment, makes the same of it. *)
Lemma gcp_env_isolated `{RangeOrder} {L} P1 P2 g1 g2 (opt : list (Opt L)) o s :
  GetOpts opt = Ret o -> disallows o = true -> sdk_agrees g1 g2 ->
  SetConfig (G := G) P1 g1 opt s = SetConfig P2 g2 opt s.
Proof.
  intros Ho Hd Hs. destruct (gcp_getOpts_disallowed P1 P2 opt o Ho Hd) as [E Hopts].
  unfold SetConfig. rewrite <- E, !lift_bind.
  destruct (getOpts P1 opt) as [opts|e|]; [|done..]. specialize (Hopts opts eq_refl).
  assert (Hset : settings (G := G) g1 opts = settings g2 opts).
  { unfold settings, setting. revert Hopts. generalize (disallows (opts_Options opts)). by intros ? ->. }
  apply bind_agrees; [by rewrite Hset|]. intros [] s1 _. rewrite !self_bind.
  apply bind_agrees; [|done]. destruct (g_client (cl_object s1)); [done|].
  apply bind_agrees; [|done]. unfold on_err. by rewrite (createClient_agrees g1 g2).
Qed.

(** What the SDK is asked with environment variables disallowed: without
    credentials given as JSON and their type it is asked for a client with no
    credentials at all, and takes those it finds in the environment
    (GOOGLE_APPLICATION_CREDENTIALS), also when the configuration names a
    credentials file, which is not handed over. *)
Theorem gcp_default_credentials environ (s : cloud (gwrapper G) gcp_world) :
  let g := cl_object s in
  createClient environ true s =
  if is_set (g_credsJSON g) && is_set (g_credsType g) then
    (c ← on_err (wrapf "failed to create credentials from provided configuration")
       (in_service (CredentialsFromJSONWithType (bytes_of_string (g_credsJSON g)) (g_credsType g) (cred_scopes g)));
     on_err (wrapf "failed to create KMS client")
       (in_service (NewKeyManagementClient environ [WithUserAgent (g_userAgent g); WithCredentials c]))) s
  else
    on_err (wrapf "failed to create KMS client")
      (in_service (NewKeyManagementClient environ [WithUserAgent (g_userAgent g)])) s.
Proof.
  cbv zeta. unfold createClient. rewrite self_bind. simpl. destruct (_ && _); [|done].
  unfold mbind, prog_bind. by destruct (on_err _ _ s) as [[c|e|] s1].
Qed.

(** a Cloud KMS wrapper keeps the client it made even when the test of its key
    fails. A SetConfig that failed after that point succeeds when it is called again
    with the same options, from whatever later state, without a request to the
    service: neither the key nor the permissions have been found. *)
Theorem gcp_retry_unchecked `{RangeOrder} {L} P getenv (opt : list (Opt L)) s e s1 :
  client_of s = None -> SetConfig P getenv opt s = (Fail e, s1) -> connected s1 ->
  forall s2, connected s2 ->
  exists c s3, SetConfig P getenv opt s2 = (Ret c, s3) /\ cl_service s3 = cl_service s2.
Proof.
  intros Hn Hs Hc s2 [cl Hc2]. unfold SetConfig in *. rewrite lift_bind in *.
  destruct (getOpts P opt) as [opts|er|]; [|injection Hs as -> ->; unfold connected in Hc;
    rewrite Hn in Hc; by destruct Hc|done].
  destruct (settings_uniform getenv opts) as (o & f & Hf & Hk).
  destruct o as [[]|er|].
  - rewrite (pbind_run _ _ _ _ _ (Hf s2)), self_bind. simpl. rewrite Hk.
    unfold client_of in Hc2. rewrite Hc2. by eexists _, _.
  - rewrite (pbind_run_fail _ _ _ _ _ (Hf s)) in Hs. injection Hs as <- <-.
    unfold connected, client_of in *. simpl in Hc. rewrite Hk, Hn in Hc. by destruct Hc.
  - unfold mbind, prog_bind in Hs. by rewrite Hf in Hs.
Qed.

(** ** Encrypt and Decrypt *)

Section promise.
Context `{AesGcm, Entropy} {L : Type}.

Lemma with_client_run {A} (f : gcp_client -> gwrapper G -> prog gcp_world A) s c :
  client_of s = Some c -> with_client f s = in_service (f c (cl_object s)) s.
Proof. intros Hc. unfold with_client, call_client. rewrite self_bind. unfold client_of in Hc. by rewrite Hc. Qed.

Lemma name_store id k : ParentName (G := G) (store_current id k) = ParentName k.
Proof. by destruct k. Qed.

Lemma gcp_client_store id k : g_client (G := G) (store_current id k) = g_client k.
Proof. by destruct k. Qed.

(** An Encrypt that succeeds, step by step. *)
Lemma gcp_Encrypt_Ret pt (opt : list (Opt L)) s b s' : Encrypt (G := G) pt opt s = (Ret b, s') ->
  exists env s1 c id ct w1,
    seal_envelope pt opt s = (Ret env, s1) /\ client_of s = Some c /\
    gcp_Encrypt c (ParentName (cl_object s')) (ei_Key env) (cl_service s) = (Ret (id, ct), w1) /\
    client_of s' = Some c /\ cl_service s' = w1 /\
    b = mkBlobInfo (ei_Ciphertext env) (ei_Iv env)
          (Some (mkKeyInfo GcpCkmsEnvelopeAesGcmEncrypt id ct)).
Proof.
  unfold Encrypt. destruct pt as [d|]; [|done]. rewrite pbind_Ret. intros (env & s1 & Hs & He).
  pose proof (seal_envelope_Ret _ _ _ _ _ Hs) as [E1 _]. subst s1.
  apply pbind_Ret in He as ([id ct] & s2 & He & Hr).
  apply call_client_Ret in He as (c & w1 & Hc & He & ->). injection Hr as <- <-.
  exists env, (mk_cloud (cl_object s) (cl_service s) (S (cl_draws s))), c, id, ct, w1.
  unfold client_of in *. simpl in *. rewrite name_store, gcp_client_store. done.
Qed.

Lemma with_client_object {A} (f : gcp_client -> gwrapper G -> prog gcp_world A) s a s' :
  with_client f s = (Ret a, s') -> cl_object s' = cl_object s.
Proof. intros H1. by apply call_client_Ret in H1 as (c & w & _ & _ & ->). Qed.

Lemma gcp_Decrypt_object b (opt : list (Opt L)) s s' r :
  Decrypt (G := G) b opt s = (Ret r, s') -> cl_object s' = cl_object s.
Proof.
  unfold Decrypt. destruct b as [b|]; [|done]. destruct (bi_Ciphertext b); [|done].
  cbv zeta. destruct (_ =? _). { rewrite on_err_Ret. apply with_client_object. }
  destruct (_ =? _); [|done]. rewrite pbind_Ret. intros (key & s1 & Hu & Hd).
  injection Hd as _ <-. unfold unwrap in Hu. rewrite on_err_Ret in Hu. by apply with_client_object in Hu.
Qed.

(** the Cloud KMS wrapper keeps the promise of the interface: with a service
    that decrypts what it encrypted under a name, a wrapper that has a client
    decrypts every blob it has encrypted, under the same options, also after the
    blob was stored and read back, and keeps its client. *)
Theorem gcp_promise `{!AesGcmLaws _} `{RangeOrder} (Laws : GcpLaws G) P getenv :
  WrapperSpec (gcp_wrapper (L := L) P getenv) connected.
Proof.
  apply (envelope_promise _ _ (fun ki => ki_Mechanism ki = GcpCkmsEnvelopeAesGcmEncrypt) unwrap).
  - intros s s' pt opts b _ He. apply pbind_Ret in He as (b' & s1 & He & Hb). injection Hb as <- <-.
    apply gcp_Encrypt_Ret in He as (env & s2 & c & id & ct & w1 & Hs & Hc & He & Hc' & <- & ->).
    eexists env, s2, _. split; [exact Hs|]. do 3 (split; [done|]). intros ki' (Hm & _ & Hk).
    split; [by rewrite <- Hm|]. destruct (Laws _ _ _ _ _ _ _ He _ Hk) as (key & w2 & Hd & Hkey).
    exists key. split; [|done]. unfold unwrap.
    rewrite (on_err_run _ _ _ (Ret key) (mk_cloud (cl_object s1) w2 (cl_draws s1))); [done|].
    rewrite (with_client_run _ _ _ Hc'). by apply in_service_run.
  - intros s b opts ki key r Hki Hct Hm Hu Ho. change (fst (Decrypt (Some b) opts s) = Ret r).
    unfold Decrypt, legacy_info. rewrite Hki. cbv zeta. cbn [from_option id]. unfold id. rewrite Hm.
    destruct (bi_Ciphertext b); [|done].
    change (GcpCkmsEnvelopeAesGcmEncrypt =? GcpCkmsEncrypt) with false. cbv iota. rewrite Z.eqb_refl.
    destruct (unwrap ki s) as [o s1] eqn:E. simpl in Hu. subst o.
    rewrite (pbind_run _ _ _ _ _ E). simpl. by rewrite Ho.
  - split.
    + intros s s' pt opts b _ He. apply pbind_Ret in He as (b' & s1 & He & Hb). injection Hb as <- <-.
      apply gcp_Encrypt_Ret in He as (? & ? & c & ? & ? & ? & _ & _ & _ & Hc & _). by exists c.
    + intros s s' b opts r Hc Hd. apply gcp_Decrypt_object in Hd. unfold connected, client_of in *. by rewrite Hd.
Qed.
End promise.
End properties.

(** ** Witnesses: a service that reverses what it encrypts, and has one key *)

Definition toy_name : string := "projects/p/locations/r/keyRings/k/cryptoKeys/good".

Definition toy_gcp : Gcp := {|
  gcp_world := unit;
  gcp_client := list client_option;
  DefaultAuthScopes := ["https://www.googleapis.com/auth/cloudkms"];
  CredentialsFromJSONWithType b t sc := mret (length b);
  NewKeyManagementClient environ l := mret l;
  gcp_GetCryptoKey c n := if String.eqb n toy_name then mret (n +:+ "/cryptoKeyVersions/1")
                          else lift (Fail (ErrLeaf "NotFound"));
  gcp_TestPermissions c n l := mret l;
  gcp_Encrypt c n dek := mret (n +:+ "/cryptoKeyVersions/1", Some (rev (content dek)));
  gcp_Decrypt c n ct := mret (Some (rev (content ct)));
|}.

#[local] Existing Instance toy_gcp.
#[local] Existing Instance toy_gcm.
#[local] Existing Instance toy_gcm_laws.
#[local] Existing Instance toy_entropy.
#[local] Existing Instance default_order.

Lemma toy_gcp_laws : GcpLaws toy_gcp.
Proof.
  intros c k dek w id ct w' [= <- <- <-] ct' Hc. unfold slice_equiv in *. simpl in Hc.
  eexists _, _. split; [reflexivity|]. simpl. by rewrite <- Hc, rev_involutive.
Qed.

Definition demo_config (key : string) : list (Opt Empty_set) :=
  [WithDisallowEnvVars true; WithConfigMap (<["project" := "p"]> (<["region" := "r"]>
     (<["key_ring" := "k"]> {[ "crypto_key" := key ]})))].

Definition demo_new : cloud (gwrapper toy_gcp) (@gcp_world toy_gcp) := mk_cloud NewWrapper tt 0.

Definition demo_set (key : string) (s : cloud (gwrapper toy_gcp) (@gcp_world toy_gcp)) :
    outcome WrapperConfig * cloud (gwrapper toy_gcp) (@gcp_world toy_gcp) :=
  SetConfig demo_parse_path (fun _ => "") (demo_config key) s.

Lemma gcp_retry_unchecked_witness : exists e s1 c s3,
  demo_set "missing" demo_new = (Fail e, s1) /\ demo_set "missing" s1 = (Ret c, s3).
Proof.
  destruct (demo_set "missing" demo_new) as [[c| e|] s1] eqn:E;
    [apply (f_equal fst) in E; by vm_compute in E| |apply (f_equal fst) in E; by vm_compute in E].
  assert (Hs : s1 = snd (demo_set "missing" demo_new)) by (by rewrite E).
  assert (Hc : connected s1) by (rewrite Hs; vm_compute; eauto).
  destruct (gcp_retry_unchecked (G := toy_gcp) demo_parse_path (fun _ => "") (demo_config "missing")
    demo_new e s1 eq_refl E Hc s1 Hc) as (c & s3 & H3 & _).
  exists e, s1, c, s3. split; [reflexivity|exact H3].
Defined.

Lemma gcp_promise_witness : exists b r s,
  Encrypt (L := Empty_set) (Some (bytes_of_string "seal")) [] (snd (demo_set "good" demo_new)) = (Ret b, s) /\
  fst (Decrypt (L := Empty_set) (Some b) [] s) = Ret r /\ slice_equiv r (Some (bytes_of_string "seal")).
Proof.
  pose proof (gcp_promise (G := toy_gcp) (L := Empty_set) toy_gcp_laws demo_parse_path (fun _ => "")) as Spec.
  destruct (Encrypt (L := Empty_set) (Some (bytes_of_string "seal")) [] (snd (demo_set "good" demo_new)))
    as [[b| |] s] eqn:E; [|apply (f_equal fst) in E; by vm_compute in E..].
  destruct (spec_roundtrip (WrapperSpec := Spec) (snd (demo_set "good" demo_new)) s
    (Some (bytes_of_string "seal")) [] [] b b) as (r & Hr & Hp).
  - vm_compute. eauto.
  - change ((b ← Encrypt (L := Empty_set) (Some (bytes_of_string "seal")) []; mret (Some b))
      (snd (demo_set "good" demo_new)) = (Ret (Some b), s)). by rewrite (pbind_run _ _ _ _ _ E).
  - apply no_options.
  - reflexivity.
  - exists b, r, s. split; [reflexivity|]. split; [exact Hr|exact Hp].
Defined.
