(* ===== verification/AliCloudKms.v ===== *)
(** * The AliCloud KMS wrapper

    wrappers/alicloudkms: options.go and alicloudkms.go.  The SDK is external: a
    chain of credential providers is resolved, a client made for a region, and the
    three calls of the interface [kmsClient] name key and domain in the request. *)
From S2P Require Import Prelude GoText GoEncoding Crypto Wrapping Envelope Cloud.

(** ** The SDK *)

Inductive provider :=
| EnvCredentialProvider
| ConfigurationCredentialProvider (accessKeyID accessKeySecret : string)
| InstanceMetadataProvider.

(** DescribeKey: a nil answer, or the key identifier, which may be empty. *)
Class Ali := {
  ali_world : Type;
  ali_client : Type;
  ali_Retrieve : list provider -> prog ali_world nat;
  ali_NewClientWithOptions : string -> nat -> prog ali_world ali_client;
  ali_DescribeKey : ali_client -> string -> string -> prog ali_world (option string);
  ali_Encrypt : ali_client -> string -> string -> string -> prog ali_world (string * string);
  ali_Decrypt : ali_client -> string -> string -> prog ali_world string;
}.

(** ** Options *)

Record options := mk_options {
  opts_Options : Options;
  withRegion : string;
  withDomain : string;
  withAccessKey : string;
  withSecretKey : string;
  withAccessSecret : string;
}.

Definition getDefaultOptions (o : Options) : options := mk_options o "cn-beijing" "" "" "" "".

Definition config_step (kv : string * string) (opts : options) : outcome options :=
  let (k, v) := kv in
  let (o, rg, dm, ak, sk, s) := opts in
  let at_ := String.eqb k in
  if at_ "kms_key_id" then Ret (mk_options (deprecated_key_id v o) rg dm ak sk s)
  else if at_ "region" then Ret (mk_options o v dm ak sk s)
  else if at_ "domain" then Ret (mk_options o rg v ak sk s)
  else if at_ "access_key" then Ret (mk_options o rg dm v sk s)
  else if at_ "secret_key" then Ret (mk_options o rg dm ak v s)
  else if at_ "access_secret" then Ret (mk_options o rg dm ak sk v)
  else Ret opts.

Definition set_secrets (vals : list string) (opts : options) : options :=
  let (o, rg, dm, ak, sk, s) := opts in
  match vals with [s; sk; ak] => mk_options o rg dm ak sk s | _ => opts end.

Definition getOpts `{RangeOrder} {L} (ParsePath : string -> string * option error)
    (opt : list (Opt L)) : outcome options :=
  o ← GetOpts opt;
  opts ← range_loop config_step (range_order (WithConfigMap_ (o_RPC o))) (getDefaultOptions o);
  vals ← parse_secrets ParsePath (disallows (opts_Options opts))
           [withAccessSecret opts; withSecretKey opts; withAccessKey opts];
  Ret (set_secrets vals opts).

(** ** The wrapper *)

Definition Type_alicloudkms : string := "alicloudkms".

Definition EnvAliCloudKmsWrapperKeyId : string := "ALICLOUDKMS_WRAPPER_KEY_ID".
Definition EnvVaultAliCloudKmsSealKeyId : string := "VAULT_ALICLOUDKMS_SEAL_KEY_ID".

Section ali.
Context {A : Ali}.

Record wrapper := mk_wrapper {
  client : option ali_client;
  domain : string;
  keyId : string;
  currentKeyId : string;
}.

Definition NewWrapper : wrapper := mk_wrapper None "" "" "".

Abbreviation state := (cloud wrapper ali_world).

Definition set_client (c : option ali_client) (k : wrapper) : wrapper :=
  mk_wrapper c (domain k) (keyId k) (currentKeyId k).

Definition set_domain (d : string) (k : wrapper) : wrapper :=
  mk_wrapper (client k) d (keyId k) (currentKeyId k).

Definition set_keyId (id : string) (k : wrapper) : wrapper :=
  mk_wrapper (client k) (domain k) id (currentKeyId k).

Definition store_current (id : string) (k : wrapper) : wrapper :=
  mk_wrapper (client k) (domain k) (keyId k) id.

Definition KeyId : prog state string := k ← self; mret (currentKeyId k).

Section config.
Context (ParsePath : string -> string * option error) (getenv : string -> string).

(** The credential chain: the environment first and the instance last, where they
    are allowed. *)
Definition credential_chain (opts : options) : list provider :=
  let d := disallows (opts_Options opts) in
  let secret := if String.eqb (withSecretKey opts) "" then withAccessSecret opts else withSecretKey opts in
  (if d then [] else [EnvCredentialProvider]) ++
  [ConfigurationCredentialProvider (withAccessKey opts) secret] ++
  (if d then [] else [InstanceMetadataProvider]).

(** The client of a wrapper that has none; the answer is the region. *)
Definition init_client (opts : options) : prog state string :=
  let d := disallows (opts_Options opts) in
  let region := env_or getenv d "ALICLOUD_REGION" (withRegion opts) in
  _ ← update (fun k => set_domain (if d then domain k else getenv "ALICLOUD_DOMAIN") k);
  _ ← update (fun k => set_domain (if String.eqb (domain k) "" then withDomain opts else domain k) k);
  creds ← in_service (ali_Retrieve (credential_chain opts));
  c ← in_service (ali_NewClientWithOptions region creds);
  _ ← update (set_client (Some c));
  mret region.

(** A method of a nil interface. *)
Definition with_client {B} (f : ali_client -> wrapper -> prog ali_world B) : prog state B :=
  call_client client f.

Definition metadata (region : string) (k : wrapper) : gmap string string :=
  let m : gmap string string := <["kms_key_id" := keyId k]> {[ "region" := region ]} in
  if is_set (domain k) then <["domain" := domain k]> m else m.

Definition SetConfig `{RangeOrder} {L} (opt : list (Opt L)) : prog state WrapperConfig :=
  opts ← lift (getOpts ParsePath opt);
  let o := opts_Options opts in
  id ← lift (required "key id not found (env or config) for alicloud kms wrapper configuration"
    (env_switch getenv (disallows o) [EnvAliCloudKmsWrapperKeyId; EnvVaultAliCloudKmsSealKeyId]
       (configured_key o)));
  _ ← update (set_keyId id);
  k ← self;
  region ← match client k with Some _ => mret "" | None => init_client opts end;
  keyInfo ← on_err (wrapf "error fetching AliCloud KMS key information")
    (with_client (fun c k => ali_DescribeKey c (keyId k) (domain k)));
  match keyInfo with
  | None | Some "" => lift (Fail (ErrLeaf "no key information returned"))
  | Some id =>
      _ ← update (store_current id);
      k ← self;
      mret (mkWrapperConfig (metadata region k))
  end.
End config.

(** The request for a key, given as text; the identifier it is answered with is
    stored. *)
Definition encrypt_text (text : string) : prog state (string * string) :=
  output ← on_err (wrapf "error encrypting data")
    (with_client (fun c k => ali_Encrypt c (keyId k) text (domain k)));
  _ ← update (store_current output.1);
  mret output.

Definition decrypt_text (info : KeyInfo) (ciphertext : string) : prog state string :=
  on_err (wrapf "error decrypting data encryption key")
    (with_client (fun c k => ali_Decrypt c ciphertext (domain k))).

Section crypt.
Context `{AesGcm, Entropy} {L : Type}.

Definition Encrypt : slice -> list (Opt L) -> prog state BlobInfo :=
  checked_Encrypt 0 (text_wrap encrypt_text).

Definition Decrypt : option BlobInfo -> list (Opt L) -> prog state slice :=
  checked_Decrypt "error decrypting data" (text_unwrap decrypt_text id).

#[export] Instance ali_wrapper `{RangeOrder} (ParsePath : string -> string * option error)
    (getenv : string -> string) : Wrapper L state := {|
  w_Type := mret Type_alicloudkms;
  w_SetConfig opt := c ← SetConfig ParsePath getenv opt; mret (Some c);
  w_Encrypt pt opt := b ← Encrypt pt opt; mret (Some b);
  w_Decrypt b opt := Decrypt b opt;
  w_KeyId := KeyId;
|}.
End crypt.
End ali.
Arguments wrapper A : clear implicits.

(** ** What the service guarantees

    The text it encrypted is decrypted again by the same client, in the same
    domain. *)
Class AliLaws (A : Ali) := ali_decrypts : forall c k d text w id ct w',
  ali_Encrypt c k text d w = (Ret (id, ct), w') ->
  exists w'', ali_Decrypt c ct d w' = (Ret text, w'').

Section properties.
Context {A : Ali}.

Definition connected (k : wrapper A) : Prop := is_Some (client k).

Lemma ali_encrypt_decrypt (Laws : AliLaws A) s s' t id ct :
  connected (cl_object s) -> encrypt_text t s = (Ret (id, ct), s') ->
  connected (cl_object s') /\ forall info, exists s'', decrypt_text info ct s' = (Ret t, s'').
Proof.
  intros _ Hw. apply pbind_Ret in Hw as ([i c] & s1 & Hw & Hr). injection Hr as <- <- <-.
  rewrite on_err_Ret in Hw. apply call_client_Ret in Hw as (cl & w & Hc & Hw & ->).
  split; [by exists cl|]. intros info. destruct (Laws _ _ _ _ _ _ _ _ Hw) as (w2 & Hd).
  eexists. unfold decrypt_text. apply on_err_Ret. unfold with_client, call_client. rewrite self_bind. simpl. rewrite Hc.
  by apply in_service_at.
Qed.

(** The AliCloud wrapper keeps the promise of the interface: with a service that
    decrypts what it encrypted, a wrapper that has a client decrypts every blob it
    has encrypted, under the same options, also after the blob was stored and read
    back, and keeps its client. *)
Lemma ali_promise `{AesGcm, Entropy} {L} `{!AesGcmLaws _} `{RangeOrder} (Laws : AliLaws A) P getenv :
  WrapperSpec (ali_wrapper (L := L) P getenv) (fun s => connected (cl_object s)).
Proof.
  apply (text_promise _ connected 0 "error decrypting data" encrypt_text decrypt_text id).
  - done.
  - done.
  - by apply ali_encrypt_decrypt.
  - intros info t a s1 s2 Ha. apply on_err_Ret, call_client_Ret in Ha as (c & w & _ & _ & ->). done.
Qed.

Lemma ali_getOpts_disallowed `{RangeOrder} {L} P1 P2 (opt : list (Opt L)) o :
  GetOpts opt = Ret o -> disallows o = true ->
  getOpts P1 opt = getOpts P2 opt /\
  forall opts, getOpts P1 opt = Ret opts -> disallows (opts_Options opts) = true.
Proof.
  apply (read_opts_disallowed config_step getDefaultOptions opts_Options
    (fun o => [withAccessSecret o; withSecretKey o; withAccessKey o]) set_secrets);
    [frame_step config_step|done|frame_set set_secrets].
Qed.

(** With environment variables disallowed SetConfig reads neither the environment
    nor the references in the configuration: outcome and new state are the same
    whatever they hold. *)
Lemma ali_env_isolated `{RangeOrder} {L} P1 P2 g1 g2 (opt : list (Opt L)) o s :
  GetOpts opt = Ret o -> disallows o = true ->
  SetConfig (A := A) P1 g1 opt s = SetConfig P2 g2 opt s.
Proof.
  intros Ho Hd. destruct (ali_getOpts_disallowed P1 P2 opt o Ho Hd) as [E Hopts].
  unfold SetConfig. rewrite <- E, !lift_bind.
  destruct (getOpts P1 opt) as [opts|e|]; [|done..].
  specialize (Hopts opts eq_refl). unfold init_client, credential_chain, env_or.
  revert Hopts. generalize (disallows (opts_Options opts)). by intros ? ->.
Qed.
End properties.
