(* ===== verification/HuaweiCloudKms.v ===== *)
(** * The HuaweiCloud KMS wrapper

    wrappers/huaweicloudkms: options.go and huaweicloudkms.go.  The SDK is
    external: clients are made, authenticated and turned into service clients, and
    the two requests the wrapper posts itself are answered with the string fields of
    a JSON object.  The environment is read whatever the options say. *)
From S2P Require Import Prelude GoText GoEncoding Crypto Wrapping Envelope Cloud.

(** ** The SDK *)

Record AKSKAuthOptions := mkAKSKAuthOptions {
  ak_Region : string;
  ak_ProjectName : string;
  ak_AccessKey : string;
  ak_SecretKey : string;
  ak_IdentityEndpoint : string;
}.

Class Huawei := {
  hw_world : Type;
  hw_provider : Type;
  hw_service : Type;
  hw_NewClient : string -> prog hw_world hw_provider;
  hw_Authenticate : hw_provider -> AKSKAuthOptions -> prog hw_world unit;
  hw_NewKMSV1 : hw_provider -> string -> prog hw_world hw_service;
  hw_KeyInfo : hw_service -> string -> prog hw_world string;
  hw_Post : hw_service -> list string -> gmap string string -> prog hw_world (gmap string string);
}.

(** ** Options *)

Record options := mk_options {
  opts_Options : Options;
  withRegion : string;
  withProject : string;
  withAccessKey : string;
  withSecretKey : string;
  withIdentityEndpoint : string;
}.

Definition getDefaultOptions (o : Options) : options :=
  mk_options o "" "" "" "" "https://iam.myhwclouds.com:443/v3".

Definition config_step (kv : string * string) (opts : options) : outcome options :=
  let (k, v) := kv in
  let (o, rg, pj, ak, sk, ep) := opts in
  let at_ := String.eqb k in
  if at_ "kms_key_id" then Ret (mk_options (deprecated_key_id v o) rg pj ak sk ep)
  else if at_ "region" then Ret (mk_options o v pj ak sk ep)
  else if at_ "project" then Ret (mk_options o rg v ak sk ep)
  else if at_ "access_key" then Ret (mk_options o rg pj v sk ep)
  else if at_ "secret_key" then Ret (mk_options o rg pj ak v ep)
  else if at_ "identity_endpoint" then Ret (mk_options o rg pj ak sk v)
  else Ret opts.

Definition set_secrets (vals : list string) (opts : options) : options :=
  let (o, rg, pj, ak, sk, ep) := opts in
  match vals with [sk; ak] => mk_options o rg pj ak sk ep | _ => opts end.

Definition getOpts `{RangeOrder} {L} (ParsePath : string -> string * option error)
    (opt : list (Opt L)) : outcome options :=
  o ← GetOpts opt;
  opts ← range_loop config_step (range_order (WithConfigMap_ (o_RPC o))) (getDefaultOptions o);
  vals ← parse_secrets ParsePath (disallows (opts_Options opts)) [withSecretKey opts; withAccessKey opts];
  Ret (set_secrets vals opts).

(** ** The wrapper *)

Definition Type_huaweicloudkms : string := "huaweicloudkms".

Definition EnvHuaweiCloudKmsWrapperKeyId : string := "HUAWEICLOUDKMS_WRAPPER_KEY_ID".

(** The first value that is set. *)
Fixpoint getConfig (name : string) (values : list string) : outcome string :=
  match values with
  | [] => Fail (ErrLeaf ("'" +:+ name +:+ "' not found for HuaweiCloud kms wrapper configuration"))
  | v :: values => if negb (String.eqb "" v) then Ret v else getConfig name values
  end.

Section huawei.
Context {A : Huawei}.

Record kmsClientImpl := mk_kmsClientImpl {
  c_region : string;
  c_project : string;
  c_client : hw_service;
}.

Record wrapper := mk_wrapper {
  client : option kmsClientImpl;
  keyId : string;
  currentKeyId : string;
}.

Definition NewWrapper : wrapper := mk_wrapper None "" "".

Abbreviation state := (cloud wrapper hw_world).

Definition set_client (c : option kmsClientImpl) (k : wrapper) : wrapper :=
  mk_wrapper c (keyId k) (currentKeyId k).

Definition set_keyId (id : string) (k : wrapper) : wrapper := mk_wrapper (client k) id (currentKeyId k).

Definition store_current (id : string) (k : wrapper) : wrapper := mk_wrapper (client k) (keyId k) id.

Definition KeyId : prog state string := k ← self; mret (currentKeyId k).

(** ** The client *)

Definition describeKey (c : kmsClientImpl) (key : string) : prog hw_world string :=
  hw_KeyInfo (c_client c) key.

(** The answer's [key_id] and [cipher_text]. *)
Definition client_encrypt (c : kmsClientImpl) (key plainText : string) : prog hw_world (string * string) :=
  body ← on_err (fun e => ErrLeaf ("error encrypting data: " +:+ err_msg e))
    (hw_Post (c_client c) ["kms"; "encrypt-data"] (<["key_id" := key]> {[ "plain_text" := plainText ]}));
  mret (default "" (body !! "key_id"), default "" (body !! "cipher_text")).

Definition client_decrypt (c : kmsClientImpl) (cipherText : string) : prog hw_world string :=
  body ← on_err (fun e => ErrLeaf ("error decrypting data: " +:+ err_msg e))
    (hw_Post (c_client c) ["kms"; "decrypt-data"] {[ "cipher_text" := cipherText ]});
  mret (default "" (body !! "plain_text")).

Definition buildServiceClient (option_ : AKSKAuthOptions) : prog hw_world hw_service :=
  c ← hw_NewClient (ak_IdentityEndpoint option_);
  _ ← hw_Authenticate c option_;
  hw_NewKMSV1 c (ak_Region option_).

Definition buildKMSClient (getenv : string -> string) (opts : options) : prog hw_world kmsClientImpl :=
  region ← lift (getConfig "region" [getenv "HUAWEICLOUD_REGION"; withRegion opts]);
  project ← lift (getConfig "project" [getenv "HUAWEICLOUD_PROJECT"; withProject opts]);
  accessKey ← lift (getConfig "access_key" [getenv "HUAWEICLOUD_ACCESS_KEY"; withAccessKey opts]);
  secretKey ← lift (getConfig "secret_key" [getenv "HUAWEICLOUD_SECRET_KEY"; withSecretKey opts]);
  let endpoint := match getConfig "identity_endpoint"
      [getenv "HUAWEICLOUD_IDENTITY_ENDPOINT"; withIdentityEndpoint opts] with Ret e => e | _ => "" end in
  c ← buildServiceClient (mkAKSKAuthOptions region project accessKey secretKey endpoint);
  mret (mk_kmsClientImpl region project c).

(** A method of a nil interface. *)
Definition with_client {B} (f : kmsClientImpl -> wrapper -> prog hw_world B) : prog state B :=
  call_client client f.

Section config.
Context (ParsePath : string -> string * option error) (getenv : string -> string).

Definition init_client (opts : options) : prog state unit :=
  c ← in_service (buildKMSClient getenv opts);
  update (set_client (Some c)).

Definition metadata (k : wrapper) (c : kmsClientImpl) : gmap string string :=
  <["kms_key_id" := keyId k]> (<["project" := c_project c]> {[ "region" := c_region c ]}).

Definition SetConfig `{RangeOrder} {L} (opt : list (Opt L)) : prog state WrapperConfig :=
  opts ← lift (getOpts ParsePath opt);
  id ← lift (getConfig "kms_key_id" [getenv EnvHuaweiCloudKmsWrapperKeyId; configured_key (opts_Options opts)]);
  _ ← update (set_keyId id);
  k ← self;
  _ ← match client k with Some _ => mret tt | None => init_client opts end;
  current ← on_err (wrapf "error fetching HuaweiCloud KMS key information")
    (with_client (fun c k => describeKey c (keyId k)));
  _ ← update (store_current current);
  k ← self;
  match client k with
  | None => lift Panic
  | Some c => mret (mkWrapperConfig (metadata k c))
  end.
End config.

Definition encrypt_text (text : string) : prog state (string * string) :=
  output ← on_err (wrapf "error encrypting data") (with_client (fun c k => client_encrypt c (keyId k) text));
  _ ← update (store_current output.1);
  mret output.

Definition decrypt_text (info : KeyInfo) (ciphertext : string) : prog state string :=
  on_err (wrapf "error decrypting data encryption key") (with_client (fun c k => client_decrypt c ciphertext)).

Section crypt.
Context `{AesGcm, Entropy} {L : Type}.

Definition Encrypt : slice -> list (Opt L) -> prog state BlobInfo :=
  checked_Encrypt 0 (text_wrap encrypt_text).

Definition Decrypt : option BlobInfo -> list (Opt L) -> prog state slice :=
  checked_Decrypt "error decrypting data" (text_unwrap decrypt_text id).

#[export] Instance huawei_wrapper `{RangeOrder} (ParsePath : string -> string * option error)
    (getenv : string -> string) : Wrapper L state := {|
  w_Type := mret Type_huaweicloudkms;
  w_SetConfig opt := c ← SetConfig ParsePath getenv opt; mret (Some c);
  w_Encrypt pt opt := b ← Encrypt pt opt; mret (Some b);
  w_Decrypt b opt := Decrypt b opt;
  w_KeyId := KeyId;
|}.
End crypt.
End huawei.
Arguments kmsClientImpl A : clear implicits.
Arguments wrapper A : clear implicits.

(** ** What the service guarantees

    A ciphertext in the answer to an encrypt request is decrypted to the text of
    that request. *)
Class HuaweiLaws (A : Huawei) := huawei_decrypts : forall c k text w body w',
  hw_Post c ["kms"; "encrypt-data"] (<["key_id" := k]> {[ "plain_text" := text ]}) w = (Ret body, w') ->
  exists body' w'', hw_Post c ["kms"; "decrypt-data"]
      {[ "cipher_text" := default "" (body !! "cipher_text") ]} w' = (Ret body', w'') /\
    body' !! "plain_text" = Some text.

Section properties.
Context {A : Huawei}.

Definition connected (k : wrapper A) : Prop := is_Some (client k).

Lemma huawei_encrypt_decrypt (Laws : HuaweiLaws A) s s' t id ct :
  connected (cl_object s) -> encrypt_text t s = (Ret (id, ct), s') ->
  connected (cl_object s') /\ forall info, exists s'', decrypt_text info ct s' = (Ret t, s'').
Proof.
  intros _ Hw. apply pbind_Ret in Hw as ([i c] & s1 & Hw & Hr). injection Hr as <- <- <-.
  rewrite on_err_Ret in Hw. apply call_client_Ret in Hw as (cl & w & Hc & Hw & ->).
  split; [by exists cl|]. intros info.
  apply pbind_Ret in Hw as (body & w1 & Hp & Hr). injection Hr as <- <- <-. rewrite on_err_Ret in Hp.
  destruct (Laws _ _ _ _ _ _ Hp) as (body' & w2 & Hd & Ht).
  eexists. unfold decrypt_text. apply on_err_Ret. unfold with_client, call_client. rewrite self_bind. simpl. rewrite Hc.
  apply in_service_at. unfold client_decrypt. apply pbind_Ret. exists body', w2.
  rewrite on_err_Ret. split; [exact Hd|]. by rewrite Ht.
Qed.

(** The HuaweiCloud wrapper keeps the promise of the interface. *)
Lemma huawei_promise `{AesGcm, Entropy} {L} `{!AesGcmLaws _} `{RangeOrder} (Laws : HuaweiLaws A) P getenv :
  WrapperSpec (huawei_wrapper (L := L) P getenv) (fun s => connected (cl_object s)).
Proof.
  apply (text_promise _ connected 0 "error decrypting data" encrypt_text decrypt_text id).
  - done.
  - done.
  - by apply huawei_encrypt_decrypt.
  - intros info t a s1 s2 Ha. apply on_err_Ret, call_client_Ret in Ha as (c & w & _ & _ & ->). done.
Qed.

Lemma init_client_key getenv opts (s s' : cloud (wrapper A) hw_world) :
  init_client getenv opts s = (Ret tt, s') -> keyId (cl_object s') = keyId (cl_object s).
Proof.
  intros H1. apply pbind_Ret in H1 as (c & s1 & H1 & H2). apply in_service_Ret in H1 as (w & _ & ->).
  by injection H2 as <-.
Qed.

(** The key of the environment is taken whenever there is one: disallowing the
    environment changes nothing. *)
Lemma huawei_env_wins `{RangeOrder} {L} P getenv (opt : list (Opt L)) (s s' : cloud (wrapper A) hw_world) c :
  SetConfig P getenv opt s = (Ret c, s') -> getenv EnvHuaweiCloudKmsWrapperKeyId <> "" ->
  keyId (cl_object s') = getenv EnvHuaweiCloudKmsWrapperKeyId.
Proof.
  intros Hs Hk. unfold SetConfig in Hs. rewrite lift_bind in Hs.
  destruct (getOpts P opt) as [opts|e|]; [|done..]. rewrite lift_bind in Hs.
  assert (E : getConfig "kms_key_id" [getenv EnvHuaweiCloudKmsWrapperKeyId; configured_key (opts_Options opts)]
    = Ret (getenv EnvHuaweiCloudKmsWrapperKeyId)).
  { simpl. destruct (getenv EnvHuaweiCloudKmsWrapperKeyId); done. }
  rewrite E in Hs. rewrite update_bind, self_bind in Hs. set (s1 := mk_cloud _ _ _) in Hs.
  apply pbind_Ret in Hs as ([] & s2 & Hi & Hs).
  assert (K : keyId (cl_object s2) = getenv EnvHuaweiCloudKmsWrapperKeyId).
  { transitivity (keyId (cl_object s1)); [|done].
    destruct (client _); [by injection Hi as <-|by apply init_client_key in Hi]. }
  apply pbind_Ret in Hs as (id & s3 & Hd & Hs). rewrite on_err_Ret in Hd.
  apply call_client_Ret in Hd as (cl & w & Hc & _ & ->). rewrite update_bind, self_bind in Hs. simpl in Hs.
  rewrite Hc in Hs. by injection Hs as _ <-.
Qed.
End properties.
