(* ===== verification/TencentCloudKms.v ===== *)
(** * The TencentCloud KMS wrapper

    wrappers/tencentcloudkms: options.go and tencentcloudkms.go.  The SDK is
    external; the fields of its answers are pointers, dereferenced without a check
    where the code does so.  The environment is read whatever the options say. *)
From S2P Require Import Prelude GoText GoEncoding Crypto Wrapping Envelope Cloud.

(** ** The SDK

    Credentials are an access key, a secret key and a session token. *)
Class Tencent := {
  tc_world : Type;
  tc_client : Type;
  tc_NewClient : string -> string -> string -> string -> prog tc_world tc_client;
  tc_DescribeKey : tc_client -> string -> prog tc_world (option (option string));
  tc_Encrypt : tc_client -> string -> string -> prog tc_world (option string * option string);
  tc_Decrypt : tc_client -> string -> prog tc_world (option string);
}.

(** ** Options *)

Record options := mk_options {
  opts_Options : Options;
  withRegion : string;
  withAccessKey : string;
  withSecretKey : string;
  withSessionToken : string;
}.

Definition getDefaultOptions (o : Options) : options := mk_options o "ap-guangzhou" "" "" "".

Definition config_step (kv : string * string) (opts : options) : outcome options :=
  let (k, v) := kv in
  let (o, rg, ak, sk, st) := opts in
  let at_ := String.eqb k in
  if at_ "kms_key_id" then Ret (mk_options (deprecated_key_id v o) rg ak sk st)
  else if at_ "region" then Ret (mk_options o v ak sk st)
  else if at_ "access_key" then Ret (mk_options o rg v sk st)
  else if at_ "secret_key" then Ret (mk_options o rg ak v st)
  else if at_ "session_token" then Ret (mk_options o rg ak sk v)
  else Ret opts.

Definition set_secrets (vals : list string) (opts : options) : options :=
  let (o, rg, ak, sk, st) := opts in
  match vals with [sk; ak; st] => mk_options o rg ak sk st | _ => opts end.

Definition getOpts `{RangeOrder} {L} (ParsePath : string -> string * option error)
    (opt : list (Opt L)) : outcome options :=
  o ← GetOpts opt;
  opts ← range_loop config_step (range_order (WithConfigMap_ (o_RPC o))) (getDefaultOptions o);
  vals ← parse_secrets ParsePath (disallows (opts_Options opts))
           [withSecretKey opts; withAccessKey opts; withSessionToken opts];
  Ret (set_secrets vals opts).

(** ** The wrapper *)

Definition Type_tencentcloudkms : string := "tencentcloudkms".

Definition PROVIDER_SECRET_ID : string := "TENCENTCLOUD_SECRET_ID".
Definition PROVIDER_SECRET_KEY : string := "TENCENTCLOUD_SECRET_KEY".
Definition PROVIDER_SECURITY_TOKEN : string := "TENCENTCLOUD_SECURITY_TOKEN".
Definition PROVIDER_REGION : string := "TENCENTCLOUD_REGION".
Definition PROVIDER_KMS_KEY_ID : string := "TENCENTCLOUD_KMS_KEY_ID".

(** A nil pointer that is dereferenced. *)
Definition deref {A} (p : option A) : outcome A := match p with Some a => Ret a | None => Panic end.

Section tencent.
Context {T : Tencent}.

Record wrapper := mk_wrapper {
  accessKey : string;
  secretKey : string;
  sessionToken : string;
  region : string;
  keyId : string;
  currentKeyId : string;
  client : option tc_client;
}.

Definition NewWrapper : wrapper := mk_wrapper "" "" "" "" "" "" None.

Abbreviation state := (cloud wrapper tc_world).

Definition set_keyId (v : string) (k : wrapper) : wrapper :=
  let (ak, sk, st, rg, _, id, cl) := k in mk_wrapper ak sk st rg v id cl.
Definition set_region (v : string) (k : wrapper) : wrapper :=
  let (ak, sk, st, _, ki, id, cl) := k in mk_wrapper ak sk st v ki id cl.
Definition set_accessKey (v : string) (k : wrapper) : wrapper :=
  let (_, sk, st, rg, ki, id, cl) := k in mk_wrapper v sk st rg ki id cl.
Definition set_secretKey (v : string) (k : wrapper) : wrapper :=
  let (ak, _, st, rg, ki, id, cl) := k in mk_wrapper ak v st rg ki id cl.
Definition set_sessionToken (v : string) (k : wrapper) : wrapper :=
  let (ak, sk, _, rg, ki, id, cl) := k in mk_wrapper ak sk v rg ki id cl.
Definition store_current (v : string) (k : wrapper) : wrapper :=
  let (ak, sk, st, rg, ki, _, cl) := k in mk_wrapper ak sk st rg ki v cl.
Definition set_client (c : option tc_client) (k : wrapper) : wrapper :=
  let (ak, sk, st, rg, ki, id, _) := k in mk_wrapper ak sk st rg ki id c.

Definition KeyId : prog state string := k ← self; mret (currentKeyId k).

Section config.
Context (ParsePath : string -> string * option error) (getenv : string -> string).

(** A switch of SetConfig: the variable, then the configured value. *)
Definition setting (name configured : string) : string := env_switch getenv false [name] configured.

Definition settings (opts : options) : prog state unit :=
  id ← lift (required "'key_id' not found for TencentCloud kms wrapper configuration"
    (setting PROVIDER_KMS_KEY_ID (configured_key (opts_Options opts))));
  _ ← update (set_keyId id);
  _ ← update (fun k => set_region (or_keep (region k) (setting PROVIDER_REGION (withRegion opts))) k);
  ak ← lift (required "'access_key' not found for TencentCloud KMS wrapper configuration"
    (setting PROVIDER_SECRET_ID (withAccessKey opts)));
  _ ← update (set_accessKey ak);
  sk ← lift (required "'secret_key' not found for TencentCloud KMS wrapper configuration"
    (setting PROVIDER_SECRET_KEY (withSecretKey opts)));
  _ ← update (set_secretKey sk);
  update (fun k => set_sessionToken
    (or_keep (sessionToken k) (setting PROVIDER_SECURITY_TOKEN (withSessionToken opts))) k).

(** The client of a wrapper that has none, kept when it finds the key. *)
Definition init_client : prog state unit :=
  k ← self;
  c ← on_err (wrapf "error initializing TencentCloud KMS client")
    (in_service (tc_NewClient (accessKey k) (secretKey k) (sessionToken k) (region k)));
  keyInfo ← on_err (wrapf "error fetching TencentCloud KMS information")
    (in_service (tc_DescribeKey c (keyId k)));
  match keyInfo with
  | Some (Some id) => _ ← update (store_current id); update (set_client (Some c))
  | _ => lift (Fail (ErrLeaf "no key information return"))
  end.

Definition metadata (k : wrapper) : gmap string string :=
  <["kms_key_id" := keyId k]> {[ "region" := region k ]}.

Definition SetConfig `{RangeOrder} {L} (opt : list (Opt L)) : prog state WrapperConfig :=
  opts ← lift (getOpts ParsePath opt);
  _ ← settings opts;
  k ← self;
  _ ← match client k with Some _ => mret tt | None => init_client end;
  k ← self;
  mret (mkWrapperConfig (metadata k)).
End config.

(** A method of a nil interface. *)
Definition with_client {B} (f : tc_client -> wrapper -> prog tc_world B) : prog state B :=
  call_client client f.

Definition encrypt_text (text : string) : prog state (string * string) :=
  output ← on_err (wrapf "error encrypting data") (with_client (fun c k => tc_Encrypt c (keyId k) text));
  id ← lift (deref output.1);
  _ ← update (store_current id);
  ct ← lift (deref output.2);
  mret (id, ct).

Definition decrypt_text (info : KeyInfo) (ciphertext : string) : prog state string :=
  output ← on_err (wrapf "error decrypting data encryption key") (with_client (fun c k => tc_Decrypt c ciphertext));
  lift (deref output).

Section crypt.
Context `{AesGcm, Entropy} {L : Type}.

Definition Encrypt : slice -> list (Opt L) -> prog state BlobInfo :=
  checked_Encrypt 0 (text_wrap encrypt_text).

Definition Decrypt : option BlobInfo -> list (Opt L) -> prog state slice :=
  checked_Decrypt "error decrypting data" (text_unwrap decrypt_text id).

#[export] Instance tencent_wrapper `{RangeOrder} (ParsePath : string -> string * option error)
    (getenv : string -> string) : Wrapper L state := {|
  w_Type := mret Type_tencentcloudkms;
  w_SetConfig opt := c ← SetConfig ParsePath getenv opt; mret (Some c);
  w_Encrypt pt opt := b ← Encrypt pt opt; mret (Some b);
  w_Decrypt b opt := Decrypt b opt;
  w_KeyId := KeyId;
|}.
End crypt.
End tencent.
Arguments wrapper T : clear implicits.

(** ** What the service guarantees *)
Class TencentLaws (T : Tencent) := tencent_decrypts : forall c k text w id ct w',
  tc_Encrypt c k text w = (Ret (id, Some ct), w') -> exists w'', tc_Decrypt c ct w' = (Ret (Some text), w'').

Section properties.
Context {T : Tencent}.

Definition connected (k : wrapper T) : Prop := is_Some (client k).

Lemma tencent_client_store v k : client (T := T) (store_current v k) = client k.
Proof. by destruct k. Qed.

Lemma tencent_encrypt_decrypt (Laws : TencentLaws T) s s' t id ct :
  connected (cl_object s) -> encrypt_text t s = (Ret (id, ct), s') ->
  connected (cl_object s') /\ forall info, exists s'', decrypt_text info ct s' = (Ret t, s'').
Proof.
  intros _ Hw. apply pbind_Ret in Hw as ([[i|] [c|]] & s1 & Hw & Hr); try done.
  injection Hr as <- <- <-. rewrite on_err_Ret in Hw.
  apply call_client_Ret in Hw as (cl & w & Hc & Hw & ->).
  split; [exists cl; simpl; by rewrite tencent_client_store|]. intros info.
  destruct (Laws _ _ _ _ _ _ _ Hw) as (w2 & Hd). eexists. unfold decrypt_text. apply pbind_Ret.
  eexists (Some t), _. rewrite on_err_Ret. split; [|reflexivity].
  unfold with_client, call_client. rewrite self_bind. simpl. rewrite tencent_client_store, Hc. by apply in_service_at.
Qed.

(** The TencentCloud wrapper keeps the promise of the interface. *)
Lemma tencent_promise `{AesGcm, Entropy} {L} `{!AesGcmLaws _} `{RangeOrder} (Laws : TencentLaws T) P getenv :
  WrapperSpec (tencent_wrapper (L := L) P getenv) (fun s => connected (cl_object s)).
Proof.
  apply (text_promise _ connected 0 "error decrypting data" encrypt_text decrypt_text id).
  - done.
  - done.
  - by apply tencent_encrypt_decrypt.
  - intros info t a s1 s2 Ha. apply pbind_Ret in Ha as (o & s3 & Ha & Hr). injection Hr as _ <-.
    apply on_err_Ret, call_client_Ret in Ha as (c & w & _ & _ & ->). done.
Qed.

(** What SetConfig reads of the environment. *)
Definition from_env (getenv : string -> string) (k : wrapper T) : Prop :=
  (getenv PROVIDER_KMS_KEY_ID <> "" -> keyId k = getenv PROVIDER_KMS_KEY_ID) /\
  (getenv PROVIDER_SECRET_ID <> "" -> accessKey k = getenv PROVIDER_SECRET_ID) /\
  (getenv PROVIDER_SECRET_KEY <> "" -> secretKey k = getenv PROVIDER_SECRET_KEY).

Lemma required_setting getenv name configured msg v :
  required msg (setting getenv name configured) = Ret v -> getenv name <> "" -> v = getenv name.
Proof.
  unfold required, setting. intros H1 H2. rewrite (env_switch_set getenv name [] configured H2) in H1.
  destruct (String.eqb_spec (getenv name) ""); [done|]. by injection H1.
Qed.

Lemma settings_from_env getenv opts (s s' : cloud (wrapper T) tc_world) :
  settings getenv opts s = (Ret tt, s') -> from_env getenv (cl_object s').
Proof.
  unfold settings. rewrite lift_bind.
  destruct (required _ (setting getenv PROVIDER_KMS_KEY_ID _)) as [id| |] eqn:E1; [|done..].
  rewrite !update_bind, lift_bind.
  destruct (required _ (setting getenv PROVIDER_SECRET_ID _)) as [ak| |] eqn:E2; [|done..].
  rewrite update_bind, lift_bind.
  destruct (required _ (setting getenv PROVIDER_SECRET_KEY _)) as [sk| |] eqn:E3; [|done..].
  rewrite update_bind. intros [= <-].
  unfold from_env. destruct (cl_object s). simpl.
  split_and!; intros Hs; by eapply required_setting.
Qed.

Lemma init_client_env getenv (s s' : cloud (wrapper T) tc_world) :
  init_client s = (Ret tt, s') -> from_env getenv (cl_object s) -> from_env getenv (cl_object s').
Proof.
  unfold init_client. rewrite self_bind. intros H1. apply pbind_Ret in H1 as (c & s1 & H1 & H2).
  rewrite on_err_Ret in H1. apply in_service_Ret in H1 as (w & _ & ->).
  apply pbind_Ret in H2 as (i & s2 & H1 & H2). rewrite on_err_Ret in H1.
  apply in_service_Ret in H1 as (w2 & _ & ->). destruct i as [[id|]|]; [|done..].
  injection H2 as <-. unfold from_env. by destruct (cl_object s).
Qed.

(** Key and credentials of the environment are taken whenever they are there:
    disallowing the environment changes nothing. *)
Lemma tencent_env_wins `{RangeOrder} {L} P getenv (opt : list (Opt L)) (s s' : cloud (wrapper T) tc_world) c :
  SetConfig P getenv opt s = (Ret c, s') -> from_env getenv (cl_object s').
Proof.
  unfold SetConfig. rewrite lift_bind. destruct (getOpts P opt) as [opts| |]; [|done..]. intros Hs.
  apply pbind_Ret in Hs as ([] & s1 & Hset & Hs). apply settings_from_env in Hset. rewrite self_bind in Hs.
  apply pbind_Ret in Hs as ([] & s2 & Hi & Hs). injection Hs as _ <-.
  destruct (client _); [by injection Hi as <-|]. by eapply init_client_env.
Qed.
End properties.
