(* ===== verification/TCloudPublicKms.v ===== *)
(** * The T Cloud Public KMS wrapper

    wrappers/tcloudpublickms: options.go and tcloudpublickms.go.  The SDK is
    external; every SetConfig makes a new client and tests no key.  Making a request
    with a nil service client panics inside the SDK. *)
From S2P Require Import Prelude GoText GoEncoding Crypto Wrapping Envelope Cloud.

(** ** The SDK *)

Record AKSKAuthOptions := mkAKSKAuthOptions {
  ak_Region : string;
  ak_ProjectId : string;
  ak_AccessKey : string;
  ak_SecretKey : string;
  ak_IdentityEndpoint : string;
}.

(** A provider client; [ts_OnRedirect] has it sign redirected requests anew with a
    key pair. *)
Class TCloud := {
  ts_world : Type;
  ts_provider : Type;
  ts_service : Type;
  ts_NewClient : string -> prog ts_world ts_provider;
  ts_OnRedirect : ts_provider -> string -> string -> ts_provider;
  ts_Authenticate : ts_provider -> AKSKAuthOptions -> prog ts_world unit;
  ts_NewKMSV1 : ts_provider -> string -> prog ts_world ts_service;
  ts_EncryptData : ts_service -> string -> string -> prog ts_world (string * string);
  ts_DecryptData : ts_service -> string -> prog ts_world string;
}.

(** ** Options *)

Record options := mk_options {
  opts_Options : Options;
  withIdentityEndpoint : string;
  withRegion : string;
  withProject : string;
  withAccessKey : string;
  withSecretKey : string;
}.

Definition getDefaultOptions (o : Options) : options :=
  mk_options o "https://iam.eu-de.otc.t-systems.com:443/v3" "eu-de" "" "" "".

Definition config_step (kv : string * string) (opts : options) : outcome options :=
  let (k, v) := kv in
  let (o, ep, rg, pj, ak, sk) := opts in
  let at_ := String.eqb k in
  if at_ "key_id" then Ret (mk_options (deprecated_key_id v o) ep rg pj ak sk)
  else if at_ "region" then Ret (mk_options o ep v pj ak sk)
  else if at_ "project" then Ret (mk_options o ep rg v ak sk)
  else if at_ "access_key" then Ret (mk_options o ep rg pj v sk)
  else if at_ "secret_key" then Ret (mk_options o ep rg pj ak v)
  else if at_ "identity_endpoint" then Ret (mk_options o v rg pj ak sk)
  else Ret opts.

Definition getOpts `{RangeOrder} {L} (opt : list (Opt L)) : outcome options :=
  o ← GetOpts opt;
  range_loop config_step (range_order (WithConfigMap_ (o_RPC o))) (getDefaultOptions o).

(** ** The wrapper *)

Definition Type_tcloudpublickms : string := "tcloudpublickms".

Definition EnvTCloudPublicKmsKeyId : string := "TCLOUDPUBLIC_KMS_KEY_ID".
Definition EnvTCloudPublicRegion : string := "TCLOUDPUBLIC_REGION".
Definition EnvTCloudPublicProject : string := "TCLOUDPUBLIC_PROJECT".
Definition EnvTCloudPublicAccessKey : string := "TCLOUDPUBLIC_ACCESS_KEY".
Definition EnvTCloudPublicSecretKey : string := "TCLOUDPUBLIC_SECRET_KEY".
Definition EnvTCloudPublicIdentityEndpoint : string := "TCLOUDPUBLIC_IDENTITY_ENDPOINT".

Section tcloud.
Context {T : TCloud}.

Record wrapper := mk_wrapper {
  client : option ts_service;
  keyId : string;
  currentKeyId : string;
  region : string;
  project : string;
}.

Definition NewWrapper : wrapper := mk_wrapper None "" "" "" "".

Abbreviation state := (cloud wrapper ts_world).

Definition set_client (c : option ts_service) (k : wrapper) : wrapper :=
  let (_, ki, id, rg, pj) := k in mk_wrapper c ki id rg pj.
Definition set_keyId (v : string) (k : wrapper) : wrapper :=
  let (c, _, id, rg, pj) := k in mk_wrapper c v id rg pj.
Definition store_current (v : string) (k : wrapper) : wrapper :=
  let (c, ki, _, rg, pj) := k in mk_wrapper c ki v rg pj.
Definition set_region (v : string) (k : wrapper) : wrapper :=
  let (c, ki, id, _, pj) := k in mk_wrapper c ki id v pj.
Definition set_project (v : string) (k : wrapper) : wrapper :=
  let (c, ki, id, rg, _) := k in mk_wrapper c ki id rg v.

Definition KeyId : prog state string := k ← self; mret (currentKeyId k).

Section config.
Context (getenv : string -> string).

Definition setting (opts : options) (name configured : string) : string :=
  env_switch getenv (disallows (opts_Options opts)) [name] configured.

Definition setupClient (opts : options) : prog state unit :=
  rg ← lift (required "'region' not found for T Cloud Public KMS wrapper configuration"
    (setting opts EnvTCloudPublicRegion (withRegion opts)));
  _ ← update (set_region rg);
  _ ← update (fun k => set_project
    (or_keep (project k) (setting opts EnvTCloudPublicProject (withProject opts))) k);
  accessKey ← lift (required "'access_key' not found for T Cloud Public KMS wrapper configuration"
    (setting opts EnvTCloudPublicAccessKey (withAccessKey opts)));
  secretKey ← lift (required "'secret_key' not found for T Cloud Public KMS wrapper configuration"
    (setting opts EnvTCloudPublicSecretKey (withSecretKey opts)));
  let endpoint := setting opts EnvTCloudPublicIdentityEndpoint (withIdentityEndpoint opts) in
  k ← self;
  let authOpts := mkAKSKAuthOptions (region k) (project k) accessKey secretKey endpoint in
  c ← on_err (wrapf "failed to create new client") (in_service (ts_NewClient endpoint));
  let c := ts_OnRedirect c accessKey secretKey in
  _ ← on_err (wrapf "failed to authenticate") (in_service (ts_Authenticate c authOpts));
  sc ← in_service (ts_NewKMSV1 c (ak_Region authOpts));
  update (set_client (Some sc)).

Definition metadata (k : wrapper) : gmap string string :=
  <["key_id" := keyId k]> (<["project" := project k]> {[ "region" := region k ]}).

Definition SetConfig `{RangeOrder} {L} (opt : list (Opt L)) : prog state WrapperConfig :=
  opts ← lift (getOpts opt);
  id ← lift (required "'key_id' not found for T Cloud Public KMS wrapper configuration"
    (setting opts EnvTCloudPublicKmsKeyId (configured_key (opts_Options opts))));
  _ ← update (set_keyId id);
  _ ← setupClient opts;
  k ← self;
  mret (mkWrapperConfig (metadata k)).
End config.

Definition with_client {B} (f : ts_service -> wrapper -> prog ts_world B) : prog state B :=
  call_client client f.

Definition encrypt_text (text : string) : prog state (string * string) :=
  resp ← on_err (wrapf "error encrypting data") (with_client (fun c k => ts_EncryptData c (keyId k) text));
  _ ← update (store_current resp.1);
  mret resp.

Definition decrypt_text (info : KeyInfo) (ciphertext : string) : prog state string :=
  on_err (wrapf "error decrypting data encryption key") (with_client (fun c k => ts_DecryptData c ciphertext)).

Section crypt.
Context `{AesGcm, Entropy} {L : Type}.

Definition Encrypt : slice -> list (Opt L) -> prog state BlobInfo :=
  checked_Encrypt 0 (text_wrap encrypt_text).

(** A nil blob and a blob without key information are dereferenced. *)
Definition Decrypt (in_ : option BlobInfo) (opt : list (Opt L)) : prog state slice :=
  match in_ ≫= bi_KeyInfo, in_ with
  | Some info, Some b => unwrap_and_open (text_unwrap decrypt_text id) (wrapf "error decrypting data") info b opt
  | _, _ => lift Panic
  end.

#[export] Instance tcloud_wrapper `{RangeOrder} (getenv : string -> string) : Wrapper L state := {|
  w_Type := mret Type_tcloudpublickms;
  w_SetConfig opt := c ← SetConfig getenv opt; mret (Some c);
  w_Encrypt pt opt := b ← Encrypt pt opt; mret (Some b);
  w_Decrypt b opt := Decrypt b opt;
  w_KeyId := KeyId;
|}.
End crypt.
End tcloud.
Arguments wrapper T : clear implicits.

(** ** What the service guarantees *)
Class TCloudLaws (T : TCloud) := tcloud_decrypts : forall c k text w id ct w',
  ts_EncryptData c k text w = (Ret (id, ct), w') -> exists w'', ts_DecryptData c ct w' = (Ret text, w'').

Section properties.
Context {T : TCloud}.

Definition connected (k : wrapper T) : Prop := is_Some (client k).

Lemma tcloud_client_store v k : client (T := T) (store_current v k) = client k.
Proof. by destruct k. Qed.

Lemma tcloud_encrypt_decrypt (Laws : TCloudLaws T) s s' t id ct :
  connected (cl_object s) -> encrypt_text t s = (Ret (id, ct), s') ->
  connected (cl_object s') /\ forall info, exists s'', decrypt_text info ct s' = (Ret t, s'').
Proof.
  intros _ Hw. apply pbind_Ret in Hw as ([i c] & s1 & Hw & Hr). injection Hr as <- <- <-.
  rewrite on_err_Ret in Hw. apply call_client_Ret in Hw as (cl & w & Hc & Hw & ->).
  split; [exists cl; simpl; by rewrite tcloud_client_store|]. intros info.
  destruct (Laws _ _ _ _ _ _ _ Hw) as (w2 & Hd). eexists. unfold decrypt_text. apply on_err_Ret.
  unfold with_client, call_client. rewrite self_bind. simpl. rewrite tcloud_client_store, Hc. by apply in_service_at.
Qed.

(** The T Cloud Public wrapper keeps the promise of the interface. *)
Lemma tcloud_promise `{AesGcm, Entropy} {L} `{!AesGcmLaws _} `{RangeOrder} (Laws : TCloudLaws T) getenv :
  WrapperSpec (tcloud_wrapper (L := L) getenv) (fun s => connected (cl_object s)).
Proof.
  apply (shape_promise _ connected 0 (wrapf "error decrypting data") (text_wrap encrypt_text) (text_unwrap decrypt_text id)).
  - by apply checked_encrypts.
  - intros s b info opts Hi _. unfold w_Decrypt, tcloud_wrapper, Decrypt. simpl. by rewrite Hi.
  - apply text_wrap_unwrap. by apply tcloud_encrypt_decrypt.
  - intros s s' b opts r Hd. unfold w_Decrypt, tcloud_wrapper, Decrypt in Hd.
    destruct b as [b|]; [|done]. simpl in Hd. destruct (bi_KeyInfo b); [|done].
    eapply unwrap_and_open_object, Hd. intros key s1. apply text_unwrap_object. intros t a s2 Ha.
    apply on_err_Ret, call_client_Ret in Ha as (c & w & _ & _ & ->). done.
Qed.

(** With environment variables disallowed SetConfig does not read the environment
    at all: outcome and new state are the same whatever it
    holds. *)
Lemma tcloud_env_isolated `{RangeOrder} {L} g1 g2 (opt : list (Opt L)) o s :
  GetOpts opt = Ret o -> disallows o = true ->
  SetConfig (T := T) g1 opt s = SetConfig g2 opt s.
Proof.
  intros Ho Hd. unfold SetConfig. rewrite !lift_bind.
  destruct (getOpts opt) as [opts|e|] eqn:E; [|done..].
  assert (Hopts : disallows (opts_Options opts) = true).
  { refine (map_opts_disallowed config_step getDefaultOptions opts_Options opt o opts _ _ Ho Hd E);
      [frame_step config_step|done]. }
  unfold setupClient, setting.
  revert Hopts. generalize (disallows (opts_Options opts)). by intros ? ->.
Qed.
End properties.
