(* ===== verification/OciKms.v ===== *)
(** * The OCI KMS wrapper

    wrappers/ocikms: options.go and ocikms.go.  The SDK is external: configuration
    providers, the two clients and their requests, which it retries as the request
    metadata asks (five times, with a growing delay, on a server error). *)
From S2P Require Import Prelude GoText GoEncoding Crypto Wrapping Envelope Cloud.
#[local] Open Scope nat_scope.

(** ** The SDK *)

(** [NewRawConfigurationProvider]. *)
Inductive oci_provider :=
| InstancePrincipal (n : nat)
| DefaultConfigProvider
| RawProvider (tenancy user region fingerprint privateKey passphrase : string).

(** The answers' fields are pointers. *)
Class Oci := {
  oci_world : Type;
  oci_crypto : Type;
  oci_management : Type;
  oci_InstancePrincipal : prog oci_world nat;
  oci_NewKmsCryptoClient : oci_provider -> string -> prog oci_world oci_crypto;
  oci_NewKmsManagementClient : oci_provider -> string -> prog oci_world oci_management;
  oci_Encrypt : oci_crypto -> nat -> string -> string -> prog oci_world (option string);
  oci_Decrypt : oci_crypto -> nat -> string -> string -> prog oci_world (option string);
  oci_GetKey : oci_management -> nat -> string -> prog oci_world (option string);
}.

(** ** Options *)

Record options := mk_options {
  opts_Options : Options;
  withCryptoEndpoint : string;
  withManagementEndpoint : string;
  withAuthTypeApiKey : bool;
  withTenancyOCID : string;
  withUserOCID : string;
  withKeyFingerprint : string;
  withRegion : string;
  withPrivateKey : string;
  withPrivateKeyPassphrase : string;
}.

Definition getDefaultOptions (o : Options) : options := mk_options o "" "" false "" "" "" "" "" "".

Definition KmsConfigKeyId : string := "key_id".
Definition KmsConfigCryptoEndpoint : string := "crypto_endpoint".
Definition KmsConfigManagementEndpoint : string := "management_endpoint".
Definition KmsConfigAuthTypeApiKey : string := "auth_type_api_key".

Definition config_step (kv : string * string) (opts : options) : outcome options :=
  let (k, v) := kv in
  let (o, ce, me, ap, tn, us, fp, rg, pk, pp) := opts in
  let at_ := String.eqb k in
  if at_ KmsConfigKeyId then Ret (mk_options (deprecated_key_id v o) ce me ap tn us fp rg pk pp)
  else if at_ KmsConfigCryptoEndpoint then Ret (mk_options o v me ap tn us fp rg pk pp)
  else if at_ KmsConfigManagementEndpoint then Ret (mk_options o ce v ap tn us fp rg pk pp)
  else if at_ "tenancy_ocid" then Ret (mk_options o ce me ap v us fp rg pk pp)
  else if at_ "user_ocid" then Ret (mk_options o ce me ap tn v fp rg pk pp)
  else if at_ "fingerprint" then Ret (mk_options o ce me ap tn us v rg pk pp)
  else if at_ "region" then Ret (mk_options o ce me ap tn us fp v pk pp)
  else if at_ "private_key" then Ret (mk_options o ce me ap tn us fp rg v pp)
  else if at_ "private_key_passphrase" then Ret (mk_options o ce me ap tn us fp rg pk v)
  else if at_ KmsConfigAuthTypeApiKey then
    b ← map_err (wrapf ("failed parsing " +:+ KmsConfigAuthTypeApiKey +:+ " parameter")) (ParseBool v);
    Ret (mk_options o ce me b tn us fp rg pk pp)
  else Ret opts.

(** The key identifier is parsed as a reference. *)
Definition set_secrets (vals : list string) (opts : options) : options :=
  let (o, ce, me, ap, tn, us, fp, rg, pk, pp) := opts in
  match vals with [id] => mk_options (deprecated_key_id id o) ce me ap tn us fp rg pk pp | _ => opts end.

Definition getOpts `{RangeOrder} {L} (ParsePath : string -> string * option error)
    (opt : list (Opt L)) : outcome options :=
  o ← GetOpts opt;
  opts ← range_loop config_step (range_order (WithConfigMap_ (o_RPC o))) (getDefaultOptions o);
  vals ← parse_secrets ParsePath (disallows (opts_Options opts)) [configured_key (opts_Options opts)];
  Ret (set_secrets vals opts).

(** ** The wrapper *)

Definition Type_ocikms : string := "ocikms".

Definition EnvOciKmsWrapperKeyId : string := "OCIKMS_WRAPPER_KEY_ID".
Definition EnvVaultOciKmsSealKeyId : string := "VAULT_OCIKMS_SEAL_KEY_ID".
Definition EnvOciKmsWrapperCryptoEndpoint : string := "OCIKMS_WRAPPER_CRYPTO_ENDPOINT".
Definition EnvVaultOciKmsSealCryptoEndpoint : string := "VAULT_OCIKMS_CRYPTO_ENDPOINT".
Definition EnvOciKmsWrapperManagementEndpoint : string := "OCIKMS_WRAPPER_MANAGEMENT_ENDPOINT".
Definition EnvVaultOciKmsSealManagementEndpoint : string := "VAULT_OCIKMS_MANAGEMENT_ENDPOINT".

Definition KMSMaximumNumberOfRetries : nat := 5.

(** A nil pointer that is dereferenced. *)
Definition deref {A} (p : option A) : outcome A := match p with Some a => Ret a | None => Panic end.

Section oci.
Context {C : Oci}.

Record wrapper := mk_wrapper {
  keyId : string;
  cryptoEndpoint : string;
  managementEndpoint : string;
  cryptoClient : option oci_crypto;
  managementClient : option oci_management;
  currentKeyId : string;
}.

Definition NewWrapper : wrapper := mk_wrapper "" "" "" None None "".

Abbreviation state := (cloud wrapper oci_world).

Definition set_keyId (v : string) (k : wrapper) : wrapper :=
  let (_, ce, me, cc, mc, id) := k in mk_wrapper v ce me cc mc id.
Definition set_cryptoEndpoint (v : string) (k : wrapper) : wrapper :=
  let (ki, _, me, cc, mc, id) := k in mk_wrapper ki v me cc mc id.
Definition set_managementEndpoint (v : string) (k : wrapper) : wrapper :=
  let (ki, ce, _, cc, mc, id) := k in mk_wrapper ki ce v cc mc id.
Definition set_cryptoClient (c : oci_crypto) (k : wrapper) : wrapper :=
  let (ki, ce, me, _, mc, id) := k in mk_wrapper ki ce me (Some c) mc id.
Definition set_managementClient (c : oci_management) (k : wrapper) : wrapper :=
  let (ki, ce, me, cc, _, id) := k in mk_wrapper ki ce me cc (Some c) id.
Definition store_current (v : string) (k : wrapper) : wrapper :=
  let (ki, ce, me, cc, mc, _) := k in mk_wrapper ki ce me cc mc v.

Definition KeyId : prog state string := k ← self; mret (currentKeyId k).

(** [getCurrentKeyVersion]; without an error to wrap, [%w] prints as a bad verb. *)
Definition getCurrentKeyVersion : prog state string :=
  k ← self;
  match managementClient k with
  | None => lift (Fail (ErrLeaf "managementClient has not yet initialized"))
  | Some c =>
      version ← on_err (wrapf "failed getting current key version")
        (in_service (oci_GetKey c KMSMaximumNumberOfRetries (keyId k)));
      match version with
      | None => lift (Fail (ErrLeaf "failed getting current key version: %!w(<nil>)"))
      | Some v => mret v
      end
  end.

(** The request for a key, given as text.  The version asked for afterwards is
    stored, and then the answer dereferenced. *)
Definition encrypt_text (text : string) : prog state (string * string) :=
  k ← self;
  match cryptoClient k with
  | None => lift (Fail (ErrLeaf "nil client"))
  | Some c =>
      output ← on_err (wrapf "error encrypting data")
        (in_service (oci_Encrypt c KMSMaximumNumberOfRetries (keyId k) text));
      keyVersion ← on_err (wrapf "error getting current key version") getCurrentKeyVersion;
      _ ← update (store_current keyVersion);
      ct ← lift (deref output);
      mret (keyVersion, ct)
  end.

(** A method of a nil client. *)
Definition decrypt_text (info : KeyInfo) (ciphertext : string) : prog state string :=
  k ← self;
  match cryptoClient k with
  | None => lift Panic
  | Some c =>
      output ← on_err (wrapf "error decrypting data")
        (in_service (oci_Decrypt c KMSMaximumNumberOfRetries (keyId k) ciphertext));
      lift (deref output)
  end.

Section crypt.
Context `{AesGcm, Entropy} {L : Type}.

Definition Encrypt : slice -> list (Opt L) -> prog state BlobInfo :=
  checked_Encrypt 0 (text_wrap encrypt_text).

Definition Decrypt : option BlobInfo -> list (Opt L) -> prog state slice :=
  checked_Decrypt "error decrypting data" (text_unwrap decrypt_text (wrapf "error base64 decrypting data")).

(** ** Configuration *)

Section config.
Context (ParsePath : string -> string * option error) (getenv : string -> string).

Definition setting (opts : options) (names : list string) (configured name : string) : outcome string :=
  required (quoted name +:+ " not found for OCI KMS seal configuration")
    (env_switch getenv (disallows (opts_Options opts)) names configured).

Definition settings (opts : options) : prog state unit :=
  id ← lift (setting opts [EnvOciKmsWrapperKeyId; EnvVaultOciKmsSealKeyId]
    (configured_key (opts_Options opts)) KmsConfigKeyId);
  _ ← update (set_keyId id);
  ce ← lift (setting opts [EnvOciKmsWrapperCryptoEndpoint; EnvVaultOciKmsSealCryptoEndpoint]
    (withCryptoEndpoint opts) KmsConfigCryptoEndpoint);
  _ ← update (set_cryptoEndpoint ce);
  me ← lift (setting opts [EnvOciKmsWrapperManagementEndpoint; EnvVaultOciKmsSealManagementEndpoint]
    (withManagementEndpoint opts) KmsConfigManagementEndpoint);
  update (set_managementEndpoint me).

(** With [auth_type_api_key] the provider is that of the instance principal. *)
Definition provider (opts : options) : prog state oci_provider :=
  if withAuthTypeApiKey opts then
    n ← on_err (wrapf "failed creating InstancePrincipalConfigurationProvider") (in_service oci_InstancePrincipal);
    mret (InstancePrincipal n)
  else if negb (disallows (opts_Options opts)) then mret DefaultConfigProvider
  else mret (RawProvider (withTenancyOCID opts) (withUserOCID opts) (withRegion opts)
               (withKeyFingerprint opts) (withPrivateKey opts) (withPrivateKeyPassphrase opts)).

Definition getOciKmsCryptoClient (cp : oci_provider) : prog state oci_crypto :=
  k ← self;
  on_err (wrapf "failed creating NewKmsCryptoClientWithConfigurationProvider")
    (in_service (oci_NewKmsCryptoClient cp (cryptoEndpoint k))).

Definition getOciKmsManagementClient (cp : oci_provider) : prog state oci_management :=
  k ← self;
  on_err (wrapf "failed creating NewKmsManagementClientWithConfigurationProvider")
    (in_service (oci_NewKmsManagementClient cp (managementEndpoint k))).

Definition init_clients (cp : oci_provider) : prog state unit :=
  k ← self;
  _ ← match cryptoClient k with
      | Some _ => mret tt
      | None =>
          c ← on_err (wrapf "error initializing OCI KMS crypto client") (getOciKmsCryptoClient cp);
          update (set_cryptoClient c)
      end;
  match managementClient k with
  | Some _ => mret tt
  | None =>
      c ← on_err (wrapf "error initializing OCI KMS management client") (getOciKmsManagementClient cp);
      update (set_managementClient c)
  end.

Definition metadata (opts : options) (k : wrapper) : gmap string string :=
  <["principal_type" := if withAuthTypeApiKey opts then "user" else "instance"]>
    (<[KmsConfigManagementEndpoint := managementEndpoint k]>
      (<[KmsConfigCryptoEndpoint := cryptoEndpoint k]> {[ KmsConfigKeyId := keyId k ]})).

(** The configuration is tested with a trial encryption. *)
Definition SetConfig `{RangeOrder} (opt : list (Opt L)) : prog state WrapperConfig :=
  opts ← lift (getOpts ParsePath opt);
  _ ← settings opts;
  cp ← provider opts;
  _ ← init_clients cp;
  _ ← on_err (wrapf ("failed " +:+ KmsConfigKeyId +:+ " validation")) (Encrypt (Some []) [OptNil]);
  k ← self;
  mret (mkWrapperConfig (metadata opts k)).
End config.

#[export] Instance oci_wrapper `{RangeOrder} (ParsePath : string -> string * option error)
    (getenv : string -> string) : Wrapper L state := {|
  w_Type := mret Type_ocikms;
  w_SetConfig opt := c ← SetConfig ParsePath getenv opt; mret (Some c);
  w_Encrypt pt opt := b ← Encrypt pt opt; mret (Some b);
  w_Decrypt b opt := Decrypt b opt;
  w_KeyId := KeyId;
|}.
End crypt.
End oci.
Arguments wrapper C : clear implicits.

(** ** What the service guarantees

    A ciphertext is decrypted again with the same client and key, also after
    another request for the current version of the key. *)
Class OciLaws (C : Oci) := oci_decrypts : forall c n k text w ct w',
  oci_Encrypt c n k text w = (Ret (Some ct), w') ->
  forall m n' o w2, oci_GetKey m n' k w' = (o, w2) ->
  exists w'', oci_Decrypt c n k ct w2 = (Ret (Some text), w'').

Section properties.
Context {C : Oci}.

Definition connected (k : wrapper C) : Prop := is_Some (cryptoClient k) /\ is_Some (managementClient k).

Lemma clients_store v k :
  cryptoClient (C := C) (store_current v k) = cryptoClient k /\
  managementClient (C := C) (store_current v k) = managementClient k /\
  keyId (C := C) (store_current v k) = keyId k.
Proof. by destruct k. Qed.

Lemma getCurrentKeyVersion_Ret (s s' : cloud (wrapper C) oci_world) v :
  getCurrentKeyVersion s = (Ret v, s') ->
  exists c w, oci_GetKey c KMSMaximumNumberOfRetries (keyId (cl_object s)) (cl_service s) = (Ret (Some v), w) /\
    s' = mk_cloud (cl_object s) w (cl_draws s).
Proof.
  unfold getCurrentKeyVersion. rewrite self_bind. destruct (managementClient _) as [c|]; [|done].
  rewrite pbind_Ret. intros ([v'|] & s1 & H1 & H2); [|done]. injection H2 as <- <-.
  rewrite on_err_Ret in H1. apply in_service_Ret in H1 as (w & H1 & ->). eauto.
Qed.

Lemma oci_encrypt_decrypt (Laws : OciLaws C) s s' t id ct :
  connected (cl_object s) -> encrypt_text t s = (Ret (id, ct), s') ->
  connected (cl_object s') /\ forall info, exists s'', decrypt_text info ct s' = (Ret t, s'').
Proof.
  intros [Hcc Hmc]. unfold encrypt_text. rewrite self_bind.
  destruct (cryptoClient (cl_object s)) as [c|] eqn:Ec; [|done].
  rewrite pbind_Ret. intros (o & s1 & Ho & H1). rewrite on_err_Ret in Ho.
  apply in_service_Ret in Ho as (w1 & Ho & ->). apply pbind_Ret in H1 as (v & s2 & Hv & H1).
  rewrite on_err_Ret in Hv. apply getCurrentKeyVersion_Ret in Hv as (m & w2 & Hv & ->).
  simpl in *. destruct o as [ct'|]; [|done]. injection H1 as <- <- <-.
  destruct (clients_store v (cl_object s)) as (E1 & E2 & E3). simpl.
  unfold connected. rewrite E1, E2, Ec. split; [done|]. intros info.
  destruct (Laws _ _ _ _ _ _ _ Ho _ _ _ _ Hv) as (w3 & Hd).
  eexists. unfold decrypt_text. rewrite self_bind. simpl. rewrite E1, E3, Ec. apply pbind_Ret.
  eexists (Some t), _. rewrite on_err_Ret. split; [by apply in_service_at|done].
Qed.

(** The OCI wrapper keeps the promise of the interface. *)
Lemma oci_promise `{AesGcm, Entropy} {L} `{!AesGcmLaws _} `{RangeOrder} (Laws : OciLaws C) P getenv :
  WrapperSpec (oci_wrapper (L := L) P getenv) (fun s => connected (cl_object s)).
Proof.
  apply (text_promise _ connected 0 "error decrypting data" encrypt_text decrypt_text
    (wrapf "error base64 decrypting data")).
  - done.
  - done.
  - by apply oci_encrypt_decrypt.
  - intros info t a s1 s2. unfold decrypt_text. rewrite self_bind.
    destruct (cryptoClient _); [|done]. rewrite pbind_Ret. intros (q & s3 & Ho & Hr).
    injection Hr as _ <-. rewrite on_err_Ret in Ho. by apply in_service_Ret in Ho as (w & _ & ->).
Qed.

Lemma oci_getOpts_disallowed `{RangeOrder} {L} P1 P2 (opt : list (Opt L)) o :
  GetOpts opt = Ret o -> disallows o = true ->
  getOpts P1 opt = getOpts P2 opt /\
  forall opts, getOpts P1 opt = Ret opts -> disallows (opts_Options opts) = true.
Proof.
  apply (read_opts_disallowed config_step getDefaultOptions opts_Options
    (fun o => [configured_key (opts_Options o)]) set_secrets);
    [frame_step config_step|done|frame_set set_secrets].
Qed.

(** With environment variables disallowed SetConfig reads neither the environment
    nor the references in the configuration: outcome and new state are the same
    whatever they hold. *)
Lemma oci_env_isolated `{AesGcm, Entropy, RangeOrder} {L} P1 P2 g1 g2 (opt : list (Opt L)) o s :
  GetOpts opt = Ret o -> disallows o = true ->
  SetConfig (C := C) P1 g1 opt s = SetConfig P2 g2 opt s.
Proof.
  intros Ho Hd. destruct (oci_getOpts_disallowed P1 P2 opt o Ho Hd) as [E Hopts].
  unfold SetConfig. rewrite <- E, !lift_bind.
  destruct (getOpts P1 opt) as [opts|e|]; [|done..].
  specialize (Hopts opts eq_refl). unfold settings, setting, provider.
  revert Hopts. generalize (disallows (opts_Options opts)). by intros ? ->.
Qed.

(** The reported principal is a user exactly when the instance's own principal is
    used to authenticate. *)
Lemma oci_principal_swapped opts (s s' : cloud (wrapper C) oci_world) cp k :
  provider opts s = (Ret cp, s') ->
  (metadata opts k !! "principal_type" = Some "user" <-> exists n, cp = InstancePrincipal n).
Proof.
  unfold metadata. rewrite lookup_insert_eq. unfold provider. destruct (withAuthTypeApiKey opts).
  - intros H1. apply pbind_Ret in H1 as (n & s1 & _ & H1). injection H1 as <- _. naive_solver.
  - destruct (negb _); intros [= <- _]; naive_solver.
Qed.
End properties.
