(* ===== verification/OvhCloudKms.v ===== *)
(** * The OVHcloud KMS wrapper

    wrappers/ovhcloudkms: options.go and ovhcloudkms.go.  The SDK, the uuid package
    and the file system are external.  [uuid.Parse] returns a value beside its
    error, which the code assigns before it looks at the error. *)
From S2P Require Import Prelude GoText GoEncoding Crypto Wrapping Envelope Cloud.

(** ** What is external *)

(** TLS settings of a client: a certificate pair, and the authorities' PEM block,
    where they are given. *)
Record okms_ClientConfig (cert : Type) := mk_ClientConfig {
  cfg_Certificate : option cert;
  cfg_RootCAs : option bytes;
}.
Arguments mk_ClientConfig {cert}.
Arguments cfg_Certificate {cert}.
Arguments cfg_RootCAs {cert}.

Class Ovh := {
  ovh_world : Type;
  ovh_client : Type;
  ovh_cert : Type;
  uuid : Type;
  uuid_eq_dec : EqDecision uuid;
  uuid_Nil : uuid;
  uuid_Parse : string -> uuid * option error;
  uuid_String : uuid -> string;
  os_ReadFile : string -> prog ovh_world bytes;
  tls_X509KeyPair : bytes -> bytes -> outcome ovh_cert;
  okms_NewRestAPIClient : string -> okms_ClientConfig ovh_cert -> prog ovh_world ovh_client;
  okms_WithCustomHeader : ovh_client -> string -> string -> ovh_client;
  okms_GetServiceKey : ovh_client -> uuid -> uuid -> prog ovh_world (option (list string));
  okms_Encrypt : ovh_client -> uuid -> uuid -> slice -> prog ovh_world string;
  okms_Decrypt : ovh_client -> uuid -> uuid -> string -> prog ovh_world slice;
}.
#[export] Existing Instance uuid_eq_dec.

Section ovh.
Context {C : Ovh}.

(** ** Options *)

Record options := mk_options {
  opts_Options : Options;
  withEndpoint : string;
  withKmsId : uuid;
  withClientCert : string;
  withClientKey : string;
  withCACert : string;
  withClientCertBytes : string;
  withClientKeyBytes : string;
  withCACertBytes : string;
  withToken : string;
}.

Definition getDefaultOptions (o : Options) : options := mk_options o "" uuid_Nil "" "" "" "" "" "" "".

Definition parse_uuid (s : string) : outcome uuid :=
  let (u, e) := uuid_Parse s in match e with Some e => Fail e | None => Ret u end.

Definition config_step (kv : string * string) (opts : options) : outcome options :=
  let (k, v) := kv in
  let (o, ep, id, cc, ck, ca, ccb, ckb, cab, tk) := opts in
  let at_ := String.eqb k in
  if at_ "key_id" then Ret (mk_options (deprecated_key_id v o) ep id cc ck ca ccb ckb cab tk)
  else if at_ "endpoint" then Ret (mk_options o v id cc ck ca ccb ckb cab tk)
  else if at_ "kms_id" then u ← parse_uuid v; Ret (mk_options o ep u cc ck ca ccb ckb cab tk)
  else if at_ "client_cert" then Ret (mk_options o ep id v ck ca ccb ckb cab tk)
  else if at_ "client_key" then Ret (mk_options o ep id cc v ca ccb ckb cab tk)
  else if at_ "ca_cert" then Ret (mk_options o ep id cc ck v ccb ckb cab tk)
  else if at_ "client_cert_bytes" then Ret (mk_options o ep id cc ck ca v ckb cab tk)
  else if at_ "client_key_bytes" then Ret (mk_options o ep id cc ck ca ccb v cab tk)
  else if at_ "ca_cert_bytes" then Ret (mk_options o ep id cc ck ca ccb ckb v tk)
  else if at_ "token" then Ret (mk_options o ep id cc ck ca ccb ckb cab v)
  else Ret opts.

Definition getOpts `{RangeOrder} {L} (opt : list (Opt L)) : outcome options :=
  o ← GetOpts opt;
  range_loop config_step (range_order (WithConfigMap_ (o_RPC o))) (getDefaultOptions o).

(** ** The wrapper *)

Definition Type_ovhcloudkms : string := "ovhcloudkms".

Definition EnvOkmsKeyId : string := "OVHCLOUDKMS_KEY_ID".
Definition EnvOkmsEndpoint : string := "OVHCLOUDKMS_ENDPOINT".
Definition EnvOkmsId : string := "OVHCLOUDKMS_ID".
Definition EnvOkmsClientCert : string := "OVHCLOUDKMS_CLIENT_CERT".
Definition EnvOkmsClientKey : string := "OVHCLOUDKMS_CLIENT_KEY".
Definition EnvOkmsCaCert : string := "OVHCLOUDKMS_CA_CERT".
Definition EnvOkmsToken : string := "OVHCLOUDKMS_TOKEN".

Record wrapper := mk_wrapper {
  client : option ovh_client;
  keyId : uuid;
  currentKeyId : string;
  kmsId : uuid;
}.

(** The zero value of a [uuid.UUID] is [uuid.Nil]. *)
Definition NewWrapper : wrapper := mk_wrapper None uuid_Nil "" uuid_Nil.

Abbreviation state := (cloud wrapper ovh_world).

Definition set_client (c : option ovh_client) (k : wrapper) : wrapper :=
  mk_wrapper c (keyId k) (currentKeyId k) (kmsId k).
Definition set_keyId (u : uuid) (k : wrapper) : wrapper :=
  mk_wrapper (client k) u (currentKeyId k) (kmsId k).
Definition store_current (v : string) (k : wrapper) : wrapper :=
  mk_wrapper (client k) (keyId k) v (kmsId k).
Definition set_kmsId (u : uuid) (k : wrapper) : wrapper :=
  mk_wrapper (client k) (keyId k) (currentKeyId k) u.

Definition KeyId : prog state string := k ← self; mret (currentKeyId k).

(** [x, err = uuid.Parse(s); if err != nil { return err }]. *)
Definition assign_uuid (set : uuid -> wrapper -> wrapper) (s : string) : prog state unit :=
  let (u, e) := uuid_Parse s in
  _ ← update (set u); lift (of_err e).

Section config.
Context (getenv : string -> string).

Definition set_ids (opts : options) : prog state unit :=
  let disallow := disallows (opts_Options opts) in
  let id := env_switch getenv disallow [EnvOkmsKeyId] (configured_key (opts_Options opts)) in
  _ ← (if is_set id then assign_uuid set_keyId id
       else lift (Fail (ErrLeaf "key id not found (env or config) for kms configuration")));
  _ ← update (fun k => store_current (uuid_String (keyId k)) k);
  _ ← (if negb disallow && is_set (getenv EnvOkmsId) then assign_uuid set_kmsId (getenv EnvOkmsId) else mret tt);
  update (fun k => if decide (kmsId k = uuid_Nil) then set_kmsId (withKmsId opts) k else k).

(** A file the environment or the configuration names, read when the environment
    is allowed; the configured bytes where it gives none. *)
Definition mtls_bytes (disallow : bool) (name configured in_memory : string) : prog state bytes :=
  let file := if disallow then "" else if String.eqb (getenv name) "" then configured else getenv name in
  b ← (if is_set file then in_service (os_ReadFile file) else mret []);
  mret match b with [] => bytes_of_string in_memory | _ => b end.

Definition getMTLSConfig (clientCert clientKey caCert : bytes) : outcome (okms_ClientConfig ovh_cert) :=
  tlsCert ← tls_X509KeyPair clientCert clientKey;
  Ret (mk_ClientConfig (Some tlsCert) (match caCert with [] => None | _ => Some caCert end)).

(** [ow.client, err = okms.NewRestAPIClient(...)]: on an error the client is nil. *)
Definition new_client (endpoint : string) (cfg : okms_ClientConfig ovh_cert) : prog state ovh_client :=
  r ← attempt (in_service (okms_NewRestAPIClient endpoint cfg));
  _ ← update (set_client match r with Ret c => Some c | _ => None end);
  lift r.

(** Exactly one way to authenticate. *)
Definition authenticate (endpoint token : string) (cert key ca : bytes) : prog state unit :=
  let given (b : bytes) := match b with [] => false | _ => true end in
  let hasMTLS := given cert || given key in
  let hasToken := is_set token in
  if hasMTLS && hasToken then
    lift (Fail (ErrLeaf ("ambiguous authentication: provide either mTLS (client_cert/client_key) " +:+
      "or token (token/kms_id), not both")))
  else if hasMTLS then
    if negb (given cert && given key)
    then lift (Fail (ErrLeaf "missing client certificate/key for mTLS authentication"))
    else
      clientCfg ← lift (getMTLSConfig cert key ca);
      _ ← new_client endpoint clientCfg;
      mret tt
  else if hasToken then
    c ← new_client endpoint (mk_ClientConfig None (if given ca then Some ca else None));
    update (set_client (Some (okms_WithCustomHeader c "Authorization" ("Bearer " +:+ token))))
  else lift (Fail (ErrLeaf ("missing authentication: provide either mTLS (client_cert/client_key) " +:+
    "or token (token/kms_id)"))).

(** A method of a nil client. *)
Definition with_client {B} (f : ovh_client -> wrapper -> prog ovh_world B) : prog state B :=
  call_client client f.

(** The operations the key must allow. *)
Definition allows (ops : list string) : bool :=
  existsb (String.eqb "encrypt") ops && existsb (String.eqb "decrypt") ops.

Definition metadata (endpoint : string) (k : wrapper) : gmap string string :=
  <["kms_id" := uuid_String (kmsId k)]> (<["endpoint" := endpoint]> {[ "key_id" := uuid_String (keyId k) ]}).

Definition SetConfig `{RangeOrder} {L} (opt : list (Opt L)) : prog state WrapperConfig :=
  opts ← lift (getOpts opt);
  let disallow := disallows (opts_Options opts) in
  _ ← set_ids opts;
  let endpoint := env_or getenv disallow EnvOkmsEndpoint (withEndpoint opts) in
  let token := env_or getenv disallow EnvOkmsToken (withToken opts) in
  cert ← mtls_bytes disallow EnvOkmsClientCert (withClientCert opts) (withClientCertBytes opts);
  key ← mtls_bytes disallow EnvOkmsClientKey (withClientKey opts) (withClientKeyBytes opts);
  ca ← mtls_bytes disallow EnvOkmsCaCert (withCACert opts) (withCACertBytes opts);
  _ ← authenticate endpoint token cert key ca;
  ops ← with_client (fun c k => okms_GetServiceKey c (kmsId k) (keyId k));
  match ops with
  | None => lift Panic
  | Some ops =>
      if allows ops then
        k ← self;
        mret (mkWrapperConfig (metadata endpoint k))
      else lift (Fail (ErrLeaf "missing encrypt,decrypt operations on provided service key"))
  end.
End config.

Definition wrap (key : slice) : prog state (string * slice) :=
  encryptedDEK ← on_err (wrapf "error encrypting data")
    (with_client (fun c k => okms_Encrypt c (kmsId k) (keyId k) key));
  _ ← update (fun k => store_current (uuid_String (keyId k)) k);
  k ← self;
  mret (uuid_String (keyId k), text_bytes encryptedDEK).

Definition unwrap (info : KeyInfo) : prog state slice :=
  on_err (wrapf "error decrypting data encryption key")
    (with_client (fun c k => okms_Decrypt c (kmsId k) (keyId k) (bytes_text (ki_WrappedKey info)))).

Section crypt.
Context `{AesGcm, Entropy} {L : Type}.

(** A nil plaintext is encrypted as an empty one. *)
Definition Encrypt (plaintext : slice) (opt : list (Opt L)) : prog state BlobInfo :=
  seal_and_wrap 0 wrap plaintext opt.

(** A nil blob and a blob without key information are dereferenced. *)
Definition Decrypt (in_ : option BlobInfo) (opt : list (Opt L)) : prog state slice :=
  match in_ ≫= bi_KeyInfo, in_ with
  | Some info, Some b => unwrap_and_open unwrap (wrapf "error decrypting data") info b opt
  | _, _ => lift Panic
  end.

#[export] Instance ovh_wrapper `{RangeOrder} (getenv : string -> string) : Wrapper L state := {|
  w_Type := mret Type_ovhcloudkms;
  w_SetConfig opt := c ← SetConfig getenv opt; mret (Some c);
  w_Encrypt pt opt := b ← Encrypt pt opt; mret (Some b);
  w_Decrypt b opt := Decrypt b opt;
  w_KeyId := KeyId;
|}.
End crypt.
End ovh.
Arguments wrapper C : clear implicits.
Arguments options C : clear implicits.

(** ** What the service guarantees *)
Class OvhLaws (C : Ovh) := ovh_decrypts : forall c i k key w ct w',
  okms_Encrypt c i k key w = (Ret ct, w') ->
  exists key' w'', okms_Decrypt c i k ct w' = (Ret key', w'') /\ slice_equiv key key'.

Section properties.
Context {C : Ovh}.

Definition connected (k : wrapper C) : Prop := is_Some (client k).

(** The OVHcloud wrapper keeps the promise of the interface. *)
Lemma ovh_promise `{AesGcm, Entropy} {L} `{!AesGcmLaws _} `{RangeOrder} (Laws : OvhLaws C) getenv :
  WrapperSpec (ovh_wrapper (L := L) getenv) (fun s => connected (cl_object s)).
Proof.
  apply (shape_promise _ connected 0 (wrapf "error decrypting data") wrap unwrap).
  - intros s s' pt opts b He. apply pbind_Ret in He as (b' & s1 & He & Hb). injection Hb as <- <-. eauto.
  - intros s b info opts Hi _. unfold w_Decrypt, ovh_wrapper, Decrypt. simpl. by rewrite Hi.
  - intros s s' dek id ct Hc Hw. apply pbind_Ret in Hw as (e & s1 & He & Hw). rewrite on_err_Ret in He.
    apply call_client_Ret in He as (c & w & Hcl & He & ->). injection Hw as <- <- <-. simpl.
    split; [done|]. intros ki Hk _ _. destruct (Laws _ _ _ _ _ _ _ He) as (key & w2 & Hd & Hkey).
    exists key. split; [|done]. unfold unwrap. rewrite (bytes_text_bytes _ _ Hk).
    unfold with_client, call_client, on_err. rewrite self_bind. simpl. rewrite Hcl. rewrite (in_service_at _ _ _ _ _ _ Hd). done.
  - intros s s' b opts r Hd. unfold w_Decrypt, ovh_wrapper, Decrypt in Hd.
    destruct b as [b|]; [|done]. simpl in Hd. destruct (bi_KeyInfo b); [|done].
    eapply unwrap_and_open_object, Hd. intros key s1 Hu.
    apply on_err_Ret, call_client_Ret in Hu as (c & w & _ & _ & ->). done.
Qed.

(** With environment variables disallowed SetConfig reads neither the environment
    nor the files it names: outcome and new state are the same
    whatever they hold. *)
Lemma ovh_env_isolated `{RangeOrder} {L} g1 g2 (opt : list (Opt L)) o s :
  GetOpts opt = Ret o -> disallows o = true ->
  SetConfig (C := C) g1 opt s = SetConfig g2 opt s.
Proof.
  intros Ho Hd. unfold SetConfig. rewrite !lift_bind.
  destruct (getOpts opt) as [opts|e|] eqn:E; [|done..].
  assert (Hopts : disallows (opts_Options opts) = true).
  { refine (map_opts_disallowed config_step getDefaultOptions opts_Options opt o opts _ _ Ho Hd E);
      [intros k v x y; unfold config_step; destruct x;
        repeat (case_match; [intros; inv_ret; by subst|]); by intros [= <-]|done]. }
  unfold set_ids, mtls_bytes, env_or.
  revert Hopts. generalize (disallows (opts_Options opts)). by intros ? ->.
Qed.
End properties.
