(* ===== verification/AzureKeyVault.v ===== *)
(** * The Azure Key Vault wrapper

    wrappers/azurekeyvault: options.go and azurekeyvault.go.  The SDK and the
    environments of go-autorest, which read the environment themselves, and the file
    system are external; the HTTP transport
    handed to the client is left out. *)
From S2P Require Import Prelude GoText GoEncoding Crypto Wrapping Envelope Cloud.

(** ** The SDK *)

(** [azure.Environment]: the fields the wrapper reads or writes. *)
Record Environment := mkEnvironment {
  env_Name : string;
  env_KeyVaultDNSSuffix : string;
  env_KeyVaultEndpoint : string;
}.

(** [azidentity.ManagedIDKind], with its String method. *)
Inductive ManagedID := ClientID (s : string) | ResourceID (s : string).

Definition ManagedID_String (i : ManagedID) : string := match i with ClientID s | ResourceID s => s end.

(** Credentials are opaque.  The answers' keys and identifiers are pointers;
    [az_ID_Version] is the Version method on one.  Four functions read environment
    variables by themselves; the environment is their first argument. *)
Class Azure := {
  az_world : Type;
  az_client : Type;
  az_cred : Type;
  az_PublicCloud : Environment;
  az_EnvironmentFromName : (string -> string) -> string -> prog az_world (Environment * option error);
  az_ReadFile : string -> prog az_world bytes;
  az_ParseCertificates : bytes -> slice -> outcome nat;
  NewClientSecretCredential : (string -> string) -> string -> string -> string -> prog az_world az_cred;
  NewClientCertificateCredential : (string -> string) -> string -> string -> nat -> prog az_world az_cred;
  az_NewClient : (string -> string) -> string -> az_cred -> prog az_world az_client;
  az_GetKey : az_client -> string -> prog az_world (option (option string));
  az_ID_Version : option string -> string;
  az_WrapKey : az_client -> string -> slice -> prog az_world (option string * slice);
  az_UnwrapKey : az_client -> string -> string -> slice -> prog az_world slice;
}.

(** The credentials azidentity finds by itself, in the environment, on the machine
    or from its metadata service. *)
Record ambient {A : Azure} := mk_ambient {
  NewDefaultAzureCredential : string -> prog az_world az_cred;
  NewEnvironmentCredential : prog az_world az_cred;
  NewManagedIdentityCredential : ManagedID -> prog az_world az_cred;
  NewWorkloadIdentityCredential : string -> prog az_world az_cred;
}.
Arguments ambient A : clear implicits.

(** ** Options *)

Record options := mk_options {
  opts_Options : Options;
  withKeyNotRequired : bool;
  withTenantId : string;
  withClientId : string;
  withResourceId : string;
  withManagedIdKind : string;
  withClientSecret : string;
  withEnvironment : string;
  withResource : string;
  withVaultName : string;
  withKeyName : string;
  withAuthMethod : string;
  withCertPath : string;
  withCertBytes : string;
  withCertPassword : string;
}.

Definition getDefaultOptions (o : Options) : options :=
  mk_options o false "" "" "" "" "" "" "" "" "" "" "" "" "".

Definition config_step (kv : string * string) (opts : options) : outcome options :=
  let (k, v) := kv in
  let (o, nr, tn, ci, ri, mk, cs, en, rs, vn, kn, am, cp, cb, cw) := opts in
  let at_ := String.eqb k in
  if at_ "key_not_required" then
    b ← ParseBool v; Ret (mk_options o b tn ci ri mk cs en rs vn kn am cp cb cw)
  else if at_ "tenant_id" then Ret (mk_options o nr v ci ri mk cs en rs vn kn am cp cb cw)
  else if at_ "client_id" then Ret (mk_options o nr tn v ri mk cs en rs vn kn am cp cb cw)
  else if at_ "client_secret" then Ret (mk_options o nr tn ci ri mk v en rs vn kn am cp cb cw)
  else if at_ "environment" then Ret (mk_options o nr tn ci ri mk cs v rs vn kn am cp cb cw)
  else if at_ "resource" then Ret (mk_options o nr tn ci ri mk cs en v vn kn am cp cb cw)
  else if at_ "vault_name" then Ret (mk_options o nr tn ci ri mk cs en rs v kn am cp cb cw)
  else if at_ "key_name" then Ret (mk_options o nr tn ci ri mk cs en rs vn v am cp cb cw)
  else if at_ "auth_method" then Ret (mk_options o nr tn ci ri mk cs en rs vn kn v cp cb cw)
  else if at_ "cert_path" then Ret (mk_options o nr tn ci ri mk cs en rs vn kn am v cb cw)
  else if at_ "cert_bytes" then Ret (mk_options o nr tn ci ri mk cs en rs vn kn am cp v cw)
  else if at_ "cert_password" then Ret (mk_options o nr tn ci ri mk cs en rs vn kn am cp cb v)
  else if at_ "managed_id_kind" then Ret (mk_options o nr tn ci ri v cs en rs vn kn am cp cb cw)
  else if at_ "resource_id" then Ret (mk_options o nr tn ci v mk cs en rs vn kn am cp cb cw)
  else Ret opts.

Definition set_secrets (vals : list string) (opts : options) : options :=
  let (o, nr, tn, ci, ri, mk, cs, en, rs, vn, kn, am, cp, cb, cw) := opts in
  match vals with
  | [ci; cs; tn] => mk_options o nr tn ci ri mk cs en rs vn kn am cp cb cw
  | _ => opts
  end.

Definition getOpts `{RangeOrder} {L} (ParsePath : string -> string * option error)
    (opt : list (Opt L)) : outcome options :=
  o ← GetOpts opt;
  opts ← range_loop config_step (range_order (WithConfigMap_ (o_RPC o))) (getDefaultOptions o);
  vals ← parse_secrets ParsePath (disallows (opts_Options opts))
           [withClientId opts; withClientSecret opts; withTenantId opts];
  Ret (set_secrets vals opts).

(** ** The wrapper *)

Definition Type_azurekeyvault : string := "azurekeyvault".

Definition EnvAzureKeyVaultWrapperVaultName : string := "AZUREKEYVAULT_WRAPPER_VAULT_NAME".
Definition EnvVaultAzureKeyVaultVaultName : string := "VAULT_AZUREKEYVAULT_VAULT_NAME".
Definition EnvAzureKeyVaultWrapperKeyName : string := "AZUREKEYVAULT_WRAPPER_KEY_NAME".
Definition EnvVaultAzureKeyVaultKeyName : string := "VAULT_AZUREKEYVAULT_KEY_NAME".
Definition EnvVaultAzureKeyVaultAuthMethod : string := "VAULT_AZUREKEYVAULT_AUTH_METHOD".
Definition EnvVaultAzureKeyVaultCertificatePath : string := "VAULT_AZUREKEYVAULT_CERTIFICATE_PATH".
Definition EnvVaultAzureKeyVaultCertificatePassword : string := "VAULT_AZUREKEYVAULT_CERTIFICATE_PASSWORD".
Definition EnvVaultAzureKeyVaultManagedIdentityKind : string := "VAULT_AZUREKEYVAULT_MANAGED_IDENTITY_KIND".
Definition EnvVaultAzureKeyVaultResourceId : string := "VAULT_AZUREKEYVAULT_RESOURCE_ID".

Inductive authenticationMethod :=
| Automatic | DefaultAzureCredential | EnvironmentCredential | ManagedIdentityCredential
| CertificateCredential | ClientSecretCredential | WorkloadIdentityCredential.

#[export] Instance authenticationMethod_eq_dec : EqDecision authenticationMethod.
Proof. solve_decision. Defined.

Inductive managedIdentityKind := undefined | clientId | resourceId.

(** The last part of a key identifier. *)
Definition ParseKeyVersion (kid : string) : string := List.last (Split kid "/") "".

Section azure.
Context {A : Azure}.

(** What SetConfig reads and what the credentials are made of. *)
Record identity := mk_identity {
  tenantID : string;
  clientID : string;
  clientSecret : string;
  authMethod : authenticationMethod;
  certPath : string;
  certBytes : string;
  certPassword : string;
  resourceID : string;
  managedIdKind : managedIdentityKind;
}.

(** The wrapper object: those fields, and the rest of its struct. *)
Record wrapper := mk_wrapper {
  v_identity : identity;
  keyName : string;
  vaultName : string;
  keyNotRequired : bool;
  currentKeyId : string;
  client : option az_client;
  environment : Environment;
  resource : string;
  logger : option nat;
  baseURL : string;
}.

Definition NewWrapper : wrapper :=
  mk_wrapper (mk_identity "" "" "" Automatic "" "" "" "" undefined) "" "" false "" None
    (mkEnvironment "" "" "") "" None "".

Abbreviation state := (cloud wrapper az_world).

Definition set_flags (nr : bool) (lg : option nat) (v : wrapper) : wrapper :=
  let (i, kn, vn, _, id, cl, en, rs, _, bu) := v in mk_wrapper i kn vn nr id cl en rs lg bu.
Definition set_identity (f : identity -> identity) (v : wrapper) : wrapper :=
  let (i, kn, vn, nr, id, cl, en, rs, lg, bu) := v in mk_wrapper (f i) kn vn nr id cl en rs lg bu.
Definition set_keyName (x : string) (v : wrapper) : wrapper :=
  let (i, _, vn, nr, id, cl, en, rs, lg, bu) := v in mk_wrapper i x vn nr id cl en rs lg bu.
Definition set_vaultName (x : string) (v : wrapper) : wrapper :=
  let (i, kn, _, nr, id, cl, en, rs, lg, bu) := v in mk_wrapper i kn x nr id cl en rs lg bu.
Definition store_current (x : string) (v : wrapper) : wrapper :=
  let (i, kn, vn, nr, _, cl, en, rs, lg, bu) := v in mk_wrapper i kn vn nr x cl en rs lg bu.
Definition set_client (x : option az_client) (v : wrapper) : wrapper :=
  let (i, kn, vn, nr, id, _, en, rs, lg, bu) := v in mk_wrapper i kn vn nr id x en rs lg bu.
Definition set_environment (x : Environment) (v : wrapper) : wrapper :=
  let (i, kn, vn, nr, id, cl, _, rs, lg, bu) := v in mk_wrapper i kn vn nr id cl x rs lg bu.
Definition set_resource (x : string) (v : wrapper) : wrapper :=
  let (i, kn, vn, nr, id, cl, en, _, lg, bu) := v in mk_wrapper i kn vn nr id cl en x lg bu.
Definition set_baseURL (x : string) (v : wrapper) : wrapper :=
  let (i, kn, vn, nr, id, cl, en, rs, lg, _) := v in mk_wrapper i kn vn nr id cl en rs lg x.

Definition KeyId : prog state string := v ← self; mret (currentKeyId v).

(** ** Authentication *)

Definition automatic_method (i : identity) : authenticationMethod :=
  if is_set (tenantID i) && is_set (clientID i) && is_set (clientSecret i) then ClientSecretCredential
  else if is_set (certBytes i) || is_set (certPath i) then CertificateCredential
  else if is_set (clientID i) then ManagedIdentityCredential
  else DefaultAzureCredential.

Definition configureAuthMethod (name : string) (i : identity) : identity :=
  let m := ToLower name in
  let at_ := String.eqb m in
  let method :=
    if at_ "certificate" then CertificateCredential
    else if at_ "client_secret" then ClientSecretCredential
    else if at_ "managed_identity" then ManagedIdentityCredential
    else if at_ "workload_identity" then WorkloadIdentityCredential
    else if at_ "environment" then EnvironmentCredential
    else if at_ "default" then DefaultAzureCredential
    else automatic_method i in
  let (tn, ci, cs, _, cp, cb, cw, ri, mi) := i in mk_identity tn ci cs method cp cb cw ri mi.

Definition getManagedIdentityID (i : identity) : ManagedID :=
  match managedIdKind i with
  | clientId | undefined => ClientID (clientID i)
  | resourceId => ResourceID (resourceID i)
  end.

Section credentials.
Context (am : ambient A) (environ : string -> string).

Definition getDefaultAzureCredential (i : identity) : prog state az_cred :=
  if String.eqb (tenantID i) ""
  then lift (Fail (ErrLeaf "tenant_id is required for default azure credential authentication"))
  else on_err (wrapf "failed to get default identity credentials")
         (in_service (NewDefaultAzureCredential am (tenantID i))).

Definition getEnvironmentCredential : prog state az_cred :=
  on_err (wrapf "failed to get environment credentials") (in_service (NewEnvironmentCredential am)).

Definition getManagedIdentityCredential (i : identity) : prog state az_cred :=
  let id := getManagedIdentityID i in
  if String.eqb (ManagedID_String id) ""
  then lift (Fail (ErrLeaf "either client_id or resource_id is required for managed identity authentication"))
  else on_err (wrapf "failed to get managed identity credentials")
         (in_service (NewManagedIdentityCredential am id)).

(** A client secret may be empty. *)
Definition getClientSecretCredential (i : identity) : prog state az_cred :=
  if String.eqb (tenantID i) ""
  then lift (Fail (ErrLeaf "tenant_id is required for azure client secret authentication"))
  else if String.eqb (clientID i) ""
  then lift (Fail (ErrLeaf "client_id is required for azure client secret authentication"))
  else on_err (wrapf "failed to get client secret credentials")
         (in_service (NewClientSecretCredential environ (tenantID i) (clientID i) (clientSecret i))).

(** The certificate: the file's content, or the configured bytes where there is
    no file or it is empty. *)
Definition certificate_data (i : identity) : prog state bytes :=
  if String.eqb (certPath i) "" && String.eqb (certBytes i) ""
  then lift (Fail (ErrLeaf "either cert_path or cert_bytes are required for certificate authentication"))
  else
    file ← (if is_set (certPath i) then
              on_err (fun e => ErrLeaf ("failed to read certificate file " +:+ certPath i +:+ ": " +:+ err_msg e))
                (in_service (az_ReadFile (certPath i)))
            else mret []);
    match (match file with [] => bytes_of_string (certBytes i) | _ => file end) with
    | [] => lift (Fail (ErrLeaf "missing required certificate contents"))
    | data => mret data
    end.

Definition getCertificateCredential (i : identity) : prog state az_cred :=
  if String.eqb (tenantID i) ""
  then lift (Fail (ErrLeaf "tenant_id is required for azure certificate authentication"))
  else if String.eqb (clientID i) ""
  then lift (Fail (ErrLeaf "client_id is required for certificate authentication"))
  else
    certData ← certificate_data i;
    let password := if is_set (certPassword i) then Some (bytes_of_string (certPassword i)) else None in
    certs ← lift (map_err (wrapf "failed to parse client certificate") (az_ParseCertificates certData password));
    on_err (wrapf "failed to get client certificate credentials")
      (in_service (NewClientCertificateCredential environ (tenantID i) (clientID i) certs)).

Definition getWorkloadIdentityCredential (i : identity) : prog state az_cred :=
  if String.eqb (tenantID i) ""
  then lift (Fail (ErrLeaf "tenant_id is required for azure workload identity authentication"))
  else on_err (wrapf "failed to get workload identity credentials")
         (in_service (NewWorkloadIdentityCredential am (tenantID i))).

Definition getCredential (i : identity) : prog state az_cred :=
  match authMethod i with
  | DefaultAzureCredential => getDefaultAzureCredential i
  | EnvironmentCredential => getEnvironmentCredential
  | ManagedIdentityCredential => getManagedIdentityCredential i
  | ClientSecretCredential => getClientSecretCredential i
  | CertificateCredential => getCertificateCredential i
  | WorkloadIdentityCredential => getWorkloadIdentityCredential i
  | Automatic => lift (Fail (ErrLeaf "unknown authentication method"))
  end.

Definition getKeyVaultClient : prog state az_client :=
  v ← self;
  cred ← getCredential (v_identity v);
  on_err (fun e => ErrNode ("failed to create keyvault client " +:+ err_msg e) [e]) (in_service (az_NewClient environ (baseURL v) cred)).
End credentials.

(** ** Configuration *)

Section config.
Context (ParsePath : string -> string * option error) (getenv : string -> string).

Definition setting (opts : options) (names : list string) (configured : string) : string :=
  env_switch getenv (disallows (opts_Options opts)) names configured.

(** The fields of the identity before the method is chosen; a setting that is
    nowhere keeps the old value, the certificate bytes are always replaced. *)
Definition set_credentials (opts : options) (i : identity) : identity :=
  let (tn, ci, cs, am, cp, _, cw, ri, mi) := i in
  mk_identity
    (or_keep tn (setting opts ["AZURE_TENANT_ID"] (withTenantId opts)))
    (or_keep ci (setting opts ["AZURE_CLIENT_ID"] (withClientId opts)))
    (or_keep cs (setting opts ["AZURE_CLIENT_SECRET"] (withClientSecret opts)))
    am
    (or_keep cp (setting opts [EnvVaultAzureKeyVaultCertificatePath] (withCertPath opts)))
    (withCertBytes opts)
    (or_keep cw (setting opts [EnvVaultAzureKeyVaultCertificatePassword] (withCertPassword opts)))
    ri mi.

Definition set_managed (opts : options) (i : identity) : identity :=
  let (tn, ci, cs, am, cp, cb, cw, ri, _) := i in
  let kind := ToUpper (setting opts [EnvVaultAzureKeyVaultManagedIdentityKind] (withManagedIdKind opts)) in
  mk_identity tn ci cs am cp cb cw
    (or_keep ri (setting opts [EnvVaultAzureKeyVaultResourceId] (withResourceId opts)))
    (if String.eqb kind "CLIENT_ID" then clientId
     else if String.eqb kind "RESOURCE_ID" then resourceId else undefined).

(** Without the environment only a certificate and a client secret are allowed. *)
Definition set_method (opts : options) : prog state unit :=
  let authMethodName := setting opts [EnvVaultAzureKeyVaultAuthMethod] (withAuthMethod opts) in
  _ ← update (set_identity (configureAuthMethod authMethodName));
  v ← self;
  let m := authMethod (v_identity v) in
  if disallows (opts_Options opts) &&
     negb (bool_decide (m = CertificateCredential) || bool_decide (m = ClientSecretCredential))
  then lift (Fail (ErrLeaf ("authentication method cannot be used in this context: " +:+ authMethodName)))
  else mret tt.

(** The cloud, and the resource in it that tokens are asked for. *)
Definition set_cloud (opts : options) : prog state unit :=
  let d := disallows (opts_Options opts) in
  let envName := env_or getenv d "AZURE_ENVIRONMENT" (withEnvironment opts) in
  _ ← (if String.eqb envName "" then update (set_environment az_PublicCloud)
       else r ← in_service (az_EnvironmentFromName getenv envName);
            _ ← update (set_environment r.1); lift (of_err r.2));
  update (fun v =>
    let r := env_or getenv d "AZURE_AD_RESOURCE" (withResource opts) in
    let azResource := if String.eqb r "" then env_KeyVaultDNSSuffix (environment v) else r in
    let url := "https://" +:+ azResource +:+ "/" in
    set_resource url (set_environment (mkEnvironment (env_Name (environment v)) azResource url) v)).

(** The vault and the key. *)
Definition set_names (opts : options) : prog state unit :=
  vault ← lift (required "vault name is required"
    (setting opts [EnvAzureKeyVaultWrapperVaultName; EnvVaultAzureKeyVaultVaultName] (withVaultName opts)));
  _ ← update (set_vaultName vault);
  let key := setting opts [EnvAzureKeyVaultWrapperKeyName; EnvVaultAzureKeyVaultKeyName] (withKeyName opts) in
  _ ← (if is_set key then update (set_keyName key)
       else if withKeyNotRequired opts then mret tt else lift (Fail (ErrLeaf "key name is required")));
  update (fun v => set_baseURL
    ("https://" +:+ vaultName v +:+ "." +:+ env_KeyVaultDNSSuffix (environment v) +:+ "/") v).

Definition settings (opts : options) : prog state unit :=
  _ ← update (set_flags (withKeyNotRequired opts) (o_Logger (opts_Options opts)));
  _ ← update (set_identity (set_credentials opts));
  _ ← set_method opts;
  _ ← update (set_identity (set_managed opts));
  _ ← set_cloud opts;
  set_names opts.

(** The client of a wrapper that has none, kept when it finds the key. *)
Definition init_client (am : ambient A) : prog state unit :=
  c ← on_err (wrapf "error initializing Azure Key Vault wrapper client") (getKeyVaultClient am getenv);
  v ← self;
  _ ← (if keyNotRequired v then mret tt else
       keyInfo ← on_err (wrapf "error fetching Azure Key Vault wrapper key information")
         (in_service (az_GetKey c (keyName v)));
       match keyInfo with
       | None => lift (Fail (ErrLeaf "no key information returned"))
       | Some kid => update (store_current (ParseKeyVersion (default "" kid)))
       end);
  update (set_client (Some c)).

Definition metadata (v : wrapper) : gmap string string :=
  <["resource" := resource v]> (<["key_name" := keyName v]>
    (<["vault_name" := vaultName v]> {[ "environment" := env_Name (environment v) ]})).

Definition SetConfig `{RangeOrder} {L} (am : ambient A) (opt : list (Opt L)) : prog state WrapperConfig :=
  opts ← lift (getOpts ParsePath opt);
  _ ← settings opts;
  v ← self;
  _ ← match client v with Some _ => mret tt | None => init_client am end;
  v ← self;
  mret (mkWrapperConfig (metadata v)).
End config.

(** ** Encrypt and Decrypt *)

(** A method of a nil client. *)
Definition with_client {B} (f : az_client -> wrapper -> prog az_world B) : prog state B :=
  call_client client f.

Definition wrap (key : slice) : prog state (string * slice) :=
  resp ← with_client (fun c v => az_WrapKey c (keyName v) key);
  let keyVersion := ParseKeyVersion (az_ID_Version resp.1) in
  _ ← update (store_current keyVersion);
  mret (keyVersion, resp.2).

(** A wrapped key that is base64 text was stored that way by older versions. *)
Definition wrapped_bytes (wrapped : slice) : slice :=
  match b64_DecodeString RawURLEncoding (bytes_text wrapped) with
  | Ret b => Some b
  | _ => wrapped
  end.

Definition unwrap (info : KeyInfo) : prog state slice :=
  with_client (fun c v => az_UnwrapKey c (keyName v) (ki_KeyId info) (wrapped_bytes (ki_WrappedKey info))).

Section crypt.
Context `{AesGcm, Entropy} {L : Type}.

Definition Encrypt : slice -> list (Opt L) -> prog state BlobInfo := checked_Encrypt 0 wrap.

Definition Decrypt (in_ : option BlobInfo) (opt : list (Opt L)) : prog state slice :=
  match in_ with
  | None => lift (Fail nil_blob)
  | Some b =>
      match bi_KeyInfo b with
      | None => lift (Fail (ErrLeaf "key info is nil"))
      | Some info => unwrap_and_open unwrap id info b opt
      end
  end.

#[export] Instance azure_wrapper `{RangeOrder} (ParsePath : string -> string * option error)
    (getenv : string -> string) (am : ambient A) : Wrapper L state := {|
  w_Type := mret Type_azurekeyvault;
  w_SetConfig opt := c ← SetConfig ParsePath getenv am opt; mret (Some c);
  w_Encrypt pt opt := b ← Encrypt pt opt; mret (Some b);
  w_Decrypt b opt := Decrypt b opt;
  w_KeyId := KeyId;
|}.
End crypt.
End azure.
Arguments wrapper A : clear implicits.

(** ** What the service guarantees

    A wrapped key is unwrapped again by the same client, with the key's name and
    the version that wrapped it. *)
Class AzureLaws (A : Azure) := azure_unwraps : forall c name key w kid ct w',
  az_WrapKey c name key w = (Ret (kid, ct), w') -> forall ct', slice_equiv ct ct' ->
  exists key' w'', az_UnwrapKey c name (ParseKeyVersion (az_ID_Version kid)) ct' w' = (Ret key', w'') /\
    slice_equiv key key'.

(** The wrapped key does not read as base64 text, which Decrypt would take for a
    key stored by an older version. *)
Definition raw_key (b : BlobInfo) : Prop :=
  match bi_KeyInfo b with
  | Some ki => is_ret (b64_DecodeString RawURLEncoding (bytes_text (ki_WrappedKey ki))) = false
  | None => True
  end.

Section properties.
Context {A : Azure}.

Definition connected (k : wrapper A) : Prop := is_Some (client k).

Lemma after_store x k :
  client (A := A) (store_current x k) = client k /\ keyName (A := A) (store_current x k) = keyName k.
Proof. by destruct k. Qed.

Lemma wrapped_bytes_raw ct :
  is_ret (b64_DecodeString RawURLEncoding (bytes_text ct)) = false -> wrapped_bytes ct = ct.
Proof. unfold wrapped_bytes. by destruct (b64_DecodeString _ _). Qed.

(** A key that [wrap] made is unwrapped. *)
Lemma azure_wrap_unwrap (Laws : AzureLaws A) s s' dek v ct :
  wrap (A := A) dek s = (Ret (v, ct), s') ->
  connected (cl_object s') /\ forall ki, slice_equiv ct (ki_WrappedKey ki) -> ki_KeyId ki = v ->
    is_ret (b64_DecodeString RawURLEncoding (bytes_text ct)) = false ->
    exists key, fst (unwrap ki s') = Ret key /\ slice_equiv dek key.
Proof.
  intros Hw. apply pbind_Ret in Hw as ([kid t] & s1 & He & Hw).
  apply call_client_Ret in He as (c & w & Hcl & He & ->). injection Hw as <- <- <-. simpl in *.
  destruct (after_store (ParseKeyVersion (az_ID_Version kid)) (cl_object s)) as [E1 E2].
  unfold connected. rewrite E1. split; [by exists c|]. intros ki Hk Hi Hr.
  destruct (Laws _ _ _ _ _ _ _ He _ Hk) as (key & w2 & Hd & Hkey).
  exists key. split; [|done]. unfold unwrap, with_client, call_client. rewrite self_bind. simpl.
  assert (Hraw : wrapped_bytes (ki_WrappedKey ki) = ki_WrappedKey ki).
  { apply wrapped_bytes_raw. unfold bytes_text in *. by rewrite <- Hk. }
  by rewrite E1, E2, Hcl, Hraw, Hi, (in_service_at _ _ _ _ _ _ Hd).
Qed.

(** The Azure Key Vault wrapper keeps the promise of the interface, for the blobs
    whose wrapped key does not read as base64 text. *)
Lemma azure_promise `{AesGcm, Entropy} {L} `{!AesGcmLaws _} `{RangeOrder} (Laws : AzureLaws A) P getenv am :
  promise_for (azure_wrapper (L := L) P getenv am) (fun s => connected (cl_object s)) raw_key.
Proof.
  assert (Henc : forall s s' pt (opts : list (Opt L)) b,
    w_Encrypt (Wrapper := azure_wrapper P getenv am) pt opts s = (Ret b, s') ->
    exists env s1 id ct, seal_envelope pt opts s = (Ret env, s1) /\
      wrap (ei_Key env) s1 = (Ret (id, ct), s') /\
      b = Some (mkBlobInfo (ei_Ciphertext env) (ei_Iv env) (Some (mkKeyInfo 0 id ct)))).
  { intros s s' pt opts b Hb.
    destruct (checked_encrypts (azure_wrapper P getenv am) 0 wrap eq_refl _ _ _ _ _ Hb) as (b' & -> & Hs).
    apply pbind_Ret in Hs as (env & s1 & Hs & Hr). apply pbind_Ret in Hr as ([id ct] & s2 & Hr & Hb').
    injection Hb' as <- <-. by exists env, s1, id, ct. }
  split; [|split].
  - intros s s' pt opts opts' b b' _ Hb Hraw Hreq (Hct & Hiv & Hki).
    destruct (Henc _ _ _ _ _ Hb) as (env & s1 & id & ct & Hs & Hr & [= ->]). simpl in *.
    destruct (azure_wrap_unwrap Laws _ _ _ _ _ Hr) as [_ Hu].
    inversion Hki as [x ki' (_ & Hid & Hk) Hx Hy|]. subst x. simpl in *.
    destruct (Hu ki') as (key & Hun & Hkey); [done..|].
    destruct (seal_open pt opts opts' s s1 env key b' Hs Hreq Hkey Hiv Hct) as (_ & r & Hop & Heq).
    exists r. split; [|done]. unfold unwrap_and_open. destruct (unwrap ki' s') as [o s2] eqn:E. simpl in Hun. subst o.
    rewrite (pbind_run _ _ _ _ _ E). unfold lift. simpl. by rewrite Hop.
  - intros s s' pt opts b _ Hb. destruct (Henc _ _ _ _ _ Hb) as (env & s1 & id & ct & _ & Hr & _).
    by destruct (azure_wrap_unwrap Laws _ _ _ _ _ Hr).
  - intros s s' b opts r Hc Hd. unfold w_Decrypt, azure_wrapper, Decrypt in Hd.
    destruct b as [b|]; [|done]. destruct (bi_KeyInfo b); [|done].
    enough (cl_object s' = cl_object s) as -> by done.
    eapply unwrap_and_open_object, Hd. intros key s1 Hu.
    by apply call_client_Ret in Hu as (c & w & _ & _ & ->).
Qed.

Lemma azure_getOpts_disallowed `{RangeOrder} {L} P1 P2 (opt : list (Opt L)) o :
  GetOpts opt = Ret o -> disallows o = true ->
  getOpts P1 opt = getOpts P2 opt /\
  forall opts, getOpts P1 opt = Ret opts -> disallows (opts_Options opts) = true.
Proof.
  apply (read_opts_disallowed config_step getDefaultOptions opts_Options
    (fun o => [withClientId o; withClientSecret o; withTenantId o]) set_secrets);
    [frame_step config_step|done|frame_set set_secrets].
Qed.

(** The two methods that need nothing but the configuration. *)
Definition explicit_method (m : authenticationMethod) : Prop :=
  m = CertificateCredential \/ m = ClientSecretCredential.

Definition method_of (v : wrapper A) : authenticationMethod := authMethod (v_identity v).

(** The settings after the method leave it alone. *)
Lemma after_method_keeps getenv opts (s s' : cloud (wrapper A) az_world) :
  (_ ← update (set_identity (set_managed getenv opts));
    _ ← set_cloud getenv opts; set_names getenv opts) s = (Ret tt, s') ->
  method_of (cl_object s') = method_of (cl_object s).
Proof.
  assert (Hup : forall f, (forall v, method_of (f v) = method_of v) -> forall (s s' : cloud (wrapper A) az_world) u,
    update f s = (Ret u, s') -> method_of (cl_object s') = method_of (cl_object s)).
  { intros f Hf s0 s0' u [= _ <-]. apply Hf. }
  rewrite update_bind. intros H. apply pbind_Ret in H as ([] & s1 & Hc & Hn).
  assert (E1 : method_of (cl_object s1) = method_of (cl_object s)).
  { unfold set_cloud in Hc. apply pbind_Ret in Hc as ([] & s2 & He & Hu).
    apply Hup in Hu; [rewrite Hu|by intros [[]]]. clear Hu.
    destruct (String.eqb _ _).
    - apply Hup in He; [rewrite He|by intros [[]]]. by destruct s as [[[]]].
    - apply pbind_Ret in He as ([e err] & s3 & Hin & He).
      unfold in_service, zoom in Hin. destruct (az_EnvironmentFromName _ _ _) as [o w]. injection Hin as _ <-.
      rewrite update_bind in He. injection He as _ <-. by destruct s as [[[]]]. }
  rewrite <- E1. unfold set_names in Hn. rewrite lift_bind in Hn. destruct (required _ _); [|done..].
  rewrite update_bind in Hn. apply pbind_Ret in Hn as ([] & s2 & Hk & Hu).
  apply Hup in Hu; [rewrite Hu|by intros [[]]]. clear Hu.
  destruct (is_set _); [apply Hup in Hk; [rewrite Hk|by intros [[]]]; by destruct s1 as [[[]]]|].
  destruct (withKeyNotRequired _); [injection Hk as <-; by destruct s1 as [[[]]]|done].
Qed.

(** Without the environment the settings fail unless the method is explicit. *)
Lemma set_method_explicit getenv opts (s s' : cloud (wrapper A) az_world) :
  disallows (opts_Options opts) = true -> set_method getenv opts s = (Ret tt, s') ->
  explicit_method (method_of (cl_object s')).
Proof.
  intros Hd. unfold set_method, explicit_method, method_of. rewrite update_bind, self_bind, Hd. simpl.
  case_bool_decide as H1; [intros [= <-]; by left|]. simpl.
  case_bool_decide as H2; [intros [= <-]; by right|done].
Qed.

Lemma settings_explicit getenv opts (s s' : cloud (wrapper A) az_world) :
  disallows (opts_Options opts) = true -> settings getenv opts s = (Ret tt, s') ->
  explicit_method (method_of (cl_object s')).
Proof.
  intros Hd Hs. unfold settings in Hs. rewrite !update_bind in Hs.
  apply pbind_Ret in Hs as ([] & s1 & Hm & Hs).
  rewrite (after_method_keeps _ _ _ _ Hs). by eapply set_method_explicit.
Qed.

(** The SDK makes the same of both environments where it reads them by itself: a
    cloud's name, the two explicit credentials, a client. *)
Definition sdk_agrees (g1 g2 : string -> string) : Prop :=
  (forall n w, az_EnvironmentFromName (Azure := A) g1 n w = az_EnvironmentFromName g2 n w) /\
  (forall t c x w, NewClientSecretCredential (Azure := A) g1 t c x w = NewClientSecretCredential g2 t c x w) /\
  (forall t c x w, NewClientCertificateCredential (Azure := A) g1 t c x w = NewClientCertificateCredential g2 t c x w) /\
  (forall u c w, az_NewClient (Azure := A) g1 u c w = az_NewClient g2 u c w).

Lemma settings_agree g1 g2 opts s : disallows (opts_Options opts) = true -> sdk_agrees g1 g2 ->
  settings (A := A) g1 opts s = settings g2 opts s.
Proof.
  intros Hd (Hn & _). unfold settings, set_method, set_names, set_managed, set_credentials, setting.
  assert (He : forall names v, env_switch g1 (disallows (opts_Options opts)) names v =
    env_switch g2 (disallows (opts_Options opts)) names v) by (intros; by rewrite Hd, !env_switch_disallowed).
  rewrite !He. do 4 (apply bind_agrees; [done|intros [] ? _]).
  apply bind_agrees; [|done]. unfold set_cloud, env_or. rewrite !Hd.
  apply bind_agrees; [|done]. destruct (String.eqb _ _); [done|].
  apply bind_agrees; [|done]. unfold in_service, zoom. by rewrite Hn.
Qed.

Lemma getKeyVaultClient_agrees am1 am2 g1 g2 (s : cloud (wrapper A) az_world) :
  sdk_agrees g1 g2 -> explicit_method (method_of (cl_object s)) ->
  getKeyVaultClient am1 g1 s = getKeyVaultClient am2 g2 s.
Proof.
  intros (_ & Hs & Hc & Hn) Hm. unfold getKeyVaultClient. rewrite !self_bind. apply bind_agrees.
  - unfold getCredential, getCertificateCredential, getClientSecretCredential.
    unfold explicit_method, method_of in Hm. destruct Hm as [-> | ->].
    + repeat (destruct (String.eqb _ _); [done|]). do 2 (apply bind_agrees; [done|intros ? ? _]).
      unfold on_err, in_service, zoom. by rewrite Hc.
    + repeat (destruct (String.eqb _ _); [done|]). unfold on_err, in_service, zoom. by rewrite Hs.
  - intros cred s' _. unfold on_err, in_service, zoom. by rewrite Hn.
Qed.

(** With environment variables disallowed SetConfig itself reads neither the
    environment nor the references in the configuration, and asks for none of the
    credentials azidentity finds on the machine: outcome and new state are the same
    whatever they are, as long as the SDK's own functions, where they read the
    environment, make the same of it. *)
Lemma azure_env_isolated `{RangeOrder} {L} P1 P2 g1 g2 am1 am2 (opt : list (Opt L)) o s :
  GetOpts opt = Ret o -> disallows o = true -> sdk_agrees g1 g2 ->
  SetConfig (A := A) P1 g1 am1 opt s = SetConfig P2 g2 am2 opt s.
Proof.
  intros Ho Hd Hsdk. destruct (azure_getOpts_disallowed P1 P2 opt o Ho Hd) as [E Hopts].
  unfold SetConfig. rewrite <- E, !lift_bind.
  destruct (getOpts P1 opt) as [opts|e|]; [|done..]. specialize (Hopts opts eq_refl).
  apply bind_agrees; [by apply settings_agree|]. intros [] s1 E1.
  pose proof (settings_explicit g1 opts s s1 Hopts E1) as Hm. rewrite !self_bind.
  apply bind_agrees; [|done]. destruct (client (cl_object s1)); [done|].
  apply bind_agrees; [|done]. unfold on_err. by rewrite (getKeyVaultClient_agrees am1 am2 g1 g2).
Qed.

(** a blob of an older version, whose wrapped key was stored as base64 text, is
    decrypted exactly like the same blob with the raw key, unless the raw key itself
    reads as base64 text: then the raw blob is decrypted like the blob whose key is
    the bytes that text stands for. *)
Theorem azure_legacy_key `{AesGcm} {L} (b : BlobInfo) (info : KeyInfo) (raw : bytes) (opt : list (Opt L)) :
  let blob (wrapped : slice) := Some (mkBlobInfo (bi_Ciphertext b) (bi_Iv b)
    (Some (mkKeyInfo (ki_Mechanism info) (ki_KeyId info) wrapped))) in
  let text := text_bytes (b64_EncodeToString RawURLEncoding raw) in
  match b64_DecodeString RawURLEncoding (string_of_bytes raw) with
  | Ret bytes => Decrypt (A := A) (blob (Some raw)) opt =
      Decrypt (blob (text_bytes (b64_EncodeToString RawURLEncoding bytes))) opt
  | _ => Decrypt (A := A) (blob text) opt = Decrypt (blob (Some raw)) opt
  end.
Proof.
  assert (Ht : forall l, wrapped_bytes (text_bytes (b64_EncodeToString RawURLEncoding l)) = Some l).
  { intros l. unfold wrapped_bytes, bytes_text, text_bytes. simpl.
    rewrite string_of_bytes_of_string, b64_decode_encode; [done|by right]. }
  assert (Hd : forall x y, wrapped_bytes x = wrapped_bytes y ->
    forall c i m k, Decrypt (A := A) (Some (mkBlobInfo c i (Some (mkKeyInfo m k x)))) opt =
      Decrypt (Some (mkBlobInfo c i (Some (mkKeyInfo m k y)))) opt).
  { intros x y E c i m k. unfold Decrypt, unwrap_and_open, unwrap. simpl. by rewrite E. }
  intros blob text. subst blob text. cbv beta.
  destruct (b64_DecodeString RawURLEncoding (string_of_bytes raw)) as [l|e|] eqn:E; apply Hd; rewrite Ht;
    unfold wrapped_bytes, bytes_text; simpl; by rewrite E.
Qed.
End properties.
