(* ===== verification/Clouds.v ===== *)
(** * All cloud wrappers together

    The statements that hold of every wrapper of a cloud key service, from the
    lemmas of its own file. *)
From S2P Require Import Kmip AwsKms GcpCkms AzureKeyVault AliCloudKms HuaweiCloudKms.
From S2P Require Import OciKms OvhCloudKms TencentCloudKms TCloudPublicKms.
From S2P Require Import Prelude Crypto Wrapping Envelope Cloud.

(** A wrapper object that satisfies [ready] keeps the promise of the interface. *)
Definition keeps_promise {L O W} (impl : Wrapper L (cloud O W)) (ready : O -> Prop) : Prop :=
  WrapperSpec impl (fun s => ready (cl_object s)).

(** Two programs that cannot be told apart. *)
Definition same_program {S A} (m1 m2 : prog S A) : Prop := forall s, m1 s = m2 s.

(** [v] is the value of an environment variable that is set. *)
Definition taken_from (getenv : string -> string) (name v : string) : Prop :=
  getenv name <> "" -> v = getenv name.

Section promise.
Context `{AesGcm, Entropy, RangeOrder} `{!AesGcmLaws _} {L : Type}.
Context (ParsePath : string -> string * option error) (getenv : string -> string).

(** C22: every cloud wrapper keeps the promise of the interface, provided its service
    gives back, in the state right after, the key it wrapped: once it has its
    client, each blob it encrypted is decrypted to its plaintext, under the same
    options, also after the blob was stored and read back, and it keeps its
    client. For Azure Key Vault this is stated of the blobs whose wrapped key does
    not happen to read as unpadded base64url text: Decrypt takes such a key for
    one stored by an older version and decodes it first (azure_legacy_key), and
    nothing the service guarantees excludes it. *)
Theorem cloud_wrappers_promise
    (A1 : AwsKms.Aws) (A2 : GcpCkms.Gcp) (A3 : AzureKeyVault.Azure) (A4 : AliCloudKms.Ali)
    (A5 : HuaweiCloudKms.Huawei) (A6 : OciKms.Oci) (A7 : OvhCloudKms.Ovh) (A8 : TencentCloudKms.Tencent)
    (A9 : TCloudPublicKms.TCloud)
    (L1 : AwsKms.AwsLaws A1) (L2 : GcpCkms.GcpLaws A2) (L3 : AzureKeyVault.AzureLaws A3)
    (L4 : AliCloudKms.AliLaws A4) (L5 : HuaweiCloudKms.HuaweiLaws A5) (L6 : OciKms.OciLaws A6)
    (L7 : OvhCloudKms.OvhLaws A7) (L8 : TencentCloudKms.TencentLaws A8) (L9 : TCloudPublicKms.TCloudLaws A9)
    region chain am :
  keeps_promise (AwsKms.aws_wrapper (A := A1) (L := L) ParsePath getenv region chain)
    (fun k => is_Some (AwsKms.w_client k)) /\
  keeps_promise (GcpCkms.gcp_wrapper (G := A2) (L := L) ParsePath getenv)
    (fun k => is_Some (GcpCkms.g_client k)) /\
  promise_for (AzureKeyVault.azure_wrapper (A := A3) (L := L) ParsePath getenv am)
    (fun s => AzureKeyVault.connected (cl_object s)) AzureKeyVault.raw_key /\
  keeps_promise (AliCloudKms.ali_wrapper (A := A4) (L := L) ParsePath getenv) AliCloudKms.connected /\
  keeps_promise (HuaweiCloudKms.huawei_wrapper (A := A5) (L := L) ParsePath getenv) HuaweiCloudKms.connected /\
  keeps_promise (OciKms.oci_wrapper (C := A6) (L := L) ParsePath getenv) OciKms.connected /\
  keeps_promise (OvhCloudKms.ovh_wrapper (C := A7) (L := L) getenv) OvhCloudKms.connected /\
  keeps_promise (TencentCloudKms.tencent_wrapper (T := A8) (L := L) ParsePath getenv) TencentCloudKms.connected /\
  keeps_promise (TCloudPublicKms.tcloud_wrapper (T := A9) (L := L) getenv) TCloudPublicKms.connected.
Proof.
  split_and!; [by apply AwsKms.aws_promise|by apply GcpCkms.gcp_promise|by apply AzureKeyVault.azure_promise
    |by apply AliCloudKms.ali_promise|by apply HuaweiCloudKms.huawei_promise|by apply OciKms.oci_promise
    |by apply OvhCloudKms.ovh_promise|by apply TencentCloudKms.tencent_promise
    |by apply TCloudPublicKms.tcloud_promise].
Qed.
End promise.

Section environment.
Context `{AesGcm, Entropy, RangeOrder} {L : Type}.

(** C23: with environment variables disallowed, the AWS, Google, Azure, AliCloud,
    OCI, OVHcloud, T Cloud Public and KMIP wrappers themselves take nothing from
    the environment: SetConfig is the same function whatever the variables hold
    and whatever the references in the configuration stand for. Of the ways an
    SDK finds credentials on the machine, it asks neither for AWS regions and
    credential chains nor for any of azidentity's ambient credentials. What the
    SDK functions it does call read of the environment by themselves is not the
    wrapper's: for Google (a client without configured credentials takes those
    of GOOGLE_APPLICATION_CREDENTIALS, see gcp_default_credentials) and Azure
    (cloud names, authorities) these functions have the environment as an
    argument, and the two wrappers tell two environments apart in no other way
    than through them; the functions of the other SDKs are the same on both sides. *)
Theorem cloud_env_isolated (A1 : AwsKms.Aws) (A2 : GcpCkms.Gcp) (A3 : AzureKeyVault.Azure) (A4 : AliCloudKms.Ali)
    (A5 : OciKms.Oci) (A6 : OvhCloudKms.Ovh) (A7 : TCloudPublicKms.TCloud) (A8 : Kmip.Kmip)
    P1 P2 g1 g2 (opt : list (Opt L)) o :
  GetOpts opt = Ret o -> disallows o = true ->
  (forall R1 R2 C1 C2, same_program (AwsKms.SetConfig (A := A1) P1 g1 R1 C1 opt) (AwsKms.SetConfig P2 g2 R2 C2 opt)) /\
  (GcpCkms.sdk_agrees (G := A2) g1 g2 ->
    same_program (GcpCkms.SetConfig (G := A2) P1 g1 opt) (GcpCkms.SetConfig P2 g2 opt)) /\
  (AzureKeyVault.sdk_agrees (A := A3) g1 g2 ->
    forall am1 am2, same_program (AzureKeyVault.SetConfig (A := A3) P1 g1 am1 opt) (AzureKeyVault.SetConfig P2 g2 am2 opt)) /\
  same_program (AliCloudKms.SetConfig (A := A4) P1 g1 opt) (AliCloudKms.SetConfig P2 g2 opt) /\
  same_program (OciKms.SetConfig (C := A5) P1 g1 opt) (OciKms.SetConfig P2 g2 opt) /\
  same_program (OvhCloudKms.SetConfig (C := A6) g1 opt) (OvhCloudKms.SetConfig g2 opt) /\
  same_program (TCloudPublicKms.SetConfig (T := A7) g1 opt) (TCloudPublicKms.SetConfig g2 opt) /\
  same_program (Kmip.SetConfig (K := A8) g1 opt) (Kmip.SetConfig g2 opt).
Proof.
  intros Ho Hd. split_and!; repeat intros ?.
  - by eapply AwsKms.aws_env_isolated.
  - by eapply GcpCkms.gcp_env_isolated.
  - by eapply AzureKeyVault.azure_env_isolated.
  - by eapply AliCloudKms.ali_env_isolated.
  - by eapply OciKms.oci_env_isolated.
  - by eapply OvhCloudKms.ovh_env_isolated.
  - by eapply TCloudPublicKms.tcloud_env_isolated.
  - by eapply Kmip.kmip_env_isolated.
Qed.

(** the HuaweiCloud and TencentCloud wrappers read the environment whatever
    the options say: after a SetConfig that succeeds, also one with environment
    variables disallowed, key and credentials are those of the environment wherever
    it has them. *)
Theorem cloud_env_leaks (A1 : HuaweiCloudKms.Huawei) (A2 : TencentCloudKms.Tencent) P getenv (opt : list (Opt L)) :
  (forall s c s', HuaweiCloudKms.SetConfig (A := A1) P getenv opt s = (Ret c, s') ->
     taken_from getenv HuaweiCloudKms.EnvHuaweiCloudKmsWrapperKeyId (HuaweiCloudKms.keyId (cl_object s'))) /\
  (forall s c s', TencentCloudKms.SetConfig (T := A2) P getenv opt s = (Ret c, s') ->
     taken_from getenv TencentCloudKms.PROVIDER_KMS_KEY_ID (TencentCloudKms.keyId (cl_object s')) /\
     taken_from getenv TencentCloudKms.PROVIDER_SECRET_ID (TencentCloudKms.accessKey (cl_object s')) /\
     taken_from getenv TencentCloudKms.PROVIDER_SECRET_KEY (TencentCloudKms.secretKey (cl_object s'))).
Proof.
  split; intros s c s' Hs.
  - intros Hk. by eapply HuaweiCloudKms.huawei_env_wins.
  - by apply TencentCloudKms.tencent_env_wins in Hs.
Qed.
End environment.

(** ** Witnesses: services that hand the key back as it came

    Their wrapped keys are the keys' texts; Azure's is marked with a character no
    base64 text has. *)

Definition toy_azure : AzureKeyVault.Azure := {|
  AzureKeyVault.az_world := unit;
  AzureKeyVault.az_client := unit;
  AzureKeyVault.az_cred := unit;
  AzureKeyVault.az_PublicCloud := AzureKeyVault.mkEnvironment "AzurePublicCloud" "vault.azure.net" "";
  AzureKeyVault.az_EnvironmentFromName environ n := mret (AzureKeyVault.mkEnvironment n "" "", None);
  AzureKeyVault.az_ReadFile f := mret [];
  AzureKeyVault.az_ParseCertificates d p := Ret 0%nat;
  AzureKeyVault.NewClientSecretCredential environ t c s := mret tt;
  AzureKeyVault.NewClientCertificateCredential environ t c n := mret tt;
  AzureKeyVault.az_NewClient environ u c := mret tt;
  AzureKeyVault.az_GetKey c n := mret (Some (Some "https://v/keys/k/1"));
  AzureKeyVault.az_ID_Version k := "1";
  AzureKeyVault.az_WrapKey c n key := mret (None, Some ("!"%char :: content key));
  AzureKeyVault.az_UnwrapKey c n v ct := mret (Some (tail (content ct)));
|}.

Definition toy_ambient : AzureKeyVault.ambient toy_azure :=
  AzureKeyVault.mk_ambient toy_azure (fun _ => mret tt) (mret tt) (fun _ => mret tt) (fun _ => mret tt).

Definition toy_ali : AliCloudKms.Ali := {|
  AliCloudKms.ali_world := unit;
  AliCloudKms.ali_client := unit;
  AliCloudKms.ali_Retrieve l := mret (length l);
  AliCloudKms.ali_NewClientWithOptions r n := mret tt;
  AliCloudKms.ali_DescribeKey c k d := mret (Some k);
  AliCloudKms.ali_Encrypt c k t d := mret (k, t);
  AliCloudKms.ali_Decrypt c t d := mret t;
|}.

Definition toy_huawei : HuaweiCloudKms.Huawei := {|
  HuaweiCloudKms.hw_world := unit;
  HuaweiCloudKms.hw_provider := unit;
  HuaweiCloudKms.hw_service := unit;
  HuaweiCloudKms.hw_NewClient e := mret tt;
  HuaweiCloudKms.hw_Authenticate p o := mret tt;
  HuaweiCloudKms.hw_NewKMSV1 p r := mret tt;
  HuaweiCloudKms.hw_KeyInfo c k := mret k;
  HuaweiCloudKms.hw_Post c path body := mret
    match body !! "plain_text" with
    | Some t => {[ "cipher_text" := t ]}
    | None => {[ "plain_text" := default "" (body !! "cipher_text") ]}
    end;
|}.

Definition toy_oci : OciKms.Oci := {|
  OciKms.oci_world := unit;
  OciKms.oci_crypto := unit;
  OciKms.oci_management := unit;
  OciKms.oci_InstancePrincipal := mret 0%nat;
  OciKms.oci_NewKmsCryptoClient p e := mret tt;
  OciKms.oci_NewKmsManagementClient p e := mret tt;
  OciKms.oci_Encrypt c n k t := mret (Some t);
  OciKms.oci_Decrypt c n k t := mret (Some t);
  OciKms.oci_GetKey c n k := mret (Some "v1");
|}.

Definition toy_ovh : OvhCloudKms.Ovh := {|
  OvhCloudKms.ovh_world := unit;
  OvhCloudKms.ovh_client := unit;
  OvhCloudKms.ovh_cert := unit;
  OvhCloudKms.uuid := string;
  OvhCloudKms.uuid_Nil := "";
  OvhCloudKms.uuid_Parse s := (s, None);
  OvhCloudKms.uuid_String s := s;
  OvhCloudKms.os_ReadFile f := mret [];
  OvhCloudKms.tls_X509KeyPair c k := Ret tt;
  OvhCloudKms.okms_NewRestAPIClient e c := mret tt;
  OvhCloudKms.okms_WithCustomHeader c k v := c;
  OvhCloudKms.okms_GetServiceKey c i k := mret (Some ["encrypt"; "decrypt"]);
  OvhCloudKms.okms_Encrypt c i k key := mret (string_of_bytes (content key));
  OvhCloudKms.okms_Decrypt c i k t := mret (Some (bytes_of_string t));
|}.

Definition toy_tencent : TencentCloudKms.Tencent := {|
  TencentCloudKms.tc_world := unit;
  TencentCloudKms.tc_client := unit;
  TencentCloudKms.tc_NewClient a s t r := mret tt;
  TencentCloudKms.tc_DescribeKey c k := mret (Some (Some k));
  TencentCloudKms.tc_Encrypt c k t := mret (Some k, Some t);
  TencentCloudKms.tc_Decrypt c t := mret (Some t);
|}.

Definition toy_tcloud : TCloudPublicKms.TCloud := {|
  TCloudPublicKms.ts_world := unit;
  TCloudPublicKms.ts_provider := unit;
  TCloudPublicKms.ts_service := unit;
  TCloudPublicKms.ts_NewClient e := mret tt;
  TCloudPublicKms.ts_OnRedirect p a s := p;
  TCloudPublicKms.ts_Authenticate p o := mret tt;
  TCloudPublicKms.ts_NewKMSV1 p r := mret tt;
  TCloudPublicKms.ts_EncryptData c k t := mret (k, t);
  TCloudPublicKms.ts_DecryptData c t := mret t;
|}.

Lemma marked_not_text l : is_ret (GoEncoding.b64_DecodeString GoEncoding.RawURLEncoding
  (bytes_text (Some ("!"%char :: l)))) = false.
Proof.
  unfold GoEncoding.b64_DecodeString, bytes_text. simpl. rewrite bytes_of_string_of_bytes.
  destruct (List.filter _ l) as [|a [|b [|c m]]]; try done.
Qed.

Lemma toy_azure_laws : AzureKeyVault.AzureLaws toy_azure.
Proof.
  intros c n key w kid ct w' [= <- <- <-] ct' Hc. eexists _, _. split; [reflexivity|].
  unfold slice_equiv in *. simpl in *. by rewrite <- Hc.
Qed.

Lemma toy_text_laws :
  AliCloudKms.AliLaws toy_ali /\ HuaweiCloudKms.HuaweiLaws toy_huawei /\ OciKms.OciLaws toy_oci /\
  OvhCloudKms.OvhLaws toy_ovh /\ TencentCloudKms.TencentLaws toy_tencent /\ TCloudPublicKms.TCloudLaws toy_tcloud.
Proof.
  split_and!.
  - intros c k d t w id ct w' [= <- <- <-]. by eexists.
  - intros c k t w body w' [= <- <-]. eexists _, _. split; [reflexivity|]. by simpl_map.
  - intros c n k t w ct w' [= <- <-] m n' o w2 [= <- <-]. by eexists.
  - intros c i k key w ct w' [= <- <-]. eexists _, _. split; [reflexivity|].
    unfold slice_equiv. simpl. by rewrite bytes_of_string_of_bytes.
  - intros c k t w id ct w' [= <- <- <-]. by eexists.
  - intros c k t w id ct w' [= <- <- <-]. by eexists.
Qed.

#[local] Existing Instance toy_gcm.
#[local] Existing Instance toy_gcm_laws.
#[local] Existing Instance toy_entropy.
#[local] Existing Instance default_order.

(** One configuration for all of them. *)
Definition demo_options : list (Opt Empty_set) :=
  [WithDisallowEnvVars true; WithConfigMap (list_to_map
    [("kms_key_id", "alias"); ("key_id", "k"); ("region", "r"); ("project", "p"); ("access_key", "a");
     ("secret_key", "s"); ("crypto_endpoint", "c"); ("management_endpoint", "m"); ("token", "t");
     ("tenant_id", "t"); ("client_id", "c"); ("client_secret", "s"); ("vault_name", "v"); ("key_name", "n");
     ("key_ring", "k"); ("crypto_key", "good")])].

Definition no_env (name : string) : string := "".

Definition started {O W A} (m : prog (cloud O W) A) (k : O) (w : W) : cloud O W := snd (m (mk_cloud k w 0%nat)).

Lemma cloud_wrappers_promise_witness :
  (forall l, AzureKeyVault.raw_key (mkBlobInfo None None (Some (mkKeyInfo 0 "1" (Some ("!"%char :: l)))))) /\
  (exists s : cloud (GcpCkms.gwrapper GcpCkms.toy_gcp) (@GcpCkms.gcp_world GcpCkms.toy_gcp),
     is_Some (GcpCkms.g_client (cl_object s)) /\
     keeps_promise (GcpCkms.gcp_wrapper (G := GcpCkms.toy_gcp) (L := Empty_set) demo_parse_path no_env)
       (fun k => is_Some (GcpCkms.g_client k))) /\
  AzureKeyVault.connected (cl_object (started (AzureKeyVault.SetConfig demo_parse_path no_env toy_ambient demo_options)
    (AzureKeyVault.NewWrapper (A := toy_azure)) tt)) /\
  AliCloudKms.connected (cl_object (started (AliCloudKms.SetConfig demo_parse_path no_env demo_options)
    (AliCloudKms.NewWrapper (A := toy_ali)) tt)) /\
  HuaweiCloudKms.connected (cl_object (started (HuaweiCloudKms.SetConfig demo_parse_path no_env demo_options)
    (HuaweiCloudKms.NewWrapper (A := toy_huawei)) tt)) /\
  OciKms.connected (cl_object (started (OciKms.SetConfig demo_parse_path no_env demo_options)
    (OciKms.NewWrapper (C := toy_oci)) tt)) /\
  OvhCloudKms.connected (cl_object (started (OvhCloudKms.SetConfig no_env demo_options)
    (OvhCloudKms.NewWrapper (C := toy_ovh)) tt)) /\
  TencentCloudKms.connected (cl_object (started (TencentCloudKms.SetConfig demo_parse_path no_env demo_options)
    (TencentCloudKms.NewWrapper (T := toy_tencent)) tt)) /\
  TCloudPublicKms.connected (cl_object (started (TCloudPublicKms.SetConfig no_env demo_options)
    (TCloudPublicKms.NewWrapper (T := toy_tcloud)) tt)).
Proof.
  destruct toy_text_laws as (L4 & L5 & L6 & L7 & L8 & L9).
  destruct (cloud_wrappers_promise (L := Empty_set) demo_parse_path no_env
    AwsKms.toy_aws GcpCkms.toy_gcp toy_azure toy_ali toy_huawei toy_oci toy_ovh toy_tencent toy_tcloud
    AwsKms.toy_aws_laws GcpCkms.toy_gcp_laws toy_azure_laws L4 L5 L6 L7 L8 L9
    AwsKms.no_region AwsKms.no_chain toy_ambient) as (_ & Spec & _).
  split; [intros l; apply marked_not_text|].
  split.
  - exists (snd (GcpCkms.demo_set "good" GcpCkms.demo_new)). split; [vm_compute; eauto|exact Spec].
  - split_and!; vm_compute; eauto.
Defined.

Lemma toy_google_agrees : GcpCkms.sdk_agrees (G := GcpCkms.toy_gcp) (fun _ => "x") no_env.
Proof. done. Qed.

Lemma cloud_env_isolated_witness :
  same_program (GcpCkms.SetConfig (G := GcpCkms.toy_gcp) demo_parse_path (fun _ => "x") demo_options)
    (GcpCkms.SetConfig (G := GcpCkms.toy_gcp) demo_parse_path no_env demo_options) /\
  OvhCloudKms.SetConfig (C := toy_ovh) (fun _ => "x") demo_options (mk_cloud OvhCloudKms.NewWrapper tt 0%nat) =
  OvhCloudKms.SetConfig (C := toy_ovh) no_env demo_options (mk_cloud OvhCloudKms.NewWrapper tt 0%nat) /\
  is_ret (fst (OvhCloudKms.SetConfig (C := toy_ovh) no_env demo_options (mk_cloud OvhCloudKms.NewWrapper tt 0%nat))) = true.
Proof.
  destruct (GetOpts demo_options) as [o| |] eqn:Ho; [|by vm_compute in Ho..].
  assert (Hd : disallows o = true) by (vm_compute in Ho; injection Ho as <-; reflexivity).
  destruct (cloud_env_isolated AwsKms.toy_aws GcpCkms.toy_gcp toy_azure toy_ali toy_oci toy_ovh toy_tcloud Kmip.toy_kmip
    demo_parse_path demo_parse_path (fun _ => "x") no_env demo_options o Ho Hd) as (_ & Eg & _ & _ & _ & E & _).
  split; [exact (Eg toy_google_agrees)|]. split; [apply E|by vm_compute].
Defined.

Lemma cloud_env_leaks_witness :
  exists c s', HuaweiCloudKms.SetConfig (A := toy_huawei) demo_parse_path (fun _ => "x") demo_options
      (mk_cloud HuaweiCloudKms.NewWrapper tt 0%nat) = (Ret c, s') /\ HuaweiCloudKms.keyId (cl_object s') = "x".
Proof.
  destruct (HuaweiCloudKms.SetConfig (A := toy_huawei) demo_parse_path (fun _ => "x") demo_options
      (mk_cloud HuaweiCloudKms.NewWrapper tt 0%nat)) as [[c| |] s'] eqn:E;
    [|apply (f_equal fst) in E; by vm_compute in E..].
  exists c, s'. split; [reflexivity|].
  destruct (cloud_env_leaks toy_huawei toy_tencent demo_parse_path (fun _ => "x") demo_options) as [H1 _].
  apply (H1 _ _ _ E). done.
Defined.
