(* ===== verification/GoJson.v ===== *)
(** * The part of encoding/json the repository uses

    A scanner and a parser, both state machines that read one character (one token)
    at a time as Go's scanner does, the printer behind [json.Marshal], and
    [json.Compact].  A number keeps its exact decimal value, mantissa and exponent;
    rounding to a float64 and the nesting limit of 10000 are left out. *)
From stdpp Require Import sorting.
From S2P Require Import Prelude GoText GoEncoding.

Local Open Scope Z_scope.

(** ** Values *)

Inductive json :=
| JNull
| JBool (b : bool)
| JNum (m e : Z)
| JStr (s : string)
| JArr (l : list json)
| JObj (l : list (string * json)).

(** Induction with the elements of arrays and objects. *)
Lemma json_nested_ind (P : json -> Prop) :
  P JNull -> (forall b, P (JBool b)) -> (forall m e, P (JNum m e)) -> (forall s, P (JStr s)) ->
  (forall l, Forall P l -> P (JArr l)) -> (forall l, Forall (fun kv => P kv.2) l -> P (JObj l)) ->
  forall v, P v.
Proof.
  intros Hnull Hbool Hnum Hstr Harr Hobj. fix IH 1. intros [|b|m e|s|l|l];
    [exact Hnull | apply Hbool | apply Hnum | apply Hstr | apply Harr | apply Hobj].
  - induction l as [|v l IHl]; constructor; [apply IH | apply IHl].
  - induction l as [|[k v] l IHl]; constructor; [apply IH | apply IHl].
Qed.

(** A string literal with [']s for the quotation marks. *)
Definition q (s : string) : string :=
  smap (fun c => if Ascii.eqb c "'" then "034"%char else c) s.

(** Pieces of text put together with [+]. *)
Fixpoint cat (l : list string) : string := match l with [] => "" | s :: l => s +:+ cat l end.

(** ** UTF-8 *)

Definition is_cont (c : ascii) : bool := let z := byte_to_Z c in (128 <=? z) && (z <=? 191).

Definition between (lo hi : Z) (c : ascii) : bool := let z := byte_to_Z c in (lo <=? z) && (z <=? hi).

(** The length of the encoded rune a string begins with; 0 where there is none. *)
Definition rune_width (s : string) : nat :=
  match s with
  | EmptyString => 0
  | String c r =>
      let z := byte_to_Z c in
      if z <? 128 then 1%nat
      else match r with
      | String c1 r =>
          if (194 <=? z) && (z <=? 223) then (if is_cont c1 then 2%nat else 0%nat)
          else match r with
          | String c2 r =>
              if (224 <=? z) && (z <=? 239) then
                if between (if z =? 224 then 160 else 128) (if z =? 237 then 159 else 191) c1 && is_cont c2
                then 3%nat else 0%nat
              else match r with
              | String c3 r =>
                  if (240 <=? z) && (z <=? 244) &&
                     between (if z =? 240 then 144 else 128) (if z =? 244 then 143 else 191) c1 &&
                     is_cont c2 && is_cont c3
                  then 4%nat else 0%nat
              | EmptyString => 0%nat
              end
          | EmptyString => 0%nat
          end
      | EmptyString => 0%nat
      end
  end.

(** [utf8.AppendRune]; the argument is a code point outside the surrogates. *)
Definition utf8_encode (r : Z) : string :=
  let b z := Z_to_byte z in
  if r <? 128 then String (b r) ""
  else if r <? 2048 then String (b (192 + r / 64)) (String (b (128 + r mod 64)) "")
  else if r <? 65536 then
    String (b (224 + r / 4096)) (String (b (128 + (r / 64) mod 64)) (String (b (128 + r mod 64)) ""))
  else String (b (240 + r / 262144)) (String (b (128 + (r / 4096) mod 64))
    (String (b (128 + (r / 64) mod 64)) (String (b (128 + r mod 64)) ""))).

Definition replacement : string := utf8_encode 65533.

(** Bytes that are not UTF-8 are replaced; [skip] bytes belong to the last rune. *)
Fixpoint coerce_utf8 (skip : nat) (s : string) : string :=
  match s with
  | EmptyString => EmptyString
  | String c r =>
      match skip with
      | S skip => String c (coerce_utf8 skip r)
      | O => match rune_width s with
             | O => replacement +:+ coerce_utf8 0 r
             | S w => String c (coerce_utf8 w r)
             end
      end
  end.

(** ** The scanner *)

Inductive token := TLBrace | TRBrace | TLBrack | TRBrack | TComma | TColon
| TVal (v : json)      (* a number or one of the three words *)
| TStr (s : string).

(** Where in a number the scanner is. *)
Inductive nphase := NMinus | NZero | NInt | NDot | NFrac | NE | NESign | NExp.

Record num := mkNum { n_phase : nphase; n_neg : bool; n_m : Z; n_e : Z; n_eneg : bool; n_ev : Z }.

Definition num_value (n : num) : json :=
  JNum (if n_neg n then - n_m n else n_m n) (n_e n + (if n_eneg n then - n_ev n else n_ev n)).

Definition num_final (n : num) : bool :=
  match n_phase n with NZero | NInt | NFrac | NExp => true | _ => false end.

Definition dec_val (c : ascii) : option Z :=
  let z := byte_to_Z c in if (48 <=? z) && (z <=? 57) then Some (z - 48) else None.

Definition is_e (c : ascii) : bool := Ascii.eqb c "e" || Ascii.eqb c "E".

(** The next character of a number; [None] where it does not continue one. *)
Definition num_step (n : num) (c : ascii) : option num :=
  let (p, neg, m, e, eneg, ev) := n in
  match p, dec_val c with
  | NMinus, Some d => Some (mkNum (if d =? 0 then NZero else NInt) neg d e eneg ev)
  | NInt, Some d => Some (mkNum NInt neg (10 * m + d) e eneg ev)
  | (NDot | NFrac), Some d => Some (mkNum NFrac neg (10 * m + d) (e - 1) eneg ev)
  | (NE | NESign | NExp), Some d => Some (mkNum NExp neg m e eneg (10 * ev + d))
  | (NZero | NInt), None =>
      if Ascii.eqb c "." then Some (mkNum NDot neg m e eneg ev)
      else if is_e c then Some (mkNum NE neg m e eneg ev) else None
  | NFrac, None => if is_e c then Some (mkNum NE neg m e eneg ev) else None
  | NE, None =>
      if Ascii.eqb c "+" then Some (mkNum NESign neg m e false ev)
      else if Ascii.eqb c "-" then Some (mkNum NESign neg m e true ev) else None
  | _, _ => None
  end.

(** In a string literal [acc] holds what was read; after the escape of a high
    surrogate the scanner looks out for that of a low one. *)
Inductive lstate :=
| LStart
| LStr (acc : string)
| LEsc (acc : string)
| LSur (acc : string) (hi : Z)
| LSurEsc (acc : string) (hi : Z)
| LHex (acc : string) (hi : option Z) (k : nat) (v : Z)
| LNum (n : num)
| LLit (rest : string) (v : json).

Definition is_ws (c : ascii) : bool :=
  let z := byte_to_Z c in (z =? 32) || (z =? 9) || (z =? 10) || (z =? 13).

Definition start_step (c : ascii) : option (list token * lstate) :=
  if is_ws c then Some ([], LStart)
  else if Ascii.eqb c "{" then Some ([TLBrace], LStart)
  else if Ascii.eqb c "}" then Some ([TRBrace], LStart)
  else if Ascii.eqb c "[" then Some ([TLBrack], LStart)
  else if Ascii.eqb c "]" then Some ([TRBrack], LStart)
  else if Ascii.eqb c "," then Some ([TComma], LStart)
  else if Ascii.eqb c ":" then Some ([TColon], LStart)
  else if Ascii.eqb c "034" then Some ([], LStr "")
  else if Ascii.eqb c "t" then Some ([], LLit "rue" (JBool true))
  else if Ascii.eqb c "f" then Some ([], LLit "alse" (JBool false))
  else if Ascii.eqb c "n" then Some ([], LLit "ull" JNull)
  else if Ascii.eqb c "-" then Some ([], LNum (mkNum NMinus true 0 0 false 0))
  else match num_step (mkNum NMinus false 0 0 false 0) c with
       | Some n => Some ([], LNum n)
       | None => None
       end.

Definition simple_escape (c : ascii) : option string :=
  if Ascii.eqb c "034" || Ascii.eqb c "\" || Ascii.eqb c "/" then Some (String c "")
  else if Ascii.eqb c "b" then Some (String "008" "")
  else if Ascii.eqb c "f" then Some (String "012" "")
  else if Ascii.eqb c "n" then Some (String "010" "")
  else if Ascii.eqb c "r" then Some (String "013" "")
  else if Ascii.eqb c "t" then Some (String "009" "")
  else None.

Definition is_high (r : Z) : bool := (55296 <=? r) && (r <? 56320).

Definition is_low (r : Z) : bool := (56320 <=? r) && (r <? 57344).

(** A [\u] escape is complete. *)
Definition escaped (acc : string) (r : Z) : lstate :=
  if is_high r then LSur acc r
  else LStr (acc +:+ (if is_low r then replacement else utf8_encode r)).

Definition escaped_after (acc : string) (hi : option Z) (r : Z) : lstate :=
  match hi with
  | None => escaped acc r
  | Some h => if is_low r then LStr (acc +:+ utf8_encode (65536 + (h - 55296) * 1024 + (r - 56320)))
              else escaped (acc +:+ replacement) r
  end.

Definition str_step (acc : string) (c : ascii) : option (list token * lstate) :=
  if Ascii.eqb c "034" then Some ([TStr (coerce_utf8 0 acc)], LStart)
  else if Ascii.eqb c "\" then Some ([], LEsc acc)
  else if byte_to_Z c <? 32 then None
  else Some ([], LStr (acc +:+ String c "")).

Definition esc_step (acc : string) (c : ascii) : option (list token * lstate) :=
  match simple_escape c with
  | Some s => Some ([], LStr (acc +:+ s))
  | None => if Ascii.eqb c "u" then Some ([], LHex acc None 4 0) else None
  end.

Definition lex_step (st : lstate) (c : ascii) : option (list token * lstate) :=
  match st with
  | LStart => start_step c
  | LStr acc => str_step acc c
  | LEsc acc => esc_step acc c
  | LSur acc hi =>
      if Ascii.eqb c "\" then Some ([], LSurEsc acc hi) else str_step (acc +:+ replacement) c
  | LSurEsc acc hi =>
      if Ascii.eqb c "u" then Some ([], LHex acc (Some hi) 4 0) else esc_step (acc +:+ replacement) c
  | LHex acc hi k v =>
      match hex_val c, k with
      | Some d, S (S _ as k) => Some ([], LHex acc hi k (16 * v + d))
      | Some d, _ => Some ([], escaped_after acc hi (16 * v + d))
      | None, _ => None
      end
  | LNum n =>
      match num_step n c with
      | Some n => Some ([], LNum n)
      | None =>
          if num_final n then '(ts, st) ← start_step c; Some (TVal (num_value n) :: ts, st) else None
      end
  | LLit rest v =>
      match rest with
      | String d EmptyString => if Ascii.eqb c d then Some ([TVal v], LStart) else None
      | String d rest => if Ascii.eqb c d then Some ([], LLit rest v) else None
      | EmptyString => None
      end
  end.

(** Read a piece of text. *)
Fixpoint lex_run (st : lstate) (s : string) : option (list token * lstate) :=
  match s with
  | EmptyString => Some ([], st)
  | String c s =>
      '(ts, st) ← lex_step st c;
      '(ts', st) ← lex_run st s;
      Some (ts ++ ts', st)
  end.

Definition lex_end (st : lstate) : option (list token) :=
  match st with
  | LStart => Some []
  | LNum n => if num_final n then Some [TVal (num_value n)] else None
  | _ => None
  end.

(** Read the rest of a text. *)
Definition lex_from (st : lstate) (s : string) : option (list token) :=
  '(ts, st) ← lex_run st s; ts' ← lex_end st; Some (ts ++ ts').

(** ** The parser *)

Inductive frame :=
| FArr (l : list json)
| FObj (l : list (string * json)) (k : string).

Inductive pstate :=
| PValue (st : list frame)
| PArrStart (st : list frame)
| PObjStart (st : list frame)
| PKey (l : list (string * json)) (st : list frame)
| PColon (l : list (string * json)) (k : string) (st : list frame)
| PAfterArr (l : list json) (st : list frame)
| PAfterObj (l : list (string * json)) (st : list frame)
| PDone (v : json).

(** A value is complete. *)
Definition complete (v : json) (st : list frame) : pstate :=
  match st with
  | [] => PDone v
  | FArr l :: st => PAfterArr (l ++ [v]) st
  | FObj l k :: st => PAfterObj (l ++ [(k, v)]) st
  end.

Definition value_step (st : list frame) (t : token) : option pstate :=
  match t with
  | TVal v => Some (complete v st)
  | TStr s => Some (complete (JStr s) st)
  | TLBrace => Some (PObjStart st)
  | TLBrack => Some (PArrStart st)
  | _ => None
  end.

Definition parse_step (p : pstate) (t : token) : option pstate :=
  match p, t with
  | PValue st, _ => value_step st t
  | PArrStart st, TRBrack => Some (complete (JArr []) st)
  | PArrStart st, _ => value_step (FArr [] :: st) t
  | PObjStart st, TRBrace => Some (complete (JObj []) st)
  | PObjStart st, TStr k => Some (PColon [] k st)
  | PKey l st, TStr k => Some (PColon l k st)
  | PColon l k st, TColon => Some (PValue (FObj l k :: st))
  | PAfterArr l st, TComma => Some (PValue (FArr l :: st))
  | PAfterArr l st, TRBrack => Some (complete (JArr l) st)
  | PAfterObj l st, TComma => Some (PKey l st)
  | PAfterObj l st, TRBrace => Some (complete (JObj l) st)
  | _, _ => None
  end.

Fixpoint parse_run (p : pstate) (ts : list token) : option pstate :=
  match ts with
  | [] => Some p
  | t :: ts => p ← parse_step p t; parse_run p ts
  end.

(** [json.Unmarshal] into an [any]: a syntax error is [None]. *)
Definition parse (s : string) : option json :=
  ts ← lex_from LStart s;
  match parse_run (PValue []) ts with Some (PDone v) => Some v | _ => None end.

(** ** The printer *)

Definition hex4 (z : Z) : string :=
  String (hex_char (z / 4096)) (String (hex_char ((z / 256) mod 16))
    (String (hex_char ((z / 16) mod 16)) (String (hex_char (z mod 16)) ""))).

(** A character below 128. *)
Definition escape_ascii (c : ascii) : string :=
  let z := byte_to_Z c in
  if Ascii.eqb c "034" || Ascii.eqb c "\" then String "\" (String c "")
  else if z =? 8 then "\b"
  else if z =? 12 then "\f"
  else if z =? 10 then "\n"
  else if z =? 13 then "\r"
  else if z =? 9 then "\t"
  else if (z <? 32) || Ascii.eqb c "<" || Ascii.eqb c ">" || Ascii.eqb c "&" then "\u" +:+ hex4 z
  else String c "".

(** U+2028 and U+2029 are escaped too, and bytes that are not UTF-8 replaced.  The
    next [skip] bytes belong to the last rune; they are printed if [emit] holds. *)
Fixpoint escape (emit : bool) (skip : nat) (s : string) : string :=
  match s with
  | EmptyString => EmptyString
  | String c r =>
      match skip with
      | S skip => if emit then String c (escape emit skip r) else escape emit skip r
      | O =>
          match rune_width s with
          | O => "\ufffd" +:+ escape true 0 r
          | 1%nat => escape_ascii c +:+ escape true 0 r
          | S w =>
              if HasPrefix s (utf8_encode 8232) then "\u2028" +:+ escape false w r
              else if HasPrefix s (utf8_encode 8233) then "\u2029" +:+ escape false w r
              else String c (escape true w r)
          end
      end
  end.

Definition marshal_string (s : string) : string := q "'" +:+ escape true 0 s +:+ q "'".

(** [strconv.Itoa]; 20 digits are enough for 64 bits. *)
Definition int_string (z : Z) : string := if z <? 0 then "-" +:+ FormatUint (- z) else FormatUint z.

(** [json.Marshal]; the numbers the code prints are integers. *)
Fixpoint marshal (v : json) : string :=
  match v with
  | JNull => "null"
  | JBool b => if b then "true" else "false"
  | JNum m e => if e =? 0 then int_string m else int_string m +:+ "e" +:+ int_string e
  | JStr s => marshal_string s
  | JArr l => "[" +:+ String.concat "," (map marshal l) +:+ "]"
  | JObj l => "{" +:+ String.concat "," (map (fun kv => marshal_string kv.1 +:+ ":" +:+ marshal kv.2) l) +:+ "}"
  end.

(** ** Compaction *)

(** Where [Compact] is: outside a string, inside, or after a backslash. *)
Inductive cstate := COut | CIn | CEsc.

Definition compact_step (st : cstate) (c : ascii) : string * cstate :=
  match st with
  | COut => if is_ws c then ("", COut) else (String c "", if Ascii.eqb c "034" then CIn else COut)
  | CIn => (String c "", if Ascii.eqb c "034" then COut else if Ascii.eqb c "\" then CEsc else CIn)
  | CEsc => (String c "", CIn)
  end.

Fixpoint strip (st : cstate) (s : string) : string :=
  match s with
  | EmptyString => EmptyString
  | String c s => let (o, st) := compact_step st c in o +:+ strip st s
  end.

(** [json.Compact]: [None] is the syntax error. *)
Definition Compact (s : string) : option string :=
  match parse s with Some _ => Some (strip COut s) | None => None end.

(** ** Unmarshalling

    Into a [map[string]any]: the members of the object, in which the last one of a name
    counts.  [None] is a syntax error or a value of another kind, after which the map is
    nil; so it is after a null, without an error. *)
Definition ErrJSON : error := ErrLeaf "json: cannot decode".

Definition unmarshal_map (s : string) : option (list (string * json)) :=
  match parse s with Some (JObj l) => Some l | Some JNull => Some [] | _ => None end.

Fixpoint lookup_last (P : string -> bool) (l : list (string * json)) : option json :=
  match l with
  | [] => None
  | (k, v) :: l => match lookup_last P l with Some w => Some w | None => if P k then Some v else None end
  end.

(** [m[k]]; a missing key gives nil, as a null does. *)
Definition get_key (k : string) (l : list (string * json)) : json :=
  default JNull (lookup_last (String.eqb k) l).

Definition has_key (k : string) (l : list (string * json)) : bool :=
  bool_decide (is_Some (lookup_last (String.eqb k) l)).

(** A struct field is matched by its name in any case (of ASCII letters).  A member of the
    wrong kind leaves the field and makes the call fail; a null leaves it, or clears a
    pointer. *)
Definition field (name : string) (l : list (string * json)) : json :=
  default JNull (lookup_last (fun k => String.eqb (ToLower k) (ToLower name)) l).

Definition string_value (v : json) : option string :=
  match v with JStr s => Some s | JNull => Some "" | _ => None end.

Definition string_ptr_value (v : json) : option (option string) :=
  match v with JStr s => Some (Some s) | JNull => Some None | _ => None end.

Definition bool_value (v : json) : option bool :=
  match v with JBool b => Some b | JNull => Some false | _ => None end.

(** An [int]: a literal with a fraction or an exponent is refused, unless they cancel. *)
Definition int_value (v : json) : option Z :=
  match v with
  | JNum m 0 => if (- 2 ^ 63 <=? m) && (m <? 2 ^ 63) then Some m else None
  | JNull => Some 0
  | _ => None
  end.

(** A slice; a null is the nil slice. *)
Definition slice_value {A} (f : json -> option A) (v : json) : option (option (list A)) :=
  match v with JArr l => Some <$> mapM f l | JNull => Some None | _ => None end.

(** A pointer to a struct. *)
Definition ptr_value {A} (f : json -> option A) (v : json) : option (option A) :=
  match v with JNull => Some None | _ => Some <$> f v end.

(** The members of a struct; a null leaves the struct as it is. *)
Definition members (v : json) : option (list (string * json)) :=
  match v with JObj l => Some l | JNull => Some [] | _ => None end.

(** A struct of strings, as [json.Unmarshal] fills it when its error is ignored. *)
Definition string_field (name : string) (l : list (string * json)) : string :=
  default "" (string_value (field name l)).

(** [map[string]string] and the like. *)
Definition map_value {A} (f : json -> option A) (v : json) : option (option (gmap string A)) :=
  match v with
  | JNull => Some None
  | JObj l => (fun l => Some (fold_left (fun m kv => <[kv.1 := kv.2]> m) l ∅)) <$>
      mapM (fun kv => pair kv.1 <$> f kv.2) l
  | _ => None
  end.

(** The entries of a map in the order [json.Marshal] and [fmt] print them. *)
Definition sorted_entries {A} (m : gmap string A) : list (string * A) :=
  merge_sort (fun a b => Is_true (String.leb a.1 b.1)) (map_to_list m).

Definition strings_json (l : option (list string)) : json :=
  match l with None => JNull | Some l => JArr (map JStr l) end.

(** ** Scanning piece by piece *)

Lemma lex_run_app st a b :
  lex_run st (a +:+ b) =
  ('(ts, st1) ← lex_run st a; '(ts', st2) ← lex_run st1 b; Some (ts ++ ts', st2)).
Proof.
  revert st. induction a as [|c a IH]; intros st.
  - rewrite sapp_nil. simpl. by destruct (lex_run st b) as [[]|].
  - rewrite sapp_cons. simpl. destruct (lex_step st c) as [[ts st1]|]; simpl; [|done].
    rewrite IH. destruct (lex_run st1 a) as [[ts1 st2]|]; simpl; [|done].
    destruct (lex_run st2 b) as [[ts2 st3]|]; simpl; [|done]. by rewrite app_assoc.
Qed.

Lemma lex_from_app st a b ts st1 :
  lex_run st a = Some (ts, st1) -> lex_from st (a +:+ b) = app ts <$> lex_from st1 b.
Proof.
  intros Ha. unfold lex_from. rewrite lex_run_app, Ha. simpl.
  destruct (lex_run st1 b) as [[ts' st2]|]; simpl; [|done].
  destruct (lex_end st2); simpl; [by rewrite app_assoc | done].
Qed.

Lemma option_fmap_app {A} (l1 l2 : list A) (o : option (list A)) :
  app l1 <$> (app l2 <$> o) = app (l1 ++ l2) <$> o.
Proof. destruct o; simpl; [by rewrite app_assoc | done]. Qed.

Lemma option_fmap_nil {A} (o : option (list A)) : app [] <$> o = o.
Proof. by destruct o. Qed.

(** Characters that stand for themselves in a string literal. *)
Definition plain_char (c : ascii) : bool :=
  let z := byte_to_Z c in
  (32 <=? z) && (z <? 128) && negb (Ascii.eqb c "034") && negb (Ascii.eqb c "\").

Definition ascii_char (c : ascii) : bool := byte_to_Z c <? 128.

Fixpoint all_chars (P : ascii -> bool) (s : string) : bool :=
  match s with EmptyString => true | String c s => P c && all_chars P s end.

Abbreviation plain := (all_chars plain_char).

Abbreviation is_ascii := (all_chars ascii_char).

Lemma all_chars_app P a b : all_chars P (a +:+ b) = all_chars P a && all_chars P b.
Proof.
  induction a as [|c a IH]; [done|]. rewrite sapp_cons. simpl. by rewrite IH, andb_assoc.
Qed.

Lemma all_chars_impl (P Q : ascii -> bool) s :
  (forall c, P c = true -> Q c = true) -> all_chars P s = true -> all_chars Q s = true.
Proof.
  intros HPQ. induction s as [|c s IH]; simpl; [done|].
  intros [Hc Hs]%andb_true_iff. by rewrite HPQ, IH.
Qed.

Lemma plain_ascii s : plain s = true -> is_ascii s = true.
Proof. apply all_chars_impl. intros c. unfold plain_char, ascii_char. intros H. by apply andb_true_iff in H as [[[??]%andb_true_iff ?]%andb_true_iff ?]. Qed.

Lemma coerce_ascii s : is_ascii s = true -> coerce_utf8 0 s = s.
Proof.
  induction s as [|c s IH]; [done|]. intros [Hc Hs]%andb_true_iff. simpl.
  unfold ascii_char in Hc. rewrite Hc. simpl. by rewrite IH.
Qed.

Lemma lex_plain acc s : plain s = true -> lex_run (LStr acc) s = Some ([], LStr (acc +:+ s)).
Proof.
  revert acc. induction s as [|c s IH]; intros acc.
  - intros _. simpl. f_equal. f_equal. f_equal. by induction acc as [|d acc IHa]; [|rewrite sapp_cons; f_equal].
  - intros [Hc Hs]%andb_true_iff. simpl. unfold str_step. unfold plain_char in Hc.
    apply andb_true_iff in Hc as [[[H1 _]%andb_true_iff H3%negb_true_iff]%andb_true_iff H4%negb_true_iff].
    rewrite H3, H4. rewrite (proj2 (Z.ltb_ge _ 32)) by lia. simpl.
    rewrite IH by done. simpl. by rewrite sapp_assoc.
Qed.

(** A character printed by [marshal] is read back. *)
Lemma lex_escape_ascii acc c : ascii_char c = true ->
  lex_run (LStr acc) (escape_ascii c) = Some ([], LStr (acc +:+ String c "")).
Proof.
  destruct c as [[] [] [] [] [] [] [] []]; intros Hc; try discriminate Hc; reflexivity.
Qed.

(** *** Runes

    A text is a sequence of encoded runes and of bytes that belong to none. *)

Definition rune (p : string) : Prop := forall t, rune_width (p +:+ t) = String.length p.

Lemma sapp_empty s : s +:+ "" = s.
Proof. induction s as [|c s IH]; [done|]. by rewrite sapp_cons, IH. Qed.

(** The condition at the head of the goal. *)
Local Ltac split_if E := match goal with |- (if ?b then _ else _) = _ -> _ => destruct b eqn:E end.

Lemma rune_split s w : rune_width s = S w -> exists c p t, s = String c p +:+ t /\ rune (String c p).
Proof.
  assert (Hend : forall b n m, (if b : bool then n else O) = S m -> b = true) by (by intros []).
  destruct s as [|c r]; [done|]. cbn [rune_width]. split_if E.
  { intros _. exists c, "", r. split; [done|]. intros t. rewrite sapp_cons. cbn [rune_width String.length]. by rewrite E. }
  destruct r as [|c1 r]; [done|]. split_if E1.
  { intros E2%Hend. exists c, (String c1 ""), r. split; [done|].
    intros t. rewrite !sapp_cons. cbn [rune_width String.length]. by rewrite E, E1, E2. }
  destruct r as [|c2 r]; [done|]. split_if E2.
  { intros E3%Hend. exists c, (String c1 (String c2 "")), r. split; [done|].
    intros t. rewrite !sapp_cons. cbn [rune_width String.length]. by rewrite E, E1, E2, E3. }
  destruct r as [|c3 r]; [done|]. intros E3%Hend. exists c, (String c1 (String c2 (String c3 ""))), r. split; [done|].
  intros t. rewrite !sapp_cons. cbn [rune_width String.length]. by rewrite E, E1, E2, E3.
Qed.

(** The bytes of a rune of two and more are none of ASCII. *)
Lemma rune_bytes c p : rune (String c p) ->
  (p = "" /\ ascii_char c = true) \/ (p <> "" /\ all_chars (fun c => negb (ascii_char c)) (String c p) = true).
Proof.
  intros Hp. specialize (Hp ""). rewrite sapp_empty in Hp. revert Hp. cbn [rune_width]. unfold ascii_char.
  assert (Hend : forall b n m, (if b : bool then n else O) = S m -> b = true /\ n = S m) by (by intros []).
  assert (Hc : forall d lo hi, 128 <= lo -> between lo hi d = true -> negb (byte_to_Z d <? 128) = true).
  { unfold between. intros d lo hi Hlo [Hd%Z.leb_le _]%andb_true_iff. apply negb_true_iff, Z.ltb_ge. lia. }
  assert (Hcont : forall d, is_cont d = true -> negb (byte_to_Z d <? 128) = true) by (intros d; by apply (Hc d 128 191)).
  assert (Hif : forall (b : bool) x, 128 <= x -> 128 <= (if b then x else 128)) by (intros [] x; simpl; lia).
  cbn [String.length]. split_if E; [by destruct p; [left|]|].
  destruct p as [|c1 p]; [done|]. cbn [all_chars]. rewrite E. intros Hp. right. split; [done|]. revert Hp. split_if E1.
  { intros [E2 Hl]%Hend. destruct p; [|done]. by rewrite Hcont. }
  destruct p as [|c2 p]; [done|]. split_if E2.
  { intros [[E3 E4]%andb_true_iff Hl]%Hend. destruct p; [|done]. cbn [all_chars].
    rewrite (fun h => Hc c1 _ _ h E3), Hcont by first [done | by apply Hif]; done. }
  destruct p as [|c3 p]; [done|]. rewrite <- !andb_assoc. intros [E3 Hl]%Hend. destruct p; [|done]. rewrite !andb_true_iff in E3.
  destruct E3 as (_ & _ & E3 & E4 & E5). cbn [all_chars].
  rewrite (fun h => Hc c1 _ _ h E3), !Hcont by first [done | by apply Hif]; done.
Qed.

Lemma rune_ind (P : string -> Prop) :
  P "" -> (forall c r, rune_width (String c r) = O -> P r -> P (String c r)) ->
  (forall c p t, rune (String c p) -> P t -> P (String c p +:+ t)) -> forall s, P s.
Proof.
  intros H0 Hbad Hrune s. remember (String.length s) as n eqn:Hn. revert s Hn.
  induction (lt_wf n) as [n _ IH]. intros s ->. destruct s as [|c r]; [done|].
  destruct (rune_width (String c r)) as [|w] eqn:E.
  - apply Hbad; [done|]. apply (IH (String.length r)); simpl; auto with lia.
  - destruct (rune_split _ _ E) as (d & p & t & He & Hp). rewrite He in *. apply Hrune; [done|].
    apply (IH (String.length t)); [|done]. rewrite slength_app. simpl. lia.
Qed.

Lemma coerce_rune p t : rune p -> coerce_utf8 0 (p +:+ t) = p +:+ coerce_utf8 0 t.
Proof.
  assert (Hskip : forall p, coerce_utf8 (String.length p) (p +:+ t) = p +:+ coerce_utf8 0 t).
  { clear p. induction p as [|c p IH]; [done|]. rewrite !sapp_cons. simpl. by rewrite IH. }
  destruct p as [|c p]; [done|]. intros Hp. specialize (Hp t). rewrite !sapp_cons in *.
  cbn [coerce_utf8]. rewrite Hp. cbn [String.length]. by rewrite Hskip.
Qed.

Lemma coerce_stuck c r : rune_width (String c r) = O -> coerce_utf8 0 (String c r) = replacement +:+ coerce_utf8 0 r.
Proof. intros H. cbn [coerce_utf8]. by rewrite H. Qed.

Lemma replacement_rune : rune replacement.
Proof. intros t. reflexivity. Qed.

Lemma coerce_idemp s : coerce_utf8 0 (coerce_utf8 0 s) = coerce_utf8 0 s.
Proof.
  induction s as [|c r Hw IH|c p t Hp IH] using rune_ind; [done| |].
  - rewrite coerce_stuck, coerce_rune by first [done | apply replacement_rune]. by rewrite IH.
  - rewrite !coerce_rune by done. by rewrite IH.
Qed.

(** A text that is UTF-8: [utf8.ValidString]. *)
Definition is_utf8 (s : string) : bool := String.eqb (coerce_utf8 0 s) s.

Lemma is_utf8_coerce s : is_utf8 s = true -> coerce_utf8 0 s = s.
Proof. apply String.eqb_eq. Qed.

Lemma ascii_utf8 s : is_ascii s = true -> is_utf8 s = true.
Proof. intros Hs. by apply String.eqb_eq, coerce_ascii. Qed.

Lemma coerce_app a b : is_utf8 a = true -> coerce_utf8 0 (a +:+ b) = a +:+ coerce_utf8 0 b.
Proof.
  intros Ha%is_utf8_coerce. revert Ha. induction a as [|c r Hw IH|c p t Hp IH] using rune_ind; [done| |].
  - rewrite coerce_stuck by done. intros Hr. exfalso. destruct r as [|c1 [|c2 r]]; simpl in Hr; simplify_eq.
    by rewrite <- Hr in Hw.
  - rewrite coerce_rune by done. intros Ht. rewrite sapp_assoc, coerce_rune by done. rewrite IH; [by rewrite sapp_assoc|].
    by apply sapp_inj_length in Ht as [_ ?].
Qed.

Lemma is_utf8_app a b : is_utf8 a = true -> is_utf8 b = true -> is_utf8 (a +:+ b) = true.
Proof.
  intros Ha Hb. apply String.eqb_eq. rewrite coerce_app by done. by rewrite is_utf8_coerce.
Qed.

Lemma HasPrefix_sdrop s p : HasPrefix s p = true -> s = p +:+ sdrop (String.length p) s.
Proof.
  revert s. induction p as [|c p IH]; intros s; [done|]. destruct s as [|d s]; [done|]. cbn [HasPrefix].
  destruct (Ascii.eqb_spec c d) as [->|]; [|done]. intros Hs. rewrite sapp_cons. cbn [String.length sdrop]. by rewrite <- IH.
Qed.

Lemma lex_high acc s : all_chars (fun c => negb (ascii_char c)) s = true ->
  lex_run (LStr acc) s = Some ([], LStr (acc +:+ s)).
Proof.
  revert acc. induction s as [|c s IH]; intros acc; [by rewrite sapp_empty|]. intros [Hc Hs]%andb_true_iff.
  assert (Hstep : str_step acc c = Some ([], LStr (acc +:+ String c ""))).
  { revert Hc. clear. destruct c as [[] [] [] [] [] [] [] []]; intros Hc; first [discriminate Hc | reflexivity]. }
  cbn [lex_run lex_step]. rewrite Hstep. cbn [mbind option_bind]. rewrite IH by done. cbn [mbind option_bind app].
  by rewrite sapp_assoc.
Qed.

Lemma high_utf8 c p : rune (String c p) -> is_utf8 (String c p) = true.
Proof. intros Hp. apply String.eqb_eq. rewrite <- (sapp_empty (String c p)) at 1. by rewrite coerce_rune, sapp_empty. Qed.

(** What [marshal] prints for one rune is UTF-8 and read back as the rune. *)
Lemma escape_rune c p : rune (String c p) -> exists e, is_utf8 e = true /\
  (forall t, escape true 0 (String c p +:+ t) = e +:+ escape true 0 t) /\
  forall acc, lex_run (LStr acc) e = Some ([], LStr (acc +:+ String c p)).
Proof.
  intros Hp. destruct (rune_bytes c p Hp) as [[-> Hc]|[Hne Hc]].
  { exists (escape_ascii c). split_and!.
    - apply ascii_utf8. revert Hc. clear. destruct c as [[] [] [] [] [] [] [] []]; intros Hc; first [discriminate Hc | reflexivity].
    - intros t. specialize (Hp t). rewrite ?sapp_cons, ?sapp_nil in *. cbn [escape]. by rewrite Hp.
    - intros acc. by apply lex_escape_ascii. }
  assert (Hskip : forall p t, escape true (String.length p) (p +:+ t) = p +:+ escape true 0 t).
  { clear. intros p t. induction p as [|c p IH]; [done|]. rewrite !sapp_cons. simpl. by rewrite IH. }
  assert (Hdrop : forall p t, escape false (String.length p) (p +:+ t) = escape true 0 t).
  { clear. intros p t. induction p as [|c p IH]; [by destruct t|]. rewrite !sapp_cons. simpl. by rewrite IH. }
  assert (Hstep : forall t, escape true 0 (String c p +:+ t) =
    if HasPrefix (String c p +:+ t) (utf8_encode 8232) then "\u2028" +:+ escape false (String.length p) (p +:+ t)
    else if HasPrefix (String c p +:+ t) (utf8_encode 8233) then "\u2029" +:+ escape false (String.length p) (p +:+ t)
    else String c (escape true (String.length p) (p +:+ t))).
  { intros t. specialize (Hp t). rewrite sapp_cons in *. cbn [escape]. rewrite Hp. by destruct p. }
  assert (Hpre : forall e t, rune e -> HasPrefix (String c p +:+ t) e = bool_decide (String c p = e)).
  { intros e t Her. case_bool_decide as Hd; [subst e; apply HasPrefix_app|]. apply not_true_is_false.
    intros Hh%HasPrefix_sdrop. apply Hd. pose proof (Hp t) as Hl. rewrite Hh, Her in Hl.
    by apply sapp_inj_length in Hh as [-> _]. }
  assert (H28 : rune (utf8_encode 8232)) by (intros t; reflexivity).
  assert (H29 : rune (utf8_encode 8233)) by (intros t; reflexivity).
  destruct (decide (String c p = utf8_encode 8232)) as [He|He].
  { exists "\u2028". split_and!; [done| |by rewrite He].
    intros t. by rewrite Hstep, Hpre, bool_decide_true, Hdrop by done. }
  destruct (decide (String c p = utf8_encode 8233)) as [He'|He'].
  { exists "\u2029". split_and!; [done| |by rewrite He'].
    intros t. rewrite Hstep, !Hpre, bool_decide_false, bool_decide_true, Hdrop by done. reflexivity. }
  exists (String c p). split_and!; [by apply high_utf8| |intros acc; by apply lex_high].
  intros t. rewrite Hstep, !Hpre, !bool_decide_false, Hskip by done. reflexivity.
Qed.

Lemma lex_escape acc s : lex_run (LStr acc) (escape true 0 s) = Some ([], LStr (acc +:+ coerce_utf8 0 s)).
Proof.
  revert acc. induction s as [|c r Hw IH|c p t Hp IH] using rune_ind; intros acc.
  - simpl. by rewrite sapp_empty.
  - rewrite coerce_stuck by done. cbn [escape]. rewrite Hw, lex_run_app.
    assert (Hl : lex_run (LStr acc) "\ufffd" = Some ([], LStr (acc +:+ replacement))) by reflexivity.
    rewrite Hl. cbn [mbind option_bind]. rewrite IH. cbn [mbind option_bind app]. by rewrite sapp_assoc.
  - rewrite coerce_rune by done. destruct (escape_rune c p Hp) as (e & _ & -> & Hl). rewrite lex_run_app, Hl.
    cbn [mbind option_bind]. rewrite IH. cbn [mbind option_bind app]. by rewrite sapp_assoc.
Qed.

Lemma escape_utf8 s : is_utf8 (escape true 0 s) = true.
Proof.
  induction s as [|c r Hw IH|c p t Hp IH] using rune_ind; [done| |].
  - cbn [escape]. rewrite Hw. by apply is_utf8_app.
  - destruct (escape_rune c p Hp) as (e & He & -> & _). by apply is_utf8_app.
Qed.

Lemma lex_marshal_string s : lex_run LStart (marshal_string s) = Some ([TStr (coerce_utf8 0 s)], LStart).
Proof.
  assert (Hopen : lex_run LStart (q "'") = Some ([], LStr "")) by reflexivity.
  assert (Hclose : forall a, lex_run (LStr a) (q "'") = Some ([TStr (coerce_utf8 0 a)], LStart)) by reflexivity.
  unfold marshal_string. rewrite !lex_run_app, Hopen. cbn [mbind option_bind].
  rewrite lex_run_app, lex_escape, sapp_nil. cbn [mbind option_bind]. by rewrite Hclose, coerce_idemp.
Qed.

(** ** Numbers *)

Definition int_num (neg : bool) (z : Z) : num := mkNum (if z =? 0 then NZero else NInt) neg z 0 false 0.

Lemma dec_val_digit d : 0 <= d < 10 -> dec_val (digit_char d) = Some d.
Proof.
  intros Hd. apply (forall_below 10 (fun d => dec_val (digit_char d) = Some d)); [vm_compute; reflexivity | lia].
Qed.

(** [st] reads a first digit. *)
Definition reads_digit (neg : bool) (st : lstate) : Prop :=
  forall d, 0 <= d < 10 -> lex_step st (digit_char d) = Some ([], LNum (int_num neg d)).

Lemma start_reads_digit : reads_digit false LStart.
Proof.
  intros d Hd.
  assert (d = 0 \/ d = 1 \/ d = 2 \/ d = 3 \/ d = 4 \/ d = 5 \/ d = 6 \/ d = 7 \/ d = 8 \/ d = 9) as Hc by lia.
  repeat (destruct Hc as [->|Hc]; [reflexivity|]). subst d. reflexivity.
Qed.

Lemma minus_reads_digit : reads_digit true (LNum (mkNum NMinus true 0 0 false 0)).
Proof. intros d Hd. cbn [lex_step num_step]. by rewrite dec_val_digit. Qed.

Lemma lex_format_digits neg st fuel z acc :
  reads_digit neg st -> 0 <= z < 10 ^ Z.of_nat fuel -> fuel <> O ->
  lex_run st (format_digits fuel z acc) = lex_run (LNum (int_num neg z)) acc.
Proof.
  intros Hst. revert z acc. induction fuel as [|fuel IH]; intros z acc Hz Hf; [done|].
  cbn [format_digits]. destruct (z <? 10) eqn:E.
  - cbn [lex_run]. rewrite Z.mod_small, Hst by lia. simpl. by destruct (lex_run _ acc) as [[]|].
  - assert (fuel <> O) as Hf' by (intros ->; simpl in Hz; lia).
    rewrite Nat2Z.inj_succ, Z.pow_succ_r in Hz by lia.
    rewrite IH; [|split; [apply Z.div_pos; lia | apply Z.div_lt_upper_bound; lia]|done].
    assert (0 < z / 10) by (apply Z.div_str_pos; lia).
    cbn [lex_run lex_step]. unfold int_num. rewrite (proj2 (Z.eqb_neq (z / 10) 0)), (proj2 (Z.eqb_neq z 0)) by lia.
    cbn [num_step]. rewrite dec_val_digit by (apply Z.mod_pos_bound; lia). simpl.
    rewrite <- Z.div_mod by lia. by destruct (lex_run _ acc) as [[]|].
Qed.

(** Numbers of at most 64 bits. *)
Definition int_bound (m : Z) : Prop := - 2 ^ 64 < m < 2 ^ 64.

#[export] Instance int_bound_dec m : Decision (int_bound m).
Proof. unfold int_bound. apply _. Defined.

Lemma lex_int m : int_bound m ->
  exists n, lex_run LStart (int_string m) = Some ([], LNum n) /\ num_final n = true /\ num_value n = JNum m 0 /\
    n_phase n = if m =? 0 then NZero else NInt.
Proof.
  unfold int_bound. intros Hm. unfold int_string.
  assert (Hf : forall b z, num_final (int_num b z) = true) by (intros b z; unfold int_num; by destruct (z =? 0)).
  destruct (Z.ltb_spec m 0).
  - exists (int_num true (- m)). rewrite lex_run_app.
    change (lex_run LStart "-") with (Some (@nil token, LNum (mkNum NMinus true 0 0 false 0))). simpl.
    unfold FormatUint. rewrite (lex_format_digits true) by (simpl; first [apply minus_reads_digit | lia]).
    simpl. rewrite Hf. unfold int_num, num_value. simpl.
    rewrite Z.opp_involutive. by rewrite !(proj2 (Z.eqb_neq _ 0)) by lia.
  - exists (int_num false m). unfold FormatUint.
    rewrite (lex_format_digits false) by (simpl; first [apply start_reads_digit | lia]).
    by rewrite Hf.
Qed.

(** ** Printing and reading back *)

(** A text after which a number ends. *)
Definition delimited (r : string) : Prop :=
  match r with
  | EmptyString => True
  | String c _ => is_ws c = true \/ c = ","%char \/ c = "]"%char \/ c = "}"%char \/ c = ":"%char
  end.

(** [s] is scanned as [ts], whatever follows. *)
Definition lexes (s : string) (ts : list token) : Prop :=
  forall r, delimited r -> lex_from LStart (s +:+ r) = app ts <$> lex_from LStart r.

Lemma lexes_run s ts : lex_run LStart s = Some (ts, LStart) -> lexes s ts.
Proof. intros H r _. by apply lex_from_app. Qed.

Lemma delimited_num c p neg m e eneg ev :
  is_ws c = true \/ c = ","%char \/ c = "]"%char \/ c = "}"%char \/ c = ":"%char ->
  num_step (mkNum p neg m e eneg ev) c = None.
Proof.
  intros [Hc|[->|[->|[->| ->]]]]; destruct p; try reflexivity;
    destruct c as [[] [] [] [] [] [] [] []]; try discriminate Hc; reflexivity.
Qed.

Lemma lex_num_end n r : num_final n = true -> delimited r ->
  lex_from (LNum n) r = app [TVal (num_value n)] <$> lex_from LStart r.
Proof.
  intros Hf Hr. unfold lex_from. destruct r as [|c r].
  - simpl. by rewrite Hf.
  - simpl in Hr |- *. destruct n as [p neg m e eneg ev].
    rewrite delimited_num by done. rewrite Hf.
    destruct (start_step c) as [[ts st]|]; simpl; [|done].
    destruct (lex_run st r) as [[ts' st']|]; simpl; [|done]. by destruct (lex_end st').
Qed.

Lemma lexes_int m : int_bound m -> lexes (int_string m) [TVal (JNum m 0)].
Proof.
  intros Hm r Hr. destruct (lex_int m Hm) as (n & Hn & Hf & <- & Hp).
  rewrite (lex_from_app _ _ _ _ _ Hn), option_fmap_nil. by apply lex_num_end.
Qed.

Lemma lexes_app a b ts ts' : lexes a ts -> lexes b ts' -> (forall r, delimited (b +:+ r)) -> lexes (a +:+ b) (ts ++ ts').
Proof.
  intros Ha Hb Hd r Hr. rewrite sapp_assoc, Ha, Hb by auto. apply option_fmap_app.
Qed.

Lemma lexes_after a b ts ts' : lex_run LStart a = Some (ts, LStart) -> lexes b ts' -> lexes (a +:+ b) (ts ++ ts').
Proof.
  intros Ha Hb r Hr. rewrite sapp_assoc, (lex_from_app _ _ _ _ _ Ha), Hb by done. apply option_fmap_app.
Qed.

Fixpoint sep_by {A} (sep : A) (l : list (list A)) : list A :=
  match l with [] => [] | [x] => x | x :: l => x ++ sep :: sep_by sep l end.

(** The tokens a value is printed as. *)
Fixpoint tokens_of (v : json) : list token :=
  match v with
  | JStr s => [TStr s]
  | JArr l => TLBrack :: sep_by TComma (map tokens_of l) ++ [TRBrack]
  | JObj l => TLBrace :: sep_by TComma (map (fun kv => TStr kv.1 :: TColon :: tokens_of kv.2) l) ++ [TRBrace]
  | _ => [TVal v]
  end.

(** What [marshal] prints faithfully: UTF-8 text and integers of 64 bits. *)
Fixpoint printable (v : json) : bool :=
  match v with
  | JNum m e => bool_decide (int_bound m) && (e =? 0)
  | JStr s => is_utf8 s
  | JArr l => forallb printable l
  | JObj l => forallb (fun kv => is_utf8 kv.1 && printable kv.2) l
  | _ => true
  end.

(** Of any text the bytes that are not UTF-8 are replaced. *)
Fixpoint coerced (v : json) : json :=
  match v with
  | JStr s => JStr (coerce_utf8 0 s)
  | JArr l => JArr (map coerced l)
  | JObj l => JObj (map (fun kv => (coerce_utf8 0 kv.1, coerced kv.2)) l)
  | _ => v
  end.

Fixpoint int_numbers (v : json) : bool :=
  match v with
  | JNum m e => bool_decide (int_bound m) && (e =? 0)
  | JArr l => forallb int_numbers l
  | JObj l => forallb (fun kv => int_numbers kv.2) l
  | _ => true
  end.

Lemma printable_coerced v : printable v = true -> int_numbers v = true /\ coerced v = v.
Proof.
  induction v as [|b|m e|s|l IH|l IH] using json_nested_ind; cbn [printable int_numbers coerced]; intros Hp; try done.
  - by rewrite is_utf8_coerce.
  - induction IH as [|x l Hx _ IHl]; [done|]. cbn [forallb map] in *. apply andb_true_iff in Hp as [[-> ->]%Hx Hp].
    destruct (IHl Hp) as [-> [= ->]]. done.
  - induction IH as [|[k x] l Hx _ IHl]; [done|]. cbn [forallb map fst snd] in *.
    apply andb_true_iff in Hp as [[Hk [-> ->]%Hx]%andb_true_iff Hp].
    destruct (IHl Hp) as [-> [= ->]]. by rewrite is_utf8_coerce.
Qed.

Lemma lexes_sep {A} (f : A -> string) (g : A -> list token) l r :
  Forall (fun x => lexes (f x) (g x)) l -> delimited r ->
  lex_from LStart (String.concat "," (map f l) +:+ r) = app (sep_by TComma (map g l)) <$> lex_from LStart r.
Proof.
  intros Hl Hr. induction Hl as [|x l Hx Hl IH].
  - simpl. by rewrite sapp_nil, option_fmap_nil.
  - destruct l as [|y l]; [by apply Hx|].
    change (String.concat "," (map f (x :: y :: l))) with
      (f x +:+ "," +:+ String.concat "," (map f (y :: l))).
    rewrite (sapp_assoc (f x)), (sapp_assoc ","), Hx by (simpl; tauto).
    rewrite (lex_from_app LStart "," _ [TComma] LStart) by done.
    rewrite IH, !option_fmap_app. simpl. by rewrite <- app_assoc.
Qed.

Lemma lexes_marshal v : int_numbers v = true -> lexes (marshal v) (tokens_of (coerced v)).
Proof.
  induction v as [|b|m e|s|l IH|l IH] using json_nested_ind; cbn [int_numbers marshal coerced tokens_of]; intros Hp.
  - by apply lexes_run.
  - destruct b; by apply lexes_run.
  - apply andb_true_iff in Hp as [Hm%bool_decide_eq_true ->%Z.eqb_eq]. simpl. by apply lexes_int.
  - by apply lexes_run, lex_marshal_string.
  - intros r Hr. rewrite !sapp_assoc, (lex_from_app LStart "[" _ [TLBrack] LStart) by done.
    rewrite (lexes_sep marshal (fun v => tokens_of (coerced v))); [|apply Forall_forall|simpl; tauto].
    + rewrite (lex_from_app LStart "]" _ [TRBrack] LStart) by done. by rewrite !option_fmap_app, map_map.
    + intros x Hx. rewrite Forall_forall in IH. rewrite forallb_forall in Hp. apply IH; [done|].
      apply Hp. by apply list_elem_of_In.
  - intros r Hr. rewrite !sapp_assoc, (lex_from_app LStart "{" _ [TLBrace] LStart) by done.
    rewrite (lexes_sep _ (fun kv => TStr (coerce_utf8 0 kv.1) :: TColon :: tokens_of (coerced kv.2))).
    + rewrite (lex_from_app LStart "}" _ [TRBrace] LStart) by done. by rewrite !option_fmap_app, map_map.
    + apply Forall_forall. intros x Hx. rewrite Forall_forall in IH. rewrite forallb_forall in Hp.
      pose proof (Hp x (proj1 (list_elem_of_In _ _) Hx)).
      apply (lexes_after _ _ [TStr (coerce_utf8 0 x.1)]); [by apply lex_marshal_string|].
      apply (lexes_after _ _ [TColon]); [done | by apply IH].
    + simpl. tauto.
Qed.

Lemma parse_run_app p ts ts' : parse_run p (ts ++ ts') = p' ← parse_run p ts; parse_run p' ts'.
Proof.
  revert p. induction ts as [|t ts IH]; intros p; simpl; [done|].
  by destruct (parse_step p t); simpl.
Qed.

Definition parses_value (v : json) : Prop := forall st ts,
  parse_run (PValue st) (tokens_of v ++ ts) = parse_run (complete v st) ts.

Lemma parse_elements l acc st ts : Forall parses_value l -> l <> [] ->
  parse_run (PValue (FArr acc :: st)) (sep_by TComma (map tokens_of l) ++ TRBrack :: ts) =
  parse_run (complete (JArr (acc ++ l)) st) ts.
Proof.
  intros Hl. revert acc. induction Hl as [|v l Hv Hl IH]; intros acc; [done|]. intros _.
  destruct l as [|w l].
  - simpl. by rewrite Hv.
  - change (sep_by TComma (map tokens_of (v :: w :: l))) with
      (tokens_of v ++ TComma :: sep_by TComma (map tokens_of (w :: l))).
    rewrite <- app_assoc, Hv. cbn [complete parse_run parse_step app mbind option_bind].
    rewrite IH by done. by rewrite <- app_assoc.
Qed.

Lemma parse_members l acc st ts : Forall (fun kv => parses_value kv.2) l -> l <> [] ->
  parse_run (PKey acc st)
    (sep_by TComma (map (fun kv => TStr kv.1 :: TColon :: tokens_of kv.2) l) ++ TRBrace :: ts) =
  parse_run (complete (JObj (acc ++ l)) st) ts.
Proof.
  intros Hl. revert acc. induction Hl as [|[k v] l Hv Hl IH]; intros acc; [done|]. intros _.
  destruct l as [|w l].
  - cbn [map sep_by app parse_run parse_step mbind option_bind fst snd]. by rewrite Hv.
  - set (f := fun kv : string * json => TStr kv.1 :: TColon :: tokens_of kv.2) in *.
    change (sep_by TComma (map f ((k, v) :: w :: l))) with
      (TStr k :: TColon :: tokens_of v ++ TComma :: sep_by TComma (map f (w :: l))).
    cbn [app parse_run parse_step mbind option_bind]. rewrite <- app_assoc, Hv.
    cbn [app complete parse_run parse_step mbind option_bind].
    rewrite IH by done. by rewrite <- app_assoc.
Qed.

Lemma sep_by_head l : l <> [] -> exists t ts, sep_by TComma (map tokens_of l) = t :: ts /\ t <> TRBrack.
Proof.
  destruct l as [|v l]; [done|]. intros _.
  assert (H : exists t ts, tokens_of v = t :: ts /\ t <> TRBrack) by (destruct v; eexists _, _; done).
  destruct H as (t & ts & Hv & Ht). simpl. rewrite Hv. destruct (map tokens_of l); eexists _, _; done.
Qed.

Lemma parse_tokens v : parses_value v.
Proof.
  induction v as [|b|m e|s|l IH|l IH] using json_nested_ind; intros st ts; try reflexivity.
  - destruct (decide (l = [])) as [->|Hl]; [done|].
    pose proof (parse_elements l [] st ts IH Hl) as H. destruct (sep_by_head l Hl) as (t & ts' & Hs & Ht).
    cbn [tokens_of]. rewrite Hs in *. simpl in H |- *. rewrite <- app_assoc. by destruct t.
  - destruct l as [|[k v] l]; [done|].
    pose proof (parse_members ((k, v) :: l) [] st ts IH ltac:(done)) as H.
    cbn [tokens_of]. cbn [app parse_run parse_step mbind option_bind] in H |- *. rewrite <- H, <- app_assoc.
    destruct l as [|w l]; reflexivity.
Qed.

(** A text that is scanned as a value is that value. *)
Lemma parse_lexes s v : lexes s (tokens_of v) -> parse s = Some v.
Proof.
  intros H. specialize (H "" I). unfold parse.
  assert (Hs : s +:+ "" = s) by (clear; induction s as [|c s IH]; [done|by rewrite sapp_cons, IH]).
  rewrite Hs in H. rewrite H. simpl. rewrite app_nil_r.
  pose proof (parse_tokens v [] []) as Hp. rewrite app_nil_r in Hp. by rewrite Hp.
Qed.

Lemma parse_marshal_coerced v : int_numbers v = true -> parse (marshal v) = Some (coerced v).
Proof. intros H. by apply parse_lexes, lexes_marshal. Qed.

Lemma parse_marshal v : printable v = true -> parse (marshal v) = Some v.
Proof. intros [Hn Hc]%printable_coerced. rewrite <- Hc at 2. by apply parse_marshal_coerced. Qed.

(** What the printer prints is read back: UTF-8 strings, integers of 64 bits, arrays
    and objects, in any nesting; the escapes for quotation marks, control characters,
    the characters special to HTML and the separators of lines included. *)
Theorem json_roundtrip v : printable v = true -> parse (marshal v) = Some v.
Proof. apply parse_marshal. Qed.

Lemma json_roundtrip_witness :
  parse (marshal (JObj [("a", JArr [JNum (-12) 0; JStr (q "<'\>é €")]); ("", JObj [])])) =
  Some (JObj [("a", JArr [JNum (-12) 0; JStr (q "<'\>é €")]); ("", JObj [])]).
Proof. apply json_roundtrip. vm_compute. reflexivity. Defined.

(** ** Reading a text piece by piece *)

(** The parser with the scanner in front of it. *)
Definition read_from (l : lstate) (p : pstate) (s : string) : option pstate :=
  ts ← lex_from l s; parse_run p ts.

Lemma parse_read s : parse s = match read_from LStart (PValue []) s with Some (PDone v) => Some v | _ => None end.
Proof. unfold parse, read_from. by destruct (lex_from LStart s). Qed.

Lemma read_end p : read_from LStart p "" = Some p.
Proof. done. Qed.

Lemma read_tokens l1 p ts b : parse_run p ts ≫= (fun p => read_from l1 p b) = ts' ← app ts <$> lex_from l1 b; parse_run p ts'.
Proof.
  unfold read_from. destruct (lex_from l1 b) as [tb|]; simpl.
  - by rewrite parse_run_app.
  - by destruct (parse_run p ts).
Qed.

(** A piece that is known. *)
Lemma read_chunk l p a b ts l1 p1 : lex_run l a = Some (ts, l1) -> parse_run p ts = Some p1 ->
  read_from l p (a +:+ b) = read_from l1 p1 b.
Proof.
  intros Hl Hp. unfold read_from at 1. rewrite (lex_from_app _ _ _ _ _ Hl), <- read_tokens. by rewrite Hp.
Qed.

(** Text inside a string, with the piece that closes it. *)
Lemma read_str p s a rest b ts l1 p1 : plain s = true -> a = String "034" rest ->
  lex_run LStart rest = Some (ts, l1) -> parse_run p (TStr s :: ts) = Some p1 ->
  read_from (LStr "") p (s +:+ a +:+ b) = read_from l1 p1 b.
Proof.
  intros Hs -> Hl Hp. rewrite <- sapp_assoc. apply (read_chunk _ _ _ _ (TStr s :: ts)); [|done].
  rewrite lex_run_app, lex_plain by done. simpl. rewrite coerce_ascii by (by apply plain_ascii).
  by rewrite Hl.
Qed.

(** [t] is read as the value [v] wherever a value may be. *)
Definition reads (t : string) (v : json) : Prop :=
  forall st b, delimited b -> read_from LStart (PValue st) (t +:+ b) = read_from LStart (complete v st) b.

Lemma lexes_reads t v : lexes t (tokens_of v) -> reads t v.
Proof.
  intros Ht st b Hb. unfold read_from. rewrite Ht by done. rewrite <- read_tokens.
  pose proof (parse_tokens v st []) as H. rewrite app_nil_r in H. by rewrite H.
Qed.

Lemma reads_marshal v : printable v = true -> reads (marshal v) v.
Proof. intros [Hn Hc]%printable_coerced. rewrite <- Hc at 2. by apply lexes_reads, lexes_marshal. Qed.

Lemma reads_quoted s : plain s = true -> reads (quoted s) (JStr s).
Proof.
  intros Hs st b Hb. unfold quoted, dquote. rewrite !sapp_assoc.
  rewrite (read_chunk LStart (PValue st) _ _ [] (LStr "") (PValue st)) by done.
  by apply (read_str (PValue st) s _ "" b [] LStart).
Qed.

(** A text that is a value by itself is one inside of another. *)
Definition extend (p : pstate) (st : list frame) : pstate :=
  match p with
  | PValue s => PValue (s ++ st)
  | PArrStart s => PArrStart (s ++ st)
  | PObjStart s => PObjStart (s ++ st)
  | PKey l s => PKey l (s ++ st)
  | PColon l k s => PColon l k (s ++ st)
  | PAfterArr l s => PAfterArr l (s ++ st)
  | PAfterObj l s => PAfterObj l (s ++ st)
  | PDone v => complete v st
  end.

Lemma complete_extend v s st : complete v (s ++ st) = extend (complete v s) st.
Proof. by destruct s as [|[] s]. Qed.

Lemma value_step_extend s st t p : value_step s t = Some p -> value_step (s ++ st) t = Some (extend p st).
Proof. destruct t; simpl; intros; simplify_eq; by rewrite ?complete_extend. Qed.

Lemma parse_step_extend p t p' st : parse_step p t = Some p' -> parse_step (extend p st) t = Some (extend p' st).
Proof.
  destruct p; try (intros H; by apply value_step_extend); destruct t; simpl; intros; simplify_eq;
    rewrite ?complete_extend; done.
Qed.

Lemma parse_run_extend p ts p' st : parse_run p ts = Some p' -> parse_run (extend p st) ts = Some (extend p' st).
Proof.
  revert p. induction ts as [|t ts IH]; intros p; simpl; [by intros [= ->]|].
  destruct (parse_step p t) as [p1|] eqn:E; [|done]. rewrite (parse_step_extend _ _ _ st E). apply IH.
Qed.

Lemma lexes_document t ts : lex_from LStart t = Some ts -> lexes t ts.
Proof.
  intros H r Hr. unfold lex_from in H. destruct (lex_run LStart t) as [[ts0 l]|] eqn:E; [|done]. simpl in H.
  rewrite (lex_from_app _ _ _ _ _ E). destruct l as [|?|?|? ?|? ?|? ? ? ?|n|? ?]; try discriminate H.
  - simplify_eq/=. by rewrite app_nil_r.
  - simpl in H. destruct (num_final n) eqn:Hf; [|done]. simplify_eq/=.
    rewrite lex_num_end by done. by rewrite option_fmap_app.
Qed.

Lemma parse_reads t v : parse t = Some v -> reads t v.
Proof.
  unfold parse. destruct (lex_from LStart t) as [ts|] eqn:E; [|done]. simpl.
  destruct (parse_run (PValue []) ts) as [[]|] eqn:Hp; try done. intros [= ->] st b Hb.
  unfold read_from. rewrite (lexes_document _ _ E) by done. rewrite <- read_tokens.
  apply (parse_run_extend _ _ _ st) in Hp. simpl in Hp. by rewrite Hp.
Qed.

(** ** What is printed is UTF-8 *)

Lemma marshal_string_utf8 s : is_utf8 (marshal_string s) = true.
Proof. unfold marshal_string. apply is_utf8_app; [done|]. apply is_utf8_app; [apply escape_utf8|done]. Qed.

Lemma format_digits_ascii fuel z acc : is_ascii acc = true -> is_ascii (format_digits fuel z acc) = true.
Proof.
  revert z acc. induction fuel as [|fuel IH]; intros z acc Ha; [done|]. cbn [format_digits].
  assert (Hd : is_ascii (String (digit_char (z mod 10)) acc) = true).
  { simpl. rewrite Ha, andb_true_r. pose proof (Z.mod_pos_bound z 10 ltac:(lia)) as Hm.
    apply (forall_below 10 (fun d => ascii_char (digit_char d) = true)); [by vm_compute | done]. }
  destruct (z <? 10); auto.
Qed.

Lemma int_string_utf8 z : is_utf8 (int_string z) = true.
Proof.
  apply ascii_utf8. unfold int_string, FormatUint. destruct (z <? 0); [|by apply format_digits_ascii].
  rewrite all_chars_app. by rewrite format_digits_ascii.
Qed.

Lemma concat_utf8 sep l : is_utf8 sep = true -> Forall (fun s => is_utf8 s = true) l ->
  is_utf8 (String.concat sep l) = true.
Proof.
  intros Hs Hl. induction Hl as [|x l Hx Hl IH]; [done|]. destruct l as [|y l]; [done|].
  change (String.concat sep (x :: y :: l)) with (x +:+ sep +:+ String.concat sep (y :: l)).
  apply is_utf8_app; [done|]. by apply is_utf8_app.
Qed.

Lemma marshal_utf8 v : is_utf8 (marshal v) = true.
Proof.
  induction v as [|b|m e|s|l IH|l IH] using json_nested_ind; cbn [marshal]; try done.
  - by destruct b.
  - case_match; auto using is_utf8_app, int_string_utf8.
  - apply marshal_string_utf8.
  - apply is_utf8_app; [done|]. apply is_utf8_app; [|done]. apply concat_utf8; [done|]. by apply Forall_map.
  - apply is_utf8_app; [done|]. apply is_utf8_app; [|done]. apply concat_utf8; [done|]. apply Forall_map.
    eapply Forall_impl; [exact IH|]. intros kv Hv. apply is_utf8_app; [apply marshal_string_utf8|].
    by apply is_utf8_app.
Qed.

(** ** The entries of a map *)

Lemma sorted_entries_perm {A} (m : gmap string A) : sorted_entries m ≡ₚ map_to_list m.
Proof. apply merge_sort_Permutation. Qed.

Lemma sorted_entries_map {A} (m : gmap string A) : list_to_map (sorted_entries m) = m.
Proof.
  rewrite (list_to_map_proper _ (map_to_list m)), list_to_map_to_list; [done| |apply sorted_entries_perm].
  rewrite sorted_entries_perm. apply NoDup_fst_map_to_list.
Qed.

Lemma fold_insert {A} (l : list (string * A)) (m : gmap string A) : NoDup l.*1 ->
  fold_left (fun m kv => <[kv.1 := kv.2]> m) l m = list_to_map l ∪ m.
Proof.
  revert m. induction l as [|[k v] l IH]; intros m; simpl; [by rewrite (left_id_L ∅ (∪))|].
  intros [Hk Hl]%NoDup_cons. rewrite IH by done. rewrite <- insert_union_l.
  rewrite <- insert_union_r; [done|]. by apply not_elem_of_list_to_map.
Qed.

(** ** Compaction changes nothing *)

Fixpoint no_adjacent (ts : list token) : Prop :=
  match ts with
  | TVal _ :: (TVal _ :: _) => False
  | _ :: ts => no_adjacent ts
  | [] => True
  end.

Lemma parse_no_adjacent p ts p' : parse_run p ts = Some p' -> no_adjacent ts.
Proof.
  revert p. induction ts as [|t ts IH]; intros p H; [done|]. simpl in H.
  destruct (parse_step p t) as [p1|] eqn:E; [|done]. simpl in H.
  destruct t as [| | | | | |v|s]; try (simpl; by eapply IH).
  destruct ts as [|[| | | | | |w|s] ts]; try (simpl; by eapply IH). exfalso.
  assert (Hc : forall st, parse_step (complete v st) (TVal w) = None).
  { intros [|[l|l k] st]; done. }
  simpl in H. destruct p; simpl in E; simplify_eq; by rewrite Hc in H.
Qed.

(** Where [Compact] is when the scanner is in a state. *)
Definition compact_of (st : lstate) : cstate :=
  match st with
  | LStr _ | LSur _ _ | LHex _ _ _ _ => CIn
  | LEsc _ | LSurEsc _ _ => CEsc
  | _ => COut
  end.

Definition word_char (c : ascii) : bool := negb (is_ws c) && negb (Ascii.eqb c "034").

Definition lstate_ok (st : lstate) : bool := match st with LLit rest _ => all_chars word_char rest | _ => true end.

Lemma start_step_compact c ts st : is_ws c = false -> start_step c = Some (ts, st) ->
  lstate_ok st = true /\ compact_step COut c = (String c "", compact_of st).
Proof.
  intros Hw. unfold compact_step. rewrite Hw. unfold start_step. rewrite Hw.
  destruct (Ascii.eqb_spec c "034") as [->|Hq]; [by intros [= <- <-]|].
  repeat (case_match; [by intros [= <- <-]|]). by repeat (case_match; intros; simplify_eq/=).
Qed.

Lemma str_step_compact acc c ts st : str_step acc c = Some (ts, st) ->
  lstate_ok st = true /\ compact_step CIn c = (String c "", compact_of st).
Proof.
  unfold str_step, compact_step. repeat (case_match; [by intros [= <- <-]|]). by intros [= <- <-].
Qed.

Lemma esc_step_compact acc c ts st : esc_step acc c = Some (ts, st) ->
  lstate_ok st = true /\ compact_of st = CIn.
Proof. unfold esc_step. repeat case_match; intros; by simplify_eq/=. Qed.

Lemma escaped_compact acc hi r : lstate_ok (escaped_after acc hi r) = true /\ compact_of (escaped_after acc hi r) = CIn.
Proof. unfold escaped_after, escaped. by repeat case_match. Qed.

Lemma hex_not_special c d : hex_val c = Some d -> compact_step CIn c = (String c "", CIn).
Proof.
  intros H. unfold compact_step.
  destruct (Ascii.eqb_spec c "034") as [->|]; [done|]. by destruct (Ascii.eqb_spec c "\") as [->|].
Qed.

Lemma num_step_compact n c n' : num_step n c = Some n' -> compact_step COut c = (String c "", COut).
Proof.
  intros H. assert (Hc : is_ws c = false /\ Ascii.eqb c "034" = false); [|by destruct Hc as [Hw Hq]; unfold compact_step; rewrite Hw, Hq].
  destruct n as [p neg m e eneg ev].
  destruct c as [[] [] [] [] [] [] [] []]; try (split; reflexivity); destruct p; discriminate H.
Qed.

(** Outside a number the compacted character is the character, or a space that the
    scanner skips. *)
Lemma lex_step_compact st c ts st1 : lstate_ok st = true -> lex_step st c = Some (ts, st1) ->
  (is_ws c = true /\ st1 = LStart /\ compact_step (compact_of st) c = ("", COut) /\
     ((st = LStart /\ ts = []) \/ exists n, st = LNum n /\ num_final n = true /\ ts = [TVal (num_value n)])) \/
  (lstate_ok st1 = true /\ compact_step (compact_of st) c = (String c "", compact_of st1)).
Proof.
  intros Hok. destruct st as [|acc|acc|acc hi|acc hi|acc hi k v|n|rest v]; cbn [lex_step compact_of]; intros H.
  - destruct (is_ws c) eqn:Hw; [left|right; by apply start_step_compact in H].
    unfold start_step in H. rewrite Hw in H. simplify_eq. unfold compact_step. rewrite Hw. auto 6.
  - right. by apply str_step_compact in H.
  - right. apply esc_step_compact in H as [? ->]. done.
  - right. destruct (Ascii.eqb_spec c "\") as [->|]; [by simplify_eq|]. by apply str_step_compact in H.
  - right. destruct (Ascii.eqb c "u"); [by simplify_eq|]. by apply esc_step_compact in H as [? ->].
  - right. destruct (hex_val c) as [d|] eqn:Hd; [|done]. rewrite (hex_not_special c d) by done.
    destruct k as [|[|k]]; simplify_eq; try done; by destruct (escaped_compact acc hi (16 * v + d)) as [? ->].
  - destruct (num_step n c) as [n'|] eqn:Hn; [right; simplify_eq; by rewrite (num_step_compact _ _ _ Hn)|].
    destruct (num_final n) eqn:Hf; [|done]. destruct (start_step c) as [[ts0 st0]|] eqn:Hs; simpl in H; [|done].
    simplify_eq. destruct (is_ws c) eqn:Hw; [left|right; by apply start_step_compact in Hs].
    unfold start_step in Hs. rewrite Hw in Hs. simplify_eq. unfold compact_step. rewrite Hw. eauto 10.
  - right. destruct rest as [|d rest]; [done|]. simpl in Hok.
    apply andb_true_iff in Hok as [[Hd1 Hd2]%andb_true_iff Hok].
    assert (Hc : Ascii.eqb c d = true).
    { destruct rest; destruct (Ascii.eqb c d); congruence. }
    apply Ascii.eqb_eq in Hc as ->. rewrite Ascii.eqb_refl in H.
    apply negb_true_iff in Hd1, Hd2. unfold compact_step. rewrite Hd1, Hd2.
    destruct rest; by simplify_eq.
Qed.

Lemma lex_from_step st c s ts0 st1 : lex_step st c = Some (ts0, st1) ->
  lex_from st (String c s) = app ts0 <$> lex_from st1 s.
Proof.
  intros H. unfold lex_from. simpl. rewrite H. simpl.
  destruct (lex_run st1 s) as [[ts1 st2]|]; simpl; [|done].
  destruct (lex_end st2); simpl; [by rewrite app_assoc | done].
Qed.

Lemma lex_from_stuck st c s : lex_step st c = None -> lex_from st (String c s) = None.
Proof. intros H. unfold lex_from. simpl. by rewrite H. Qed.

(** A number is the first token of what is read from inside it. *)
Lemma lex_num_head n s ts : lex_from (LNum n) s = Some ts -> exists v ts', ts = TVal v :: ts'.
Proof.
  revert n ts. induction s as [|c s IH]; intros n ts H.
  - unfold lex_from in H. simpl in H. destruct (num_final n); simplify_eq/=. eauto.
  - destruct (lex_step (LNum n) c) as [[ts0 st1]|] eqn:E; [|by rewrite lex_from_stuck in H].
    rewrite (lex_from_step _ _ _ _ _ E) in H. simpl in E. destruct (num_step n c) as [n'|]; simplify_eq/=.
    + rewrite option_fmap_nil in H. eauto.
    + destruct (num_final n); [|done]. destruct (start_step c) as [[ts1 st2]|]; simplify_eq/=.
      destruct (lex_from st1 s); simplify_eq/=. eauto.
Qed.

Lemma no_adjacent_app ts ts' : no_adjacent (ts ++ ts') -> no_adjacent ts'.
Proof.
  induction ts as [|t ts IH]; [done|]. simpl. intros H. apply IH.
  destruct t; try done. by destruct (ts ++ ts') as [|[] ?].
Qed.

(** Scanning the compacted text gives the same tokens; [lag] is the case of a number
    whose end, a space, was dropped. *)
Definition scans_compact (s : string) : Prop := forall st ts,
  lstate_ok st = true -> lex_from st s = Some ts -> no_adjacent ts ->
  lex_from st (strip (compact_of st) s) = Some ts.

Definition scans_lag (s : string) : Prop := forall n ts,
  num_final n = true -> lex_from LStart s = Some ts -> no_adjacent (TVal (num_value n) :: ts) ->
  lex_from (LNum n) (strip COut s) = Some (TVal (num_value n) :: ts).

(** A character that begins a token and is not a digit or a minus ends a number. *)
Lemma start_not_num n c ts st : num_final n = true -> is_ws c = false -> start_step c = Some (ts, st) ->
  (forall n', ts = [] -> st <> LNum n') -> num_step n c = None.
Proof.
  intros Hf Hw Hs Hn. destruct (num_step n c) as [n'|] eqn:E; [exfalso|done].
  destruct n as [p neg m e eneg ev].
  destruct p; try done;
    destruct c as [[] [] [] [] [] [] [] []]; try discriminate E; try discriminate Hs;
    try discriminate Hf; vm_compute in Hs; simplify_eq; by eapply Hn.
Qed.

Lemma strip_keep st st1 c s : compact_step st c = (String c "", st1) ->
  strip st (String c s) = String c (strip st1 s).
Proof. intros H. cbn [strip]. by rewrite H. Qed.

Lemma scans_both s : scans_compact s /\ scans_lag s.
Proof.
  induction s as [|c s [IHc IHl]]; split.
  - intros st ts _ H _. done.
  - intros n ts Hf H _. unfold lex_from in *. simpl in *. rewrite Hf. by simplify_eq.
  - intros st ts Hok H Ha.
    destruct (lex_step st c) as [[ts0 st1]|] eqn:E; [|by rewrite lex_from_stuck in H].
    rewrite (lex_from_step _ _ _ _ _ E) in H. destruct (lex_from st1 s) as [ts1|] eqn:E1; simpl in H; simplify_eq.
    destruct (lex_step_compact _ _ _ _ Hok E) as [(Hw & -> & Hc & [[-> ->]|(n & -> & Hf & ->)])|[Hok1 Hc]].
    + cbn [strip]. rewrite Hc. by apply (IHc LStart).
    + cbn [strip]. rewrite Hc. by apply IHl.
    + rewrite (strip_keep _ _ _ _ Hc), (lex_from_step _ _ _ _ _ E), (IHc st1 ts1) by eauto using no_adjacent_app. done.
  - intros n ts Hf H Ha. destruct (is_ws c) eqn:Hw.
    + cbn [strip]. unfold compact_step. rewrite Hw. unfold lex_from in H. simpl in H. unfold start_step in H. rewrite Hw in H. simpl in H.
      simpl. apply IHl; [done| |done]. unfold lex_from.
      destruct (lex_run LStart s) as [[ts1 st1]|]; simplify_eq/=. done.
    + destruct (start_step c) as [[ts0 st1]|] eqn:E; [|by rewrite (lex_from_stuck LStart) in H].
      rewrite (lex_from_step LStart _ _ _ _ E) in H. destruct (lex_from st1 s) as [ts1|] eqn:E1; simpl in H; simplify_eq.
      destruct (start_step_compact _ _ _ Hw E) as [Hok Hc]. rewrite (strip_keep _ _ _ _ Hc).
      assert (Hn : num_step n c = None).
      { apply (start_not_num n c ts0 st1 Hf Hw E). intros n' -> ->.
        destruct (lex_num_head _ _ _ E1) as (v & ts' & ->). done. }
      rewrite (lex_from_step (LNum n) c _ (TVal (num_value n) :: ts0) st1) by (simpl; rewrite Hn, Hf, E; done).
      rewrite (IHc st1 ts1); [done|done|done|]. destruct ts0 as [|t ts0]; [|by eapply (no_adjacent_app (TVal (num_value n) :: t :: ts0))].
      by eapply (no_adjacent_app [_]).
Qed.

(** Compaction keeps the meaning of a text: on a text that is a JSON value,
    [json.Compact] succeeds, and its result is a text of the same value. *)
Theorem compact_parse s v : parse s = Some v ->
  exists t, Compact s = Some t /\ parse t = Some v.
Proof.
  intros H. exists (strip COut s). unfold Compact. rewrite H. split; [done|].
  unfold parse in *. destruct (lex_from LStart s) as [ts|] eqn:E; [|done].
  destruct (parse_run (PValue []) ts) as [p|] eqn:Hp; [|by simpl in H; rewrite Hp in H].
  destruct (scans_both s) as [Hs _].
  change COut with (compact_of LStart). rewrite (Hs LStart ts); [|done|done|by eapply parse_no_adjacent]. done.
Qed.

Lemma compact_parse_witness :
  exists t, Compact (q " { 'a b' : [ 1 , -2 ] } ") = Some t /\ parse t = Some (JObj [("a b", JArr [JNum 1 0; JNum (-2) 0])]).
Proof. apply compact_parse. vm_compute. reflexivity. Defined.
