(* ===== verification/SecurosysHelpers.v ===== *)
(** * Helpers of the Securosys HSM packages

    kms/securosyshsm/helpers: structs.go and functions.go.  Key policies and the JSON
    they are read from, names of algorithms and curves, metadata of asynchronous
    requests.  The enumerations belong to an older release of the kms package; the
    code uses their names only.  PEM, X.509 and SHA-256 are parameters. *)
From S2P Require Import Prelude GoText GoEncoding GoJson.

Local Open Scope Z_scope.

(** ** External: PEM and X.509 *)

Class Pki := {
  x509_certificate : Type;
  x509_public : Type;
  (** the block's bytes, and whether it is encrypted *)
  pem_Decode : string -> option (bool * bytes);
  DecryptPEMBlock : bytes -> option bytes;
  ParseCertificate : bytes -> option x509_certificate;
  ParsePKIXPublicKey : bytes -> option x509_public;
  Sum256 : bytes -> bytes;
}.

(** ** Enumerations of the kms package *)

Inductive CipherAlgorithmMode := CipherMode_AES_GCM96 | CipherMode_RSA_OAEP_SHA256 | CipherMode_RSA_OAEP_SHA384
| CipherMode_RSA_OAEP_SHA512 | CipherMode_Other (n : Z).

Inductive SignAlgorithm := SignAlgo_RSA_PKCS1_PSS_SHA_256 | SignAlgo_RSA_PKCS1_PSS_SHA_384
| SignAlgo_RSA_PKCS1_PSS_SHA_512 | SignAlgo_EC_P256 | SignAlgo_EC_P384 | SignAlgo_EC_P521 | SignAlgo_ED
| SignAlgo_Other (n : Z).

Inductive Curve := Curve_None | Curve_P256 | Curve_P384 | Curve_P521 | Curve_Other (n : Z).

(** ** structs.go *)

Record RequestResponse := mkRequestResponse {
  rr_Id : string;
  rr_Status : string;
  rr_ExecutionTime : string;
  rr_ApprovedBy : list string;
  rr_NotYetApprovedBy : list string;
  rr_RejectedBy : list string;
  rr_Result : string;
}.

(** A slice is nil or a list; a pointer nil or a value. *)
Record Approval := mkApproval { ap_TypeOfKey : string; ap_Name : option string; ap_Value : option string }.

Record Group := mkGroup { gr_Name : string; gr_Quorum : Z; gr_Approvals : option (list Approval) }.

Record Token := mkToken { tk_Name : string; tk_Timelock : Z; tk_Timeout : Z; tk_Groups : option (list Group) }.

Record Rule := mkRule { ru_Tokens : option (list Token) }.

Record KeyStatus := mkKeyStatus { ks_Blocked : bool }.

Record Policy := mkPolicy {
  po_RuleUse : Rule;
  po_RuleBlock : option Rule;
  po_RuleUnBlock : option Rule;
  po_RuleModify : option Rule;
  po_KeyStatus : option KeyStatus;
}.

Record KeyAttributes := mkKeyAttributes {
  ka_Id : option string;
  ka_Label : string;
  ka_Attributes : gmap string bool;
  ka_KeySize : Z * Z;                      (* a decimal: mantissa and exponent *)
  ka_Policy : option Policy;
  ka_DerivedAttributes : option (list (string * json));
  ka_PublicKey : string;
  ka_Algorithm : string;
  ka_AlgorithmOid : string;
  ka_CurveOid : string;
  ka_Xml : string;
  ka_XmlSignature : string;
  ka_AttestationKeyName : string;
}.

Record SecurosysConfig := mkSecurosysConfig {
  sc_Auth : string;
  sc_BearerToken : string;
  sc_Username : string;
  sc_Password : string;
  sc_BasicToken : string;
  sc_CertPath : string;
  sc_KeyPath : string;
  sc_RestApi : string;
  sc_AppName : string;
  sc_ApplicationKeyPair : string;
  sc_ApiKeys : string;
}.

Record CertificateAttributes := mkCertificateAttributes {
  ca_CommonName : string;
  ca_Country : option string;
  ca_StateOrProvinceName : option string;
  ca_Locality : option string;
  ca_OrganizationName : option string;
  ca_OrganizationUnitName : option string;
  ca_Email : option string;
  ca_Title : option string;
  ca_Surname : option string;
  ca_GivenName : option string;
  ca_Initials : option string;
  ca_Pseudonym : option string;
  ca_GenerationQualifier : option string;
}.

(** ** Structs as JSON, in the order of their fields *)

Definition ptr_json (s : option string) : json := match s with Some s => JStr s | None => JNull end.

Definition slice_json {A} (f : A -> json) (l : option (list A)) : json :=
  match l with Some l => JArr (map f l) | None => JNull end.

Definition approval_json (a : Approval) : json :=
  JObj [("type", JStr (ap_TypeOfKey a)); ("name", ptr_json (ap_Name a)); ("value", ptr_json (ap_Value a))].

Definition group_json (g : Group) : json :=
  JObj [("name", JStr (gr_Name g)); ("quorum", JNum (gr_Quorum g) 0);
        ("approvals", slice_json approval_json (gr_Approvals g))].

Definition token_json (t : Token) : json :=
  JObj [("name", JStr (tk_Name t)); ("timelock", JNum (tk_Timelock t) 0); ("timeout", JNum (tk_Timeout t) 0);
        ("groups", slice_json group_json (tk_Groups t))].

Definition rule_json (r : Rule) : json := JObj [("tokens", slice_json token_json (ru_Tokens r))].

(** [omitempty] leaves a nil pointer out. *)
Definition omit_nil {A} (name : string) (f : A -> json) (p : option A) : list (string * json) :=
  match p with Some x => [(name, f x)] | None => [] end.

Definition policy_json (p : Policy) : json :=
  JObj ([("ruleUse", rule_json (po_RuleUse p))] ++ omit_nil "ruleBlock" rule_json (po_RuleBlock p) ++
    omit_nil "ruleUnblock" rule_json (po_RuleUnBlock p) ++ omit_nil "ruleModify" rule_json (po_RuleModify p) ++
    omit_nil "keyStatus" (fun k => JObj [("blocked", JBool (ks_Blocked k))]) (po_KeyStatus p)).

Definition policy_ptr_json (p : option Policy) : json := match p with Some p => policy_json p | None => JNull end.

(** Reading a policy; any member of the wrong kind is an error. *)
Definition approval_value (v : json) : option Approval :=
  l ← members v; t ← string_value (field "type" l); n ← string_ptr_value (field "name" l);
  w ← string_ptr_value (field "value" l); Some (mkApproval t n w).

Definition group_value (v : json) : option Group :=
  l ← members v; n ← string_value (field "name" l); k ← int_value (field "quorum" l);
  a ← slice_value approval_value (field "approvals" l); Some (mkGroup n k a).

Definition token_value (v : json) : option Token :=
  l ← members v; n ← string_value (field "name" l); k ← int_value (field "timelock" l);
  t ← int_value (field "timeout" l); g ← slice_value group_value (field "groups" l); Some (mkToken n k t g).

Definition rule_value (v : json) : option Rule :=
  l ← members v; t ← slice_value token_value (field "tokens" l); Some (mkRule t).

Definition key_status_value (v : json) : option KeyStatus :=
  l ← members v; b ← bool_value (field "blocked" l); Some (mkKeyStatus b).

Definition policy_value (v : json) : option Policy :=
  l ← members v; u ← rule_value (field "ruleUse" l); b ← ptr_value rule_value (field "ruleBlock" l);
  n ← ptr_value rule_value (field "ruleUnblock" l); m ← ptr_value rule_value (field "ruleModify" l);
  k ← ptr_value key_status_value (field "keyStatus" l); Some (mkPolicy u b n m k).

(** [ToString] of the attributes of a certificate: the keys of a map are sorted. *)
Definition ca_ToString (ca : CertificateAttributes) : string :=
  marshal (JObj [("commonName", JStr (ca_CommonName ca)); ("country", ptr_json (ca_Country ca));
                 ("organizationName", ptr_json (ca_OrganizationName ca))]).

(** ** functions.go: text *)

(** Each byte is converted as a rune of its value. *)
Definition StringToCharArray (text : string) : list string :=
  map (fun c => utf8_encode (byte_to_Z c)) (String.list_ascii_of_string text).

Definition chars_json (text : string) : string := marshal (JArr (map JStr (StringToCharArray text))).

Definition PrepareAttributes (attributes : gmap string bool) : string :=
  marshal (JObj (map (fun kv => (kv.1, JBool kv.2)) (sorted_entries attributes))).

Definition Contains (s : list string) (str : string) : bool :=
  existsb (fun v => String.eqb (ToLower v) (ToLower str)) s.

(** [strings.Replace(s, "v", "", 1)]. *)
Fixpoint GetVersionString (version : string) : string :=
  match version with
  | EmptyString => EmptyString
  | String c s => if Ascii.eqb c "v" then s else String c (GetVersionString s)
  end.

(** [strconv.Atoi] with its error ignored: 0 on a syntax error, the nearest [int] when
    the value is out of range. *)
Definition Atoi_or (s : string) : Z * option error :=
  let (neg, digits) := match s with
    | String c r => if Ascii.eqb c "-" then (true, r) else if Ascii.eqb c "+" then (false, r) else (false, s)
    | EmptyString => (false, s)
    end in
  match ParseUint digits 10 64 with
  | Ret z => if neg then (if 2 ^ 63 <? z then (- 2 ^ 63, Some ErrRange) else (- z, None))
             else if 2 ^ 63 <=? z then (2 ^ 63 - 1, Some ErrRange) else (z, None)
  | Fail e => if errors_Is (err_msg ErrRange) e then (if neg then - 2 ^ 63 else 2 ^ 63 - 1, Some ErrRange)
              else (0, Some ErrSyntax)
  | Panic => (0, None)
  end.

Definition GetVersionNumber (version : string) : Z := (Atoi_or (GetVersionString version)).1.

Definition s64 (z : Z) : Z := (z + 2 ^ 63) mod 2 ^ 64 - 2 ^ 63.

Definition GetNewVersion (version : string) : string :=
  "v" +:+ int_string (s64 ((Atoi_or (GetVersionString version)).1 + 1)).

Definition MinifyJson (requestData : string) : outcome string :=
  match Compact requestData with Some s => Ret s | None => Panic end.

Definition letterBytes : string := "abcdefghijklmnopqrstuvwxyzABCDEFGHIJKLMNOPQRSTUVWXYZ".

Definition specialBytes : string := "!@#$%^&*()_+-=[]{}\|;':" +:+ dquote +:+ ",.<>/?`~".

Definition numBytes : string := "0123456789".

Definition hexDecimalBytes : string := "0123456789ABCDEF".

(** The loop of GeneratePassword: [n] more bytes, [rand.Intn] having been called [i]
    times; it panics for a bound that is not positive. *)
Fixpoint pick_bytes (Intn : nat -> Z -> Z) (pool : bytes) (n i : nat) : outcome bytes :=
  match n with
  | O => Ret []
  | S n =>
      if bool_decide (pool = []) then Panic
      else match pool !! Z.to_nat (Intn i (Z.of_nat (length pool))) with
           | Some c => l ← pick_bytes Intn pool n (S i); Ret (c :: l)
           | None => Panic
           end
  end.

(** [make] panics for a negative length. *)
Definition GeneratePassword (Intn : nat -> Z -> Z) (length_ : Z) (useLetters useSpecial useNum useHexadecimal : bool) :
    outcome string :=
  let pool := bytes_of_string
    ((if useLetters then letterBytes else "") +:+ (if useSpecial then specialBytes else "") +:+
     (if useNum then numBytes else "") +:+ (if useHexadecimal then hexDecimalBytes else "")) in
  if length_ <? 0 then Panic
  else b ← pick_bytes Intn pool (Z.to_nat length_) O; Ret (string_of_bytes b).

(** ** functions.go: names of algorithms *)

Definition MapStringCurverToCurve (curveString : string) : Curve :=
  if String.eqb curveString "1.2.840.10045.3.1.7" then Curve_P256
  else if String.eqb curveString "1.3.132.0.34" then Curve_P384
  else if String.eqb curveString "1.3.132.0.35" then Curve_P521
  else Curve_None.

Definition MapCurveToStringCurve (curve : Curve) : string :=
  match curve with
  | Curve_P256 => "1.2.840.10045.3.1.7"
  | Curve_P384 => "1.3.132.0.34"
  | Curve_P521 => "1.3.132.0.35"
  | _ => ""
  end.

Definition ErrUnknownAlgorithm : error := ErrLeaf "unknown cipher algorithm".

Definition MapSignAlgorithm (alg : SignAlgorithm) (digest : bool) : outcome string :=
  if digest then
    match alg with
    | SignAlgo_RSA_PKCS1_PSS_SHA_256 => Ret "NONE_WITH_RSA"
    | SignAlgo_RSA_PKCS1_PSS_SHA_384 | SignAlgo_RSA_PKCS1_PSS_SHA_512 => Ret "NONE_WITH_RSA_PSS"
    | SignAlgo_EC_P256 | SignAlgo_EC_P384 | SignAlgo_EC_P521 => Ret "NONE_WITH_ECDSA"
    | SignAlgo_ED => Ret "EDDSA"
    | SignAlgo_Other _ => Fail ErrUnknownAlgorithm
    end
  else
    match alg with
    | SignAlgo_RSA_PKCS1_PSS_SHA_256 => Ret "SHA256_WITH_RSA_PSS"
    | SignAlgo_RSA_PKCS1_PSS_SHA_384 => Ret "SHA384_WITH_RSA_PSS"
    | SignAlgo_RSA_PKCS1_PSS_SHA_512 => Ret "SHA512_WITH_RSA_PSS"
    | SignAlgo_EC_P256 => Ret "SHA256_WITH_ECDSA"
    | SignAlgo_EC_P384 => Ret "SHA384_WITH_ECDSA"
    | SignAlgo_EC_P521 => Ret "SHA512_WITH_ECDSA"
    | SignAlgo_ED => Ret "EDDSA"
    | SignAlgo_Other _ => Fail ErrUnknownAlgorithm
    end.

Definition MapCipherAlgorithm (alg : CipherAlgorithmMode) : outcome string :=
  match alg with
  | CipherMode_AES_GCM96 => Ret "AES_GCM"
  | CipherMode_RSA_OAEP_SHA256 => Ret "RSA_PADDING_OAEP_WITH_SHA256"
  | CipherMode_RSA_OAEP_SHA384 => Ret "RSA_PADDING_OAEP_WITH_SHA384"
  | CipherMode_RSA_OAEP_SHA512 => Ret "RSA_PADDING_OAEP_WITH_SHA512"
  | CipherMode_Other _ => Fail ErrUnknownAlgorithm
  end.

(** ** functions.go: certificates and public keys *)

Section pki.
Context `{Pki}.

Definition newline : string := String "010" "".

Definition ReadCertificate (possibleCertificate : string) : outcome x509_certificate :=
  match pem_Decode (cat ["-----BEGIN CERTIFICATE-----"; newline; possibleCertificate; newline;
                         "-----END CERTIFICATE-----"; newline]) with
  | None => Fail (ErrLeaf "Cannot read certificate")
  | Some (_, b) => match ParseCertificate b with Some c => Ret c | None => Fail (ErrLeaf "x509: malformed certificate") end
  end.

Definition WrapPublicKeyWithHeaders (publicKey : string) : string :=
  cat ["-----BEGIN PUBLIC KEY-----"; newline; publicKey; newline; "-----END PUBLIC KEY-----"].

Definition ParsePublicKeyString (publicKey : string) : outcome x509_public :=
  match pem_Decode (WrapPublicKeyWithHeaders publicKey) with
  | None => Fail (ErrLeaf "Cannot parse public key")
  | Some (_, b) => match ParsePKIXPublicKey b with Some k => Ret k | None => Fail (ErrLeaf "x509: malformed public key") end
  end.

(** A text without a PEM block is dereferenced as nil; the result nil is [None]. *)
Definition BytesToPublicKey (pub : string) : outcome (option x509_public) :=
  match pem_Decode pub with
  | None => Panic
  | Some (enc, b) => Ret (b ← (if enc then DecryptPEMBlock b else Some b); ParsePKIXPublicKey b)
  end.

(** ** functions.go: policies *)

Definition approval_of (kv : string * string) : Approval :=
  let (name, element) := kv in
  match ReadCertificate element with
  | Ret _ => mkApproval "certificate" None (Some element)
  | _ => match ParsePublicKeyString element with
         | Ret _ => mkApproval "public_key" (Some name) (Some element)
         | _ => mkApproval "onboarded_approver_certificate" (Some element) None
         end
  end.

Definition PreparePolicyTokens `{RangeOrder} (policy : gmap string string) : Token :=
  let group := mkGroup "main" (Z.of_nat (size policy)) (Some (map approval_of (range_order policy))) in
  mkToken "main" 0 0 (if bool_decide (policy = ∅) then None else Some [group]).

Definition no_tokens : Rule := mkRule None.

(** [append(r.Tokens, token)]. *)
Definition add_token (t : Token) (r : Rule) : Rule :=
  mkRule (Some (default [] (ru_Tokens r) ++ [t])).

Definition opened_status (addKeyStatus : bool) : option KeyStatus :=
  if addKeyStatus then Some (mkKeyStatus false) else None.

(** A simple policy is a map from names to approvers, or four such maps; in the second
    case [RuleBlock] is a nil pointer when its tokens are appended to. *)
Definition PrepareFullPolicy `{RangeOrder} (policyString : string) (simplified addKeyStatus : bool) :
    outcome Policy :=
  if simplified then
    match parse policyString ≫= map_value string_value with
    | Some simplePolicy =>
        let rule := add_token (PreparePolicyTokens (default ∅ simplePolicy)) no_tokens in
        Ret (mkPolicy rule (Some rule) (Some rule) (Some rule) (opened_status addKeyStatus))
    | None =>
        match parse policyString ≫= map_value (map_value string_value) with
        | None => Fail ErrJSON
        | Some _ => Panic
        end
    end
  else
    match parse policyString ≫= ptr_value policy_value with
    | None => Fail ErrJSON
    | Some p =>
        let p := default (mkPolicy no_tokens None None None None) p in
        Ret (mkPolicy (po_RuleUse p) (po_RuleBlock p) (po_RuleUnBlock p) (po_RuleModify p)
          (if addKeyStatus then po_KeyStatus p else None))
    end.

Definition PreparePolicy `{RangeOrder} (policyString : string) (simplified : bool) : outcome Policy :=
  PrepareFullPolicy policyString simplified true.

(** ** Metadata of a request *)

Record date := mkDate { d_Year : Z; d_Month : Z; d_Day : Z; d_Hour : Z; d_Minute : Z; d_Second : Z }.

(** [%02d] of a number that is not negative. *)
Definition pad2 (z : Z) : string := (if z <? 10 then "0" else "") +:+ int_string z.

Definition time_text (d : date) : string :=
  cat [int_string (d_Year d); "-"; pad2 (d_Month d); "-"; pad2 (d_Day d); "T"; pad2 (d_Hour d); ":";
       pad2 (d_Minute d); ":"; pad2 (d_Second d); "Z"].

(** Both maps are written over the three entries made here, the second over the first. *)
Definition metadata_json (now : date) (app requestType : string)
    (additionalMetaData customMetaData : gmap string string) : string :=
  marshal (JObj (map (fun kv => (kv.1, JStr kv.2)) (sorted_entries
    (customMetaData ∪ additionalMetaData ∪
     {["time" := time_text now; "app" := app; "type" := requestType]})))).

Definition PrepareMetaData (now : date) (requestType : string)
    (additionalMetaData customMetaData : gmap string string) : string * string :=
  let metaJsonStr := metadata_json now "Hashicorp Vault - Securosys HSM Secrets Engine" requestType
    additionalMetaData customMetaData in
  (b64_EncodeToString StdEncoding (bytes_of_string metaJsonStr),
   b64_EncodeToString StdEncoding (bytes_of_string (hex_EncodeToString (Sum256 (bytes_of_string metaJsonStr))))).
End pki.

(** ** Policies are read back as they were printed

    The texts of a policy are UTF-8, its numbers values of [int]. *)

Definition int64 (z : Z) : bool := (- 2 ^ 63 <=? z) && (z <? 2 ^ 63).

Definition opt_utf8 (s : option string) : bool := is_utf8 (default "" s).

Definition slice_ok {A} (ok : A -> bool) (l : option (list A)) : bool := forallb ok (default [] l).

Definition approval_ok (a : Approval) : bool :=
  is_utf8 (ap_TypeOfKey a) && opt_utf8 (ap_Name a) && opt_utf8 (ap_Value a).

Definition group_ok (g : Group) : bool :=
  is_utf8 (gr_Name g) && int64 (gr_Quorum g) && slice_ok approval_ok (gr_Approvals g).

Definition token_ok (t : Token) : bool :=
  is_utf8 (tk_Name t) && int64 (tk_Timelock t) && int64 (tk_Timeout t) && slice_ok group_ok (tk_Groups t).

Definition rule_ok (r : Rule) : bool := slice_ok token_ok (ru_Tokens r).

Definition policy_ok (p : Policy) : bool :=
  rule_ok (po_RuleUse p) && forallb rule_ok (option_list (po_RuleBlock p)) &&
  forallb rule_ok (option_list (po_RuleUnBlock p)) && forallb rule_ok (option_list (po_RuleModify p)).

(** Printed faithfully, and read back. *)
Definition codec {A} (f : json -> option A) (g : A -> json) (x : A) : Prop :=
  printable (g x) = true /\ f (g x) = Some x.

Lemma int_codec m : int64 m = true -> codec int_value (fun m => JNum m 0) m.
Proof.
  unfold int64. intros [H1%Z.leb_le H2%Z.ltb_lt]%andb_true_iff. split.
  - cbn [printable]. rewrite bool_decide_true; [done|]. unfold int_bound. lia.
  - unfold int_value. by rewrite (proj2 (Z.leb_le _ _) H1), (proj2 (Z.ltb_lt _ _) H2).
Qed.

Lemma ptr_codec p : opt_utf8 p = true -> codec string_ptr_value ptr_json p.
Proof. by destruct p. Qed.

Lemma slice_codec {A} (f : json -> option A) (g : A -> json) (ok : A -> bool) l :
  (forall x, ok x = true -> codec f g x) -> slice_ok ok l = true -> codec (slice_value f) (slice_json g) l.
Proof.
  intros Hf. destruct l as [l|]; [|done]. unfold slice_ok, codec. simpl.
  induction l as [|x l IH]; simpl; [done|]. intros [[Hp Hv]%Hf [Hpl Hvl]%IH]%andb_true_iff.
  rewrite Hp, Hv. split; [done|]. simpl. destruct (mapM f (map g l)); simplify_eq/=. done.
Qed.

(** Codecs of the members give the codec of a struct. *)
Local Ltac read_fields :=
  cbn [members mbind option_bind];
  repeat match goal with |- context [field ?k ?l] =>
    let v := eval lazy -[is_utf8 ptr_json slice_json approval_json group_json token_json rule_json] in (field k l) in
    change (field k l) with v end.

Local Ltac struct_codec :=
  repeat match goal with H : codec _ _ _ |- _ => destruct H end; unfold codec;
  split; [cbn -[is_utf8 ptr_json slice_json rule_json] in * | read_fields];
  repeat match goal with H : _ = _ |- _ => rewrite H; clear H; cbn [mbind option_bind string_value] end; done.

Lemma approval_codec a : approval_ok a = true -> codec approval_value approval_json a.
Proof.
  destruct a as [t n v]. unfold approval_ok. cbn [ap_TypeOfKey ap_Name ap_Value]. rewrite !andb_true_iff.
  intros [[Ht Hn%ptr_codec] Hv%ptr_codec]. unfold approval_value, approval_json. struct_codec.
Qed.

Lemma group_codec g : group_ok g = true -> codec group_value group_json g.
Proof.
  destruct g as [n k a]. unfold group_ok. cbn [gr_Name gr_Quorum gr_Approvals]. rewrite !andb_true_iff.
  intros [[Hn Hk%int_codec] Ha%(slice_codec _ _ _ _ approval_codec)]. unfold group_value, group_json. struct_codec.
Qed.

Lemma token_codec t : token_ok t = true -> codec token_value token_json t.
Proof.
  destruct t as [n l o g]. unfold token_ok. cbn [tk_Name tk_Timelock tk_Timeout tk_Groups]. rewrite !andb_true_iff.
  intros [[[Hn Hl%int_codec] Ho%int_codec] Hg%(slice_codec _ _ _ _ group_codec)].
  unfold token_value, token_json. struct_codec.
Qed.

Lemma rule_codec r : rule_ok r = true -> codec rule_value rule_json r.
Proof.
  destruct r as [t]. unfold rule_ok. cbn [ru_Tokens]. intros Ht%(slice_codec _ _ _ _ token_codec). unfold rule_value, rule_json. struct_codec.
Qed.

(** An optional rule is left out, and then read as nil. *)
Lemma omit_ok name (r : option Rule) : is_utf8 name = true -> forallb rule_ok (option_list r) = true ->
  forallb (fun kv => is_utf8 kv.1 && printable kv.2) (omit_nil name rule_json r) = true.
Proof.
  intros Hn. destruct r as [r|]; simpl; [|done]. rewrite andb_true_r. intros [Hp _]%rule_codec.
  change (is_utf8 name && printable (rule_json r) && true = true). by rewrite Hn, Hp.
Qed.

Lemma ptr_rule r : forallb rule_ok (option_list r) = true ->
  ptr_value rule_value (match r with Some r => rule_json r | None => JNull end) = Some r.
Proof.
  destruct r as [r|]; simpl; [|done]. rewrite andb_true_r. intros [_ Hv]%rule_codec. by rewrite Hv.
Qed.

Lemma policy_codec p : policy_ok p = true -> codec policy_value policy_json p.
Proof.
  destruct p as [u b n m k]. unfold policy_ok. cbn [po_RuleUse po_RuleBlock po_RuleUnBlock po_RuleModify].
  rewrite !andb_true_iff. intros [[[Hu Hb] Hn] Hm]. pose proof (rule_codec u Hu) as [Hup Huv].
  unfold policy_json, policy_value, codec. cbn [po_RuleUse po_RuleBlock po_RuleUnBlock po_RuleModify po_KeyStatus].
  split.
  - change (printable (JObj ?l)) with (forallb (fun kv => is_utf8 kv.1 && printable kv.2) l).
    rewrite !forallb_app, !omit_ok by done. cbn [forallb fst snd]. rewrite Hup. by destruct k as [[]|].
  - pose proof (ptr_rule b Hb) as Hbv. pose proof (ptr_rule n Hn) as Hnv. pose proof (ptr_rule m Hm) as Hmv.
    clear Hb Hn Hm Hup Hu.
    destruct k as [[k]|], b, n, m; cbn [omit_nil app] in *; read_fields;
      repeat first [rewrite Huv | rewrite Hbv | rewrite Hnv | rewrite Hmv]; cbn [mbind option_bind];
      repeat first [rewrite Hbv | rewrite Hnv | rewrite Hmv]; done.
Qed.

(** ** Maps of strings are read back *)

Definition strings_object (m : gmap string string) : json :=
  JObj (map (fun kv => (kv.1, JStr kv.2)) (sorted_entries m)).

Definition map_utf8 (m : gmap string string) : Prop := map_Forall (fun k v => is_utf8 k && is_utf8 v = true) m.

#[export] Instance map_utf8_dec m : Decision (map_utf8 m).
Proof. unfold map_utf8. apply _. Defined.

Lemma strings_object_codec m : map_utf8 m ->
  printable (strings_object m) = true /\ map_value string_value (strings_object m) = Some (Some m).
Proof.
  intros Hm. unfold strings_object. split.
  - change (forallb (fun kv => is_utf8 kv.1 && printable kv.2)
      (map (fun kv : string * string => (kv.1, JStr kv.2)) (sorted_entries m)) = true).
    apply forallb_forall. intros kv' ([k v] & <- & Hin)%in_map_iff. cbn [fst snd printable]. apply Hm.
    apply list_elem_of_In in Hin. rewrite sorted_entries_perm in Hin. by apply elem_of_map_to_list.
  - simpl. assert (Hl : forall l : list (string * string),
      mapM (fun kv : string * json => pair kv.1 <$> string_value kv.2) (map (fun kv => (kv.1, JStr kv.2)) l) = Some l).
    { induction l as [|[k v] l IH]; simpl; [done|]. by rewrite IH. }
    rewrite Hl. simpl. rewrite fold_insert by (rewrite sorted_entries_perm; apply NoDup_fst_map_to_list).
    by rewrite sorted_entries_map, (right_id_L ∅ (∪)).
Qed.

(** ** Properties *)

(** C30: a policy whose texts are UTF-8 (Go's JSON printer replaces other bytes, so such
    a policy is not what is read back) and whose numbers are values of Go's int: printed
    as JSON, as it is sent to the HSM, it is the policy [PrepareFullPolicy] reads from
    the text; its key status is dropped where the caller does not want it. *)
Theorem policy_roundtrip `{Pki} `{RangeOrder} p addKeyStatus : policy_ok p = true ->
  PrepareFullPolicy (marshal (policy_json p)) false addKeyStatus =
  Ret (mkPolicy (po_RuleUse p) (po_RuleBlock p) (po_RuleUnBlock p) (po_RuleModify p)
    (if addKeyStatus then po_KeyStatus p else None)).
Proof.
  intros [Hp Hv]%policy_codec. unfold PrepareFullPolicy. rewrite parse_marshal by done.
  simpl. change (match policy_json p with JNull => Some None | _ => Some <$> policy_value (policy_json p) end)
    with (Some <$> policy_value (policy_json p)). by rewrite Hv.
Qed.

(** Certificates and keys are their PEM text. *)
Definition text_pki : Pki := {|
  x509_certificate := bytes; x509_public := bytes;
  pem_Decode s := if HasPrefix s "-----BEGIN" then Some (false, bytes_of_string s) else None;
  DecryptPEMBlock := Some;
  ParseCertificate b := if Contains [string_of_bytes b] "" then None else Some b;
  ParsePKIXPublicKey := Some;
  Sum256 b := b;
|}.

Definition example_policy : Policy :=
  let rule := mkRule (Some [mkToken "main" 0 3600 (Some [mkGroup (q "<main> 'é'") 2
    (Some [mkApproval "certificate" None (Some "MII="); mkApproval "public_key" (Some "n") None])])]) in
  mkPolicy rule (Some rule) None (Some (mkRule None)) (Some (mkKeyStatus true)).

Lemma policy_roundtrip_witness :
  policy_ok example_policy = true /\
  @PrepareFullPolicy text_pki default_order (marshal (policy_json example_policy)) false true = Ret example_policy.
Proof. split; [vm_compute; reflexivity|]. apply (@policy_roundtrip text_pki default_order example_policy true). vm_compute. reflexivity. Defined.

(** a simple policy, a map from names to approvers, makes one token that is required
    for every rule alike, with one group in which all approvers have to approve; the empty
    map makes a token without groups. *)
Theorem simple_policy_all_approve `{Pki} `{RangeOrder} (m : gmap string string) addKeyStatus : map_utf8 m ->
  exists t, PrepareFullPolicy (marshal (strings_object m)) true addKeyStatus =
    Ret (mkPolicy (mkRule (Some [t])) (Some (mkRule (Some [t]))) (Some (mkRule (Some [t])))
      (Some (mkRule (Some [t]))) (if addKeyStatus then Some (mkKeyStatus false) else None)) /\
    tk_Timelock t = 0 /\ tk_Timeout t = 0 /\
    (m = ∅ -> tk_Groups t = None) /\
    (m <> ∅ -> exists l, tk_Groups t = Some [mkGroup "main" (Z.of_nat (length l)) (Some l)] /\
       l ≡ₚ map approval_of (map_to_list m)).
Proof.
  intros [Hp Hv]%strings_object_codec. exists (PreparePolicyTokens m).
  unfold PrepareFullPolicy. rewrite parse_marshal by done. cbn [mbind option_bind]. rewrite Hv. cbn [default].
  split_and!; [by destruct addKeyStatus|done|done| |]; intros Hm; unfold PreparePolicyTokens; simpl.
  - by rewrite bool_decide_true.
  - rewrite bool_decide_false by done. exists (map approval_of (range_order m)).
    assert (Hl : range_order m ≡ₚ map_to_list m) by apply range_order_perm. split.
    + by rewrite length_map, (Permutation_length Hl), length_map_to_list.
    + by apply Permutation_map.
Qed.

Definition example_approvers : gmap string string := {["ann" := "MII="; "bob" := "onboarded"]}.

Lemma simple_policy_all_approve_witness :
  map_utf8 example_approvers /\ exists t,
    @PrepareFullPolicy text_pki reverse_order (marshal (strings_object example_approvers)) true false =
    Ret (mkPolicy (mkRule (Some [t])) (Some (mkRule (Some [t]))) (Some (mkRule (Some [t])))
      (Some (mkRule (Some [t]))) None).
Proof.
  assert (Hm : map_utf8 example_approvers) by (refine (bool_decide_unpack _ _); vm_compute; exact I).
  split; [exact Hm|].
  destruct (@simple_policy_all_approve text_pki reverse_order example_approvers false Hm) as (t & Ht & _).
  exists t. exact Ht.
Defined.

Definition nested_object (n : gmap string (gmap string string)) : json :=
  JObj (map (fun kv => (kv.1, strings_object kv.2)) (sorted_entries n)).

(** the other form of a simple policy, a map for each rule (use, block, unblock and
    modify), never gives a policy: the rules it appends to are nil pointers. *)
Theorem nested_policy_panics `{Pki} `{RangeOrder} (n : gmap string (gmap string string)) addKeyStatus :
  n <> ∅ -> map_Forall (fun k m => is_utf8 k = true /\ map_utf8 m) n ->
  PrepareFullPolicy (marshal (nested_object n)) true addKeyStatus = Panic.
Proof.
  intros Hne Hn. set (f := fun kv : string * gmap string string => (kv.1, strings_object kv.2)).
  assert (Hl : Forall (fun kv => is_utf8 kv.1 = true /\ map_utf8 kv.2) (sorted_entries n)).
  { apply Forall_forall. intros [k m] Hin. rewrite sorted_entries_perm in Hin.
    apply (Hn k m). by apply elem_of_map_to_list. }
  unfold PrepareFullPolicy. rewrite parse_marshal.
  - cbn [mbind option_bind nested_object map_value].
    assert (Hs : mapM (fun kv : string * json => pair kv.1 <$> string_value kv.2) (map f (sorted_entries n)) = None).
    { destruct (sorted_entries n) as [|[k m] l] eqn:E; [|done]. exfalso. apply Hne.
      by rewrite <- (sorted_entries_map n), E. }
    change (map _ (sorted_entries n)) with (map f (sorted_entries n)). rewrite Hs. simpl.
    assert (Hm : is_Some (mapM (fun kv : string * json => pair kv.1 <$> map_value string_value kv.2)
      (map f (sorted_entries n)))).
    { clear Hs. induction Hl as [|[k m] l [_ Hm] _ IH]; [by eexists|]. cbn [map mapM fst snd f].
      rewrite (proj2 (strings_object_codec m Hm)). simpl. destruct IH as [x ->]. by eexists. }
    destruct Hm as [x ->]. done.
  - change (forallb (fun kv => is_utf8 kv.1 && printable kv.2) (map f (sorted_entries n)) = true).
    apply forallb_forall. intros kv' (kv & <- & Hin)%in_map_iff. apply list_elem_of_In in Hin.
    rewrite Forall_forall in Hl. destruct (Hl kv Hin) as [Hk Hm]. cbn [f fst snd].
    by rewrite Hk, (proj1 (strings_object_codec _ Hm)).
Qed.

Lemma nested_policy_panics_witness :
  @PrepareFullPolicy text_pki default_order (marshal (nested_object {["use" := example_approvers]})) true true = Panic.
Proof.
  apply (@nested_policy_panics text_pki default_order {["use" := example_approvers]} true).
  - by vm_compute.
  - refine (bool_decide_unpack _ _). vm_compute. exact I.
Defined.

(** [MinifyJson] keeps the document: on JSON it returns a text of the same value, and it
    panics on anything else. *)
Theorem MinifyJson_same s :
  match parse s with
  | Some v => exists t, MinifyJson s = Ret t /\ parse t = Some v
  | None => MinifyJson s = Panic
  end.
Proof.
  unfold MinifyJson. destruct (parse s) as [v|] eqn:E.
  - destruct (compact_parse s v E) as (t & -> & Ht). by exists t.
  - unfold Compact. by rewrite E.
Qed.
