(* ===== verification/SecurosysRequests.v ===== *)
(** * What the requests to the Securosys service say

    The bodies of SecurosysClient.v are put together from pieces of text.  Here is, for
    each one, the JSON object it is meant to be, with the theorem that the body is that
    object, for names and payloads without quotation marks, backslashes and control
    characters (so for base64) and passwords of ASCII.  What is not escaped breaks out
    of its string: an example shows it. *)
From S2P Require Import Prelude GoText GoEncoding GoJson SecurosysHelpers SecurosysClient.

Local Open Scope Z_scope.

(** ** Members *)

Definition str (k v : string) : string * json := (k, JStr v).

Definition nullable (k v : string) : string * json := (k, if String.eqb v "" then JNull else JStr v).

Definition pointer (k : string) (v : option string) : string * json := (k, ptr_json v).

(** A password, as a list of characters, unless it is empty. *)
Definition chars (password : string) : json := JArr (map JStr (StringToCharArray password)).

Definition secret (k password : string) : list (string * json) :=
  if String.eqb password "" then [] else [(k, chars password)].

(** ** The objects *)

Definition tag_member (tagLength : Z) (alg : string) : list (string * json) :=
  if negb (tagLength =? -1) && String.eqb alg "AES_GCM" then [("tagLength", JNum tagLength 0)] else [].

Definition encrypt_object (label password payload alg : string) (tagLength : Z) (aad : string) : json :=
  JObj [("encryptRequest", JObj (
    [str "payload" payload] ++ secret "keyPassword" password ++ [str "encryptKeyName" label; str "cipherAlgorithm" alg] ++
    tag_member tagLength alg ++ [nullable "additionalAuthenticationData" aad]))].

Definition decrypt_sync_object (label password ciphertext vector alg : string) (tagLength : Z) (aad : string) : json :=
  JObj [("decryptRequest", JObj (
    [str "encryptedPayload" ciphertext] ++ secret "keyPassword" password ++
    [str "decryptKeyName" label; str "cipherAlgorithm" alg; nullable "initializationVector" vector] ++
    tag_member tagLength alg ++ [nullable "additionalAuthenticationData" aad]))].

Definition decrypt_request_object (ciphertext label metaData : string) (metaDataSignature : option string)
    (password vector alg : string) (tagLength : Z) (aad : string) : json :=
  JObj ([str "encryptedPayload" ciphertext] ++ secret "keyPassword" password ++
    [str "decryptKeyName" label; str "metaData" metaData; pointer "metaDataSignature" metaDataSignature;
     str "cipherAlgorithm" alg; nullable "initializationVector" vector] ++
    tag_member tagLength alg ++ [nullable "additionalAuthenticationData" aad]).

Definition signature_member (alg : string) : list (string * json) :=
  if String.eqb alg "EDDSA" then [str "signatureType" "RAW"] else [].

Definition sign_sync_object (label password payload payloadType alg : string) : json :=
  JObj [("signRequest", JObj (
    [str "payload" payload; str "payloadType" payloadType] ++ secret "keyPassword" password ++
    [str "signKeyName" label; str "signatureAlgorithm" alg] ++ signature_member alg))].

Definition sign_request_object (label password payload payloadType alg metaData : string)
    (metaDataSignature : option string) : json :=
  JObj ([str "payload" payload; str "payloadType" payloadType] ++ secret "keyPassword" password ++
    [str "signKeyName" label; str "signatureAlgorithm" alg; str "metaData" metaData;
     pointer "metaDataSignature" metaDataSignature] ++ signature_member alg).

Definition verify_object (label password payload alg signature : string) : json :=
  JObj [("verifySignatureRequest", JObj (
    [str "payload" payload] ++ secret "masterKeyPassword" password ++
    [str "signKeyName" label; str "signatureAlgorithm" alg; str "signature" signature]))].

Definition wrap_object (wrapKeyName wrapKeyPassword keyToBeWrapped keyToBeWrappedPassword wrapMethod : string) : json :=
  JObj [("wrapKeyRequest", JObj (
    [str "keyToBeWrapped" keyToBeWrapped] ++ secret "keyToBeWrappedPassword" keyToBeWrappedPassword ++
    [str "wrapKeyName" wrapKeyName] ++ secret "wrapKeyPassword" wrapKeyPassword ++ [str "wrapMethod" wrapMethod]))].

Definition get_key_object (label password : string) : json := JObj (secret "password" password ++ [str "label" label]).

Definition block_sync_object (label password : string) : json :=
  JObj [("blockRequest", JObj (secret "keyPassword" password ++ [str "blockKeyName" label]))].

Definition block_request_object (label password metaData : string) (metaDataSignature : option string) : json :=
  JObj ([str "blockKeyName" label] ++ secret "keyPassword" password ++
    [str "metaData" metaData; pointer "metaDataSignature" metaDataSignature]).

Definition modify_request_object (label password : string) (policy : Policy) (metaData : string)
    (metaDataSignature : option string) : json :=
  JObj ([str "modifyKeyName" label] ++ secret "keyPassword" password ++
    [str "metaData" metaData; pointer "metaDataSignature" metaDataSignature; ("policy", policy_json policy)]).

(** A request with its signature. *)
Definition signed_object (name : string) (request signature : json) : json :=
  JObj [(name, request); ("requestSignature", signature)].

Definition signature_object (signature publicKey : string) : json :=
  JObj [str "signature" signature; str "digestAlgorithm" "SHA-256"; str "publicKey" publicKey].

(** ** Reading the pieces *)

Lemma chars_printable password : is_ascii password = true -> printable (chars password) = true.
Proof.
  unfold chars, StringToCharArray. cbn [printable].
  induction password as [|c s IH]; [done|]. intros [Hc Hs]%andb_true_iff. cbn [String.list_ascii_of_string map forallb].
  apply andb_true_iff. split; [|by apply IH].
  clear IH Hs s. destruct c as [[] [] [] [] [] [] [] []]; (discriminate Hc || reflexivity).
Qed.

Lemma password_part_nonempty k password : password <> "" ->
  password_part k password = cat [dquote; k; dquote; ": "; chars_json password; ","].
Proof.
  intros Hp. unfold password_part. assert (Hl : (2 < String.length (chars_json password))%nat); [|by rewrite (proj2 (Nat.ltb_lt _ _) Hl)].
  destruct password as [|c s]; [done|]. unfold chars_json. cbn [marshal].
  unfold StringToCharArray. cbn [String.list_ascii_of_string map marshal].
  destruct (map marshal (map JStr (map _ (String.list_ascii_of_string s)))) as [|x l]; cbn [map String.concat];
    unfold marshal_string; rewrite !slength_app; simpl; lia.
Qed.

(** A password between members. *)
Lemma read_secret l st k password b : plain k = true -> is_ascii password = true ->
  read_from LStart (PKey l st) (password_part k password +:+ b) = read_from LStart (PKey (l ++ secret k password) st) b.
Proof.
  intros Hk Hp. unfold secret. destruct (String.eqb_spec password "") as [->|Hne]; [by rewrite app_nil_r|].
  rewrite password_part_nonempty by done. cbn [cat]. rewrite !sapp_assoc, sapp_nil. unfold dquote.
  rewrite (read_chunk LStart (PKey l st) _ _ [] (LStr "") (PKey l st)) by done.
  rewrite (read_str (PKey l st) k _ "" _ [] LStart (PColon l k st)) by done.
  rewrite (read_chunk LStart (PColon l k st) _ _ [TColon] LStart (PValue (FObj l k :: st))) by done.
  unfold chars_json. rewrite (reads_marshal _ (chars_printable _ Hp)) by (simpl; tauto).
  by rewrite (read_chunk LStart _ _ _ [TComma] LStart (PKey (l ++ [(k, chars password)]) st)).
Qed.

(** Where it comes first. *)
Lemma read_secret_first st k password a b k' ts l1 p1 : plain k = true -> is_ascii password = true ->
  lex_run LStart a = Some (TStr k' :: ts, l1) -> parse_run (PColon (secret k password) k' st) ts = Some p1 ->
  read_from LStart (PObjStart st) (password_part k password +:+ a +:+ b) = read_from l1 p1 b.
Proof.
  intros Hk Hp Ha Hp1. assert (Hs : forall p, parse_step p (TStr k') = Some (PColon (secret k password) k' st) ->
    read_from LStart p (a +:+ b) = read_from l1 p1 b).
  { intros p Hpk. eapply read_chunk; [exact Ha|]. simpl. by rewrite Hpk. }
  destruct (String.eqb_spec password "") as [->|Hne]; [by apply Hs|].
  rewrite <- (Hs (PKey (secret k password) st)) by done.
  pose proof (read_secret [] st k password (a +:+ b) Hk Hp) as H. rewrite app_nil_l in H. rewrite <- H.
  rewrite password_part_nonempty by done. cbn [cat]. rewrite !sapp_assoc. unfold dquote.
  rewrite (read_chunk LStart (PObjStart st) _ _ [] (LStr "") (PObjStart st)) by done.
  rewrite (read_chunk LStart (PKey [] st) _ _ [] (LStr "") (PKey [] st)) by done.
  rewrite (read_str (PObjStart st) k _ "" _ [] LStart (PColon [] k st)) by done.
  by rewrite (read_str (PKey [] st) k _ "" _ [] LStart (PColon [] k st)).
Qed.

Lemma read_tag l st tagLength alg b : int_bound tagLength ->
  read_from LStart (PKey l st) (tag_part tagLength alg +:+ b) = read_from LStart (PKey (l ++ tag_member tagLength alg) st) b.
Proof.
  intros Ht. unfold tag_part, tag_member. destruct (negb _ && _); [|by rewrite app_nil_r].
  cbn [cat]. rewrite !sapp_assoc, sapp_nil.
  rewrite (read_chunk LStart (PKey l st) _ _ [TStr "tagLength"; TColon] LStart (PValue (FObj l "tagLength" :: st))) by done.
  rewrite (lexes_reads _ (JNum tagLength 0) (lexes_int tagLength Ht)) by (simpl; tauto).
  by rewrite (read_chunk LStart _ _ _ [TComma] LStart (PKey (l ++ [("tagLength", JNum tagLength 0)]) st)).
Qed.

Lemma reads_null : reads "null" JNull.
Proof. by apply (reads_marshal JNull). Qed.

Lemma reads_nullable s : plain s = true -> reads (quoted_or_null s) (if String.eqb s "" then JNull else JStr s).
Proof. intros Hs. unfold quoted_or_null. destruct (String.eqb s ""); [apply reads_null | by apply reads_quoted]. Qed.

Definition opt_plain (s : option string) : bool := plain (default "" s).

Lemma reads_pointer s : opt_plain s = true -> reads (ptr_or_null s) (ptr_json s).
Proof. intros Hs. destruct s as [s|]; [by apply reads_quoted | apply reads_null]. Qed.

Lemma read_signature l st alg b :
  read_from LStart (PAfterObj l st) (signature_type alg +:+ b) =
  read_from LStart (PAfterObj (l ++ signature_member alg) st) b.
Proof.
  unfold signature_type, signature_member. destruct (String.eqb alg "EDDSA"); [|by rewrite app_nil_r].
  by rewrite (read_chunk LStart _ _ _ [TComma; TStr "signatureType"; TColon; TStr "RAW"] LStart
    (PAfterObj (l ++ [str "signatureType" "RAW"]) st)).
Qed.

(** One piece at a time: a known one, text inside a string with the piece that closes it,
    an optional member, or a value. *)
Local Ltac states ts p k :=
  let p1 := eval lazy -[app secret tag_member signature_member ptr_json policy_json String.eqb] in (parse_run p ts) in
  match p1 with Some ?p1 => k p1 end.

Local Ltac piece :=
  match goal with
  | |- context [read_from (LStr "") ?p (?s +:+ ?a +:+ ?b)] =>
      is_var s;
      let a' := eval lazy in a in
      match a' with String _ ?rest =>
        let r := eval lazy in (lex_run LStart rest) in
        match r with Some (?ts, ?l1) =>
          states (TStr s :: ts) p ltac:(fun p1 =>
            rewrite (read_str p s a rest b ts l1 p1) by (first [assumption | reflexivity])) end end
  | |- context [read_from LStart (PKey ?l ?st) (password_part ?k ?s +:+ ?b)] =>
      rewrite (read_secret l st k s b) by (first [assumption | reflexivity])
  | |- context [read_from LStart (PObjStart ?st) (password_part ?k ?s +:+ ?a +:+ ?b)] =>
      let r := eval lazy in (lex_run LStart a) in
      match r with Some (TStr ?k' :: ?ts, ?l1) =>
        states ts (PColon (secret k s) k' st) ltac:(fun p1 =>
          rewrite (read_secret_first st k s a b k' ts l1 p1) by (first [assumption | reflexivity])) end
  | |- context [read_from LStart (PAfterObj ?l ?st) (signature_type ?alg +:+ ?b)] => rewrite (read_signature l st alg b)
  | H : reads ?t ?v |- context [read_from LStart (PValue ?st) (?t +:+ ?b)] =>
      rewrite (H st b) by (simpl; tauto); cbn [complete]
  | |- context [read_from LStart (PKey ?l ?st) (tag_part ?n ?alg +:+ ?b)] =>
      rewrite (read_tag l st n alg b) by assumption
  | |- context [read_from LStart (PValue _) (quoted_or_null _ +:+ _)] =>
      rewrite reads_nullable by (first [assumption | simpl; tauto]); cbn [complete]
  | |- context [read_from LStart (PValue _) (ptr_or_null _ +:+ _)] =>
      rewrite reads_pointer by (first [assumption | simpl; tauto]); cbn [complete]
  | |- context [read_from ?l ?p (?a +:+ ?b)] =>
      let r := eval lazy in (lex_run l a) in
      match r with Some (?ts, ?l1) =>
        states ts p ltac:(fun p1 => rewrite (read_chunk l p a b ts l1 p1) by reflexivity) end
  end.

Local Ltac read_body := rewrite parse_read; cbn [cat]; repeat piece; rewrite read_end, <- ?app_assoc; reflexivity.

(** ** The bodies are the objects *)

Lemma encrypt_body_read (label password payload alg : string) (tagLength : Z) (aad : string) :
  plain label = true -> plain payload = true -> plain alg = true -> plain aad = true -> is_ascii password = true -> int_bound tagLength ->
  parse (encrypt_body label password payload alg tagLength aad) = Some (encrypt_object label password payload alg tagLength aad).
Proof. intros. unfold encrypt_body. read_body. Qed.

Lemma decrypt_sync_body_read (label password ciphertext vector alg : string) (tagLength : Z) (aad : string) :
  plain label = true -> plain ciphertext = true -> plain vector = true -> plain alg = true -> plain aad = true -> is_ascii password = true -> int_bound tagLength ->
  parse (decrypt_sync_body label password ciphertext vector alg tagLength aad) = Some (decrypt_sync_object label password ciphertext vector alg tagLength aad).
Proof. intros. unfold decrypt_sync_body. read_body. Qed.

Lemma decrypt_request_read (ciphertext label metaData : string) (metaDataSignature : option string) (password vector alg : string) (tagLength : Z) (aad : string) :
  plain ciphertext = true -> plain label = true -> plain metaData = true -> plain vector = true -> plain alg = true -> plain aad = true -> is_ascii password = true -> opt_plain metaDataSignature = true -> int_bound tagLength ->
  parse (decrypt_request ciphertext label metaData metaDataSignature password vector alg tagLength aad) = Some (decrypt_request_object ciphertext label metaData metaDataSignature password vector alg tagLength aad).
Proof. intros. unfold decrypt_request. read_body. Qed.

Lemma sign_sync_body_read (label password payload payloadType alg : string) :
  plain label = true -> plain payload = true -> plain payloadType = true -> plain alg = true -> is_ascii password = true ->
  parse (sign_sync_body label password payload payloadType alg) = Some (sign_sync_object label password payload payloadType alg).
Proof. intros. unfold sign_sync_body. read_body. Qed.

Lemma sign_request_read (label password payload payloadType alg metaData : string) (metaDataSignature : option string) :
  plain label = true -> plain payload = true -> plain payloadType = true -> plain alg = true -> plain metaData = true -> is_ascii password = true -> opt_plain metaDataSignature = true ->
  parse (sign_request label password payload payloadType alg metaData metaDataSignature) = Some (sign_request_object label password payload payloadType alg metaData metaDataSignature).
Proof. intros. unfold sign_request. read_body. Qed.

Lemma verify_body_read (label password payload alg signature : string) :
  plain label = true -> plain payload = true -> plain alg = true -> plain signature = true -> is_ascii password = true ->
  parse (verify_body label password payload alg signature) = Some (verify_object label password payload alg signature).
Proof. intros. unfold verify_body. read_body. Qed.

Lemma wrap_body_read (wrapKeyName wrapKeyPassword keyToBeWrapped keyToBeWrappedPassword wrapMethod : string) :
  plain wrapKeyName = true -> plain keyToBeWrapped = true -> plain wrapMethod = true -> is_ascii wrapKeyPassword = true -> is_ascii keyToBeWrappedPassword = true ->
  parse (wrap_body wrapKeyName wrapKeyPassword keyToBeWrapped keyToBeWrappedPassword wrapMethod) = Some (wrap_object wrapKeyName wrapKeyPassword keyToBeWrapped keyToBeWrappedPassword wrapMethod).
Proof. intros. unfold wrap_body. read_body. Qed.

Lemma get_key_body_read (label password : string) :
  plain label = true -> is_ascii password = true ->
  parse (get_key_body label password) = Some (get_key_object label password).
Proof. intros. unfold get_key_body. read_body. Qed.

Lemma block_sync_body_read (label password : string) :
  plain label = true -> is_ascii password = true ->
  parse (block_sync_body label password) = Some (block_sync_object label password).
Proof. intros. unfold block_sync_body. read_body. Qed.

Lemma block_request_read (label password metaData : string) (metaDataSignature : option string) :
  plain label = true -> plain metaData = true -> is_ascii password = true -> opt_plain metaDataSignature = true ->
  parse (block_request label password metaData metaDataSignature) = Some (block_request_object label password metaData metaDataSignature).
Proof. intros. unfold block_request. read_body. Qed.

Lemma modify_request_read (label password : string) (policy : Policy) (metaData : string) (metaDataSignature : option string) :
  plain label = true -> plain metaData = true -> is_ascii password = true -> opt_plain metaDataSignature = true ->
  policy_ok policy = true ->
  parse (modify_request label password policy metaData metaDataSignature) =
  Some (modify_request_object label password policy metaData metaDataSignature).
Proof.
  intros. assert (Hp : reads (marshal (policy_json policy)) (policy_json policy)) by (by apply reads_marshal, policy_codec).
  unfold modify_request. cbn [cat]. rewrite !sapp_assoc. read_body.
Qed.

Lemma decrypt_body_read request signature r s : parse request = Some r -> parse signature = Some s ->
  parse (decrypt_body request signature) = Some (signed_object "decryptRequest" r s).
Proof. intros Hr%parse_reads Hs%parse_reads. unfold decrypt_body. read_body. Qed.

Lemma sign_body_read request signature r s : parse request = Some r -> parse signature = Some s ->
  parse (sign_body request signature) = Some (signed_object "signRequest" r s).
Proof. intros Hr%parse_reads Hs%parse_reads. unfold sign_body. read_body. Qed.

(** ** What is signed is what is sent *)

Lemma all_chars_get P s n c : all_chars P s = true -> String.get n s = Some c -> P c = true.
Proof.
  revert n. induction s as [|d s IH]; intros n; [by destruct n|]. simpl. intros [Hd Hs]%andb_true_iff.
  destruct n as [|n]; simpl; [by intros [= ->] | by apply IH].
Qed.

Lemma b64_char_plain v : plain_char (b64_char StdEncoding v) = true.
Proof.
  unfold b64_char. destruct (String.get _ _) as [c|] eqn:E; [|done]. simpl.
  by apply (all_chars_get plain_char _ _ _ (eq_refl : plain (b64_alphabet StdEncoding) = true) E).
Qed.

Lemma b64_plain l : plain (b64 l) = true.
Proof.
  unfold b64, b64_EncodeToString, string_of_bytes.
  induction l as [|a|a b|a b c l IH] using list_ind3; [done|..]; cbn [b64_encode b64_pad StdEncoding app];
    repeat (cbn [String.string_of_list_ascii all_chars]; rewrite ?b64_char_plain; cbn [andb]); done.
Qed.

Section signed.
Context `{Pki} `{Tsb}.

(** The signature over a request: null without a key pair, else made over a text of the
    same object. *)
Definition signature_for (c : TSBClient) (v sig : json) : Prop :=
  match kp_PrivateKey (ApplicationKeyPair (Auth c)), kp_PublicKey (ApplicationKeyPair (Auth c)) with
  | Some _, Some pub => exists t key raw,
      parse t = Some v /\ GetApplicationPrivateKey c = Ret (Some key) /\
      SignPKCS1v15 key (Sum256 (bytes_of_string t)) = Ret raw /\ sig = signature_object (b64 raw) pub
  | _, _ => sig = JNull
  end.

Definition plain_public (c : TSBClient) : bool := opt_plain (kp_PublicKey (ApplicationKeyPair (Auth c))).

Lemma GenerateRequestSignature_reads c request v : plain_public c = true -> parse request = Some v ->
  GenerateRequestSignature c request = Panic \/
  exists t sig, GenerateRequestSignature c request = Ret t /\ parse t = Some sig /\ signature_for c v sig.
Proof.
  intros Hpub Hv. unfold GenerateRequestSignature, signature_for, plain_public in *.
  destruct (ApplicationKeyPair (Auth c)) as [[k|] [pub|]] eqn:Ek; cbn [kp_PrivateKey kp_PublicKey] in *;
    try (right; exists "null", JNull; done).
  unfold MinifyJson. destruct (compact_parse request v Hv) as (t & -> & Ht). cbn [mbind outcome_bind].
  unfold SignData. rewrite Ek. destruct (GetApplicationPrivateKey c) as [[key|]|e|] eqn:Eg; cbn [mbind outcome_bind]; auto.
  destruct (SignPKCS1v15 key (Sum256 (bytes_of_string t))) as [raw|e|] eqn:Es; cbn [mbind outcome_bind]; auto.
  right. eexists _, (signature_object (b64 raw) pub). split; [reflexivity|]. split; [|by exists t, key, raw].
  pose proof (b64_plain raw) as Hraw. unfold opt_plain in Hpub. cbn [default] in Hpub. fold (b64 raw).
  revert Hraw. generalize (b64 raw). intros sg Hraw. read_body.
Qed.

(** A signed request for the object [v]. *)
Definition signed_request (c : TSBClient) (name : string) (v : json) (jsonStr : string) : Prop :=
  exists sig, parse jsonStr = Some (signed_object name v sig) /\ signature_for c v sig.

Lemma signed_text_spec name request v body (s : hsm) : plain_public (h_client s) = true -> parse request = Some v ->
  (forall t sig, parse t = Some sig -> parse (body request t) = Some (signed_object name v sig)) ->
  signed_text request body s = (Panic, s) \/
  exists jsonStr, signed_text request body s = (Ret jsonStr, s) /\ signed_request (h_client s) name v jsonStr.
Proof.
  intros Hpub Hv Hbody. unfold signed_text. rewrite client_bind, lift_bind.
  destruct (GenerateRequestSignature_reads (h_client s) request v Hpub Hv) as [->|(t & sig & -> & Ht & Hs)]; [by left|right].
  unfold MinifyJson. destruct (compact_parse _ _ (Hbody t sig Ht)) as (u & -> & Hu). exists u. split; [done|].
  by exists sig.
Qed.

(** The signature of the metadata.  With a key pair it is one made over the metadata with
    the private key, and left out (null in the request) only where signing them fails;
    without a key pair there is none. *)
Definition metadata_signature (c : TSBClient) (text : string) (sig : option string) : Prop :=
  match kp_PrivateKey (ApplicationKeyPair (Auth c)), kp_PublicKey (ApplicationKeyPair (Auth c)) with
  | Some _, Some _ => exists key, GetApplicationPrivateKey c = Ret (Some key) /\
      match sig with
      | Some t => exists raw, SignPKCS1v15 key (Sum256 (bytes_of_string text)) = Ret raw /\ t = b64 raw
      | None => exists e, SignPKCS1v15 key (Sum256 (bytes_of_string text)) = Fail e
      end
  | _, _ => sig = None
  end.

Lemma GetApplicationPrivateKey_fails c e : GetApplicationPrivateKey c <> Fail e.
Proof.
  unfold GetApplicationPrivateKey, block_bytes. by repeat (case_match; cbn [mbind outcome_bind]; simplify_eq).
Qed.

Lemma SignData_spec c text :
  match SignData c text with
  | Ret t => metadata_signature c text (Some t) /\ plain t = true
  | Fail _ => metadata_signature c text None
  | Panic => True
  end.
Proof.
  unfold SignData, metadata_signature.
  destruct (ApplicationKeyPair (Auth c)) as [[k|] [pub|]]; cbn [kp_PrivateKey kp_PublicKey]; try done.
  destruct (GetApplicationPrivateKey c) as [[key|]|e|] eqn:Eg; cbn [mbind outcome_bind]; try done.
  - destruct (SignPKCS1v15 key _) as [raw|e|] eqn:Es; cbn [mbind outcome_bind]; [|by eauto|done].
    split; [by eauto|apply b64_plain].
  - by apply GetApplicationPrivateKey_fails in Eg.
Qed.

Lemma world_bind {A} (f : tsb_world -> prog hsm A) s : (world ≫= f) s = f (h_world s) s.
Proof. done. Qed.

Lemma PrepareMetaData_spec requestType additional custom (s : hsm) :
  let text := metadata_json (Now (h_world s)) (AppName (Auth (h_client s))) requestType additional custom in
  c_PrepareMetaData requestType additional custom s = (Panic, s) \/
  exists sig, c_PrepareMetaData requestType additional custom s = (Ret (b64 (bytes_of_string text), sig), s) /\
    metadata_signature (h_client s) text sig /\ opt_plain sig = true.
Proof.
  intros text. unfold c_PrepareMetaData. rewrite client_bind, world_bind. fold text. unfold lift.
  pose proof (SignData_spec (h_client s) text) as Hs.
  destruct (SignData (h_client s) text) as [t|e|]; [right|right|by left].
  - exists (Some t). destruct Hs. split_and!; done.
  - by exists None.
Qed.

(** C29: what the HSM is asked to decrypt is what is signed.  The call panics, or the text
    handed to the HTTP exchange is the intended request with the signature member: with an
    application key pair a signature made with the private key over a text of the same
    request, without one null. The metadata in the request are those of the call (time,
    application, type and the caller's), and metaDataSignature is, with a key pair, a
    signature over these metadata, null only where signing them fails, and without a key
    pair null. Conditions: label, ciphertext, initialization vector, algorithm, additional
    data and public key without quotation marks, backslashes, control and non-ASCII
    characters (they are pasted into the body as they are), a password of ASCII, any tag
    length an int holds. *)
Theorem AsyncDecrypt_signed label password ciphertext vector alg tagLength aad custom (s : hsm) :
  let metaData := metadata_json (Now (h_world s)) (AppName (Auth (h_client s))) "Decrypt" ∅ custom in
  plain_public (h_client s) = true -> plain label = true -> plain ciphertext = true -> plain vector = true ->
  plain alg = true -> plain aad = true -> is_ascii password = true -> int_bound tagLength ->
  AsyncDecrypt label password ciphertext vector alg tagLength aad custom s = (Panic, s) \/
  exists jsonStr sig, metadata_signature (h_client s) metaData sig /\
    signed_request (h_client s) "decryptRequest"
      (decrypt_request_object ciphertext label (b64 (bytes_of_string metaData)) sig password vector alg tagLength aad) jsonStr /\
    AsyncDecrypt label password ciphertext vector alg tagLength aad custom s =
      (r ← call "POST" "/v1/decrypt" jsonStr KeyOperationTokenName; lift (request_id "decryptRequestId" r)) s.
Proof.
  intros metaData Hpub Hlabel Hct Hv Halg Haad Hp Ht. unfold AsyncDecrypt.
  destruct (PrepareMetaData_spec "Decrypt" ∅ custom s) as [Hm|(sig & Hm & Hsig & Hplain)].
  { left. unfold mbind at 1, prog_bind at 1. by rewrite Hm. }
  rewrite (pbind_run _ _ _ _ _ Hm). cbv beta iota zeta. fold metaData.
  pose proof (decrypt_request_read ciphertext label (b64 (bytes_of_string metaData)) sig password vector alg tagLength aad
    Hct Hlabel (b64_plain _) Hv Halg Haad Hp Hplain Ht) as Hr.
  destruct (compact_parse _ _ Hr) as (t & Hc & Htv). unfold MinifyJson. rewrite Hc, lift_bind.
  destruct (signed_text_spec "decryptRequest" _ _ (fun _ => decrypt_body t) s Hpub Hr) as [He|(jsonStr & He & Hj)].
  { intros u sg Hu. by apply decrypt_body_read. }
  - left. unfold mbind at 1, prog_bind at 1. by rewrite He.
  - right. exists jsonStr, sig. split_and!; [done..|]. by rewrite (pbind_run _ _ _ _ _ He).
Qed.

(** The same for what it is asked to sign. *)
Theorem AsyncSign_signed label password payload payloadType alg custom (s : hsm) :
  let metaData := metadata_json (Now (h_world s)) (AppName (Auth (h_client s))) "Sign" ∅ custom in
  plain_public (h_client s) = true -> plain label = true -> plain payload = true -> plain payloadType = true ->
  plain alg = true -> is_ascii password = true ->
  AsyncSign label password payload payloadType alg custom s = (Panic, s) \/
  exists jsonStr sig, metadata_signature (h_client s) metaData sig /\
    signed_request (h_client s) "signRequest"
      (sign_request_object label password payload payloadType alg (b64 (bytes_of_string metaData)) sig) jsonStr /\
    AsyncSign label password payload payloadType alg custom s =
      (r ← call "POST" "/v1/sign" jsonStr KeyOperationTokenName; lift (request_id "signRequestId" r)) s.
Proof.
  intros metaData Hpub Hlabel Hpl Hty Halg Hp. unfold AsyncSign.
  destruct (PrepareMetaData_spec "Sign" ∅ custom s) as [Hm|(sig & Hm & Hsig & Hplain)].
  { left. unfold mbind at 1, prog_bind at 1. by rewrite Hm. }
  rewrite (pbind_run _ _ _ _ _ Hm). cbv beta iota zeta. fold metaData.
  pose proof (sign_request_read label password payload payloadType alg (b64 (bytes_of_string metaData)) sig
    Hlabel Hpl Hty Halg (b64_plain _) Hp Hplain) as Hr.
  destruct (signed_text_spec "signRequest" _ _ sign_body s Hpub Hr) as [He|(jsonStr & He & Hj)].
  { intros u sg Hu. by apply sign_body_read. }
  - left. unfold mbind at 1, prog_bind at 1. by rewrite He.
  - right. exists jsonStr, sig. split_and!; [done..|]. by rewrite (pbind_run _ _ _ _ _ He).
Qed.
End signed.

(** ** Properties *)

(** C28: on texts that need no escaping, the body of a request is the JSON object it is
    meant to be, with the password as a list of characters where there is one: for
    encryption, synchronous decryption and signing (of any payload type), verification,
    wrapping, blocking and the attributes of a key, the metadata requests to decrypt and
    sign, and the signed envelopes around them. The conditions: labels, payload, vector,
    algorithm, additional data, signature, payload type and metadata without quotation
    marks, backslashes, control and non-ASCII characters (label_injection shows that a
    label with a quotation mark makes another object), passwords of ASCII characters, and
    any tag length an int holds. *)
Theorem request_bodies_mean label password other otherPassword payload payloadType vector alg aad signature metaData
    metaDataSignature tagLength :
  forallb (fun s => plain s) [label; other; payload; payloadType; vector; alg; aad; signature; metaData] = true ->
  opt_plain metaDataSignature = true -> is_ascii password = true -> is_ascii otherPassword = true -> int_bound tagLength ->
  parse (encrypt_body label password payload alg tagLength aad) =
    Some (encrypt_object label password payload alg tagLength aad) /\
  parse (decrypt_sync_body label password payload vector alg tagLength aad) =
    Some (decrypt_sync_object label password payload vector alg tagLength aad) /\
  parse (sign_sync_body label password payload payloadType alg) =
    Some (sign_sync_object label password payload payloadType alg) /\
  parse (verify_body label password payload alg signature) = Some (verify_object label password payload alg signature) /\
  parse (wrap_body label password other otherPassword alg) = Some (wrap_object label password other otherPassword alg) /\
  parse (block_sync_body label password) = Some (block_sync_object label password) /\
  parse (get_key_body label password) = Some (get_key_object label password) /\
  parse (decrypt_request payload label metaData metaDataSignature password vector alg tagLength aad) =
    Some (decrypt_request_object payload label metaData metaDataSignature password vector alg tagLength aad) /\
  parse (sign_request label password payload payloadType alg metaData metaDataSignature) =
    Some (sign_request_object label password payload payloadType alg metaData metaDataSignature) /\
  forall request sig r s, parse request = Some r -> parse sig = Some s ->
    parse (decrypt_body request sig) = Some (signed_object "decryptRequest" r s) /\
    parse (sign_body request sig) = Some (signed_object "signRequest" r s).
Proof.
  cbn [forallb]. rewrite !andb_true_iff. intros (Hl & Ho & Hpl & Hty & Hv & Ha & Had & Hs & Hm & _) Hms Hp Hop Ht. split_and!.
  - by apply encrypt_body_read.
  - by apply decrypt_sync_body_read.
  - by apply sign_sync_body_read.
  - by apply verify_body_read.
  - by apply wrap_body_read.
  - by apply block_sync_body_read.
  - by apply get_key_body_read.
  - by apply decrypt_request_read.
  - by apply sign_request_read.
  - intros. split; [by apply decrypt_body_read | by apply sign_body_read].
Qed.

Lemma request_bodies_mean_witness :
  parse (encrypt_body "key-1" (q "p'w") "cGxhaW4=" "AES_GCM" 128 "") =
  Some (encrypt_object "key-1" (q "p'w") "cGxhaW4=" "AES_GCM" 128 "").
Proof.
  destruct (request_bodies_mean "key-1" (q "p'w") "key-2" "" "cGxhaW4=" "UNSPECIFIED" "" "AES_GCM" "" "c2ln" "bWV0YQ==" None 128)
    as [H _]; [vm_compute; reflexivity | reflexivity | vm_compute; reflexivity | vm_compute; reflexivity | split; reflexivity |].
  exact H.
Defined.

(** A name with a quotation mark is not escaped: this label asks for another key. *)
Example label_injection :
  parse (encrypt_body (q "a','encryptKeyName':'b") "" "cGxhaW4=" "RSA" (-1) "") =
  Some (JObj [("encryptRequest", JObj [str "payload" "cGxhaW4="; str "encryptKeyName" "a"; str "encryptKeyName" "b";
    str "cipherAlgorithm" "RSA"; ("additionalAuthenticationData", JNull)])]).
Proof. vm_compute. reflexivity. Qed.

Lemma read_str_stuck p s a rest b ts l1 : plain s = true -> a = String "034" rest ->
  lex_run LStart rest = Some (ts, l1) -> parse_run p (TStr s :: ts) = None ->
  read_from (LStr "") p (s +:+ a +:+ b) = None.
Proof.
  intros Hs -> Hl Hp. rewrite <- sapp_assoc. unfold read_from.
  rewrite (lex_from_app (LStr "") (s +:+ String "034" rest) b (TStr s :: ts) l1), <- read_tokens; [by rewrite Hp|].
  rewrite lex_run_app, lex_plain by done. simpl. rewrite coerce_ascii by (by apply plain_ascii). by rewrite Hl.
Qed.

(** the request that imports a certificate is no JSON, whatever the label and the
    certificate: a comma is left before the closing brace. *)
Theorem import_certificate_malformed label certificate :
  plain label = true -> plain certificate = true -> parse (import_certificate_body label certificate) = None.
Proof.
  intros. unfold import_certificate_body. rewrite parse_read. cbn [cat]. do 2 piece.
  match goal with |- context [read_from (LStr "") ?p (?s +:+ ?a +:+ ?b)] =>
    let a' := eval lazy in a in
    match a' with String _ ?rest =>
      let r := eval lazy in (lex_run LStart rest) in
      match r with Some (?ts, ?l1) =>
        rewrite (read_str_stuck p s a rest b ts l1) by (first [assumption | reflexivity]) end end end.
  reflexivity.
Qed.

Lemma import_certificate_malformed_witness : parse (import_certificate_body "ca" "TUlJ") = None.
Proof. apply import_certificate_malformed; vm_compute; reflexivity. Defined.

(** A client with a key pair, its key being the bytes of its PEM text. *)
Definition signing_client : TSBClient :=
  NewTSBClient "https://hsm" (mkAuthStruct "app" "NONE" "" "" "" "" "" "" (mkApiKeyTypes [] [] [] [] [])
    (mkKeyPair (Some "a2V5") (Some "cHVi")) (mkApiKeyTypesRetry 0 0 0 0 0)).

Definition quiet_server : Tsb :=
  server_tsb (fun _ (w : unit) => (mkResponse 201 (Ret (q "{'decryptRequestId': '7'}")), w)).

Definition signing_state : @hsm quiet_server := @mkHsm quiet_server signing_client (0, tt).

Lemma AsyncDecrypt_signed_witness :
  exists jsonStr sig,
    @signed_request text_pki quiet_server signing_client "decryptRequest"
      (decrypt_request_object "Y3Q=" "key" (b64 (bytes_of_string
        (metadata_json (mkDate 2025 1 2 3 4 5) "app" "Decrypt" ∅ {["app" := "unseal"]}))) sig "" "" "RSA" (-1) "") jsonStr.
Proof.
  destruct (@AsyncDecrypt_signed text_pki quiet_server "key" "" "Y3Q=" "" "RSA" (-1) "" {["app" := "unseal"]} signing_state)
    as [H|(jsonStr & sig & _ & H & _)].
  1-7: vm_compute; reflexivity.
  - split; reflexivity.
  - exfalso. vm_compute in H. discriminate H.
  - exists jsonStr, sig. exact H.
Defined.
