(* ===== verification/SecurosysKms.v ===== *)
(** * The Securosys HSM keystore, keys, ciphers, signers and verifiers

    kms/securosyshsm: keystore.go, key.go, cipher.go, signer.go and verifier.go, over
    the client of SecurosysClient.v.  A key is a value with the client's world beside
    it; a cipher, a signer and a verifier are objects with a buffer.  A context is asked
    for its error where the code asks it.  The loops that wait for the HSM have no bound
    of their own: they take the number of rounds they may run, and answer [None] when it
    is used up. *)
From S2P Require Import Prelude GoText GoEncoding GoJson SecurosysHelpers SecurosysClient.

Local Open Scope Z_scope.

(** ** Data of the kms package *)

Inductive KeyType := KeyType_RSA_Private | KeyType_AES | KeyType_EC_Private | KeyType_ED_Private
| KeyType_Generic_Secret | KeyType_Unknown | KeyType_Other (n : Z).

#[export] Instance KeyType_eq_dec : EqDecision KeyType.
Proof. solve_decision. Defined.

Inductive CipherOperation := CipherOp_Encrypt | CipherOp_Decrypt.

Record kms_KeyAttributes := mkKmsKeyAttributes {
  kk_ProviderSpecific : option (list (string * json));
  kk_KeyType : KeyType;
  kk_Name : string;
  kk_BitKeyLen : Z;
  kk_Curve : Curve;
  kk_IsSensitive : bool; kk_IsDerivable : bool; kk_IsExportable : bool; kk_IsRemovable : bool; kk_IsTrusted : bool;
  kk_CanDecrypt : bool; kk_CanEncrypt : bool; kk_CanDerive : bool; kk_CanSign : bool; kk_CanVerify : bool;
  kk_CanUnwrap : bool; kk_CanWrap : bool;
}.

(** The dynamic value of [CipherParameters.Parameters]: nil, a pointer to the parameters
    of AES-GCM that may be nil, or a value of another type. *)
Record AESGCMCipherParameters := mkAESGCM { gcm_AAD : slice; gcm_Nonce : slice }.

Inductive cipher_parameters := ParamNil | ParamGcm (p : option AESGCMCipherParameters) | ParamOther.

(** ** key.go *)

Record key := mkKey { k_key : KeyAttributes; k_password : string }.

Inductive kms_Key :=
| SecretKey (k : key)
| PublicKey (k : key) (publicKeyString : string)
| PrivateKey (k : key) (publicKeyString : string).

Definition inner_key (k : kms_Key) : key :=
  match k with SecretKey k | PublicKey k _ | PrivateKey k _ => k end.

Definition key_IsAsymmetric (k : key) : bool := negb (String.eqb (ka_PublicKey (k_key k)) "").

Definition key_Resolved (k : key) : bool := true.

Definition key_Resolve (k : key) : outcome key := Ret k.

(** The receiver is a value: the password is set on a copy. *)
Definition key_Login (credentials : option string) (k : key) : key := k.

(** So it is cleared. *)
Definition key_Close (k : key) : key := k.

Definition key_GetType (k : key) : KeyType :=
  let a := ka_Algorithm (k_key k) in
  if String.eqb a "RSA" then KeyType_RSA_Private
  else if String.eqb a "AES" then KeyType_AES
  else if String.eqb a "EC" then KeyType_EC_Private
  else if String.eqb a "ED" then KeyType_ED_Private
  else KeyType_Unknown.

Definition key_GetProtectedKeyAttributes (k : key) : outcome unit := Panic.

Definition key_GetId (k : key) : string := default (ka_Label (k_key k)) (ka_Id (k_key k)).

Definition key_GetName (k : key) : string := ka_Label (k_key k).

Definition key_GetGroupId (k : key) : string := "".

Definition key_IsPersistent (k : key) : outcome bool := Panic.

Definition attribute (name : string) (k : key) : bool := default false (ka_Attributes (k_key k) !! name).

Definition key_IsSensitive (k : key) : bool := attribute "sensitive" k.

(** [uint32] of a float64, for values it can hold. *)
Definition key_GetLength (k : key) : Z :=
  let (m, e) := ka_KeySize (k_key k) in
  (if 0 <=? e then m * 10 ^ e else Z.quot m (10 ^ (- e))) mod 2 ^ 32.

Definition key_GetAlgorithm (k : key) : string :=
  if String.eqb (ka_CurveOid (k_key k)) "" then ka_AlgorithmOid (k_key k) else ka_CurveOid (k_key k).

(** A struct printed as JSON and read back as a map. *)
Definition convertPolicyToMap (policy : option Policy) : option (list (string * json)) :=
  match policy with
  | None => None
  | Some p => unmarshal_map (marshal (policy_json p))
  end.

Definition key_GetKeyAttributes (k : key) : kms_KeyAttributes :=
  mkKmsKeyAttributes (convertPolicyToMap (ka_Policy (k_key k))) KeyType_Unknown "" 0
    (MapStringCurverToCurve (ka_CurveOid (k_key k)))
    (attribute "sensitive" k) (attribute "derive" k) (attribute "extractable" k) (attribute "destroyable" k) false
    (attribute "decrypt" k) (attribute "encrypt" k) (attribute "derive" k) (attribute "sign" k) (attribute "sign" k)
    (attribute "unwrap" k) (attribute "unwrap" k).

(** The public half of a private key is the private key. *)
Definition GetPublic (k : kms_Key) : option kms_Key :=
  match k with SecretKey _ => None | k => Some k end.

(** Nil, without an error. *)
Definition ExportComponentPublic (k : kms_Key) : outcome (option unit) := Ret None.

(** A public key is parsed where it is not PEM; a private one is not. *)
Definition ExportPublic `{Pki} (k : kms_Key) : outcome bytes :=
  let export text (check : bool) :=
    if String.eqb text "" then Fail (ErrLeaf "public key string is empty")
    else match pem_Decode text with
    | Some (_, b) => Ret b
    | None =>
        b ← map_err (wrapf "failed to decode base64 public key") (b64_DecodeString StdEncoding text);
        if check then match ParsePKIXPublicKey b with
                      | Some _ => Ret b
                      | None => Fail (wrapf "invalid ASN.1 public key" (ErrLeaf "x509"))
                      end
        else Ret b
    end in
  match k with
  | SecretKey _ => Panic       (* has no such method *)
  | PublicKey _ text => export text true
  | PrivateKey _ text => export text false
  end.

Section keystore.
Context `{Pki} `{Tsb}.

(** What a context answers at a moment, and the key it carries. *)
Record context := mkContext { ctx_Err : tsb_world -> option error; ctx_Value : option kms_Key }.

Definition Background : context := mkContext (fun _ => None) None.

Definition with_key (k : kms_Key) (ctx : context) : context := mkContext (ctx_Err ctx) (Some k).

Definition PrivateKeyFromContext (ctx : context) : option (key * string) :=
  match ctx_Value ctx with Some (PrivateKey k s) => Some (k, s) | _ => None end.

Definition PublicKeyFromContext (ctx : context) : option (key * string) :=
  match ctx_Value ctx with Some (PublicKey k s) => Some (k, s) | _ => None end.

Definition SecretKeyFromContext (ctx : context) : option key :=
  match ctx_Value ctx with Some (SecretKey k) => Some k | _ => None end.

(** [select { case <-ctx.Done(): return ctx.Err() ... }]. *)
Definition check_ctx (ctx : context) : prog hsm unit := w ← world; lift (of_err (ctx_Err ctx w)).

(** ** keystore.go *)

Record keyStore := mkKeyStore { ks_closed : bool; ks_hsm : hsm }.

Definition in_hsm {A} (m : prog hsm A) : prog keyStore A := zoom ks_hsm (fun h s => mkKeyStore (ks_closed s) h) m.

Definition ks_Close : prog keyStore unit := modify (fun s => mkKeyStore true (ks_hsm s)).

Definition ks_Login : prog keyStore unit := modify (fun s => mkKeyStore false (ks_hsm s)).

Definition IsConnectionClosed (closed : bool) : outcome unit :=
  if closed then Fail (ErrLeaf "keystore already closed") else Ret tt.

(** A key without a public half is a secret key. *)
Definition key_of (getKey : KeyAttributes) (password : string) : kms_Key :=
  if String.eqb (ka_PublicKey getKey) "" then SecretKey (mkKey getKey password)
  else PrivateKey (mkKey getKey password) (ka_PublicKey getKey).

Definition listed_algorithm (a : string) : bool :=
  String.eqb a "ED" || String.eqb a "RSA" || String.eqb a "AES" || String.eqb a "EC".

(** The loop of ListKeys: a key that cannot be read is skipped; when the context is done
    the keys so far are returned beside its error. *)
Fixpoint list_keys (ctx : context) (keys : list string) (mappedKeys : list kms_Key) :
    prog hsm (list kms_Key * option error) :=
  match keys with
  | [] => mret (mappedKeys, None)
  | keyLabel :: keys =>
      w ← world;
      match ctx_Err ctx w with
      | Some e => mret (mappedKeys, Some e)
      | None =>
          getKey ← attempt (GetKey keyLabel "");
          match getKey with
          | Panic => lift Panic
          | Fail _ => list_keys ctx keys mappedKeys
          | Ret a => list_keys ctx keys
                       (if listed_algorithm (ka_Algorithm a) then mappedKeys ++ [key_of a ""] else mappedKeys)
          end
      end
  end.

Definition ListKeys (ctx : context) : prog keyStore (list kms_Key * option error) :=
  s ← get;
  _ ← lift (IsConnectionClosed (ks_closed s));
  in_hsm (_ ← check_ctx ctx; keys ← GetKeys; list_keys ctx keys []).

Definition GetKeyById (ctx : context) (keyId : string) : prog hsm kms_Key :=
  _ ← check_ctx ctx; a ← GetKey keyId ""; mret (key_of a "").

Definition GetKeyByName (ctx : context) (keyName : string) : prog hsm kms_Key :=
  _ ← check_ctx ctx; a ← GetKey keyName ""; mret (key_of a "").

Definition GetKeyByAttrs : outcome kms_Key := Fail (ErrLeaf "GetKeyByAttrs is not supported by SecurosysKMS").

Definition GetInfo : outcome unit := Panic.

(** The text of the random bytes is decoded with its error ignored. *)
Definition ks_GenerateRandom (ctx : context) (length_ : Z) : prog hsm bytes :=
  if length_ <? 1 then lift (Fail (ErrLeaf "length must be greater than zero"))
  else
    _ ← check_ctx ctx;
    r ← GenerateRandom length_;
    _ ← lift (of_err (rp_err r));
    match rp_value r with Some text => mret (b64_anyway text) | None => lift Panic end.

Definition attributesMapper (attrs : kms_KeyAttributes) : gmap string bool :=
  {["decrypt" := kk_CanDecrypt attrs; "sign" := kk_CanSign attrs; "unwrap" := kk_CanUnwrap attrs;
    "verify" := kk_CanVerify attrs; "wrap" := kk_CanWrap attrs; "derive" := kk_CanDerive attrs;
    "encrypt" := kk_CanEncrypt attrs; "sensitive" := kk_IsSensitive attrs;
    "extractable" := kk_IsExportable attrs; "destroyable" := kk_IsRemovable attrs]}.

Definition GenerateSecretKey (ctx : context) (attrs : kms_KeyAttributes) : prog hsm kms_Key :=
  _ ← check_ctx ctx;
  keyType ← lift (match kk_KeyType attrs with
                  | KeyType_AES => Ret "AES"
                  | KeyType_Generic_Secret => Fail (ErrLeaf "Generic Secret Key is not yet supported")
                  | _ => Fail (ErrLeaf "Not supported key type")
                  end);
  keyName ← CreateOrUpdateKey (kk_Name attrs) "" (attributesMapper attrs) keyType (kk_BitKeyLen attrs) None "" false;
  newKey ← GetKey keyName "";
  mret (SecretKey (mkKey newKey "")).

Definition PolicyToMap (policy : option Policy) : outcome (option (list (string * json))) :=
  match policy with
  | None => Ret None
  | Some p => match unmarshal_map (marshal (policy_json p)) with Some l => Ret (Some l) | None => Fail ErrJSON end
  end.

(** mapstructure's [Decode] is a parameter. *)
Definition MapToPolicy (Decode : list (string * json) -> outcome Policy) (m : option (list (string * json))) :
    outcome (option Policy) :=
  match m with None => Ret None | Some l => p ← Decode l; Ret (Some p) end.

Definition GenerateKeyPair (Decode : list (string * json) -> outcome Policy) (ctx : context)
    (attrs : kms_KeyAttributes) : prog hsm (kms_Key * kms_Key) :=
  _ ← check_ctx ctx;
  '(keyType, curveOid, keySize) ← lift (match kk_KeyType attrs with
    | KeyType_RSA_Private => Ret ("RSA", "", kk_BitKeyLen attrs)
    | KeyType_EC_Private => Ret ("EC", MapCurveToStringCurve (kk_Curve attrs), 0)
    | KeyType_ED_Private => Ret ("ED", "1.3.101.112", 0)
    | _ => Fail (ErrLeaf "unsupported key type")
    end);
  policy ← lift (MapToPolicy Decode (kk_ProviderSpecific attrs));
  keyName ← CreateOrUpdateKey (kk_Name attrs) "" (attributesMapper attrs) keyType keySize policy curveOid false;
  getKey ← GetKey keyName "";
  let k := mkKey getKey "" in
  mret (PrivateKey k (ka_PublicKey getKey), PublicKey k (ka_PublicKey getKey)).

Definition ks_RemoveKey (ctx : context) (k : kms_Key) : prog hsm unit :=
  _ ← check_ctx ctx; RemoveKey (key_GetName (inner_key k)).

(** The parameters are printed as JSON and read as a configuration, in which a member of
    the wrong kind is left empty. *)
Definition config_of (params : gmap string json) : SecurosysConfig :=
  let l := default [] (parse (marshal (JObj (sorted_entries params))) ≫= members) in
  let f name := string_field name l in
  mkSecurosysConfig (f "auth") (f "bearertoken") (f "username") (f "password") (f "basictoken") (f "certpath")
    (f "keypath") (f "restapi") (f "appName") (f "applicationKeyPair") (f "apiKeys").

(** Work of a client that is given its world. *)
Definition with_client {A} (c : TSBClient) (m : prog hsm A) : prog tsb_world (A * TSBClient) := fun w =>
  let (o, s) := m (mkHsm c w) in (a ← o; Ret (a, h_client s), h_world s).

Definition NewKeyStore (params : option (gmap string json)) : prog tsb_world TSBClient :=
  params ← lift (match params with Some p => Ret p | None => Fail (ErrLeaf "params parameters required") end);
  c ← lift (NewClient (Some (config_of params)));
  r ← with_client c (
    r ← CheckConnection;
    lift (_ ← of_err (rp_err r);
          if rp_code r =? 200 then Ret tt else Fail (ErrLeaf (rp_value r))));
  mret r.2.

(** ** Waiting for an asynchronous request

    [GetRequest] without an answer gives a nil pointer, which the loop dereferences. *)
Fixpoint poll_request (rounds : nat) (wait : Z) (id : string) (r : reply (option RequestResponse)) :
    prog hsm (option RequestResponse) :=
  match rp_value r with
  | None => lift Panic
  | Some request =>
      if String.eqb (rr_Status request) "PENDING" then
        match rp_err r with
        | Some e => lift (Fail e)
        | None =>
            match rounds with
            | O => mret None
            | S rounds =>
                _ ← on_world (fun w => (tt, Sleep wait w));
                r ← GetRequest id;
                poll_request rounds wait id r
            end
        end
      else mret (Some request)
  end.

(** ** cipher.go *)

Record Cipher := mkCipher {
  ci_operation : CipherOperation;
  ci_key : key;
  ci_Algorithm : CipherAlgorithmMode;
  ci_Parameters : cipher_parameters;
  ci_buffer : bytes;
}.

Definition AES_GCM_MAC_BIT_LEN : Z := 128.

Definition NewCipher (ctx : context) (operation : CipherOperation) (algorithm : CipherAlgorithmMode)
    (parameters : cipher_parameters) : outcome Cipher :=
  match SecretKeyFromContext ctx with
  | Some k => Ret (mkCipher operation k algorithm parameters [])
  | None =>
      match PrivateKeyFromContext ctx with
      | Some (k, _) => Ret (mkCipher operation k algorithm parameters [])
      | None =>
          match PublicKeyFromContext ctx with
          | Some (k, _) => Ret (mkCipher operation k algorithm parameters [])
          | None => Fail (ErrLeaf "cipherFactory needs a key")
          end
      end
  end.

(** The methods of a key put it into the context. *)
Definition key_NewCipher (k : kms_Key) (ctx : context) (operation : CipherOperation)
    (algorithm : CipherAlgorithmMode) (parameters : cipher_parameters) : outcome Cipher :=
  NewCipher (with_key k ctx) operation algorithm parameters.

(** An object beside the client. *)
Definition with_hsm {O A} (m : prog hsm A) : prog (O * hsm) A := zoom snd (fun h s => (s.1, h)) m.

Definition this {O} : prog (O * hsm) O := s ← get; mret s.1.

Definition set_this {O} (f : O -> O) : prog (O * hsm) unit := modify (fun s => (f s.1, s.2)).

Definition set_buffer (b : bytes) (c : Cipher) : Cipher :=
  mkCipher (ci_operation c) (ci_key c) (ci_Algorithm c) (ci_Parameters c) b.

Definition set_parameters (p : cipher_parameters) (c : Cipher) : Cipher :=
  mkCipher (ci_operation c) (ci_key c) (ci_Algorithm c) p (ci_buffer c).

Definition cipher_Update (ctx : context) (input : bytes) : prog (Cipher * hsm) unit :=
  _ ← with_hsm (check_ctx ctx); set_this (fun c => set_buffer (ci_buffer c ++ input) c).

Definition DecryptAsyncRequest (additionalMetaData : gmap string string) : prog (Cipher * hsm) string :=
  c ← this;
  cipherAlgorithm ← lift (MapCipherAlgorithm (ci_Algorithm c));
  r ← with_hsm (AsyncDecrypt (key_GetName (ci_key c)) (k_password (ci_key c)) (b64 (ci_buffer c)) ""
    cipherAlgorithm 0 "" additionalMetaData);
  lift (_ ← of_err (rp_err r); Ret (rp_value r)).

Definition cipher_GetRequest (requestId : string) : prog (Cipher * hsm) (reply (option RequestResponse)) :=
  with_hsm (GetRequest requestId).

Definition aad_text (aad : slice) : string := match content aad with [] => "" | l => b64 l end.

Definition ErrGcmDecrypt : error := ErrLeaf "invalid cipher parameters for AES GCM decryption".

Definition ErrGcmEncrypt : error := ErrLeaf "invalid cipher parameters for AES GCM encryption".

(** The buffer survives a decryption with AES-GCM.  An error of the asynchronous call is
    ignored, and the request with the empty identifier asked for. *)
Definition cipher_Decrypt (rounds : nat) (cipherAlgorithm : string) : prog (Cipher * hsm) (option bytes) :=
  c ← this;
  match ci_Algorithm c with
  | CipherMode_AES_GCM96 =>
      match ci_Parameters c with
      | ParamGcm (Some p) =>
          if bool_decide (content (gcm_Nonce p) = []) then lift (Fail ErrGcmDecrypt)
          else
            r ← with_hsm (Decrypt (key_GetName (ci_key c)) (k_password (ci_key c)) (b64 (ci_buffer c))
              (b64 (content (gcm_Nonce p))) cipherAlgorithm AES_GCM_MAC_BIT_LEN (aad_text (gcm_AAD p)));
            match rp_err r with
            | Some e => lift (Fail (ErrLeaf ("Decrypt failed to execute. Decrypt returned status: " +:+ err_msg e)))
            | None => match rp_value r with
                      | Some payload => mret (Some (b64_anyway payload))
                      | None => lift Panic
                      end
            end
      | _ => lift (Fail ErrGcmDecrypt)
      end
  | _ =>
      result ← with_hsm (AsyncDecrypt (key_GetName (ci_key c)) (k_password (ci_key c)) (b64 (ci_buffer c)) ""
        cipherAlgorithm (-1) "" ∅);
      r ← with_hsm (GetRequest (rp_value result));
      request ← attempt (with_hsm (poll_request rounds 5 (rp_value result) r));
      match request with
      | Panic => lift Panic
      | Fail e => _ ← set_this (set_buffer []); lift (Fail e)
      | Ret None => mret None
      | Ret (Some request) =>
          _ ← set_this (set_buffer []);
          if String.eqb (rr_Status request) "EXECUTED" then mret (Some (b64_anyway (rr_Result request)))
          else lift (Fail (ErrLeaf ("Decrypt failed to execute. Decrypt returned status: " +:+ rr_Status request)))
      end
  end.

(** The bodies of both are commented out. *)
Definition RemovePaddingIfNeeded (payload : bytes) : bytes := payload.

Definition AddPaddingIfNeeded (buffer : bytes) : bytes := buffer.

Definition combineCipherOutput (algorithm : CipherAlgorithmMode) (encryptedPayload messageAuthenticationCode : bytes) :
    bytes :=
  match algorithm with
  | CipherMode_AES_GCM96 => encryptedPayload ++ messageAuthenticationCode
  | _ => encryptedPayload
  end.

(** The additional data and the length of the tag; without parameters new ones are made. *)
Definition encrypt_parameters : prog (Cipher * hsm) (string * Z) :=
  c ← this;
  match ci_Algorithm c, ci_Parameters c with
  | CipherMode_AES_GCM96, ParamNil =>
      _ ← set_this (set_parameters (ParamGcm (Some (mkAESGCM None None)))); mret ("", AES_GCM_MAC_BIT_LEN)
  | CipherMode_AES_GCM96, ParamGcm (Some p) => mret (aad_text (gcm_AAD p), AES_GCM_MAC_BIT_LEN)
  | CipherMode_AES_GCM96, _ => lift (Fail ErrGcmEncrypt)
  | _, _ => mret ("", -1)
  end.

Definition cipher_Encrypt (cipherAlgorithm : string) : prog (Cipher * hsm) bytes :=
  '(aad, tagLength) ← encrypt_parameters;
  c ← this;
  r ← with_hsm (Encrypt (key_GetName (ci_key c)) (k_password (ci_key c)) (b64 (ci_buffer c)) cipherAlgorithm
    tagLength aad);
  _ ← match rp_err r with Some e => _ ← set_this (set_buffer []); lift (Fail e) | None => mret tt end;
  encrypt ← lift (match rp_value r with Some x => Ret x | None => Panic end);
  let payload := b64_anyway (
    if String.eqb (er_EncryptedPayloadWithoutMessageAuthenticationCode encrypt) "" then er_EncryptedPayload encrypt
    else er_EncryptedPayloadWithoutMessageAuthenticationCode encrypt) in
  let iv := match er_InitializationVector encrypt with Some t => b64_anyway t | None => [] end in
  let mac := match er_MessageAuthenticationCode encrypt with Some t => b64_anyway t | None => [] end in
  _ ← set_this (set_buffer []);
  _ ← match ci_Parameters c with
      | ParamGcm (Some p) =>
          if bool_decide (iv = []) then mret tt
          else set_this (set_parameters (ParamGcm (Some (mkAESGCM (gcm_AAD p) (Some iv)))))
      | _ => mret tt
      end;
  mret (combineCipherOutput (ci_Algorithm c) payload mac).

Definition cipher_Close (rounds : nat) (ctx : context) (input : bytes) : prog (Cipher * hsm) (option bytes) :=
  _ ← with_hsm (check_ctx ctx);
  _ ← set_this (fun c => set_buffer (ci_buffer c ++ input) c);
  c ← this;
  cipherAlgorithm ← lift (MapCipherAlgorithm (ci_Algorithm c));
  match ci_operation c with
  | CipherOp_Decrypt =>
      payload ← cipher_Decrypt rounds cipherAlgorithm; mret (RemovePaddingIfNeeded <$> payload)
  | CipherOp_Encrypt =>
      _ ← set_this (fun c => set_buffer (AddPaddingIfNeeded (ci_buffer c)) c);
      out ← cipher_Encrypt cipherAlgorithm; mret (Some out)
  end.

(** ** signer.go *)

Record signer := mkSigner { sg_key : key; sg_Algorithm : SignAlgorithm; sg_buffer : bytes; sg_digest : bool }.

Definition set_sg_buffer (b : bytes) (s : signer) : signer := mkSigner (sg_key s) (sg_Algorithm s) b (sg_digest s).

Definition signer_Update (ctx : context) (data : bytes) : prog (signer * hsm) unit :=
  _ ← with_hsm (check_ctx ctx); set_this (fun s => set_sg_buffer (sg_buffer s ++ data) s).

Definition signer_DigestProvided (ctx : context) : prog (signer * hsm) unit :=
  _ ← with_hsm (check_ctx ctx); set_this (fun s => mkSigner (sg_key s) (sg_Algorithm s) (sg_buffer s) true).

(** An algorithm without a name is sent as the empty string. *)
Definition sign_algorithm (alg : SignAlgorithm) (digest : bool) : string :=
  match MapSignAlgorithm alg digest with Ret a => a | _ => "" end.

Definition signer_Sign (rounds : nat) (ctx : context) : prog (signer * hsm) (option bytes) :=
  _ ← with_hsm (check_ctx ctx);
  s ← this;
  result ← with_hsm (AsyncSign (key_GetName (sg_key s)) (k_password (sg_key s)) (b64 (sg_buffer s)) "UNSPECIFIED"
    (sign_algorithm (sg_Algorithm s) (sg_digest s)) ∅);
  match rp_err result with
  | Some e => _ ← set_this (set_sg_buffer []); lift (Fail e)
  | None =>
      r ← with_hsm (GetRequest (rp_value result));
      request ← attempt (with_hsm (poll_request rounds 5 (rp_value result) r));
      match request with
      | Panic => lift Panic
      | Fail e => _ ← set_this (set_sg_buffer []); lift (Fail e)
      | Ret None => mret None
      | Ret (Some request) =>
          _ ← set_this (set_sg_buffer []);
          if String.eqb (rr_Status request) "EXECUTED" then mret (Some (b64_anyway (rr_Result request)))
          else lift (Fail (ErrLeaf ("Signer failed to execute. Signer returned status: " +:+ rr_Status request)))
      end
  end.

Definition signer_Close (rounds : nat) (ctx : context) (data : bytes) : prog (signer * hsm) (option bytes) :=
  _ ← with_hsm (check_ctx ctx);
  _ ← set_this (fun s => set_sg_buffer (sg_buffer s ++ data) s);
  signer_Sign rounds ctx.

Definition can_sign (k : key) : bool :=
  bool_decide (key_GetType k = KeyType_RSA_Private) || bool_decide (key_GetType k = KeyType_EC_Private) ||
  bool_decide (key_GetType k = KeyType_ED_Private).

Definition ErrSignKeyType : error :=
  ErrLeaf "invalid signature key type. Only RSA, EC or ED private keys are supported".

(** Without a private key in the context a nil pointer is dereferenced. *)
Definition NewRemoteDigestSigner (ctx : context) (algorithm : SignAlgorithm) : outcome signer :=
  match PrivateKeyFromContext ctx with
  | None => Panic
  | Some (k, _) => if can_sign k then Ret (mkSigner k algorithm [] false) else Fail ErrSignKeyType
  end.

(** A program that makes its object first. *)
Definition run_with {O A} (o : outcome O) (m : prog (O * hsm) A) : prog hsm A := fun h =>
  match o with
  | Ret o => let (a, s) := m (o, h) in (a, s.2)
  | Fail e => (Fail e, h)
  | Panic => (Panic, h)
  end.

Definition DigestSign (rounds : nat) (ctx : context) (algorithm : SignAlgorithm) (digest : bytes) :
    prog hsm (option bytes) :=
  _ ← check_ctx ctx;
  run_with (NewRemoteDigestSigner ctx algorithm) (_ ← signer_DigestProvided ctx; signer_Close rounds ctx digest).

Definition PrivateKey_Sign (rounds : nat) (ctx : context) (k : key) (algorithm : SignAlgorithm) (digest : bytes) :
    prog hsm (option bytes) :=
  run_with (if can_sign k then Ret (mkSigner k algorithm [] true) else Fail ErrSignKeyType)
    (signer_Close rounds ctx digest).

(** ** verifier.go *)

Record verifier := mkVerifier {
  vf_key : option key;
  vf_Algorithm : SignAlgorithm;
  vf_Signature : slice;
  vf_buffer : bytes;
  vf_digest : bool;
}.

Definition set_vf_buffer (b : bytes) (v : verifier) : verifier :=
  mkVerifier (vf_key v) (vf_Algorithm v) (vf_Signature v) b (vf_digest v).

Definition verifier_Update (ctx : context) (data : bytes) : prog (verifier * hsm) unit :=
  _ ← with_hsm (check_ctx ctx); set_this (fun v => set_vf_buffer (vf_buffer v ++ data) v).

Definition verifier_DigestProvided (ctx : context) : prog (verifier * hsm) unit :=
  _ ← with_hsm (check_ctx ctx);
  set_this (fun v => mkVerifier (vf_key v) (vf_Algorithm v) (vf_Signature v) (vf_buffer v) true).

Definition verifySignature (signature : slice) : prog (verifier * hsm) unit :=
  v ← this;
  match vf_key v with
  | None => lift Panic
  | Some k =>
      r ← with_hsm (Verify (key_GetName k) (k_password k) (b64 (vf_buffer v))
        (sign_algorithm (vf_Algorithm v) (vf_digest v)) (b64 (content signature)));
      _ ← set_this (set_vf_buffer []);
      _ ← lift (of_err (rp_err r));
      if (rp_value r : bool) then mret tt
      else lift (Fail (ErrLeaf "signature verification failed: provided signature is not valid"))
  end.

Definition verifier_Close (ctx : context) (data : bytes) (signature : slice) : prog (verifier * hsm) unit :=
  _ ← with_hsm (check_ctx ctx);
  _ ← set_this (fun v => set_vf_buffer (vf_buffer v ++ data) v);
  v ← this;
  verifySignature (match signature with Some _ => signature | None => vf_Signature v end).

Definition NewRemoteDigestVerifier (ctx : context) (algorithm : SignAlgorithm) (signature : slice) : verifier :=
  mkVerifier (fst <$> PublicKeyFromContext ctx) algorithm signature [] false.

(** The methods of keys put the key into the context. *)
Definition PrivateKey_NewRemoteDigestSigner (k : key) (text : string) (ctx : context) (algorithm : SignAlgorithm) :
    outcome signer := NewRemoteDigestSigner (with_key (PrivateKey k text) ctx) algorithm.

Definition PublicKey_NewRemoteDigestVerifier (k : key) (text : string) (ctx : context) (algorithm : SignAlgorithm)
    (signature : slice) : verifier := NewRemoteDigestVerifier (with_key (PublicKey k text) ctx) algorithm signature.

Definition DigestVerify (ctx : context) (algorithm : SignAlgorithm) (signature : slice) (digest : bytes) :
    prog hsm unit :=
  _ ← check_ctx ctx;
  run_with (Ret (NewRemoteDigestVerifier ctx algorithm signature))
    (_ ← verifier_DigestProvided ctx; verifier_Close ctx digest None).
End keystore.

(** ** Pieces and wholes *)

Section streaming.
Context `{Pki} `{Tsb}.

(** Run one program after another, for their effect. *)
Fixpoint each {S A} (f : A -> prog S unit) (l : list A) : prog S unit :=
  match l with [] => mret tt | a :: l => _ ← f a; each f l end.

Lemma this_bind {O B} (f : O -> prog (O * hsm) B) o h : (this ≫= f) (o, h) = f o (o, h).
Proof. done. Qed.

Lemma set_this_bind {O B} (g : O -> O) (f : unit -> prog (O * hsm) B) o h : (set_this g ≫= f) (o, h) = f tt (g o, h).
Proof. done. Qed.

Definition live (ctx : context) : Prop := forall w, ctx_Err ctx w = None.

Lemma check_live {O B} ctx (f : unit -> prog (O * hsm) B) o h : live ctx ->
  (with_hsm (check_ctx ctx) ≫= f) (o, h) = f tt (o, h).
Proof.
  intros Hc. unfold with_hsm. rewrite zoom_bind. cbn [snd]. unfold check_ctx, world, mbind, prog_bind, get, lift.
  cbn. by rewrite Hc.
Qed.

(** Objects that gather what they are given in a buffer. *)
Lemma each_gathers {O} (upd : bytes -> prog (O * hsm) unit) (add : bytes -> O -> O) :
  (forall a o h, upd a (o, h) = (Ret tt, (add a o, h))) -> (forall o, add [] o = o) ->
  (forall a b o, add b (add a o) = add (a ++ b) o) ->
  forall l o h, each upd l (o, h) = (Ret tt, (add (concat l) o, h)).
Proof.
  intros Hu Hn Ha l. induction l as [|a l IH]; intros o h; cbn [each concat]; [by rewrite Hn|].
  rewrite (pbind_run _ _ _ _ _ (Hu a o h)). by rewrite IH, Ha.
Qed.

Definition add_cipher (a : bytes) (c : Cipher) : Cipher := set_buffer (ci_buffer c ++ a) c.

Definition add_signer (a : bytes) (s : signer) : signer := set_sg_buffer (sg_buffer s ++ a) s.

Definition add_verifier (a : bytes) (v : verifier) : verifier := set_vf_buffer (vf_buffer v ++ a) v.

(** C32: data handed over in pieces is the data handed over at once: [Update] with each piece
    and [Close] with the last one do what [Close] does with all of it, for ciphers,
    signers and verifiers, whatever the HSM answers and whatever is in the buffer. *)
Theorem securosys_streaming ctx rounds (pieces : list bytes) (last : bytes) h : live ctx ->
  (forall c : Cipher, (_ ← each (cipher_Update ctx) pieces; cipher_Close rounds ctx last) (c, h) =
     cipher_Close rounds ctx (concat pieces ++ last) (c, h)) /\
  (forall s : signer, (_ ← each (signer_Update ctx) pieces; signer_Close rounds ctx last) (s, h) =
     signer_Close rounds ctx (concat pieces ++ last) (s, h)) /\
  (forall (v : verifier) signature, (_ ← each (verifier_Update ctx) pieces; verifier_Close ctx last signature) (v, h) =
     verifier_Close ctx (concat pieces ++ last) signature (v, h)).
Proof.
  intros Hc. split_and!.
  - intros c. assert (He := each_gathers (cipher_Update ctx) add_cipher).
    rewrite (pbind_run _ _ _ _ _ (He ltac:(intros; unfold cipher_Update; by rewrite check_live)
      ltac:(intros []; unfold add_cipher; simpl; by rewrite app_nil_r)
      ltac:(intros ? ? []; unfold add_cipher; simpl; by rewrite app_assoc) pieces c h)).
    unfold cipher_Close. rewrite !check_live, !set_this_bind by done. destruct c. cbn [add_cipher set_buffer ci_buffer ci_operation ci_key ci_Algorithm ci_Parameters].
    unfold add_cipher. cbn [set_buffer ci_buffer ci_operation ci_key ci_Algorithm ci_Parameters]. by rewrite <- app_assoc.
  - intros s. assert (He := each_gathers (signer_Update ctx) add_signer).
    rewrite (pbind_run _ _ _ _ _ (He ltac:(intros; unfold signer_Update; by rewrite check_live)
      ltac:(intros []; unfold add_signer; simpl; by rewrite app_nil_r)
      ltac:(intros ? ? []; unfold add_signer; simpl; by rewrite app_assoc) pieces s h)).
    unfold signer_Close. rewrite !check_live, !set_this_bind by done. destruct s. unfold add_signer.
    cbn [set_sg_buffer sg_buffer sg_key sg_Algorithm sg_digest]. by rewrite <- app_assoc.
  - intros v signature. assert (He := each_gathers (verifier_Update ctx) add_verifier).
    rewrite (pbind_run _ _ _ _ _ (He ltac:(intros; unfold verifier_Update; by rewrite check_live)
      ltac:(intros []; unfold add_verifier; simpl; by rewrite app_nil_r)
      ltac:(intros ? ? []; unfold add_verifier; simpl; by rewrite app_assoc) pieces v h)).
    unfold verifier_Close. rewrite !check_live, !set_this_bind by done. destruct v. unfold add_verifier.
    cbn [set_vf_buffer vf_buffer vf_key vf_Algorithm vf_Signature vf_digest]. by rewrite <- app_assoc.
Qed.
End streaming.

(** ** A signature is accepted on the word of the HSM only *)

Section verification.
Context `{Pki} `{Tsb}.

Lemma Verify_true label password payload alg signature h r h1 :
  Verify label password payload alg signature h = (Ret r, h1) -> rp_err r = None -> rp_value r = true ->
  exists answer, call "POST" "/v1/verify" (verify_body label password payload alg signature) KeyOperationTokenName h =
      (Ret answer, h1) /\ rp_err answer = None /\
    get_key "signatureValid" (default [] (unmarshal_map (rp_value answer))) = JBool true.
Proof.
  unfold Verify. intros (answer & h2 & Hc & Hv)%pbind_Ret He Ht. exists answer.
  destruct (rp_err answer) eqn:Ea.
  - injection Hv as <- <-. simpl in Ht. discriminate Ht.
  - destruct (has_key _ _); [|injection Hv as <- <-; discriminate Ht].
    destruct (get_key _ _) as [|b| | | |]; try discriminate Hv. injection Hv as <- <-. simpl in Ht. by subst b.
Qed.

(** C31: a verification succeeds only if the HSM, asked about this key, the data gathered, the
    algorithm and this signature, answered without an error that the signature is
    valid; the buffer is empty afterwards. *)
Theorem verifier_sound ctx data signature v h s' :
  verifier_Close ctx data signature (v, h) = (Ret tt, s') ->
  exists k answer h1, vf_key v = Some k /\
    call "POST" "/v1/verify" (verify_body (key_GetName k) (k_password k) (b64 (vf_buffer v ++ data))
      (sign_algorithm (vf_Algorithm v) (vf_digest v))
      (b64 (content (match signature with Some _ => signature | None => vf_Signature v end))))
      KeyOperationTokenName h = (Ret answer, h1) /\
    rp_err answer = None /\
    get_key "signatureValid" (default [] (unmarshal_map (rp_value answer))) = JBool true /\
    s' = (set_vf_buffer [] v, h1).
Proof.
  unfold verifier_Close. intros ([] & [v0 h0] & Hc & Hs)%pbind_Ret.
  assert (Hs0 : (v0, h0) = (v, h)).
  { unfold with_hsm, zoom, check_ctx, world, mbind, prog_bind, get, lift in Hc. cbn in Hc.
    destruct (ctx_Err ctx (h_world h)); cbn in Hc; by simplify_eq. }
  injection Hs0 as -> ->.
  rewrite set_this_bind, this_bind in Hs. unfold verifySignature in Hs. rewrite this_bind in Hs.
  destruct v as [[k|] alg sig buf dig]; cbn [set_vf_buffer vf_key vf_Algorithm vf_Signature vf_buffer vf_digest] in *; [|discriminate Hs].
  apply pbind_Ret in Hs as (r & s2 & Hv & Hs). unfold with_hsm, zoom in Hv. cbn [snd fst] in Hv.
  destruct (Verify _ _ _ _ _ h) as [o h1] eqn:Ev. injection Hv as -> <-. cbn [fst] in Hs.
  rewrite set_this_bind, lift_bind in Hs. destruct (rp_err r) eqn:Er; [discriminate Hs|]. cbn [of_err] in Hs.
  destruct (rp_value r) eqn:Evalue; [|discriminate Hs]. injection Hs as <-.
  destruct (Verify_true _ _ _ _ _ _ _ _ Ev Er Evalue) as (answer & Ha & He & Hg).
  exists k, answer, h1. done.
Qed.
End verification.

(** A service that finds every signature valid. *)
Definition agreeable_server : Tsb := server_tsb (fun _ (w : unit) => (mkResponse 200 (Ret (q "{'signatureValid': true}")), w)).

Definition plain_key : key := mkKey (mkKeyAttributes None "key" ∅ (2048, 0) None None "MIIB" "RSA" "" "" "" "" "") "".

Definition example_hsm : @hsm agreeable_server :=
  @mkHsm agreeable_server (example_client "https://hsm" []) (0, tt).

Lemma verifier_sound_witness :
  exists answer h1, @call agreeable_server "POST" "/v1/verify"
      (verify_body "key" "" (b64 (bytes_of_string "data")) "SHA256_WITH_RSA_PSS" (b64 (bytes_of_string "sig")))
      KeyOperationTokenName example_hsm = (Ret answer, h1) /\
    get_key "signatureValid" (default [] (unmarshal_map (rp_value answer))) = JBool true.
Proof.
  destruct (@verifier_sound agreeable_server (@Background agreeable_server) (bytes_of_string "data") (Some (bytes_of_string "sig"))
    (mkVerifier (Some plain_key) SignAlgo_RSA_PKCS1_PSS_SHA_256 None [] false) example_hsm
    (mkVerifier (Some plain_key) SignAlgo_RSA_PKCS1_PSS_SHA_256 None [] false, example_hsm))
    as (k & answer & h1 & Hk & Hc & _ & Hg & Hs).
  - vm_compute. reflexivity.
  - exists answer, h1. injection Hk as <-. split; [exact Hc | exact Hg].
Defined.

Lemma securosys_streaming_witness :
  (_ ← each (@cipher_Update agreeable_server Background) [bytes_of_string "a"; bytes_of_string "b"];
   @cipher_Close text_pki agreeable_server 0 Background (bytes_of_string "c"))
    (mkCipher CipherOp_Encrypt plain_key CipherMode_RSA_OAEP_SHA256 ParamNil [], example_hsm) =
  @cipher_Close text_pki agreeable_server 0 Background (bytes_of_string "abc")
    (mkCipher CipherOp_Encrypt plain_key CipherMode_RSA_OAEP_SHA256 ParamNil [], example_hsm).
Proof.
  apply (proj1 (@securosys_streaming text_pki agreeable_server Background 0 [bytes_of_string "a"; bytes_of_string "b"]
    (bytes_of_string "c") example_hsm (fun _ => eq_refl))).
Defined.

(** The policy of a key as a map is the policy: it can be read back. *)
Theorem PolicyToMap_faithful p : policy_ok p = true ->
  exists l, PolicyToMap (Some p) = Ret (Some l) /\ convertPolicyToMap (Some p) = Some l /\ policy_value (JObj l) = Some p.
Proof.
  intros [Hp Hv]%policy_codec. unfold PolicyToMap, convertPolicyToMap, unmarshal_map. rewrite parse_marshal by done.
  unfold policy_json in *. eexists. split_and!; [reflexivity..|]. exact Hv.
Qed.
