(* ===== verification/SecurosysWrapper.v ===== *)
(** * The Securosys HSM wrapper

    wrappers/securosyshsm: options.go, hsm_config.go, securosysHSM_client.go and
    securosysHSM.go, over the keystore of SecurosysKms.v.  The state is the wrapper
    object with the world behind its client.  Exits of the process count as panics; the
    signals that interrupt the wait for approvals are an argument.  The global variable
    that keeps the last configuration is read by nobody and left out. *)
From S2P Require Import Prelude GoText GoEncoding GoJson Wrapping SecurosysHelpers SecurosysClient SecurosysRequests SecurosysKms.

Local Open Scope Z_scope.

(** ** options.go *)

Record options := mk_options {
  opts_Options : Options;
  withKeyLabel : string;
  withApprovalTimeout : string;
  withAuth : string;
  withBearerToken : string;
  withCheckEvery : string;
  withTSBApiEndpoint : string;
  withCertPath : string;
  withKeyPath : string;
  withPolicy : string;
  withFullPolicy : string;
  withFullPolicyFile : string;
  withPolicyRuleUse : string;
  withPolicyRuleBlock : string;
  withPolicyRuleUnBlock : string;
  withPolicyRuleModify : string;
  withApplicationKeyPair : string;
  withApiKeys : string;
}.

Definition getDefaultOptions (o : Options) : options :=
  mk_options o "" "" "" "" "" "" "" "" "" "" "" "" "" "" "" "" "".

Definition set_withKeyLabel (v : string) (opts : options) : options :=
  let (o, _, at_, au, bt, ce, ep, cp, kp, po, fp, ff, ru, rb, rn, rm, ak, ap) := opts in
  mk_options o v at_ au bt ce ep cp kp po fp ff ru rb rn rm ak ap.

Definition set_withApprovalTimeout (v : string) (opts : options) : options :=
  let (o, lb, _, au, bt, ce, ep, cp, kp, po, fp, ff, ru, rb, rn, rm, ak, ap) := opts in
  mk_options o lb v au bt ce ep cp kp po fp ff ru rb rn rm ak ap.

Definition set_withAuth (v : string) (opts : options) : options :=
  let (o, lb, at_, _, bt, ce, ep, cp, kp, po, fp, ff, ru, rb, rn, rm, ak, ap) := opts in
  mk_options o lb at_ v bt ce ep cp kp po fp ff ru rb rn rm ak ap.

Definition set_withBearerToken (v : string) (opts : options) : options :=
  let (o, lb, at_, au, _, ce, ep, cp, kp, po, fp, ff, ru, rb, rn, rm, ak, ap) := opts in
  mk_options o lb at_ au v ce ep cp kp po fp ff ru rb rn rm ak ap.

Definition set_withCheckEvery (v : string) (opts : options) : options :=
  let (o, lb, at_, au, bt, _, ep, cp, kp, po, fp, ff, ru, rb, rn, rm, ak, ap) := opts in
  mk_options o lb at_ au bt v ep cp kp po fp ff ru rb rn rm ak ap.

Definition set_withTSBApiEndpoint (v : string) (opts : options) : options :=
  let (o, lb, at_, au, bt, ce, _, cp, kp, po, fp, ff, ru, rb, rn, rm, ak, ap) := opts in
  mk_options o lb at_ au bt ce v cp kp po fp ff ru rb rn rm ak ap.

Definition set_withCertPath (v : string) (opts : options) : options :=
  let (o, lb, at_, au, bt, ce, ep, _, kp, po, fp, ff, ru, rb, rn, rm, ak, ap) := opts in
  mk_options o lb at_ au bt ce ep v kp po fp ff ru rb rn rm ak ap.

Definition set_withKeyPath (v : string) (opts : options) : options :=
  let (o, lb, at_, au, bt, ce, ep, cp, _, po, fp, ff, ru, rb, rn, rm, ak, ap) := opts in
  mk_options o lb at_ au bt ce ep cp v po fp ff ru rb rn rm ak ap.

Definition set_withPolicy (v : string) (opts : options) : options :=
  let (o, lb, at_, au, bt, ce, ep, cp, kp, _, fp, ff, ru, rb, rn, rm, ak, ap) := opts in
  mk_options o lb at_ au bt ce ep cp kp v fp ff ru rb rn rm ak ap.

Definition set_withFullPolicy (v : string) (opts : options) : options :=
  let (o, lb, at_, au, bt, ce, ep, cp, kp, po, _, ff, ru, rb, rn, rm, ak, ap) := opts in
  mk_options o lb at_ au bt ce ep cp kp po v ff ru rb rn rm ak ap.

Definition set_withFullPolicyFile (v : string) (opts : options) : options :=
  let (o, lb, at_, au, bt, ce, ep, cp, kp, po, fp, _, ru, rb, rn, rm, ak, ap) := opts in
  mk_options o lb at_ au bt ce ep cp kp po fp v ru rb rn rm ak ap.

Definition set_withPolicyRuleUse (v : string) (opts : options) : options :=
  let (o, lb, at_, au, bt, ce, ep, cp, kp, po, fp, ff, _, rb, rn, rm, ak, ap) := opts in
  mk_options o lb at_ au bt ce ep cp kp po fp ff v rb rn rm ak ap.

Definition set_withPolicyRuleBlock (v : string) (opts : options) : options :=
  let (o, lb, at_, au, bt, ce, ep, cp, kp, po, fp, ff, ru, _, rn, rm, ak, ap) := opts in
  mk_options o lb at_ au bt ce ep cp kp po fp ff ru v rn rm ak ap.

Definition set_withPolicyRuleUnBlock (v : string) (opts : options) : options :=
  let (o, lb, at_, au, bt, ce, ep, cp, kp, po, fp, ff, ru, rb, _, rm, ak, ap) := opts in
  mk_options o lb at_ au bt ce ep cp kp po fp ff ru rb v rm ak ap.

Definition set_withPolicyRuleModify (v : string) (opts : options) : options :=
  let (o, lb, at_, au, bt, ce, ep, cp, kp, po, fp, ff, ru, rb, rn, _, ak, ap) := opts in
  mk_options o lb at_ au bt ce ep cp kp po fp ff ru rb rn v ak ap.

Definition set_withApplicationKeyPair (v : string) (opts : options) : options :=
  let (o, lb, at_, au, bt, ce, ep, cp, kp, po, fp, ff, ru, rb, rn, rm, _, ap) := opts in
  mk_options o lb at_ au bt ce ep cp kp po fp ff ru rb rn rm v ap.

Definition set_withApiKeys (v : string) (opts : options) : options :=
  let (o, lb, at_, au, bt, ce, ep, cp, kp, po, fp, ff, ru, rb, rn, rm, ak, _) := opts in
  mk_options o lb at_ au bt ce ep cp kp po fp ff ru rb rn rm ak v.

(** A local option; an [OptionFunc] may itself be nil. *)
Definition OptionFunc : Type := option (prog options unit).

Definition WithKeyLabel (with_ : string) : Opt OptionFunc := OptLocal (Some (modify (set_withKeyLabel with_))).

Definition WithApprovalTimeout (with_ : string) : Opt OptionFunc := OptLocal (Some (modify (set_withApprovalTimeout with_))).

Definition WithAuth (with_ : string) : Opt OptionFunc := OptLocal (Some (modify (set_withAuth with_))).

Definition WithBearerToken (with_ : string) : Opt OptionFunc := OptLocal (Some (modify (set_withBearerToken with_))).

Definition WithCheckEvery (with_ : string) : Opt OptionFunc := OptLocal (Some (modify (set_withCheckEvery with_))).

Definition WithTSBApiEndpoint (with_ : string) : Opt OptionFunc := OptLocal (Some (modify (set_withTSBApiEndpoint with_))).

Definition WithCertPath (with_ : string) : Opt OptionFunc := OptLocal (Some (modify (set_withCertPath with_))).

Definition WithKeyPath (with_ : string) : Opt OptionFunc := OptLocal (Some (modify (set_withKeyPath with_))).

Definition WithPolicy (with_ : string) : Opt OptionFunc := OptLocal (Some (modify (set_withPolicy with_))).

Definition WithFullPolicy (with_ : string) : Opt OptionFunc := OptLocal (Some (modify (set_withFullPolicy with_))).

Definition WithFullPolicyFile (with_ : string) : Opt OptionFunc := OptLocal (Some (modify (set_withFullPolicyFile with_))).

Definition WithPolicyRuleUse (with_ : string) : Opt OptionFunc := OptLocal (Some (modify (set_withPolicyRuleUse with_))).

Definition WithPolicyRuleBlock (with_ : string) : Opt OptionFunc := OptLocal (Some (modify (set_withPolicyRuleBlock with_))).

Definition WithPolicyRuleUnBlock (with_ : string) : Opt OptionFunc := OptLocal (Some (modify (set_withPolicyRuleUnBlock with_))).

Definition WithPolicyRuleModify (with_ : string) : Opt OptionFunc := OptLocal (Some (modify (set_withPolicyRuleModify with_))).

Definition WithApplicationKeyPair (with_ : string) : Opt OptionFunc := OptLocal (Some (modify (set_withApplicationKeyPair with_))).

Definition WithApiKeys (with_ : string) : Opt OptionFunc := OptLocal (Some (modify (set_withApiKeys with_))).

Definition config_step (kv : string * string) (opts : options) : outcome options :=
  let (k, v) := kv in
  if String.eqb k "key_label" then Ret (set_withKeyLabel v opts)
  else if String.eqb k "approval_timeout" then Ret (set_withApprovalTimeout v opts)
  else if String.eqb k "auth" then Ret (set_withAuth v opts)
  else if String.eqb k "bearer_token" then Ret (set_withBearerToken v opts)
  else if String.eqb k "check_every" then Ret (set_withCheckEvery v opts)
  else if String.eqb k "tsb_api_endpoint" then Ret (set_withTSBApiEndpoint v opts)
  else if String.eqb k "cert_path" then Ret (set_withCertPath v opts)
  else if String.eqb k "key_path" then Ret (set_withKeyPath v opts)
  else if String.eqb k "policy" then Ret (set_withPolicy v opts)
  else if String.eqb k "full_policy" then Ret (set_withFullPolicy v opts)
  else if String.eqb k "full_policy_file" then Ret (set_withFullPolicyFile v opts)
  else if String.eqb k "policy_rule_use" then Ret (set_withPolicyRuleUse v opts)
  else if String.eqb k "policy_rule_block" then Ret (set_withPolicyRuleBlock v opts)
  else if String.eqb k "policy_rule_unblock" then Ret (set_withPolicyRuleUnBlock v opts)
  else if String.eqb k "policy_rule_modify" then Ret (set_withPolicyRuleModify v opts)
  else if String.eqb k "application_key_pair" then Ret (set_withApplicationKeyPair v opts)
  else if String.eqb k "api_keys" then Ret (set_withApiKeys v opts)
  else Ret opts.

(** Options of this package's root are kept, local ones collected, all others dropped. *)
Fixpoint split_options (opt : list (Opt OptionFunc)) : list (Opt OptionFunc) * list OptionFunc :=
  match opt with
  | [] => ([], [])
  | o :: opt =>
      let (w, l) := split_options opt in
      match o with
      | OptGlobal _ => (o :: w, l)
      | OptLocal f => (w, f :: l)
      | _ => (w, l)
      end
  end.

Fixpoint run_local (l : list OptionFunc) (opts : options) : outcome options :=
  match l with
  | [] => Ret opts
  | None :: l => run_local l opts
  | Some o :: l =>
      match o opts with
      | (Ret _, opts) => run_local l opts
      | (Fail e, _) => Fail e
      | (Panic, _) => Panic
      end
  end.

Definition getOpts `{RangeOrder} (opt : list (Opt OptionFunc)) : outcome options :=
  let (wrappingOptions, localOptions) := split_options opt in
  o ← GetOpts wrappingOptions;
  opts ← range_loop config_step (range_order (WithConfigMap_ (o_RPC o))) (getDefaultOptions o);
  run_local localOptions opts.

(** ** structs.go *)

Record Settings := mkSettings {
  st_Auth : string;
  st_BearerToken : string;
  st_CertPath : string;
  st_KeyPath : string;
  st_RestApi : string;
  st_CheckEvery : Z;
  st_ApprovalTimeout : Z;
  st_ApiKeys : ApiKeyTypes;
  st_ApplicationKeyPair : KeyPair;
}.

Record Configurations := mkConfigurations { co_Settings : Settings; co_Policy : Policy; co_RSALabel : string }.

(** A list that is empty is left out. *)
Definition api_keys_json (k : ApiKeyTypes) : json :=
  let part name l := match l with [] => [] | _ => [(name, JArr (map JStr l))] end in
  JObj (part KeyManagementTokenName (KeyManagementToken k) ++ part KeyOperationTokenName (KeyOperationToken k) ++
    part ApproverTokenName (ApproverToken k) ++ part ServiceTokenName (ServiceToken k) ++
    part ApproverKeyManagementTokenName (ApproverKeyManagementToken k)).

Definition WrapCertificateWithHeaders (certificate : string) : string :=
  cat ["-----BEGIN CERTIFICATE-----"; newline; certificate; newline; "-----END CERTIFICATE-----"].

Definition WrapPublicKeyWithHeaders (publicKey : string) : string :=
  cat ["-----BEGIN RSA PUBLIC KEY-----"; newline; publicKey; newline; "-----END RSA PUBLIC KEY-----"].

Section wrapper.
Context `{Pki} `{Tsb}.
Context (ReadFile : string -> outcome string).
Context (cert_rsa : x509_certificate -> option (Z * Z)) (public_rsa : x509_public -> option (Z * Z)).
Context (Decode : list (string * json) -> outcome Policy).
Context (interrupted : tsb_world -> bool).

Definition ReadCertificate (possibleCertificate : string) : outcome x509_certificate :=
  match pem_Decode (WrapCertificateWithHeaders possibleCertificate) with
  | None => Fail (ErrLeaf "Cannot parse certificate")
  | Some (_, b) => match ParseCertificate b with
                   | Some c => Ret c
                   | None => Fail (ErrLeaf "x509: malformed certificate")
                   end
  end.

(** ** hsm_config.go *)

Definition NONE : string := "NONE".

Definition TOKEN : string := "TOKEN".

Definition CERT : string := "CERT".

Definition readable (path : string) : bool :=
  negb (String.eqb path "") && is_ret (ReadFile path).

(** The checks before the connection is tried. *)
Definition settings_valid (s : Settings) : bool :=
  negb (st_CheckEvery s =? 0) && negb (st_ApprovalTimeout s =? 0) && negb (st_ApprovalTimeout s <=? st_CheckEvery s) &&
  negb (String.eqb (st_Auth s) "") &&
  (String.eqb (st_Auth s) TOKEN || String.eqb (st_Auth s) CERT || String.eqb (st_Auth s) NONE) &&
  (if String.eqb (st_Auth s) TOKEN then negb (String.eqb (st_BearerToken s) "") else true) &&
  (if String.eqb (st_Auth s) CERT then readable (st_CertPath s) && readable (st_KeyPath s) else true).

Definition provider_of (s : Settings) (apikeys : json) : gmap string json :=
  {["restapi" := JStr (st_RestApi s); "auth" := JStr (st_Auth s); "bearertoken" := JStr (st_BearerToken s);
    "certpath" := JStr (st_CertPath s); "keypath" := JStr (st_KeyPath s); "apikeys" := apikeys]}.

Definition checkConfigFile (s : Settings) : prog tsb_world bool :=
  r ← attempt (NewKeyStore (Some (provider_of s (JStr (marshal (api_keys_json (st_ApiKeys s)))))));
  match r with
  | Panic => lift Panic
  | Fail _ => mret false
  | Ret _ => mret (settings_valid s)
  end.

(** ** securosysHSM_client.go *)

Record SecurosysHSMClient := mkSecurosysHSMClient {
  hc_keystore : TSBClient;
  hc_key : kms_Key;
  hc_config : Configurations;
}.

(** The process exits. *)
Definition exit {A} : outcome A := Panic.

Definition or_exit {A} (o : outcome A) : outcome A := match o with Ret a => Ret a | _ => exit end.

(** A rule must be a map of strings; what it says is not used. *)
Definition check_rule (rule : string) : outcome unit :=
  if String.eqb rule "" then Ret tt
  else match parse (remove_char "010" rule) ≫= map_value string_value with Some _ => Ret tt | None => exit end.

(** The text of the policy, and whether it is a simple one. *)
Definition policy_text (opts : options) : outcome (string * bool) :=
  if negb (String.eqb (withPolicy opts) "") then Ret (remove_char "010" (withPolicy opts), true)
  else if negb (String.eqb (withPolicyRuleUse opts) "") || negb (String.eqb (withPolicyRuleBlock opts) "") ||
          negb (String.eqb (withPolicyRuleUnBlock opts) "") || negb (String.eqb (withPolicyRuleModify opts) "") then
    _ ← check_rule (withPolicyRuleUse opts);
    _ ← check_rule (withPolicyRuleBlock opts);
    _ ← check_rule (withPolicyRuleUnBlock opts);
    _ ← check_rule (withPolicyRuleModify opts);
    Ret ("", true)
  else if negb (String.eqb (withFullPolicy opts) "") then Ret (withFullPolicy opts, false)
  else if negb (String.eqb (withFullPolicyFile opts) "") then
    data ← or_exit (ReadFile (withFullPolicyFile opts)); Ret (data, false)
  else Ret ("{}", true).

(** A number that cannot be read leaves 0. *)
Definition read_seconds (s : string) : Z := match Atoi_or s with (z, None) => z | _ => 0 end.

Definition required_option (name value : string) : outcome string :=
  if String.eqb value "" then Fail (ErrLeaf (name +:+ " is required")) else Ret value.

Definition configurations_of `{RangeOrder} (opts : options) : outcome Configurations :=
  keyLabel ← required_option "key_label" (withKeyLabel opts);
  '(policyStr, simplified) ← policy_text opts;
  policy ← or_exit (PreparePolicy policyStr simplified);
  auth ← required_option "auth" (withAuth opts);
  tsbApiEndpoint ← required_option "tsb_api_endpoint" (withTSBApiEndpoint opts);
  let approvalTimeout := if String.eqb (withApprovalTimeout opts) "" then "60" else withApprovalTimeout opts in
  Ret (mkConfigurations (mkSettings auth (withBearerToken opts) (withCertPath opts) (withKeyPath opts) tsbApiEndpoint
    (read_seconds (withCheckEvery opts)) (read_seconds approvalTimeout) (read_api_keys (withApiKeys opts))
    (read_key_pair (withApplicationKeyPair opts))) policy keyLabel).

Definition rsa_key_attributes (policy : option (list (string * json))) (keyLabel : string) : kms_KeyAttributes :=
  mkKmsKeyAttributes policy KeyType_RSA_Private keyLabel 2048 Curve_None true false false true true
    true true false true true true true.

(** The configured key, or a new one. *)
Definition find_or_create (config : Configurations) : prog hsm kms_Key :=
  key ← attempt (GetKeyByName Background (co_RSALabel config));
  match key with
  | Panic => lift Panic
  | Ret key => mret key
  | Fail _ =>
      toMap ← lift (PolicyToMap (Some (co_Policy config)));
      newKey ← attempt (GenerateKeyPair Decode Background (rsa_key_attributes toMap (co_RSALabel config)));
      match newKey with
      | Panic => lift Panic
      | Ret (newKey, _) => mret newKey
      | Fail e => lift (Fail (ErrLeaf ("Error on creating RSA Key: " +:+ err_msg e)))
      end
  end.

Definition wrapper_config (opts : options) : WrapperConfig := mkWrapperConfig
  {["tsb_api_endpoint" := withTSBApiEndpoint opts; "check_every" := withCheckEvery opts;
    "key_label" := withKeyLabel opts; "auth" := withAuth opts;
    "approval_timeout" := if String.eqb (withApprovalTimeout opts) "" then "60" else withApprovalTimeout opts]}.

(** The API keys are handed over as an object where a text is expected. *)
Definition newSecurosysHSMClient `{RangeOrder} (opts : options) :
    prog tsb_world (SecurosysHSMClient * WrapperConfig) :=
  config ← lift (configurations_of opts);
  let s := co_Settings config in
  valid ← checkConfigFile s;
  _ ← lift (if (valid : bool) then Ret tt else exit);
  keystore ← NewKeyStore (Some (provider_of s (api_keys_json (st_ApiKeys s))));
  r ← with_client keystore (find_or_create config);
  mret (mkSecurosysHSMClient r.2 r.1 config, wrapper_config opts).

(** [c.key.( *PrivateKey)]. *)
Definition private_key (k : kms_Key) : outcome kms_Key := match k with PrivateKey _ _ => Ret k | _ => Panic end.

Definition client_Encrypt (key : kms_Key) (plaintext : string) : prog hsm string :=
  key ← lift (private_key key);
  encrypted ← run_with (NewCipher (with_key key Background) CipherOp_Encrypt CipherMode_RSA_OAEP_SHA256 ParamNil)
    (cipher_Close 0 Background (bytes_of_string plaintext));
  match encrypted with
  | Some encrypted => mret (cat ["securosys:"; "v1"; ":"; b64 encrypted])
  | None => lift Panic    (* an encryption does not wait *)
  end.

(** Names of approvers are looked up for the log; the pointers of an approval are
    dereferenced. *)
Fixpoint approver_among (publicKey : string) (l : list Approval) : outcome string :=
  match l with
  | [] => Ret ""
  | a :: l =>
      match ap_Value a with
      | None => Panic
      | Some value =>
          let name := match ap_Name a with Some n => Ret n | None => Panic end in
          if String.eqb publicKey value then name
          else match ReadCertificate value with
          | Ret cert =>
              key ← BytesToPublicKey (WrapPublicKeyWithHeaders publicKey);
              match cert_rsa cert, key ≫= public_rsa with
              | Some (n, e), Some (n', e') => if (n =? n') && (e' =? e) then name else approver_among publicKey l
              | _, _ => Panic
              end
          | _ => approver_among publicKey l
          end
      end
  end.

Definition rule_approvals (r : Rule) : list Approval :=
  concat (map (fun t => concat (map (fun g => default [] (gr_Approvals g)) (default [] (tk_Groups t))))
    (default [] (ru_Tokens r))).

Definition getApproverName (key : kms_Key) (publicKey : string) : outcome string :=
  match MapToPolicy Decode (kk_ProviderSpecific (key_GetKeyAttributes (inner_key key))) with
  | Ret (Some policy) => approver_among publicKey (rule_approvals (po_RuleUse policy))
  | Ret None => Panic
  | Fail _ => Ret ""
  | Panic => Panic
  end.

Fixpoint log_approvers (key : kms_Key) (l : list string) : outcome unit :=
  match l with [] => Ret tt | a :: l => _ ← getApproverName key a; log_approvers key l end.

(** The loop that waits for approvals; [None] when [rounds] are used up.  A request that
    cannot be read gives a nil answer, which the loop looks into. *)
Fixpoint wait_approval (rounds : nat) (key : kms_Key) (s : Settings) (start : Z) (requestId : string)
    (resp : option RequestResponse) : prog hsm (option RequestResponse) :=
  match resp with
  | None => lift Panic
  | Some resp =>
      if String.eqb (rr_Status resp) "PENDING" then
        w ← world;
        if interrupted w then lift (Fail (ErrLeaf "context canceled"))
        else if st_ApprovalTimeout s <=? NowUnix w - start then lift exit
        else match rounds with
        | O => mret None
        | S rounds =>
            _ ← on_world (fun w => (tt, Sleep (st_CheckEvery s) w));
            _ ← lift (log_approvers key (rr_NotYetApprovedBy resp));
            r ← GetRequest requestId;
            wait_approval rounds key s start requestId (rp_value r)
        end
      else mret (Some resp)
  end.

(** Any status but PENDING and REJECTED is taken for success. *)
Definition client_Decrypt (rounds : nat) (key : kms_Key) (s : Settings) (encryptedPayload : string) :
    prog hsm (option string) :=
  key ← lift (private_key key);
  let cipher := NewCipher (with_key key Background) CipherOp_Decrypt CipherMode_RSA_OAEP_SHA256 ParamNil in
  requestId ← run_with cipher (
    _ ← cipher_Update Background (b64_anyway encryptedPayload);
    DecryptAsyncRequest {["app" := "OpenBao - Unseal Operation"]});
  r ← GetRequest requestId;
  _ ← lift (of_err (rp_err r));
  w ← world;
  resp ← wait_approval rounds key s (NowUnix w) requestId (rp_value r);
  match resp with
  | None => mret None
  | Some resp =>
      if String.eqb (rr_Status resp) "REJECTED" then
        _ ← lift (log_approvers key (rr_RejectedBy resp)); lift exit
      else
        _ ← lift (log_approvers key (rr_NotYetApprovedBy resp)); mret (Some (rr_Result resp))
  end.

(** ** securosysHSM.go *)

Record wrapper := mk_wrapper {
  w_currentKeyId : string;
  w_hsmClient : option SecurosysHSMClient;
}.

Definition Type_securosyshsm : string := "securosys-hsm".

Definition NewWrapper : wrapper := mk_wrapper "" None.

(** The object with the world behind it. *)
Definition wstate : Type := wrapper * tsb_world.

Definition SetConfig `{RangeOrder} (opt : list (Opt OptionFunc)) : prog wstate WrapperConfig :=
  opts ← lift (getOpts opt);
  r ← zoom snd (fun w s => (s.1, w)) (newSecurosysHSMClient opts);
  _ ← modify (fun s : wstate => (mk_wrapper (w_currentKeyId s.1) (Some r.1), s.2));
  mret r.2.

Definition Init : prog wstate unit := mret tt.

(** The field [client] is set nowhere: it is a nil interface. *)
Definition Finalize : prog wstate unit := lift Panic.

Definition GetClient : outcome (option unit) := Ret None.

Definition KeyId : prog wstate string := s ← get; mret (w_currentKeyId (fst s)).

(** A method of [s.hsmClient]; a nil pointer panics. *)
Definition in_hsmClient {A} (m : SecurosysHSMClient -> prog hsm A) : prog wstate A := fun s =>
  match w_hsmClient s.1 with
  | None => (Panic, s)
  | Some c =>
      let (o, h) := m c (mkHsm (hc_keystore c) s.2) in
      (o, (mk_wrapper (w_currentKeyId s.1) (Some (mkSecurosysHSMClient (h_client h) (hc_key c) (hc_config c))),
           h_world h))
  end.

Definition split3 (s : string) : outcome (string * string * string) :=
  match Split s ":" with
  | [a; b; c] => Ret (a, b, c)
  | _ => Fail (ErrLeaf "invalid ciphertext returned")
  end.

Definition Encrypt (plaintext : slice) : prog wstate BlobInfo :=
  payload ← in_hsmClient (fun c => client_Encrypt (hc_key c) (b64 (content plaintext)));
  '(_, keyId, _) ← lift (split3 payload);
  _ ← modify (fun s : wstate => (mk_wrapper keyId (w_hsmClient s.1), s.2));
  mret (mkBlobInfo (Some (bytes_of_string payload)) None (Some (mkKeyInfo 0 keyId None))).

(** The text is decoded twice, errors ignored. *)
Definition Decrypt (rounds : nat) (in_ : option BlobInfo) : prog wstate (option slice) :=
  in_ ← lift (match in_ with Some b => Ret b | None => Panic end);
  '(_, keyId, payload) ← lift (split3 (string_of_bytes (content (bi_Ciphertext in_))));
  plaintext ← in_hsmClient (fun c => client_Decrypt rounds (hc_key c) (co_Settings (hc_config c)) payload);
  mret ((fun p => Some (b64_anyway (string_of_bytes (b64_anyway p)))) <$> plaintext).
End wrapper.

(** ** What a call leaves as it is

    A relation on the states that every exchange and every roll-over keeps is kept by the
    operations. *)

Section frames.
Context `{Pki} `{Tsb} (R : hsm -> hsm -> Prop) `{!PreOrder R}.

Definition frame {A} (m : prog hsm A) : Prop := forall s, R s (m s).2.

Lemma frame_still {A} (m : prog hsm A) : (forall s, (m s).2 = s) -> frame m.
Proof. intros Hm s. by rewrite Hm. Qed.

Lemma frame_lift {A} (o : outcome A) : frame (lift o).
Proof. by apply frame_still. Qed.

Lemma frame_bind {A B} (m : prog hsm A) (f : A -> prog hsm B) : frame m -> (forall a, frame (f a)) -> frame (m ≫= f).
Proof.
  intros Hm Hf s. unfold mbind, prog_bind. specialize (Hm s). destruct (m s) as [[a|e|] s']; simpl in *; [|done..].
  etransitivity; [exact Hm | apply Hf].
Qed.

Lemma frame_attempt {A} (m : prog hsm A) : frame m -> frame (attempt m).
Proof. intros Hm s. specialize (Hm s). unfold attempt. by destruct (m s). Qed.

Context (frame_Do : forall r, frame (on_world (http_Do r))).
Context (frame_RollOver : forall name, frame (in_client (RollOverApiKey name))).

Local Ltac frame known := repeat first
  [ known | apply frame_lift | apply frame_Do | apply frame_RollOver | apply frame_bind; [|intros ?] | apply frame_attempt
  | (apply frame_still; reflexivity) | case_match ].

Lemma frame_doRequest fuel name req : frame (doRequest_loop fuel req name).
Proof. revert req. induction fuel as [|fuel IH]; intros req; cbn [doRequest_loop]; frame ltac:(apply IH). Qed.

Lemma frame_call method path body name : frame (call method path body name).
Proof. unfold call, doRequest. frame ltac:(apply frame_doRequest). Qed.

Lemma frame_GetRequest id : frame (GetRequest id).
Proof. unfold GetRequest. frame ltac:(apply frame_call). Qed.

Lemma frame_GetKey label password : frame (GetKey label password).
Proof. unfold GetKey. frame ltac:(apply frame_call). Qed.

Lemma frame_find_or_create Decode config : frame (find_or_create Decode config).
Proof.
  unfold find_or_create, GetKeyByName, GenerateKeyPair, CreateOrUpdateKey, check_ctx.
  frame ltac:(first [apply frame_GetKey | apply frame_call]).
Qed.
End frames.

(** ** What reaches the client *)

(** The keys as JSON carries them: bytes that are not UTF-8 are replaced. *)
Definition utf8_keys (k : ApiKeyTypes) : ApiKeyTypes :=
  let u := map (coerce_utf8 0) in
  mkApiKeyTypes (u (KeyManagementToken k)) (u (KeyOperationToken k)) (u (ApproverToken k)) (u (ServiceToken k))
    (u (ApproverKeyManagementToken k)).

Definition no_api_keys : ApiKeyTypes := mkApiKeyTypes [] [] [] [] [].

(** What the wrapper's settings make of a client that is given these API keys. *)
Definition client_of (s : Settings) (keys : ApiKeyTypes) : TSBClient :=
  let u := coerce_utf8 0 in
  NewTSBClient (u (st_RestApi s)) (mkAuthStruct "OpenBao - Securosys HSM KMS" (u (st_Auth s)) (u (st_CertPath s))
    (u (st_KeyPath s)) (u (st_BearerToken s)) "" "" "" keys (mkKeyPair None None) (mkApiKeyTypesRetry 0 0 0 0 0)).

Lemma provider_entries s k : sorted_entries (provider_of s k) =
  [("apikeys", k); ("auth", JStr (st_Auth s)); ("bearertoken", JStr (st_BearerToken s));
   ("certpath", JStr (st_CertPath s)); ("keypath", JStr (st_KeyPath s)); ("restapi", JStr (st_RestApi s))].
Proof. vm_compute. reflexivity. Qed.

Lemma NewClient_members v auth bearer cert key rest :
  let l := [("apikeys", v); ("auth", JStr auth); ("bearertoken", JStr bearer); ("certpath", JStr cert);
            ("keypath", JStr key); ("restapi", JStr rest)] in
  let f name := string_field name l in
  NewClient (Some (mkSecurosysConfig (f "auth") (f "bearertoken") (f "username") (f "password") (f "basictoken")
    (f "certpath") (f "keypath") (f "restapi") (f "appName") (f "applicationKeyPair") (f "apiKeys"))) =
  Ret (NewTSBClient (coerce_utf8 0 rest) (mkAuthStruct "OpenBao - Securosys HSM KMS" (coerce_utf8 0 auth)
    (coerce_utf8 0 cert) (coerce_utf8 0 key) (coerce_utf8 0 bearer) "" "" ""
    (read_api_keys (coerce_utf8 0 (default "" (string_value v)))) (mkKeyPair None None) (mkApiKeyTypesRetry 0 0 0 0 0))).
Proof. reflexivity. Qed.

Lemma NewClient_provider s k : int_numbers k = true ->
  NewClient (Some (config_of (provider_of s k))) =
  Ret (client_of s (read_api_keys (coerce_utf8 0 (default "" (string_value (coerced k)))))).
Proof.
  intros Hk. unfold config_of. rewrite provider_entries, parse_marshal_coerced by (cbn [int_numbers forallb fst snd]; by rewrite Hk).
  etransitivity; [exact (NewClient_members (coerced k) (coerce_utf8 0 (st_Auth s)) (coerce_utf8 0 (st_BearerToken s))
    (coerce_utf8 0 (st_CertPath s)) (coerce_utf8 0 (st_KeyPath s)) (coerce_utf8 0 (st_RestApi s)))|].
  unfold client_of. by rewrite !coerce_idemp.
Qed.

Lemma api_keys_numbers k : int_numbers (api_keys_json k) = true.
Proof.
  assert (Hp : forall l, forallb int_numbers (map JStr l) = true) by (induction l; done).
  unfold api_keys_json. cbn [int_numbers]. rewrite !forallb_app.
  destruct k as [[|] [|] [|] [|] [|]]; cbn [KeyManagementToken KeyOperationToken ApproverToken ServiceToken
    ApproverKeyManagementToken forallb fst snd int_numbers]; by rewrite ?Hp.
Qed.

Lemma read_strings_coerced l : read_strings (coerced (JArr (map JStr l))) = map (coerce_utf8 0) l.
Proof. cbn [coerced read_strings]. induction l as [|x l IH]; [done|]. cbn [map coerced string_or_empty]. by f_equal. Qed.

Lemma read_api_keys_marshal k : read_api_keys (marshal (api_keys_json k)) = utf8_keys k.
Proof.
  unfold read_api_keys. rewrite parse_marshal_coerced by apply api_keys_numbers.
  unfold utf8_keys. destruct k as [m o a s k]. cbn [KeyManagementToken KeyOperationToken ApproverToken ServiceToken ApproverKeyManagementToken].
  rewrite <- (read_strings_coerced m), <- (read_strings_coerced o), <- (read_strings_coerced a), <- (read_strings_coerced s),
    <- (read_strings_coerced k).
  by destruct m, o, a, s, k.
Qed.

(** One key store with a successful test of its connection. *)
Lemma NewKeyStore_Ret `{Pki} `{Tsb} s k w c w1 : int_numbers k = true ->
  NewKeyStore (Some (provider_of s k)) w = (Ret c, w1) ->
  exists r, CheckConnection (mkHsm (client_of s (read_api_keys (coerce_utf8 0 (default "" (string_value (coerced k)))))) w) =
    (Ret r, mkHsm c w1) /\ rp_err r = None /\ rp_code r = 200.
Proof.
  intros Hk. unfold NewKeyStore. rewrite lift_bind, NewClient_provider, lift_bind by done.
  generalize (client_of s (read_api_keys (coerce_utf8 0 (default "" (string_value (coerced k)))))). intros c0.
  unfold with_client. unfold mbind, prog_bind.
  destruct (CheckConnection (mkHsm c0 w)) as [[r|e|] h]; cbn; [|done..].
  destruct (rp_err r) eqn:Er; cbn; [done|]. destruct (rp_code r =? 200) eqn:Ec; cbn; [|done].
  intros [= <- <-]. exists r. apply Z.eqb_eq in Ec. by destruct h.
Qed.

(** The keys and the key pair of a client. *)
Definition same_secrets `{Tsb} (s s' : hsm) : Prop :=
  ApiKeys (Auth (h_client s')) = ApiKeys (Auth (h_client s)) /\
  ApplicationKeyPair (Auth (h_client s')) = ApplicationKeyPair (Auth (h_client s)).

#[export] Instance same_secrets_PreOrder `{Tsb} : PreOrder same_secrets.
Proof. unfold same_secrets. split; [done|]. intros s1 s2 s3 [-> ->] [-> ->]. done. Qed.

Lemma bump_secrets name c : ApiKeys (Auth (bump_index name c)) = ApiKeys (Auth c) /\
  ApplicationKeyPair (Auth (bump_index name c)) = ApplicationKeyPair (Auth c).
Proof. unfold bump_index. destruct (CurrentApiKeyTypeIndex _). by destruct c as [u []]. Qed.

Lemma same_secrets_Do `{Pki} `{Tsb} r : frame same_secrets (on_world (http_Do r)).
Proof. intros s. unfold on_world. by destruct (http_Do r (h_world s)). Qed.

Lemma same_secrets_RollOver `{Pki} `{Tsb} name : frame same_secrets (in_client (RollOverApiKey name)).
Proof.
  intros s. unfold in_client, zoom, same_secrets, RollOverApiKey. rewrite get_bind.
  destruct (group_keys name (h_client s)); [|done]. destruct (_ && _); [done|]. apply (bump_secrets name (h_client s)).
Qed.

Lemma CheckConnection_secrets `{Pki} `{Tsb} : frame same_secrets CheckConnection.
Proof. apply frame_call; [apply _|apply same_secrets_Do|apply same_secrets_RollOver]. Qed.

Lemma find_or_create_secrets `{Pki} `{Tsb} Decode config : frame same_secrets (find_or_create Decode config).
Proof. apply frame_find_or_create; [apply _|apply same_secrets_Do|apply same_secrets_RollOver]. Qed.

Lemma configurations_of_keys `{Pki} `{RangeOrder} ReadFile opts config : configurations_of ReadFile opts = Ret config ->
  st_ApiKeys (co_Settings config) = read_api_keys (withApiKeys opts).
Proof. unfold configurations_of. intros Hc. inv_ret. destruct a0. inv_ret. by subst. Qed.

(** C34: a configuration that succeeds reads the API keys it is given and uses them to test
    the connection: one exchange, with the answer 200, of a client with these keys (bytes
    that are not UTF-8 replaced, as JSON does). The client the wrapper keeps for its
    operations is another one: it was tested by an exchange of its own, without API keys,
    and it has none and no application key pair, whatever was configured: the keys are
    given to it as an object where a text is expected, the key pair not at all. *)
Theorem api_keys_lost `{Pki} `{Tsb} `{RangeOrder} ReadFile Decode opts w hc cfg w' :
  newSecurosysHSMClient ReadFile Decode opts w = (Ret (hc, cfg), w') ->
  let s := co_Settings (hc_config hc) in
  st_ApiKeys s = read_api_keys (withApiKeys opts) /\
  (exists r1 h1 r2 h2,
    CheckConnection (mkHsm (client_of s (utf8_keys (st_ApiKeys s))) w) = (Ret r1, h1) /\
    rp_err r1 = None /\ rp_code r1 = 200 /\
    CheckConnection (mkHsm (client_of s no_api_keys) (h_world h1)) = (Ret r2, h2) /\
    rp_err r2 = None /\ rp_code r2 = 200) /\
  ApiKeys (Auth (hc_keystore hc)) = mkApiKeyTypes [] [] [] [] [] /\
  ApplicationKeyPair (Auth (hc_keystore hc)) = mkKeyPair None None.
Proof.
  intros (config & w0 & Hconf & Hnew)%pbind_Ret.
  assert (Hw0 : w0 = w /\ st_ApiKeys (co_Settings config) = read_api_keys (withApiKeys opts)).
  { unfold lift in Hconf. injection Hconf as Hconf <-. split; [done|]. by eapply configurations_of_keys. }
  destruct Hw0 as [-> Hkeys]. cbv zeta in Hnew.
  apply pbind_Ret in Hnew as (valid & w1 & Hcheck & Hnew). apply pbind_Ret in Hcheck as (o & w1' & Htest & Hvalid).
  apply pbind_Ret in Hnew as ([] & w1'' & Hexit & Hnew). apply pbind_Ret in Hnew as (c2 & w2 & Hkeep & Hnew).
  apply pbind_Ret in Hnew as ([key c3] & w3 & Hfind & [= <- _ _]). cbn [hc_config hc_keystore fst snd].
  assert (Hw1 : exists c1, o = Ret c1 /\ w1'' = w1').
  { unfold lift in Hexit. injection Hexit as Hexit <-.
    destruct o as [c1|e|]; injection Hvalid as Hv <-; [by exists c1|subst; done|done]. }
  destruct Hw1 as (c1 & -> & ->). unfold attempt in Htest.
  destruct (NewKeyStore _ w) as [o w1''] eqn:E1. injection Htest as -> ->.
  apply NewKeyStore_Ret in E1 as (r1 & Ht1 & He1 & Hc1); [|done].
  apply NewKeyStore_Ret in Hkeep as (r2 & Ht2 & He2 & Hc2); [|apply api_keys_numbers].
  cbn [coerced string_value default from_option] in Ht1. unfold id in Ht1.
  rewrite is_utf8_coerce, is_utf8_coerce, read_api_keys_marshal in Ht1 by first [apply marshal_utf8 | rewrite is_utf8_coerce; apply marshal_utf8].
  split; [exact Hkeys|]. split; [by eauto 12|].
  pose proof (CheckConnection_secrets (mkHsm (client_of (co_Settings config) no_api_keys) w1')) as [Ha Hb].
  change (read_api_keys _) with no_api_keys in Ht2.
  rewrite Ht2 in Ha, Hb. cbn [snd h_client] in Ha, Hb.
  pose proof (find_or_create_secrets Decode config (mkHsm c2 w2)) as [Ha' Hb'].
  unfold with_client in Hfind. destruct (find_or_create Decode config (mkHsm c2 w2)) as [[a|e|] h]; simplify_eq/=.
  rewrite Ha', Hb', Ha, Hb. done.
Qed.

Definition example_settings : Settings := mkSettings "TOKEN" "t0ken" "" "" "https://hsm/" 2 60
  (mkApiKeyTypes ["km"] ["op1"; "op2"] [] [] []) (mkKeyPair (Some "priv") (Some "pub")).

(** A service with one key. *)
Definition key_server : Tsb := server_tsb (fun r (w : unit) =>
  (if String.eqb (rq_URL r) "https://hsm/v1/key/attributes" then mkResponse 200 (Ret (marshal (JObj
     [("json", JObj [("label", JStr "key"); ("algorithm", JStr "RSA"); ("algorithmOid", JStr ""); ("attributes", JObj [])]);
      ("xml", JStr ""); ("xmlSignature", JStr ""); ("attestationKeyName", JStr "")])))
   else mkResponse 200 (Ret "{}"), w)).

Definition example_options : options :=
  set_withKeyLabel "key" (set_withAuth "TOKEN" (set_withBearerToken "t0ken" (set_withCheckEvery "2"
    (set_withTSBApiEndpoint "https://hsm/" (set_withApiKeys (q "{'KeyOperationToken': ['op1', 'op2']}")
      (getDefaultOptions Wrapping.getDefaultOptions)))))).

Lemma api_keys_lost_witness : exists hc cfg w',
  @newSecurosysHSMClient text_pki key_server (fun _ => Ret "") (fun _ => Panic) default_order example_options (0, tt) =
    (Ret (hc, cfg), w') /\
  KeyOperationToken (st_ApiKeys (co_Settings (hc_config hc))) = ["op1"; "op2"] /\
  ApiKeys (Auth (hc_keystore hc)) = no_api_keys.
Proof.
  assert (Hr : is_ret (@newSecurosysHSMClient text_pki key_server (fun _ => Ret "") (fun _ => Panic) default_order
    example_options (0, tt)).1 = true) by (vm_compute; reflexivity).
  destruct (@newSecurosysHSMClient text_pki key_server (fun _ => Ret "") (fun _ => Panic) default_order example_options (0, tt))
    as [o w'] eqn:E.
  destruct o as [[hc cfg]|e|]; [|discriminate Hr..]. exists hc, cfg, w'.
  destruct (@api_keys_lost text_pki key_server default_order (fun _ => Ret "") (fun _ => Panic) example_options (0, tt)
    hc cfg w' E) as (Hk & _ & Hl & _).
  split; [reflexivity|]. split; [|exact Hl]. rewrite Hk. vm_compute. reflexivity.
Defined.

(** ** A policy by its rules *)

Section rules.
Context `{Pki} `{Tsb}.
Context (ReadFile : string -> outcome string).
Context (Decode : list (string * json) -> outcome Policy).
Context `{RangeOrder}.

(** a configuration that gives the policy by its rules (policy_rule_use and so on) ends
    the process, whatever the rules are: they are checked, and then an empty text is
    read as the policy. *)
Theorem policy_rules_exit opts w :
  withKeyLabel opts <> "" -> withPolicy opts = "" ->
  (withPolicyRuleUse opts <> "" \/ withPolicyRuleBlock opts <> "" \/ withPolicyRuleUnBlock opts <> "" \/
   withPolicyRuleModify opts <> "") ->
  newSecurosysHSMClient ReadFile Decode opts w = (Panic, w).
Proof.
  intros Hl Hp Hr. unfold newSecurosysHSMClient. rewrite lift_bind.
  assert (Hc : configurations_of ReadFile opts = Panic); [|by rewrite Hc].
  unfold configurations_of, required_option. rewrite (proj2 (String.eqb_neq _ _) Hl). cbn [mbind outcome_bind].
  assert (Ht : policy_text ReadFile opts = Panic \/ policy_text ReadFile opts = Ret ("", true)).
  { unfold policy_text. rewrite Hp, String.eqb_refl. cbn [negb].
    assert (Hb : negb (withPolicyRuleUse opts =? "")%string || negb (withPolicyRuleBlock opts =? "")%string ||
      negb (withPolicyRuleUnBlock opts =? "")%string || negb (withPolicyRuleModify opts =? "")%string = true).
    { destruct (String.eqb_spec (withPolicyRuleUse opts) ""), (String.eqb_spec (withPolicyRuleBlock opts) ""),
        (String.eqb_spec (withPolicyRuleUnBlock opts) ""), (String.eqb_spec (withPolicyRuleModify opts) "");
        try reflexivity. naive_solver. }
    rewrite Hb. assert (Hrule : forall r, check_rule r = Ret tt \/ check_rule r = Panic).
    { intros r. unfold check_rule. repeat case_match; auto. }
    destruct (Hrule (withPolicyRuleUse opts)) as [-> | ->]; [cbn [mbind outcome_bind]|by left].
    destruct (Hrule (withPolicyRuleBlock opts)) as [-> | ->]; [cbn [mbind outcome_bind]|by left].
    destruct (Hrule (withPolicyRuleUnBlock opts)) as [-> | ->]; [cbn [mbind outcome_bind]|by left].
    destruct (Hrule (withPolicyRuleModify opts)) as [-> | ->]; [by right|by left]. }
  destruct Ht as [-> | ->]; done.
Qed.
End rules.

Lemma policy_rules_exit_witness :
  @newSecurosysHSMClient text_pki quiet_server (fun _ => Ret "") (fun _ => Panic) default_order
    (set_withPolicyRuleUse (q "{'ann': 'MII='}") (set_withKeyLabel "key" (getDefaultOptions Wrapping.getDefaultOptions))) (0, tt) =
  (Panic, (0, tt)).
Proof.
  apply (@policy_rules_exit text_pki quiet_server (fun _ => Ret "") (fun _ => Panic) default_order
    (set_withPolicyRuleUse (q "{'ann': 'MII='}") (set_withKeyLabel "key" (getDefaultOptions Wrapping.getDefaultOptions))) (0, tt)).
  - discriminate.
  - reflexivity.
  - left. discriminate.
Defined.

(** ** The wait for approvals ends *)

Section waiting.
Context `{Pki} `{Tsb}.
Context (cert_rsa : x509_certificate -> option (Z * Z)) (public_rsa : x509_public -> option (Z * Z)).
Context (Decode : list (string * json) -> outcome Policy).
Context (interrupted : tsb_world -> bool).

(** Sleeping takes its time, and the clock is not set back. *)
Record clock_advances : Prop := {
  ca_sleep : forall n w, 0 < n -> NowUnix w + n <= NowUnix (Sleep n w);
  ca_http : forall r w, NowUnix w <= NowUnix (http_Do r w).2;
}.

(** Time does not go back. *)
Definition later (s s' : hsm) : Prop := NowUnix (h_world s) <= NowUnix (h_world s').

#[export] Instance later_PreOrder : PreOrder later.
Proof. unfold later. split; [intros s; lia | intros s1 s2 s3; lia]. Qed.

Lemma later_GetRequest id : clock_advances -> frame later (GetRequest id).
Proof.
  intros Hc. apply frame_GetRequest; [apply _|..].
  - intros r s. unfold on_world, later. pose proof (ca_http Hc r (h_world s)) as Hw. by destruct (http_Do r (h_world s)).
  - intros name s. unfold in_client, zoom, later. destruct (RollOverApiKey name (h_client s)). simpl. lia.
Qed.

(** Each round of the loop is as long as the pause in it. *)
Lemma wait_approval_ends rounds key s start id : clock_advances -> 0 < st_CheckEvery s ->
  forall resp h, start + st_ApprovalTimeout s <= NowUnix (h_world h) + Z.of_nat rounds * st_CheckEvery s ->
  (wait_approval cert_rsa public_rsa Decode interrupted rounds key s start id resp h).1 <> Ret None.
Proof.
  intros Hc Hpos. induction rounds as [|rounds IH]; intros resp h Ht; destruct resp as [resp|]; try done; cbn [wait_approval];
    (destruct (String.eqb (rr_Status resp) "PENDING"); [|done]); rewrite world_bind;
    (destruct (interrupted (h_world h)); [done|]); destruct (Z.leb_spec (st_ApprovalTimeout s) (NowUnix (h_world h) - start));
    [done|lia|done|].
  rewrite on_world_bind, lift_bind. cbn [fst snd].
  destruct (log_approvers _ _ _ _ _) as [[]|e|]; [|done..].
  set (h1 := mkHsm (h_client h) (Sleep (st_CheckEvery s) (h_world h))).
  pose proof (later_GetRequest id Hc h1) as Hg. pose proof (ca_sleep Hc (st_CheckEvery s) (h_world h) Hpos) as Hs.
  unfold mbind at 1, prog_bind at 1. destruct (GetRequest id h1) as [[r|e|] h2]; [|done..]. apply IH.
  unfold later in Hg. cbn [snd] in Hg. unfold h1 in Hg. cbn [h_world] in Hg. lia.
Qed.

(** C25: a decryption that waits for approvals ends.  For a pause that is positive, as the code
    does not check, and a clock that is not set back, one round for each pause that
    fits into the approval timeout is enough, whatever the service answers; no more
    rounds are used. *)
Theorem client_Decrypt_terminates rounds key s ciphertext h : clock_advances -> 0 < st_CheckEvery s ->
  st_ApprovalTimeout s <= Z.of_nat rounds * st_CheckEvery s ->
  (client_Decrypt cert_rsa public_rsa Decode interrupted rounds key s ciphertext h).1 <> Ret None.
Proof.
  intros Hc Hpos Ht. unfold client_Decrypt. rewrite lift_bind. destruct (private_key key) as [k|e|]; [|done..].
  unfold mbind at 1, prog_bind at 1.
  destruct (run_with _ _ h) as [[id|e|] h1]; [|done..].
  unfold mbind at 1, prog_bind at 1. destruct (GetRequest id h1) as [[r|e|] h2]; [|done..].
  rewrite lift_bind. destruct (of_err (rp_err r)); [|done..]. rewrite world_bind.
  pose proof (wait_approval_ends rounds k s (NowUnix (h_world h2)) id Hc Hpos (rp_value r) h2 ltac:(lia)) as Hw.
  unfold mbind at 1, prog_bind at 1.
  destruct (wait_approval _ _ _ _ _ _ _ _ _ _ h2) as [[[resp|]|e|] h3]; [|done..].
  destruct (String.eqb (rr_Status resp) "REJECTED"); rewrite lift_bind; by destruct (log_approvers _ _ _ _ _).
Qed.
End waiting.

(** A service that never decides. *)
Definition pending_server : Tsb := server_tsb (fun r (w : unit) =>
  (if String.eqb (rq_Method r) "POST" then mkResponse 201 (Ret (q "{'decryptRequestId': '7'}"))
   else mkResponse 200 (Ret (q "{'id': '7', 'status': 'PENDING'}")), w)).

Definition example_key : kms_Key :=
  PrivateKey (mkKey (mkKeyAttributes None "key" ∅ (2048, 0) None None "MIIB" "RSA" "" "" "" "" "") "") "MIIB".

Lemma client_Decrypt_terminates_witness :
  (@client_Decrypt text_pki pending_server (fun _ => None) (fun _ => None) (fun _ => Panic) (fun _ => false) 30 example_key
    example_settings "Y3Q=" (@mkHsm pending_server (client_of example_settings no_api_keys) (0, tt))).1 <> Ret None.
Proof.
  apply (@client_Decrypt_terminates text_pki pending_server (fun _ => None) (fun _ => None) (fun _ => Panic) (fun _ => false)
    30 example_key example_settings "Y3Q=" (@mkHsm pending_server (client_of example_settings no_api_keys) (0, tt))).
  - split.
    + intros n w Hn. cbn [NowUnix Sleep pending_server server_tsb fst]. lia.
    + intros r w. cbn [NowUnix http_Do pending_server server_tsb]. destruct (if (_ =? _)%nat then _ else _); cbn [fst snd]; lia.
  - reflexivity.
  - discriminate.
Defined.

(** A request that failed is taken for a decryption to the empty text. *)
Definition failing_server : Tsb := server_tsb (fun r (w : unit) =>
  (if String.eqb (rq_Method r) "POST" then mkResponse 201 (Ret (q "{'decryptRequestId': '7'}"))
   else mkResponse 200 (Ret (q "{'id': '7', 'status': 'FAILED'}")), w)).

Example failed_request_decrypts :
  (@client_Decrypt text_pki failing_server (fun _ => None) (fun _ => None) (fun _ => Panic) (fun _ => false) 30 example_key
    example_settings "Y3Q=" (@mkHsm failing_server (client_of example_settings no_api_keys) (0, tt))).1 = Ret (Some "").
Proof. vm_compute. reflexivity. Qed.
