(* ===== verification/SecurosysRoundtrip.v ===== *)
(** * A Securosys service, and what the wrapper makes of it

    The behaviour of the REST service that the wrapper relies on, stated on the meaning
    of the requests, and the round trip through SecurosysWrapper.v that follows. *)
From S2P Require Import Prelude GoText GoEncoding GoJson Wrapping SecurosysHelpers SecurosysClient SecurosysRequests SecurosysKms SecurosysWrapper.

Local Open Scope Z_scope.

Definition OAEP : string := "RSA_PADDING_OAEP_WITH_SHA256".

Definition POST (url : string) (header : gmap string string) (body : string) : request :=
  mkRequest "POST" url header (String.length body) body (if String.eqb body "" then None else Some body).

Definition GET (url : string) (header : gmap string string) : request := mkRequest "GET" url header 0 "" None.

(** An answer that is JSON with a value that [decode] reads. *)
Definition answers `{Tsb} (r : request) (w : tsb_world) (code : Z) (reply : string) (w' : tsb_world) : Prop :=
  http_Do r w = ((Some (mkResponse code (Ret reply)), None), w').

(** The service at [host] with the key [label]: it encrypts what it is sent, takes a request
    to decrypt, and answers a question for that request with PENDING at most [sv_delay]
    times.  Nobody has to approve.  The base URL of the client and the identifiers the
    service gives its requests make URLs that net/http accepts.  An exchange takes at most
    [sv_slack] seconds on the client's clock, and a pause at most that much longer than
    asked for. *)
Record rest_service `{Tsb} (host label : string) := {
  sv_ready : tsb_world -> Prop;
  sv_seals : bytes -> bytes -> Prop;
  sv_request : nat -> string -> bytes -> tsb_world -> Prop;
  sv_delay : nat;
  sv_slack : Z;
  sv_url_encrypt : http_NewRequest "POST" (host +:+ "/v1/encrypt") = None;
  sv_url_decrypt : http_NewRequest "POST" (host +:+ "/v1/decrypt") = None;
  sv_url_request : forall n id x w, sv_request n id x w ->
    http_NewRequest "GET" (host +:+ "/v1/request/" +:+ id) = None;
  sv_clock_Do : forall r w, NowUnix (http_Do r w).2 <= NowUnix w + sv_slack;
  sv_clock_Sleep : forall n w, 0 < n -> NowUnix (Sleep n w) <= NowUnix w + n + sv_slack;
  sv_Sleep : forall n w, sv_ready w -> sv_ready (Sleep n w);
  sv_Sleep_request : forall n m id x w, sv_request m id x w -> sv_request m id x (Sleep n w);
  sv_encrypt : forall w header body x, sv_ready w ->
    parse body = Some (encrypt_object label "" (b64 x) OAEP (-1) "") ->
    exists reply ct iv mac version w', answers (POST (host +:+ "/v1/encrypt") header body) w 200 reply w' /\
      parse reply ≫= EncryptResponse_value = Some (mkEncryptResponse (b64 ct) "" iv mac version) /\
      sv_seals ct x /\ sv_ready w';
  sv_decrypt : forall w header body metaData ct x, sv_ready w -> sv_seals ct x ->
    parse body = Some (signed_object "decryptRequest"
      (decrypt_request_object (b64 ct) label metaData None "" "" OAEP 0 "") JNull) ->
    exists reply members id n w', answers (POST (host +:+ "/v1/decrypt") header body) w 201 reply w' /\
      unmarshal_map reply = Some members /\ get_key "decryptRequestId" members = JStr id /\
      (n <= sv_delay)%nat /\ sv_request n id x w' /\ sv_ready w';
  sv_answer : forall w header n id x, sv_ready w -> sv_request n id x w ->
    exists reply resp w', answers (GET (host +:+ "/v1/request/" +:+ id) header) w 200 reply w' /\
      parse reply ≫= RequestResponse_value = Some resp /\ rr_NotYetApprovedBy resp = [] /\ sv_ready w' /\
      ((rr_Status resp = "EXECUTED" /\ rr_Result resp = b64 x) \/
       exists m, n = S m /\ rr_Status resp = "PENDING" /\ sv_request m id x w');
}.

Section roundtrip.
Context `{Pki} `{Tsb}.
Context (cert_rsa : x509_certificate -> option (Z * Z)) (public_rsa : x509_public -> option (Z * Z)).
Context (Decode : list (string * json) -> outcome Policy).
Context {host label : string} (sv : rest_service host label).

(** The client of a wrapper: no API keys, no key pair, no certificate. *)
Definition wrapper_client (c : TSBClient) : Prop :=
  HostURL c = host /\ AuthType (Auth c) <> "CERT" /\ ApiKeys (Auth c) = no_api_keys /\
  ApplicationKeyPair (Auth c) = mkKeyPair None None.

Lemma authorize_ok c req : AuthType (Auth c) <> "CERT" ->
  exists req', authorize c (Some req) = Ret (Some req') /\ same_body req req'.
Proof.
  intros Hc. destruct (authorize_spec c req) as [He|He]; [|done]. exfalso. revert He.
  unfold authorize. rewrite (proj2 (String.eqb_neq _ _) Hc). repeat (case_match; simpl; try done).
Qed.

Definition with_header (header : gmap string string) (r : request) : request :=
  mkRequest (rq_Method r) (rq_URL r) header (rq_ContentLength r) (rq_Body r) (rq_GetBody r).

(** A call is one exchange. *)
Lemma call_once method path body name c w : AuthType (Auth c) <> "CERT" -> group_keys name c = Some [] ->
  http_NewRequest method (HostURL c +:+ path) = None ->
  exists header, forall code reply w',
    answers (with_header header (new_request method (HostURL c +:+ path) body)) w code reply w' ->
    call method path body name (mkHsm c w) =
    (Ret (mkReply reply code (if (code =? StatusOK) || (code =? StatusCreated) then None
                              else Some (status_error code reply))), mkHsm c w').
Proof.
  intros Ha Hk Hn. set (req := new_request method (HostURL c +:+ path) body).
  destruct (authorize_ok c req Ha) as (r1 & Hr1 & [(H1m & H1u & H1l & H1g) H1b]).
  destruct (set_header_spec "Content-Type" "application/json" r1) as (r2 & Hr2 & (H2m & H2u & H2l & H2g) & H2b & _).
  exists (rq_Header r2). intros code reply w' Hdo.
  assert (He : r2 = with_header (rq_Header r2) req).
  { destruct r2. unfold with_header. simpl in *. congruence. }
  rewrite <- He in Hdo. unfold call. rewrite client_bind. cbn [h_client]. rewrite Hn. unfold doRequest. rewrite client_bind. cbn [h_client].
  fold req. unfold mbind at 1, prog_bind at 1.
  assert (Hl : doRequest_loop (S (keys_left name c)) (Some req) name (mkHsm c w) =
    (Ret (Some (mkReply reply code (if (code =? StatusOK) || (code =? StatusCreated) then None
                              else Some (status_error code reply)))), mkHsm c w')); [|by rewrite Hl].
  cbn [doRequest_loop]. rewrite client_bind, lift_bind. cbn [h_client]. rewrite Hr1.
  unfold CanGetNewApiKeyByName. rewrite Hk, !lift_bind, Hr2, lift_bind, on_world_bind. cbn [h_world].
  unfold answers in Hdo. by rewrite Hdo.
Qed.

Lemma wrapper_client_call method path body w c : wrapper_client c ->
  http_NewRequest method (host +:+ path) = None ->
  exists header, forall code reply w',
    answers (with_header header (new_request method (host +:+ path) body)) w code reply w' ->
    call method path body KeyOperationTokenName (mkHsm c w) =
    (Ret (mkReply reply code (if (code =? StatusOK) || (code =? StatusCreated) then None
                              else Some (status_error code reply))), mkHsm c w').
Proof.
  intros (<- & Ha & Hk & _) Hu. apply call_once; [done| |done].
  unfold group_keys. by rewrite Hk.
Qed.

(** *** The operations of the client *)

Lemma decoded_ok {A} (decode : json -> option A) reply code a : parse reply ≫= decode = Some a ->
  decoded decode (mkReply reply code None) = mkReply (Some a) code None.
Proof. intros Hd. unfold decoded. cbn [rp_err rp_value rp_code]. by rewrite Hd. Qed.

Lemma client_encrypts c w x : wrapper_client c -> sv_ready _ _ sv w -> plain label = true ->
  exists ct iv mac version w', SecurosysClient.Encrypt label "" (b64 x) OAEP (-1) "" (mkHsm c w) =
      (Ret (mkReply (Some (mkEncryptResponse (b64 ct) "" iv mac version)) 200 None), mkHsm c w') /\
    sv_seals _ _ sv ct x /\ sv_ready _ _ sv w'.
Proof.
  intros Hc Hw Hl.
  destruct (wrapper_client_call "POST" "/v1/encrypt" (encrypt_body label "" (b64 x) OAEP (-1) "") w c Hc
    (sv_url_encrypt _ _ sv)) as [header Hcall].
  destruct (sv_encrypt _ _ sv w header (encrypt_body label "" (b64 x) OAEP (-1) "") x Hw) as
    (reply & ct & iv & mac & version & w' & Hdo & Hr & Hs & Hw').
  { apply encrypt_body_read; first [done | apply b64_plain | by unfold int_bound]. }
  exists ct, iv, mac, version, w'. split; [|done]. unfold SecurosysClient.Encrypt.
  rewrite (pbind_run _ _ _ _ _ (Hcall _ _ _ Hdo)). cbn [Z.eqb StatusOK]. by rewrite (decoded_ok _ _ _ _ Hr).
Qed.

(** Without a key pair nothing is signed. *)
Lemma unsigned_metadata c w requestType additional custom : ApplicationKeyPair (Auth c) = mkKeyPair None None ->
  exists metaData, c_PrepareMetaData requestType additional custom (mkHsm c w) = (Ret (metaData, None), mkHsm c w) /\
    plain metaData = true.
Proof.
  intros Hk. eexists. split.
  - unfold c_PrepareMetaData. rewrite client_bind, world_bind. cbn [h_client h_world]. unfold SignData. by rewrite Hk.
  - apply b64_plain.
Qed.

Lemma client_asks c w ct x custom : wrapper_client c -> sv_ready _ _ sv w -> sv_seals _ _ sv ct x -> plain label = true ->
  exists id n w', AsyncDecrypt label "" (b64 ct) "" OAEP 0 "" custom (mkHsm c w) =
      (Ret (mkReply id 201 None), mkHsm c w') /\
    (n <= sv_delay _ _ sv)%nat /\ sv_request _ _ sv n id x w' /\ sv_ready _ _ sv w'.
Proof.
  intros Hc Hw Hs Hl. destruct (Hc) as (_ & _ & _ & Hk).
  destruct (unsigned_metadata c w "Decrypt" ∅ custom Hk) as (metaData & Hm & Hplain).
  assert (Hr : parse (decrypt_request (b64 ct) label metaData None "" "" OAEP 0 "") =
    Some (decrypt_request_object (b64 ct) label metaData None "" "" OAEP 0 "")).
  { apply decrypt_request_read; first [done | apply b64_plain | by unfold int_bound]. }
  destruct (compact_parse _ _ Hr) as (t & Ht & Htv).
  destruct (compact_parse _ _ (decrypt_body_read t "null" _ JNull Htv eq_refl)) as (body & Hb & Hbv).
  destruct (wrapper_client_call "POST" "/v1/decrypt" body w c Hc (sv_url_decrypt _ _ sv)) as [header Hcall].
  destruct (sv_decrypt _ _ sv w header body metaData ct x Hw Hs Hbv) as
    (reply & members & id & n & w' & Hdo & Hu & Hid & Hn & Hreq & Hw').
  exists id, n, w'. split; [|done]. unfold AsyncDecrypt. rewrite (pbind_run _ _ _ _ _ Hm). cbv beta iota zeta.
  unfold MinifyJson. rewrite Ht, lift_bind.
  assert (Hsig : signed_text (decrypt_request (b64 ct) label metaData None "" "" OAEP 0 "") (fun _ => decrypt_body t)
    (mkHsm c w) = (Ret body, mkHsm c w)).
  { unfold signed_text. rewrite client_bind, lift_bind. cbn [h_client]. unfold GenerateRequestSignature. rewrite Hk.
    unfold MinifyJson. by rewrite Hb. }
  rewrite (pbind_run _ _ _ _ _ Hsig), (pbind_run _ _ _ _ _ (Hcall _ _ _ Hdo)).
  unfold request_id. cbn [rp_err Z.eqb StatusOK StatusCreated orb rp_value rp_code]. by rewrite Hu, Hid.
Qed.

Lemma client_reads c w n id x : wrapper_client c -> sv_ready _ _ sv w -> sv_request _ _ sv n id x w ->
  exists resp w', GetRequest id (mkHsm c w) = (Ret (mkReply (Some resp) 200 None), mkHsm c w') /\
    rr_NotYetApprovedBy resp = [] /\ sv_ready _ _ sv w' /\ NowUnix w' <= NowUnix w + sv_slack _ _ sv /\
    ((rr_Status resp = "EXECUTED" /\ rr_Result resp = b64 x) \/
     exists m, n = S m /\ rr_Status resp = "PENDING" /\ sv_request _ _ sv m id x w').
Proof.
  intros Hc Hw Hreq. destruct (wrapper_client_call "GET" ("/v1/request/" +:+ id) "" w c Hc
    (sv_url_request _ _ sv _ _ _ _ Hreq)) as [header Hcall].
  destruct (sv_answer _ _ sv w header n id x Hw Hreq) as (reply & resp & w' & Hdo & Hr & Ha & Hw' & Hs).
  exists resp, w'. split; [|split_and!; [done|done| |done]].
  - unfold GetRequest. rewrite (pbind_run _ _ _ _ _ (Hcall _ _ _ Hdo)). cbn [Z.eqb StatusOK]. by rewrite (decoded_ok _ _ _ _ Hr).
  - pose proof (sv_clock_Do _ _ sv (GET (host +:+ "/v1/request/" +:+ id) header) w) as Hclock.
    unfold answers in Hdo. by rewrite Hdo in Hclock.
Qed.

(** *** The wrapper's client *)

(** The longest a round of the poll loop takes, and that the delay fits in the timeout. *)
Definition round_time (s : Settings) : Z := st_CheckEvery s + 2 * sv_slack _ _ sv.

Definition in_time (s : Settings) : Prop :=
  Z.of_nat (sv_delay _ _ sv) * round_time s < st_ApprovalTimeout s + round_time s.

Abbreviation waits := (wait_approval cert_rsa public_rsa Decode (fun _ => false)).

Definition executed (x : bytes) (resp : RequestResponse) : Prop :=
  rr_Status resp = "EXECUTED" /\ rr_Result resp = b64 x /\ rr_NotYetApprovedBy resp = [].

Lemma wait_executed c key s start id x n : wrapper_client c -> 0 < st_CheckEvery s -> 0 <= round_time s ->
  forall rounds w resp, (n <= rounds)%nat -> sv_ready _ _ sv w -> rr_NotYetApprovedBy resp = [] ->
  NowUnix w - start + Z.of_nat n * round_time s < st_ApprovalTimeout s + round_time s ->
  ((rr_Status resp = "EXECUTED" /\ rr_Result resp = b64 x) \/
     exists m, n = S m /\ rr_Status resp = "PENDING" /\ sv_request _ _ sv m id x w) ->
  exists resp' w', waits rounds key s start id (Some resp) (mkHsm c w) = (Ret (Some resp'), mkHsm c w') /\
    executed x resp' /\ sv_ready _ _ sv w'.
Proof.
  intros Hc Hpos Hround. induction n as [|n IH]; intros rounds w resp Hr Hw Hna Ht Hst.
  - destruct Hst as [[He Hx]|(m & ? & _)]; [|done]. exists resp, w.
    destruct rounds; cbn [wait_approval]; rewrite He; done.
  - destruct Hst as [[He Hx]|(m & [= <-] & He & Hreq)].
    { exists resp, w. destruct rounds; cbn [wait_approval]; rewrite He; done. }
    destruct rounds as [|rounds]; [lia|]. cbn [wait_approval]. rewrite He, String.eqb_refl, world_bind. cbn [h_world].
    destruct (Z.leb_spec (st_ApprovalTimeout s) (NowUnix w - start)) as [Hto|_]; [nia|].
    rewrite on_world_bind, lift_bind, Hna. cbn [fst snd h_client h_world log_approvers].
    set (w1 := Sleep (st_CheckEvery s) w).
    assert (Hclock : NowUnix w1 <= NowUnix w + st_CheckEvery s + sv_slack _ _ sv) by (by apply (sv_clock_Sleep _ _ sv)).
    destruct (client_reads c w1 n id x Hc ltac:(by apply sv_Sleep) ltac:(by apply sv_Sleep_request))
      as (resp' & w2 & Hg & Hna' & Hw2 & Hc2 & Hst').
    rewrite (pbind_run _ _ _ _ _ Hg). cbn [rp_value]. apply IH; [lia|done|done|unfold round_time in *; lia|done].
Qed.

Lemma with_hsm_run {O A} (m : prog hsm A) (o : O) h a h' : m h = (Ret a, h') ->
  with_hsm m (o, h) = (Ret a, (o, h')).
Proof. intros Hm. unfold with_hsm, zoom. cbn [snd fst]. by rewrite Hm. Qed.

Definition sealed (ct : bytes) : string := cat ["securosys:"; "v1"; ":"; b64 ct].

Lemma check_Background {O B} (f : unit -> prog (O * hsm) B) o h : (with_hsm (check_ctx Background) ≫= f) (o, h) = f tt (o, h).
Proof. by destruct h. Qed.

Lemma cipher_encrypts c w k x : wrapper_client c -> sv_ready _ _ sv w -> plain label = true ->
  ka_Label (k_key k) = label -> k_password k = "" ->
  let cipher := mkCipher CipherOp_Encrypt k CipherMode_RSA_OAEP_SHA256 ParamNil in
  exists ct w', cipher_Encrypt OAEP (cipher x, mkHsm c w) = (Ret ct, (cipher [], mkHsm c w')) /\
    sv_seals _ _ sv ct x /\ sv_ready _ _ sv w'.
Proof.
  intros Hc Hw Hl Hk Hp cipher. destruct (client_encrypts c w x Hc Hw Hl) as (ct & iv & mac & version & w' & He & Hs & Hw').
  exists ct, w'. split; [|done]. unfold cipher_Encrypt.
  assert (Hpar : encrypt_parameters (cipher x, mkHsm c w) = (Ret ("", -1), (cipher x, mkHsm c w))) by done.
  rewrite (pbind_run _ _ _ _ _ Hpar). cbv beta iota zeta. rewrite this_bind.
  cbn [cipher ci_key ci_buffer key_GetName]. unfold key_GetName. rewrite Hk, Hp.
  rewrite (pbind_run _ _ _ _ _ (with_hsm_run _ (cipher x) _ _ _ He)). cbn [rp_err rp_value].
  rewrite (pbind_run (mret tt) _ _ tt _ eq_refl), lift_bind, set_this_bind. cbn [er_EncryptedPayloadWithoutMessageAuthenticationCode er_EncryptedPayload String.eqb].
  unfold b64_anyway at 1. unfold b64. by rewrite b64_decode_encode by (by left).
Qed.

Lemma rest_Encrypt_run c w k pub text : wrapper_client c -> sv_ready _ _ sv w -> plain label = true ->
  ka_Label (k_key k) = label -> k_password k = "" ->
  exists ct w', client_Encrypt (PrivateKey k pub) text (mkHsm c w) = (Ret (sealed ct), mkHsm c w') /\
    sv_seals _ _ sv ct (bytes_of_string text) /\ sv_ready _ _ sv w'.
Proof.
  intros Hc Hw Hl Hk Hp. destruct (cipher_encrypts c w k (bytes_of_string text) Hc Hw Hl Hk Hp) as (ct & w' & He & Hs & Hw').
  exists ct, w'. split; [|done]. unfold client_Encrypt. cbn [private_key]. rewrite lift_bind.
  assert (Hx : run_with (NewCipher (with_key (PrivateKey k pub) Background) CipherOp_Encrypt CipherMode_RSA_OAEP_SHA256 ParamNil)
    (cipher_Close 0 Background (bytes_of_string text)) (mkHsm c w) = (Ret (Some ct), mkHsm c w')); [|by rewrite (pbind_run _ _ _ _ _ Hx)].
  unfold run_with, NewCipher, SecretKeyFromContext, PrivateKeyFromContext, with_key. cbn [ctx_Value].
  unfold cipher_Close. rewrite check_Background, set_this_bind, this_bind. cbn [ci_Algorithm ci_operation set_buffer MapCipherAlgorithm].
  rewrite lift_bind, set_this_bind. cbn [ci_buffer app set_buffer AddPaddingIfNeeded ci_key ci_Algorithm ci_operation ci_Parameters].
  by rewrite (pbind_run _ _ _ _ _ He).
Qed.

Lemma rest_Decrypt_run c w k pub s rounds ct x : wrapper_client c -> sv_ready _ _ sv w -> plain label = true ->
  ka_Label (k_key k) = label -> k_password k = "" -> sv_seals _ _ sv ct x ->
  0 < st_CheckEvery s -> (sv_delay _ _ sv <= rounds)%nat -> in_time s -> 0 <= round_time s ->
  exists w', client_Decrypt cert_rsa public_rsa Decode (fun _ => false) rounds (PrivateKey k pub) s (b64 ct) (mkHsm c w) =
    (Ret (Some (b64 x)), mkHsm c w') /\ sv_ready _ _ sv w'.
Proof.
  intros Hc Hw Hl Hk Hp Hs Hpos Hrounds Ht Hround. unfold client_Decrypt. cbn [private_key]. rewrite lift_bind. cbv zeta.
  destruct (client_asks c w ct x {["app" := "OpenBao - Unseal Operation"]} Hc Hw Hs Hl) as (id & n & w1 & Ha & Hn & Hreq & Hw1).
  match goal with |- context [run_with ?o ?m ≫= ?f] =>
    assert (Hx : run_with o m (mkHsm c w) = (Ret id, mkHsm c w1)) end.
  { unfold run_with, NewCipher, SecretKeyFromContext, PrivateKeyFromContext, with_key. cbn [ctx_Value].
    unfold cipher_Update. unfold mbind at 1, prog_bind at 1.
    rewrite check_Background. unfold set_this, modify. cbn [fst snd ci_buffer set_buffer app].
    unfold DecryptAsyncRequest. rewrite this_bind. cbn [set_buffer ci_Algorithm MapCipherAlgorithm ci_key ci_buffer ci_operation ci_Parameters].
    rewrite lift_bind. unfold key_GetName. rewrite Hk, Hp.
    unfold b64_anyway, b64 at 1. rewrite b64_decode_encode by (by left).
    by rewrite (pbind_run _ _ _ _ _ (with_hsm_run _ _ _ _ _ Ha)). }
  rewrite (pbind_run _ _ _ _ _ Hx).
  destruct (client_reads c w1 n id x Hc Hw1 Hreq) as (resp & w2 & Hg & Hna & Hw2 & Hclock & Hst).
  rewrite (pbind_run _ _ _ _ _ Hg), lift_bind. cbn [rp_err of_err rp_value]. rewrite world_bind. cbn [h_world].
  destruct (wait_executed c (PrivateKey k pub) s (NowUnix w2) id x n Hc Hpos Hround rounds w2 resp) as (resp' & w3 & Hwait & (He & Hr & Hna') & Hw3);
    [lia|done|done| |done|].
  { unfold in_time in Ht.
    assert (Z.of_nat n * round_time s <= Z.of_nat (sv_delay _ _ sv) * round_time s) by (apply Z.mul_le_mono_nonneg_r; lia). lia. }
  rewrite (pbind_run _ _ _ _ _ Hwait). cbv beta iota. rewrite He. change (String.eqb "EXECUTED" "REJECTED") with false.
  cbv iota. rewrite Hna', lift_bind. cbn [log_approvers]. exists w3. split; [|done]. by rewrite Hr.
Qed.

(** *** The wrapper *)

Lemma split3_sealed ct : split3 (sealed ct) = Ret ("securosys", "v1", b64 ct).
Proof.
  assert (Hc : GoText.Contains (b64 ct) ":" = false).
  { apply b64_encode_Contains; [by left | done | by vm_compute]. }
  assert (Hs : sealed ct = "securosys:v1:" +:+ b64 ct).
  { assert (Hn : forall t, t +:+ "" = t) by (induction t as [|a t IH]; [done|]; by rewrite sapp_cons, IH).
    unfold sealed. cbn [cat]. by rewrite Hn. }
  unfold split3. rewrite Hs.
  assert (Hp : Split ("securosys:v1:" +:+ b64 ct) ":" = "securosys" :: "v1" :: Split (b64 ct) ":") by done.
  by rewrite Hp, Split_none.
Qed.

(** A wrapper that has been configured for the key. *)
Definition configured (k : wrapper) (c : SecurosysHSMClient) : Prop :=
  w_hsmClient k = Some c /\ wrapper_client (hc_keystore c) /\
  (exists key pub, hc_key c = PrivateKey key pub /\ ka_Label (k_key key) = label /\ k_password key = "") /\
  0 < st_CheckEvery (co_Settings (hc_config c)) /\ 0 <= round_time (co_Settings (hc_config c)) /\
  in_time (co_Settings (hc_config c)).

(** C24: what the wrapper encrypts it decrypts, at any later time and also with another
    wrapper configured for the key: the text is encoded twice, goes through the requests,
    the poll loop and the parts of the blob, and comes back as it was. The conditions: a
    service as described by rest_service (it encrypts and decrypts under the key, answers
    a decrypt request with PENDING a bounded number of times, needs nobody's approval, and
    its URLs are ones net/http accepts), whose answers and the pauses between them, with a
    bound on what each takes, fit in the approval timeout; a key label of plain text
    without a password; and a client without API keys and application key pair that does
    not authenticate with a certificate. *)
Theorem securosys_roundtrip k c w plaintext rounds : plain label = true -> configured k c -> sv_ready _ _ sv w ->
  (sv_delay _ _ sv <= rounds)%nat ->
  exists blob k1 w1, Encrypt plaintext (k, w) = (Ret blob, (k1, w1)) /\ configured k1 c /\ sv_ready _ _ sv w1 /\
    w_currentKeyId k1 = "v1" /\
    forall k2 c2 w2, configured k2 c2 -> sv_ready _ _ sv w2 ->
    exists s, Decrypt cert_rsa public_rsa Decode (fun _ => false) rounds (Some blob) (k2, w2) =
      (Ret (Some (Some (content plaintext))), s).
Proof.
  intros Hl Hk Hw Hr. destruct Hk as (Hhc & Hc & (key & pub & Hkey & Hlab & Hp) & Hpos & Hround & Ht).
  destruct (rest_Encrypt_run (hc_keystore c) w key pub (b64 (content plaintext)) Hc Hw Hl Hlab Hp) as (ct & w1 & He & Hs & Hw1).
  set (k1 := mk_wrapper "v1" (Some c)).
  exists (mkBlobInfo (Some (bytes_of_string (sealed ct))) None (Some (mkKeyInfo 0 "v1" None))), k1, w1.
  split_and!; [|unfold configured; split_and!; by eauto 10|done|done|].
  - unfold Encrypt, mbind, prog_bind, in_hsmClient. cbn [fst snd]. rewrite Hhc, Hkey, He. cbn [h_client h_world].
    unfold lift. rewrite split3_sealed. cbn. unfold k1. destruct c. cbn in *. by rewrite Hkey.
  - intros k2 c2 w2 (Hhc2 & Hc2 & (key2 & pub2 & Hkey2 & Hlab2 & Hp2) & Hpos2 & Hround2 & Ht2) Hw2.
    destruct (rest_Decrypt_run (hc_keystore c2) w2 key2 pub2 (co_Settings (hc_config c2)) rounds ct
      (bytes_of_string (b64 (content plaintext))) Hc2 Hw2 Hl Hlab2 Hp2 Hs Hpos2 Hr Ht2 Hround2) as (w3 & Hd & Hw3).
    assert (Hsp : split3 (string_of_bytes (content (Some (bytes_of_string (sealed ct))))) = Ret ("securosys", "v1", b64 ct)).
    { rewrite <- split3_sealed. f_equal. apply string_of_bytes_of_string. }
    eexists. unfold Decrypt. rewrite !lift_bind. cbn [bi_Ciphertext]. rewrite Hsp.
    unfold mbind at 1, prog_bind at 1, in_hsmClient. cbn [fst snd]. rewrite Hhc2, Hkey2, Hd. cbn [h_client h_world].
    cbn [fmap option_fmap option_map]. unfold b64_anyway, b64.
    rewrite b64_decode_encode, string_of_bytes_of_string, b64_decode_encode by (by left). reflexivity.
Qed.
End roundtrip.

(** ** A service *)

(** It encrypts by doing nothing, and answers twice with PENDING.  Its state is the request
    it was sent last: the answers still to come before the result, and the result. *)
Definition example_serve (r : request) (s : nat * string) : response * (nat * string) :=
  let part name := default [] (members (get_key name (default [] (unmarshal_map (rq_Body r))))) in
  if String.eqb (rq_URL r) "https://hsm/v1/encrypt" then
    (mkResponse 200 (Ret (marshal (JObj [("encryptedPayload", JStr (string_field "payload" (part "encryptRequest")));
                                         ("keyVersion", JStr "1")]))), s)
  else if String.eqb (rq_URL r) "https://hsm/v1/decrypt" then
    (mkResponse 201 (Ret (q "{'decryptRequestId': '1'}")), (2%nat, string_field "encryptedPayload" (part "decryptRequest")))
  else match s.1 with
       | O => (mkResponse 200 (Ret (marshal (JObj [("status", JStr "EXECUTED"); ("result", JStr s.2)]))), s)
       | S n => (mkResponse 200 (Ret (q "{'status': 'PENDING'}")), (n, s.2))
       end.

Definition example_tsb : Tsb := server_tsb example_serve.

Lemma b64_utf8 l : is_utf8 (b64 l) = true.
Proof. apply ascii_utf8, plain_ascii, b64_plain. Qed.

Lemma example_Do r (w : @tsb_world example_tsb) : rq_ContentLength r = String.length (rq_Body r) ->
  @http_Do example_tsb r w = ((Some (example_serve r w.2).1, None), (w.1, (example_serve r w.2).2)).
Proof.
  intros Hl. cbn [http_Do example_tsb server_tsb]. rewrite Hl, Nat.eqb_refl, <- Hl. destruct r. cbn. by destruct (example_serve _ w.2).
Qed.

Definition served (w : @tsb_world example_tsb) : nat * string := snd (w : Z * (nat * string)).

Definition example_service : @rest_service example_tsb "https://hsm" "key".
Proof.
  refine {| sv_ready _ := True; sv_seals ct x := ct = x;
            sv_request n id x w := id = "1" /\ served w = (n, b64 x); sv_delay := 2; sv_slack := 1 |}; try done.
  - intros r w. cbn [http_Do NowUnix example_tsb server_tsb]. destruct (if (_ =? _)%nat then _ else _); [|simpl; lia].
    destruct (example_serve _ w.2). simpl. lia.
  - intros n w Hn. cbn [NowUnix Sleep example_tsb server_tsb fst]. lia.
  - intros w header body x _ Hb.
    exists (marshal (JObj [("encryptedPayload", JStr (b64 x)); ("keyVersion", JStr "1")])), x, None, None, "1", w.
    split_and!; [|rewrite parse_marshal; [done|]|done|done].
    + unfold answers. rewrite example_Do by done. unfold example_serve. cbn [POST rq_URL rq_Body].
      unfold unmarshal_map. rewrite Hb. by destruct w.
    + cbn [printable forallb fst snd]. by rewrite b64_utf8.
  - intros w header body metaData ct x _ -> Hb.
    exists (q "{'decryptRequestId': '1'}"), [("decryptRequestId", JStr "1")], "1", 2%nat, (w.1, (2%nat, b64 x)).
    split_and!; [|by vm_compute|done|lia|done|done|done].
    unfold answers. rewrite example_Do by done. unfold example_serve. cbn [POST rq_URL rq_Body].
    unfold unmarshal_map. by rewrite Hb.
  - intros [t s] header n id x _ [-> Hw]. unfold served in Hw. cbn [snd] in Hw. subst s. destruct n as [|n].
    + exists (marshal (JObj [("status", JStr "EXECUTED"); ("result", JStr (b64 x))])),
        (mkRequestResponse "" "EXECUTED" "" [] [] [] (b64 x)), (t, (O, b64 x)).
      split_and!; [|rewrite parse_marshal; [done|]|done|done|by left].
      * unfold answers. by rewrite example_Do.
      * cbn [printable forallb fst snd]. by rewrite b64_utf8.
    + exists (q "{'status': 'PENDING'}"), (mkRequestResponse "" "PENDING" "" [] [] [] ""), (t, (n, b64 x)).
      split_and!; [|by vm_compute|done|done|right; by exists n].
      unfold answers. by rewrite example_Do.
Defined.

Definition example_wrapper : wrapper :=
  mk_wrapper "" (Some (mkSecurosysHSMClient (client_of example_settings no_api_keys) example_key
    (mkConfigurations example_settings (mkPolicy no_tokens None None None None) "key"))).

Lemma securosys_roundtrip_witness :
  exists blob k1 w1, @Encrypt text_pki example_tsb (Some (bytes_of_string "secret")) (example_wrapper, (0, (O, ""))) =
      (Ret blob, (k1, w1)) /\
    exists s, @Decrypt text_pki example_tsb (fun _ => None) (fun _ => None) (fun _ => Panic) (fun _ => false) 2 (Some blob)
      (k1, w1) = (Ret (Some (Some (bytes_of_string "secret"))), s).
Proof.
  destruct (@securosys_roundtrip text_pki example_tsb (fun _ => None) (fun _ => None) (fun _ => Panic) "https://hsm" "key"
    example_service example_wrapper
    (mkSecurosysHSMClient (client_of example_settings no_api_keys) example_key
      (mkConfigurations example_settings (mkPolicy no_tokens None None None None) "key"))
    (0, (O, "")) (Some (bytes_of_string "secret")) 2) as (blob & k1 & w1 & He & Hk & Hw & _ & Hd).
  - vm_compute. reflexivity.
  - split; [reflexivity|]. split.
    + split; [vm_compute; reflexivity|]. split; [discriminate|]. split; reflexivity.
    + split; [eexists _, _; split; [reflexivity|]; split; reflexivity|]. split; [reflexivity|].
      split; [discriminate|reflexivity].
  - exact I.
  - constructor.
  - exists blob, k1, w1. split; [exact He|]. apply (Hd _ _ _ Hk Hw).
Defined.
